(* ===== verification/_CoqProject ===== *)
-Q . S2P
Prelude.v
Prog.v
Memory.v
CString.v
Div64.v
Number.v
Printf.v
Crc.v
Lmb.v
Circbuf.v
Sort.v
Env.v
EnvTable.v
EnvText.v
Rect.v
Color.v
Pixel.v
Layout.v
Canvas.v
Surface.v
Font.v
Fill.v
BlitReplace.v
Blit.v
Malloc.v
Chain.v
Heap.v
HeapOps.v
Allocator.v
SurfaceAlloc.v
Transform.v
Clk.v
Fb.v
Frame.v
Gpio.v
Screen.v
Board.v
Atags.v
I2c.v
I2cLink.v
Chip.v
Pmic.v
