(* ===== verification/Prelude.v ===== *)
(** * Verification of the x4412 board support code

    The repository is a board support package for the Exynos 4412: a U-Boot
    boot loader and a Linux kernel.  This development is about the code that
    was written for the board, [src/uboot/board/samsung/x4412/], about the
    routines of [src/uboot/lib/] it stands on, about the pins and ports of the
    processor ([src/uboot/arch/arm/cpu/armv7/exynos/gpio.c]), and about the
    hand-over to the kernel.  File names below are relative to the first two
    directories unless they have a path.

    ** The program

    At start-up the board code sets the core voltages through a power
    management chip on a two-wire bus ([pmic.c]), reads the clock tree
    ([exynos4412-clk.c]), programs the display controller for the panel named
    on the command line, draws the boot logo on a double buffered screen, and
    later shows a progress bar and messages ([exynos4412-fb.c]).  The drawing
    goes through surfaces ([surface.c]) with a pixel format ([pixel.c]), a clip
    rectangle ([rect.c]) and a table of drawing functions ([maps.c]): fill,
    blit, scale, rotate and point in [sw_*.c].  Text is drawn from a font
    ([font.c]) and formatted with [vsprintf].  Surfaces are allocated from a
    heap of their own ([malloc.c]).  [x4412.c] is where the board starts:
    network chip, memory banks, display clock and screen, lamps and keys.  The
    settings come from the environment, a hash table that is read from text
    ([hashtable.c]).  In the end the boot loader leaves a list of tags in memory
    and the kernel reads it ([arch/arm/lib/bootm.c] of U-Boot,
    [arch/arm/kernel/setup.c] of Linux).

    ** Files

    Foundations:
    - [Prelude] (this file): machine words with their wrap-around, bit fields,
      lists, tactics and hint databases;
    - [Prog]: C code as a state and fault monad [prog S A], counted loops and
      the total correctness predicate [wp];
    - [Memory]: the byte memory; [memset], [memcpy], [memmove] of [string.c];
    - [CString]: comparison and search of strings, [string.c];
    - [Canvas], [Layout]: arrays of pixels in memory, what painting changes,
      nested pixel loops, and how a format lays out a colour in bytes;
    - [Chain]: circular doubly linked lists.

    Text:
    - [Div64]: [div64.c] and [do_div];
    - [Number]: [ctype.c], the [simple_strto*] functions and [number] of
      [vsprintf.c];
    - [Printf]: [vsprintf] and what it calls.

    Library routines:
    - [Crc]: the checksums of [crc16.c] and [crc32.c];
    - [Lmb]: the tables of memory and reserved ranges, [lmb.c];
    - [Circbuf]: circular buffers, [circbuf.c];
    - [Sort]: [qsort.c];
    - [Env]: the environment, [hashtable.c], and [getenv] of
      [common/cmd_nvedit.c]; [EnvTable] relates the table to a finite map,
      [EnvText] its export to its import.

    Graphics:
    - [Rect], [Color], [Pixel]: [rect.c], [color.c], [pixel.c];
    - [Surface]: the surface record, clipping, [maps.c], [sw_utils.c],
      [sw_point.c], the line stubs [sw_hline.c], [sw_vline.c];
    - [Fill], [BlitReplace], [Blit], [Transform]: [sw_fill.c],
      [sw_blit_replace.c], [sw_blit.c] with [sw_blit_alpha.c], [sw_scale.c]
      with [sw_rotate.c];
    - [Font]: [font.c].

    Heap:
    - [Malloc] is the code of [malloc.c]; [Heap] and [HeapOps] prove it against
      lists of blocks; [Allocator] is the interface a client sees, with the
      instance of [malloc.c];
    - [SurfaceAlloc]: allocation of surfaces, proved against the interface.

    Devices:
    - [Clk]: registers, and [exynos4412-clk.c];
    - [Fb]: the display controller part of [exynos4412-fb.c];
    - [Frame]: which registers display code leaves alone;
    - [Gpio]: pins, ports and external interrupts;
    - [Screen]: the drawing part of [exynos4412-fb.c], where all the above meet;
    - [Board]: start-up of the frame buffer and late start-up, [x4412.c];
    - [Atags]: [board_init] and the memory banks of [x4412.c], the tags as the
      boot loader writes them and as the kernel parses them;
    - [I2c], [I2cLink], [Chip], [Pmic]: the pins of the bus, the frames a chip
      sees, a chip with registers, and [pmic.c].

    ** How the code is represented

    Words are integers [Z]; [u8], [u16], [u32], [s32], [u64] reduce a result to
    its C type and [+u], [-u], [*u], [+s], [-s], [*s] are the wrapping
    operations.  A theorem that needs values without wrap-around says so with
    bounds.  Pointers are words, except where the source only tests them for
    NULL or never computes with them: there they are options.  [None] as the
    result of a [prog] is a fault: an access outside mapped memory, a division
    by zero, a call through NULL.  A theorem of the form [wp c Q s] therefore
    contains termination and the absence of faults.  Structs are records,
    enumerations inductive types or numbers as the source has them, device
    registers a total map that keeps what is written, and the chip on the bus
    and the allocator behind the surfaces are type classes: [I2CDevice],
    [RegisterChip] and [Allocator] with their laws, which [Chip] and [Allocator]
    discharge.

    Loops over counters are [for_to] or structural recursion.  Loops without a
    bound in their text run on fuel, and the fuel is shown to suffice: the line
    clipping of [Rect] takes at most five rounds, the searches of [Malloc] at
    most one per block, [put_dec] and [put_pow2] of [Number] at most four and
    twenty-two, [__div64_32] at most sixty-four, [vsprintf] at most one round
    per character of the format, the alignment loop of [crc32] at most three,
    the shifting loop of [Lmb] at most one per entry of its array and the search
    of [__lmb_alloc_base] at most one more than there are reserved ranges,
    [qsort] at most 32 gaps and in each as many rounds as there are bytes,
    [isprime] at most as many as the number, a probe of the hash table at most
    its size, the import of text at most one per character, and the loops on the
    tags at most one per tag.  The loop that waits for the PLL in [Board] ends
    when the hardware sets a bit: the number of rounds before that is a variable
    of the theorems, which hold for all of them.  Allocations of the environment
    may fail: which of them do is an argument of the code in [Env].

    ** What is shown

    - The heap ([Allocator], [HeapOps]): for every sequence of calls blocks in
      use are disjoint, inside the heap and large enough, and freeing gives
      back exactly one block.  The array of the heap may lie anywhere in one half
      of the address space ([HeapOk]): the board is linked at 0xc3e00000, where
      the signed comparisons of [malloc.c] see negative addresses.  Requests are
      bounded by [max_request], beyond which sums wrap around.
    - Drawing ([Fill], [Blit], [BlitReplace], [Transform], [Font]): each
      operation changes exactly the pixels of its clipped rectangle, to exactly
      the colours the format conversion gives, and no other byte of memory.  Of
      the 38 optimised conversion loops 12 agree with the generic one; the other
      26, with 16-bit and three-byte formats, differ from it as [loop_px] says.
    - Line clipping ([Rect]): the ends are inside the rectangle and on the line
      up to rounding, and a line that is refused does not come a pixel inside.
    - Surfaces ([SurfaceAlloc], [Transform]): allocation against any allocator
      that keeps its laws, freeing as its inverse, every error path.  Which
      outcome occurs is tied to what the allocator answers.
    - The screen ([Fb], [Screen]): the controller is programmed as the panel
      description says; which buffer is drawn to and which is shown follows from
      the number of swaps since the last flush; start-up and progress bar draw
      what they should whenever the allocator grants them a surface ([granted]),
      and leak nothing.
    - Clocks ([Clk]): the table holds the rates of the clock tree for PLLs
      without a fraction; the code drops the fraction that the comments give.
    - The bus ([I2cLink], [Pmic]): pin accesses are exactly the frames of the
      protocol for any chip, and [pmic_init] leaves the chip on bus 0 with the
      registers of the configured voltages, and the selection lines and
      resistors of the pins as stated.  [pmic_init_correct] leaves the MAX8997
      out, with which a regulator on bus 3 is used that the header file puts
      elsewhere; [pmic_init_spec] has that case too.
    - Text ([Div64], [Number], [Printf]): the division, conversion and
      formatting routines agree with reference definitions; that of [vsprintf]
      is C99, for the specifications that are not printed otherwise
      ([conforming]).
    - Checksums ([Crc]): the tables and the word loop agree with the polynomial
      division that defines the checksum, and short errors are detected.
    - Memory ranges ([Lmb]): the table stays sorted and disjoint and covers
      exactly what was reserved and not freed; allocation returns the highest
      free aligned address in the last range of memory that has one, or fails for
      a stated reason.
    - Circular buffers and sorting ([Circbuf], [Sort]): any sequence of
      operations behaves as a bounded queue; the result of [qsort] is a sorted
      permutation.
    - The environment ([EnvTable], [EnvText]): insertion and look-up in a table
      of prime size are those of a finite map of bounded size, for every
      sequence of calls; deletion takes a variable out and hides exactly those
      whose search passes its place; text that was exported is sorted by name, and its import gives the same
      variables.
    - Pins ([Gpio]): the address arithmetic agrees with the struct of registers,
      each function changes exactly the field of its pin or interrupt, and where
      the 29 interrupt groups deviate from this is stated.
    - The board ([Board]): after start-up the panel of the command line is shown
      with the refresh rate that the PLL gives, if the field of the divider was
      zero before, and the lamps and the update key are set up.
    - Hand-over ([Atags]): from the tags the boot loader wrote the kernel takes
      exactly the banks of memory, the command line and the RAM disk.
    - Faults of the code: theorems that state what the code does where that is
      not what it is meant to do (the line clipping that does not return, the
      exchanged colours, the request that wraps around, and others).

    ** Not modelled

    Not modelled are the parts of the repository that are generic U-Boot or
    Linux: drivers, file systems, network, commands and the kernel proper, which
    are not specific to this board.  Of the board directory, [smc.c] and the
    assembly start-up code consist of instructions and boot ROM calls without a
    meaning in C.  [panic] of [vsprintf.c] resets the board.  [xrealloc] and
    [xcalloc] mix two heaps and are not called.  Of the boot code only the tags
    are modelled, not the loading of images before and the jump after them, nor
    what the kernel does once they are parsed.  [getenv] before the environment
    is imported reads flash and is left out, as are messages and [errno].  Of
    strings in the environment the copies are not told apart, so that their
    freeing is not visible.  The voltages of [pmic.c] are numbers of millivolts
    instead of single precision numbers.  The headers of the blocks of the heap
    are maps of their own, apart from the bytes of the array they lie in, so that
    a client that writes outside its block is not expressed. *)

From stdpp Require Import prelude gmap.
From Stdlib Require Import ZArith Lia.

(** ** Machine words *)

Declare Scope word_scope.
Delimit Scope word_scope with word.

Local Open Scope Z_scope.

(** Reduction of an integer to an unsigned or two's complement C type. *)
Definition u8 (z : Z) : Z := z mod 256.
Definition u16 (z : Z) : Z := z mod 65536.
Definition u32 (z : Z) : Z := z mod 4294967296.
Definition u64 (z : Z) : Z := z mod 18446744073709551616.
Definition s32 (z : Z) : Z := (z + 2147483648) mod 4294967296 - 2147483648.

(** Unsigned 32-bit arithmetic, with its wrap-around. *)
Notation "x +u y" := (u32 (x + y)) (at level 50, left associativity) : word_scope.
Notation "x -u y" := (u32 (x - y)) (at level 50, left associativity) : word_scope.
Notation "x *u y" := (u32 (x * y)) (at level 40, left associativity) : word_scope.

(** Signed 32-bit arithmetic, with two's complement wrap-around. *)
Notation "x +s y" := (s32 (x + y)) (at level 50, left associativity) : word_scope.
Notation "x -s y" := (s32 (x - y)) (at level 50, left associativity) : word_scope.
Notation "x *s y" := (s32 (x * y)) (at level 40, left associativity) : word_scope.

(** [~ mask] of an unsigned 32-bit value. *)
Definition not32 (z : Z) : Z := Z.lxor (u32 z) 4294967295.

Definition in_s32 (z : Z) : Prop := -2147483648 ≤ z < 2147483648.
Definition in_u32 (z : Z) : Prop := 0 ≤ z < 4294967296.
Definition in_u8 (z : Z) : Prop := 0 ≤ z < 256.

(** Solve a goal on words by turning every [mod] and [/] into equations. *)
Ltac word_lia :=
  unfold u8, u16, u32, u64, s32, in_s32, in_u32, in_u8 in *;
  Z.to_euclidean_division_equations; lia.

Create HintDb words.
Create Rewrite HintDb words.

Lemma u8_range z : 0 ≤ u8 z < 256.
Proof. apply Z.mod_pos_bound. lia. Qed.

Lemma u16_range z : 0 ≤ u16 z < 65536.
Proof. apply Z.mod_pos_bound. lia. Qed.

Lemma u32_range z : 0 ≤ u32 z < 4294967296.
Proof. apply Z.mod_pos_bound. lia. Qed.

Lemma s32_range z : in_s32 (s32 z).
Proof. word_lia. Qed.

Lemma u8_small z : 0 ≤ z < 256 → u8 z = z.
Proof. apply Z.mod_small. Qed.

Lemma u16_small z : 0 ≤ z < 65536 → u16 z = z.
Proof. apply Z.mod_small. Qed.

Lemma u32_small z : 0 ≤ z < 4294967296 → u32 z = z.
Proof. apply Z.mod_small. Qed.

Lemma u64_small z : 0 ≤ z < 18446744073709551616 → u64 z = z.
Proof. apply Z.mod_small. Qed.

Lemma s32_small z : -2147483648 ≤ z < 2147483648 → s32 z = z.
Proof. intros. unfold s32. rewrite Z.mod_small; lia. Qed.

Lemma u8_idemp z : u8 (u8 z) = u8 z.
Proof. apply Z.mod_mod. lia. Qed.

Lemma u32_idemp z : u32 (u32 z) = u32 z.
Proof. apply Z.mod_mod. lia. Qed.

Lemma u32_s32 z : u32 (s32 z) = u32 z.
Proof.
  unfold u32, s32.
  rewrite Zminus_mod_idemp_l. f_equal. lia.
Qed.

(** [u32] is a ring morphism: inner reductions can be dropped. *)
Lemma u32_add_l x y : u32 (u32 x + y) = u32 (x + y).
Proof. apply Zplus_mod_idemp_l. Qed.

Lemma u32_add_r x y : u32 (x + u32 y) = u32 (x + y).
Proof. apply Zplus_mod_idemp_r. Qed.

Lemma u32_sub_l x y : u32 (u32 x - y) = u32 (x - y).
Proof. apply Zminus_mod_idemp_l. Qed.

Lemma u32_sub_r x y : u32 (x - u32 y) = u32 (x - y).
Proof. apply Zminus_mod_idemp_r. Qed.

Lemma u32_mul_l x y : u32 (u32 x * y) = u32 (x * y).
Proof. apply Zmult_mod_idemp_l. Qed.

Lemma u32_mul_r x y : u32 (x * u32 y) = u32 (x * y).
Proof. apply Zmult_mod_idemp_r. Qed.

Lemma u32_add_s32_l x y : u32 (s32 x + y) = u32 (x + y).
Proof. by rewrite <- u32_add_l, u32_s32, u32_add_l. Qed.

Lemma u32_add_s32_r x y : u32 (x + s32 y) = u32 (x + y).
Proof. by rewrite <- u32_add_r, u32_s32, u32_add_r. Qed.

#[export] Hint Rewrite u32_idemp u32_s32 u32_add_l u32_add_r u32_sub_l u32_sub_r
  u32_mul_l u32_mul_r u32_add_s32_l u32_add_s32_r : words.

#[export] Hint Resolve u8_range u16_range u32_range s32_range : words.

(** Drop signed reductions that do nothing, innermost first. *)
Ltac s32_simp :=
  repeat match goal with
  | |- context [s32 ?e] =>
      lazymatch e with
      | context [s32 _] => fail
      | _ => rewrite (s32_small e) by lia
      end
  end.

(** ** Bit fields *)

Lemma land_255 z : Z.land z 255 = u8 z.
Proof. by change 255 with (Z.ones 8); rewrite Z.land_ones. Qed.

Lemma land_65535 z : Z.land z 65535 = u16 z.
Proof. by change 65535 with (Z.ones 16); rewrite Z.land_ones. Qed.

Lemma shiftr_range z k n :
  0 ≤ k → 0 ≤ n → 0 ≤ z < 2 ^ (n + k) → 0 ≤ Z.shiftr z k < 2 ^ n.
Proof.
  intros Hk Hn Hz. rewrite Z.shiftr_div_pow2 by lia.
  rewrite Z.pow_add_r in Hz by lia.
  assert (0 < 2 ^ k) by (apply Z.pow_pos_nonneg; lia).
  split; [apply Z.div_pos; lia | apply Z.div_lt_upper_bound; lia].
Qed.

Lemma u32_testbit v i : 0 ≤ i < 32 → Z.testbit (u32 v) i = Z.testbit v i.
Proof. intros. unfold u32. change 4294967296 with (2 ^ 32). apply Z.mod_pow2_bits_low; lia. Qed.

Lemma not32_testbit v i : 0 ≤ i < 32 → Z.testbit (not32 v) i = negb (Z.testbit v i).
Proof.
  intros Hi. unfold not32. rewrite Z.lxor_spec, u32_testbit by done.
  change 4294967295 with (Z.ones 32). rewrite Z.ones_spec_low by lia. by rewrite xorb_true_r.
Qed.

Lemma testbit_above z n i : 0 ≤ n → 0 ≤ z < 2 ^ n → n ≤ i → Z.testbit z i = false.
Proof.
  intros Hn Hz Hi. rewrite <- (Z.mod_small z (2 ^ n)) by lia.
  apply Z.mod_pow2_bits_high. lia.
Qed.

Lemma lxor_range a b n : 0 ≤ n → 0 ≤ a < 2 ^ n → 0 ≤ b < 2 ^ n → 0 ≤ Z.lxor a b < 2 ^ n.
Proof.
  intros Hn Ha Hb. replace (Z.lxor a b) with (Z.lxor a b mod 2 ^ n).
  - apply Z.mod_pos_bound, Z.pow_pos_nonneg; lia.
  - apply Z.bits_inj'. intros i Hi. destruct (Z.ltb_spec i n); [by apply Z.mod_pow2_bits_low |].
    rewrite Z.mod_pow2_bits_high, Z.lxor_spec by lia. by rewrite !(testbit_above _ n i).
Qed.

(** Rounding down to a multiple of a power of two by masking. *)
Lemma land_align x k :
  0 ≤ x < 4294967296 → 0 ≤ k ≤ 32 → Z.land x (not32 (2 ^ k - 1)) = x - x mod 2 ^ k.
Proof.
  intros Hx Hk. assert (0 < 2 ^ k) by (apply Z.pow_pos_nonneg; lia).
  assert (2 ^ k ≤ 2 ^ 32) by (apply Z.pow_le_mono_r; lia).
  assert (not32 (2 ^ k - 1) = Z.ldiff (Z.ones 32) (Z.ones k)) as ->.
  { rewrite Z.sub_1_r, <- Z.ones_equiv. unfold not32. rewrite u32_small by (rewrite Z.ones_equiv; lia).
    change 4294967295 with (Z.ones 32). apply Z.bits_inj'. intros i Hi.
    rewrite Z.ldiff_spec, Z.lxor_spec. destruct (Z.ltb_spec i k).
    - by rewrite !Z.ones_spec_low by lia.
    - rewrite (Z.ones_spec_high k) by lia. by rewrite andb_true_r. }
  rewrite Z.ldiff_land, Z.land_assoc, Z.land_ones, Z.mod_small, <- Z.ldiff_land, Z.ldiff_ones_r by (cbn; lia).
  rewrite Z.shiftl_mul_pow2, Z.shiftr_div_pow2 by lia. pose proof (Z.div_mod x (2 ^ k)). lia.
Qed.

Lemma align_up_pow2 x k :
  0 ≤ k ≤ 32 → 0 ≤ x → x + 2 ^ k - 1 < 4294967296 →
  let y := Z.land (x + 2 ^ k - 1) (not32 (2 ^ k - 1)) in y mod 2 ^ k = 0 ∧ x ≤ y < x + 2 ^ k.
Proof.
  intros Hk Hx Hlt. assert (0 < 2 ^ k) by (apply Z.pow_pos_nonneg; lia). cbn zeta.
  rewrite land_align by lia. set (v := x + 2 ^ k - 1).
  pose proof (Z.div_mod v (2 ^ k) ltac:(lia)). pose proof (Z.mod_pos_bound v (2 ^ k) ltac:(lia)).
  split; [|lia]. replace (v - v mod 2 ^ k) with (v / 2 ^ k * 2 ^ k) by lia. apply Z.mod_mul. lia.
Qed.

(** ** Finite checks *)

Lemma seqZ_forall (P : Z → Prop) w : Forall P (seqZ 0 w) → ∀ k, 0 ≤ k < w → P k.
Proof. intros HP k Hk. rewrite Forall_forall in HP. apply HP, elem_of_seqZ. lia. Qed.

(** Evaluates [f] on the numbers below [n], for large [n]. *)
Definition check_below (n : positive) (f : Z → bool) : bool :=
  (Pos.iter (λ '(q, b), (q + 1, b && f q)) (0, true) n).2.

Lemma check_below_spec n f : check_below n f = true → ∀ q, 0 ≤ q < Z.pos n → f q = true.
Proof.
  unfold check_below. set (g := λ '(q, b), (q + 1, b && f q)).
  assert (∀ n, (Pos.iter g (0, true) n).1 = Z.pos n ∧
    ((Pos.iter g (0, true) n).2 = true → ∀ q, 0 ≤ q < Z.pos n → f q = true)) as Hall.
  { clear n. apply Pos.peano_ind.
    - cbn. split; [done |]. intros E q Hq. by assert (q = 0) as -> by lia.
    - intros n [E IH]. rewrite Pos.iter_succ. destruct (Pos.iter g (0, true) n) as [q0 b]. cbn in *. subst q0.
      split; [lia |]. intros [? ?]%andb_prop q Hq. destruct (Z.eq_dec q (Z.pos n)) as [->|]; [done |].
      apply IH; [done | lia]. }
  apply Hall.
Qed.
