(* ===== verification/Prog.v ===== *)
(** * Imperative programs as a state and fault monad

    C code that reads and writes memory is modelled as a function from the
    state before to the result and the state after, or [None] when the code
    faults (an access outside mapped memory).  [wp] is the total correctness
    predicate used to reason about such programs: [wp c Q s] says that [c] run
    in [s] terminates without a fault, in a state and with a result that
    satisfy [Q].  Counted loops of the source are [for_to]. *)

From stdpp Require Import prelude.
From Stdlib Require Import ZArith Lia.
From S2P Require Import Prelude.

Local Open Scope Z_scope.

Definition prog (S A : Type) : Type := S → option (A * S).

Definition ret {S A} (a : A) : prog S A := λ s, Some (a, s).
Definition fault {S A} : prog S A := λ _, None.
Definition bind {S A B} (c : prog S A) (k : A → prog S B) : prog S B :=
  λ s, match c s with Some (a, s') => k a s' | None => None end.
Definition get_state {S} : prog S S := λ s, Some (s, s).
Definition put_state {S} (s : S) : prog S unit := λ _, Some (tt, s).

Declare Scope prog_scope.
Delimit Scope prog_scope with prog.
Notation "'let*' x := c 'in' k" := (bind c (λ x, k))
  (at level 10, x pattern, c at level 200, k at level 200) : prog_scope.
Notation "c ;; k" := (bind c (λ _, k))
  (at level 100, k at level 200, right associativity) : prog_scope.
Open Scope prog_scope.

(** [for (i = 0; i < n; i++) a = body(i, a);] *)
Fixpoint for_from {S A} (n : nat) (i : Z) (body : Z → A → prog S A) (a : A) : prog S A :=
  match n with
  | O => ret a
  | Datatypes.S n' => let* a' := body i a in for_from n' (i + 1) body a'
  end.

Definition for_to {S A} (n : Z) (body : Z → A → prog S A) (a : A) : prog S A :=
  for_from (Z.to_nat n) 0 body a.

(** [for (i = 0; i < n; i++) body(i);] *)
Definition for_do {S} (n : Z) (body : Z → prog S unit) : prog S unit :=
  for_to n (λ i _, body i) tt.

Definition wp {S A} (c : prog S A) (Q : A → S → Prop) (s : S) : Prop :=
  match c s with Some (a, s') => Q a s' | None => False end.

Section wp_rules.
Context {S : Type}.
Implicit Types s : S.

Lemma wp_elim {A} (c : prog S A) Q s :
  wp c Q s → ∃ a s', c s = Some (a, s') ∧ Q a s'.
Proof. unfold wp. destruct (c s) as [[a s']|]; [eauto | done]. Qed.

Lemma wp_intro {A} (c : prog S A) (Q : A → S → Prop) s a s' :
  c s = Some (a, s') → Q a s' → wp c Q s.
Proof. unfold wp. by intros ->. Qed.

Lemma wp_ret {A} (a : A) (Q : A → S → Prop) s : Q a s → wp (ret a) Q s.
Proof. done. Qed.

Lemma wp_bind {A B} (c : prog S A) (k : A → prog S B) Q s :
  wp c (λ a s', wp (k a) Q s') s → wp (bind c k) Q s.
Proof. unfold wp, bind. by destruct (c s) as [[a s']|]. Qed.

Lemma wp_mono {A} (c : prog S A) (P Q : A → S → Prop) s :
  wp c P s → (∀ a s', P a s' → Q a s') → wp c Q s.
Proof. unfold wp. destruct (c s) as [[a s']|]; naive_solver. Qed.

Lemma wp_conj {A} (c : prog S A) (P Q : A → S → Prop) s :
  wp c P s → wp c Q s → wp c (λ a s', P a s' ∧ Q a s') s.
Proof. unfold wp. destruct (c s) as [[a s']|]; naive_solver. Qed.

Lemma wp_det {A} (c : prog S A) (P Q : A → S → Prop) s :
  wp c P s → wp c Q s → ∃ a s', c s = Some (a, s') ∧ P a s' ∧ Q a s'.
Proof. unfold wp. destruct (c s) as [[a s']|]; naive_solver. Qed.

(** A counted loop, by an invariant indexed by the iterations done. *)
Lemma wp_for_from {A} n i0 (body : Z → A → prog S A) a s (I : Z → A → S → Prop) Q :
  I i0 a s →
  (∀ i a s, i0 ≤ i < i0 + Z.of_nat n → I i a s → wp (body i a) (I (i + 1)) s) →
  (∀ a s, I (i0 + Z.of_nat n) a s → Q a s) →
  wp (for_from n i0 body a) Q s.
Proof.
  revert i0 a s. induction n as [|n IH]; intros i0 a s HI Hstep HQ; cbn [for_from].
  - apply wp_ret, HQ. by rewrite Z.add_0_r.
  - apply wp_bind. eapply wp_mono; [apply Hstep; [lia | done] |].
    intros a' s' HI'. apply IH; [done | intros; apply Hstep; [lia | done] |].
    intros a'' s'' H. apply HQ.
    by replace (i0 + Z.of_nat (Datatypes.S n)) with (i0 + 1 + Z.of_nat n) by lia.
Qed.

Lemma wp_for_to {A} n (body : Z → A → prog S A) a s (I : Z → A → S → Prop) Q :
  0 ≤ n →
  I 0 a s →
  (∀ i a s, 0 ≤ i < n → I i a s → wp (body i a) (I (i + 1)) s) →
  (∀ a s, I n a s → Q a s) →
  wp (for_to n body a) Q s.
Proof.
  intros Hn HI Hstep HQ. unfold for_to.
  apply (wp_for_from _ _ _ _ _ I); [done | intros; apply Hstep; [lia | done] |].
  rewrite Z2Nat.id by lia. by rewrite Z.add_0_l.
Qed.

Lemma wp_for_do n (body : Z → prog S unit) s (I : Z → S → Prop) Q :
  0 ≤ n →
  I 0 s →
  (∀ i s, 0 ≤ i < n → I i s → wp (body i) (λ _, I (i + 1)) s) →
  (∀ s, I n s → Q tt s) →
  wp (for_do n body) Q s.
Proof.
  intros Hn HI Hstep HQ. unfold for_do.
  apply (wp_for_to _ _ _ _ (λ i _ s, I i s)); [done | done | auto |].
  intros [] s'. apply HQ.
Qed.
End wp_rules.

(** Move to the next statement of a straight-line program. *)
Ltac wp_step := first [ apply wp_ret | apply wp_bind ].
Ltac wp_steps := repeat wp_step.

(** A fault in the first iteration is a fault of the loop. *)
Lemma for_to_fault {S A} n (body : Z → A → prog S A) a s :
  0 < n → body 0 a s = None → for_to n body a s = None.
Proof.
  intros Hn Hb. unfold for_to. destruct (Z.to_nat n) eqn:E; [lia |].
  cbn. unfold bind. by rewrite Hb.
Qed.

Lemma bind_fault {S A B} (c : prog S A) (k : A → prog S B) s : c s = None → bind c k s = None.
Proof. unfold bind. by intros ->. Qed.

Lemma wp_bind_inv {S A B} (c : prog S A) (k : A → prog S B) Q s :
  wp (bind c k) Q s → wp c (λ a s', wp (k a) Q s') s.
Proof. unfold wp, bind. by destruct (c s) as [[a s']|]. Qed.
