(* ===== verification/Memory.v ===== *)
(** * Byte-addressed memory and the routines of [lib/string.c]

    The memory of the board is a partial map from addresses to bytes; an
    access to an address that is not mapped is a fault.  The core is little
    endian with 32-bit pointers, so that pointer arithmetic is modulo 2^32.
    [memset], [memcpy] and [memmove] are U-Boot's own. *)

From stdpp Require Import prelude gmap.
From Stdlib Require Import ZArith Lia.
From S2P Require Import Prelude Prog.

Local Open Scope Z_scope.

Notation mem := (gmap Z Z).

(** ** Accesses *)

Definition ptr_add (p k : Z) : Z := u32 (p + k).

Definition load8 (p : Z) : prog mem Z :=
  λ m, match m !! p with Some b => Some (b, m) | None => None end.

Definition store8 (p v : Z) : prog mem unit :=
  λ m, match m !! p with Some _ => Some (tt, <[p := u8 v]> m) | None => None end.

Definition load16 (p : Z) : prog mem Z :=
  let* b0 := load8 p in
  let* b1 := load8 (ptr_add p 1) in
  ret (Z.lor b0 (Z.shiftl b1 8)).

Definition load32 (p : Z) : prog mem Z :=
  let* b0 := load8 p in
  let* b1 := load8 (ptr_add p 1) in
  let* b2 := load8 (ptr_add p 2) in
  let* b3 := load8 (ptr_add p 3) in
  ret (Z.lor b0 (Z.shiftl (Z.lor b1 (Z.shiftl (Z.lor b2 (Z.shiftl b3 8)) 8)) 8)).

Definition store16 (p v : Z) : prog mem unit :=
  store8 p v ;; store8 (ptr_add p 1) (Z.shiftr v 8).

Definition store32 (p v : Z) : prog mem unit :=
  store8 p v ;;
  store8 (ptr_add p 1) (Z.shiftr v 8) ;;
  store8 (ptr_add p 2) (Z.shiftr v 16) ;;
  store8 (ptr_add p 3) (Z.shiftr v 24).

(** [*p++] as a read and as the target of an assignment. *)
Definition load8_inc (p : Z) : prog mem (Z * Z) :=
  let* b := load8 p in ret (b, ptr_add p 1).
Definition store8_inc (p v : Z) : prog mem Z :=
  store8 p v ;; ret (ptr_add p 1).

(** [ *p++ = v0; *p++ = v1; ...] *)
Fixpoint store8_seq (p : Z) (vs : list Z) : prog mem Z :=
  match vs with
  | [] => ret p
  | v :: vs' => let* p := store8_inc p v in store8_seq p vs'
  end.

(** ** memset, memcpy, memmove *)

Section string_c.
(** [while (count >= sizeof( *sl)) { *sl++ = cl; count -= sizeof( *sl); }];
    [count] iterations are enough since each consumes four. *)
Fixpoint memset_words (fuel : nat) (sl cl count : Z) : prog mem (Z * Z) :=
  match fuel with
  | O => ret (sl, count)
  | Datatypes.S fuel' =>
      if 4 <=? count then
        store32 sl cl ;; memset_words fuel' (ptr_add sl 4) cl (count - 4)
      else ret (sl, count)
  end.

Definition memset_word (c : Z) : Z :=
  Nat.iter 4 (λ cl, Z.lor (u32 (Z.shiftl cl 8)) (Z.land c 255)) 0.

Definition memset (s c count : Z) : prog mem Z :=
  let* (s8, count) :=
    (if Z.land s 3 =? 0
     then memset_words (Z.to_nat count) s (memset_word c) count
     else ret (s, count)) in
  for_to count (λ _ s8, store8_inc s8 c) s8 ;; ret s.

Fixpoint memcpy_words (fuel : nat) (dl sl count : Z) : prog mem (Z * Z * Z) :=
  match fuel with
  | O => ret (dl, sl, count)
  | Datatypes.S fuel' =>
      if 4 <=? count then
        let* w := load32 sl in
        store32 dl w ;;
        memcpy_words fuel' (ptr_add dl 4) (ptr_add sl 4) (count - 4)
      else ret (dl, sl, count)
  end.

(** [*d8++ = *s8++] *)
Definition copy8_inc (d8 s8 : Z) : prog mem (Z * Z) :=
  let* (b, s8) := load8_inc s8 in
  let* d8 := store8_inc d8 b in
  ret (d8, s8).

Definition memcpy (dest src count : Z) : prog mem Z :=
  let* (d8, s8, count) :=
    (if Z.land (Z.lor dest src) 3 =? 0
     then memcpy_words (Z.to_nat count) dest src count
     else ret (dest, src, count)) in
  for_to count (λ _ '(d8, s8), copy8_inc d8 s8) (d8, s8) ;; ret dest.

(** [*--tmp = *--s] *)
Definition copy8_dec (tmp s : Z) : prog mem (Z * Z) :=
  let s := ptr_add s (-1) in
  let tmp := ptr_add tmp (-1) in
  let* b := load8 s in
  store8 tmp b ;; ret (tmp, s).

Definition memmove (dest src count : Z) : prog mem Z :=
  if dest <=? src then
    for_to count (λ _ '(tmp, s), copy8_inc tmp s) (dest, src) ;; ret dest
  else
    for_to count (λ _ '(tmp, s), copy8_dec tmp s)
      (ptr_add dest count, ptr_add src count) ;; ret dest.
End string_c.

(** ** Byte strings in memory *)

(** Bytes of a value, least significant first, and the value of bytes. *)
Fixpoint le_bytes (n : nat) (v : Z) : list Z :=
  match n with
  | O => []
  | Datatypes.S n' => u8 v :: le_bytes n' (Z.shiftr v 8)
  end.

Fixpoint le_val (l : list Z) : Z :=
  match l with
  | [] => 0
  | b :: l' => Z.lor b (Z.shiftl (le_val l') 8)
  end.

Fixpoint has_bytes (m : mem) (p : Z) (l : list Z) : Prop :=
  match l with
  | [] => True
  | b :: l' => m !! p = Some b ∧ has_bytes m (p + 1) l'
  end.

Fixpoint write_bytes (m : mem) (p : Z) (l : list Z) : mem :=
  match l with
  | [] => m
  | b :: l' => <[p := b]> (write_bytes m (p + 1) l')
  end.

Definition mapped (m : mem) (p n : Z) : Prop :=
  ∀ a, p ≤ a < p + n → is_Some (m !! a).

(** Every mapped cell holds a byte. *)
Definition bytes_ok (m : mem) : Prop := map_Forall (λ _ b, in_u8 b) m.

(** [m'] is [m] with the [n] bytes at [src] copied to [dst]. *)
Definition copied (m m' : mem) (dst src n : Z) : Prop :=
  ∀ a, m' !! a = if decide (dst ≤ a < dst + n) then m !! (a - dst + src) else m !! a.

Lemma length_le_bytes n v : length (le_bytes n v) = n.
Proof. revert v. induction n; intros; cbn; auto. Qed.

Lemma le_bytes_in_u8 n v : Forall in_u8 (le_bytes n v).
Proof.
  revert v. induction n; intros; cbn; constructor; [apply u8_range | done].
Qed.

Lemma le_val_bytes n v : le_val (le_bytes n v) = v mod 2 ^ (8 * Z.of_nat n).
Proof.
  revert v. induction n as [|n IH]; intros v; cbn [le_bytes le_val].
  - by rewrite Z.mod_1_r.
  - rewrite IH. unfold u8. change 256 with (2 ^ 8).
    apply Z.bits_inj'. intros i Hi.
    rewrite Z.lor_spec, Z.shiftl_spec by lia.
    destruct (Z.ltb_spec i 8).
    + rewrite Z.mod_pow2_bits_low, (Z.mod_pow2_bits_low v) by lia.
      rewrite (Z.testbit_neg_r _ (i - 8)) by lia. by rewrite orb_false_r.
    + rewrite (Z.mod_pow2_bits_high v 8) by lia. cbn [orb].
      destruct (Z.ltb_spec (i - 8) (8 * Z.of_nat n)).
      * rewrite !Z.mod_pow2_bits_low, Z.shiftr_spec by lia. f_equal. lia.
      * rewrite !Z.mod_pow2_bits_high by lia. done.
Qed.

Lemma le_val_range l :
  Forall in_u8 l → 0 ≤ le_val l < 2 ^ (8 * Z.of_nat (length l)).
Proof.
  induction 1 as [|b l Hb _ IH]; [cbn; lia |].
  cbn [le_val length]. split.
  - apply Z.lor_nonneg. split; [unfold in_u8 in *; lia |]. apply Z.shiftl_nonneg. lia.
  - replace (8 * Z.of_nat (Datatypes.S (length l))) with (8 * Z.of_nat (length l) + 8) by lia.
    set (k := 8 * Z.of_nat (length l)) in *.
    assert (Hk : 0 ≤ k) by lia.
    assert (Hm : Z.lor b (Z.shiftl (le_val l) 8) mod 2 ^ (k + 8) =
                 Z.lor b (Z.shiftl (le_val l) 8)).
    { apply Z.bits_inj'. intros i Hi.
      destruct (Z.ltb_spec i (k + 8)).
      - by rewrite Z.mod_pow2_bits_low by lia.
      - rewrite Z.mod_pow2_bits_high by lia.
        rewrite Z.lor_spec, Z.shiftl_spec by lia.
        rewrite (testbit_above b 8), (testbit_above (le_val l) k)
          by (unfold in_u8 in *; lia). done. }
    rewrite <- Hm. apply Z.mod_pos_bound. apply Z.pow_pos_nonneg; lia.
Qed.

Lemma le_bytes_val l : Forall in_u8 l → le_bytes (length l) (le_val l) = l.
Proof.
  induction 1 as [|b l Hb Hl IH]; [done |].
  cbn [le_bytes le_val length]. unfold in_u8 in Hb. f_equal.
  - rewrite <- land_255, Z.land_lor_distr_l, land_255, u8_small by lia.
    rewrite land_255. unfold u8. rewrite Z.shiftl_mul_pow2 by lia.
    change (2 ^ 8) with 256. rewrite Z.mod_mul by lia. apply Z.lor_0_r.
  - rewrite Z.shiftr_lor, Z.shiftr_shiftl_l by lia.
    replace (Z.shiftr b 8) with 0; [by rewrite Z.lor_0_l, Z.sub_diag, Z.shiftl_0_r |].
    rewrite Z.shiftr_div_pow2 by lia. symmetry. apply Z.div_small. lia.
Qed.

(** Only the low bytes count. *)
Lemma le_bytes_mod n v : le_bytes n (v mod 2 ^ (8 * Z.of_nat n)) = le_bytes n v.
Proof.
  rewrite <- le_val_bytes. rewrite <- (length_le_bytes n v) at 1. apply le_bytes_val, le_bytes_in_u8.
Qed.

Lemma lookup_write_bytes m p l a :
  write_bytes m p l !! a =
  if decide (p ≤ a < p + Z.of_nat (length l)) then l !! Z.to_nat (a - p) else m !! a.
Proof.
  revert p. induction l as [|b l IH]; intros p; cbn [write_bytes length].
  - case_decide; [lia | done].
  - rewrite lookup_insert. case_decide as Hpa.
    + subst. rewrite decide_True by lia. by rewrite Z.sub_diag.
    + rewrite IH. case_decide; case_decide; try lia; [|done].
      replace (Z.to_nat (a - p)) with (Datatypes.S (Z.to_nat (a - (p + 1)))) by lia. done.
Qed.

Lemma has_bytes_lookup m p l :
  has_bytes m p l ↔ ∀ i b, l !! i = Some b → m !! (p + Z.of_nat i) = Some b.
Proof.
  revert p. induction l as [|b l IH]; intros p; cbn [has_bytes]; [done |].
  rewrite IH. split.
  - intros [H1 H2] [|i] b' Hi; cbn in Hi.
    + simplify_eq. by rewrite Z.add_0_r.
    + specialize (H2 i b' Hi). by replace (p + Z.of_nat (Datatypes.S i)) with (p + 1 + Z.of_nat i) by lia.
  - intros H. split; [specialize (H 0%nat b eq_refl); by rewrite Z.add_0_r in H |].
    intros i b' Hi. specialize (H (Datatypes.S i) b' Hi).
    by replace (p + 1 + Z.of_nat i) with (p + Z.of_nat (Datatypes.S i)) by lia.
Qed.

Lemma has_bytes_write m p l : has_bytes (write_bytes m p l) p l.
Proof.
  apply has_bytes_lookup. intros i b Hi. rewrite lookup_write_bytes.
  pose proof (lookup_lt_Some _ _ _ Hi). rewrite decide_True by lia.
  by replace (Z.to_nat (p + Z.of_nat i - p)) with i by lia.
Qed.

(** Byte strings only depend on the cells they cover. *)
Lemma has_bytes_agree m m' p l :
  (∀ a, p ≤ a < p + Z.of_nat (length l) → m' !! a = m !! a) →
  has_bytes m p l → has_bytes m' p l.
Proof.
  intros Ha. rewrite !has_bytes_lookup. intros H i b Hi.
  pose proof (lookup_lt_Some _ _ _ Hi). rewrite Ha by lia. by apply H.
Qed.

Lemma has_bytes_app m p l1 l2 :
  has_bytes m p (l1 ++ l2) ↔ has_bytes m p l1 ∧ has_bytes m (p + Z.of_nat (length l1)) l2.
Proof.
  revert p. induction l1 as [|b l1 IH]; intros p; cbn [app has_bytes length].
  - rewrite Z.add_0_r. tauto.
  - rewrite IH.
    replace (p + 1 + Z.of_nat (length l1)) with (p + Z.of_nat (Datatypes.S (length l1))) by lia.
    tauto.
Qed.

Lemma has_bytes_mapped m p l : has_bytes m p l → mapped m p (Z.of_nat (length l)).
Proof.
  rewrite has_bytes_lookup. intros H a Ha.
  destruct (lookup_lt_is_Some_2 l (Z.to_nat (a - p))) as [b Hb]; [lia |].
  exists b. specialize (H _ _ Hb).
  by replace (p + Z.of_nat (Z.to_nat (a - p))) with a in H by lia.
Qed.

Lemma has_bytes_inj m p l l' :
  has_bytes m p l → has_bytes m p l' → length l = length l' → l = l'.
Proof.
  revert p l'. induction l as [|b l IH]; intros p [|b' l'] H H' Hl; try done.
  destruct H as [Hb H], H' as [Hb' H']. f_equal; [congruence |].
  eapply IH; [done | done |]. cbn in Hl. lia.
Qed.

(** The [n] bytes at [p] of a mapped range. *)
(** Writing the bytes that are there. *)
Lemma write_bytes_same m p l : has_bytes m p l → write_bytes m p l = m.
Proof.
  revert p. induction l as [|b l IH]; intros p H; [done |]. destruct H as [Hb H].
  cbn. rewrite IH by done. by apply insert_id.
Qed.

Lemma mapped_has_bytes m p n :
  mapped m p (Z.of_nat n) → ∃ l, length l = n ∧ has_bytes m p l.
Proof.
  revert p. induction n as [|n IH]; intros p Hm; [by exists [] |].
  destruct (Hm p) as [b Hb]; [lia |].
  destruct (IH (p + 1)) as (l & Hl & Hh).
  { intros a Ha. apply Hm. lia. }
  exists (b :: l). cbn. by rewrite Hl.
Qed.

Lemma has_bytes_in_u8 m p l : bytes_ok m → has_bytes m p l → Forall in_u8 l.
Proof.
  intros Hm. revert p. induction l as [|b l IH]; intros p H; [done |].
  destruct H as [Hb H]. constructor; [by apply (Hm p) | by apply (IH (p + 1))].
Qed.

Lemma mapped_sub m p n q k : mapped m p n → p ≤ q → q + k ≤ p + n → mapped m q k.
Proof. intros Hm H1 H2 a Ha. apply Hm. lia. Qed.

Lemma mapped_agree m m' p n :
  (∀ a, is_Some (m !! a) → is_Some (m' !! a)) → mapped m p n → mapped m' p n.
Proof. intros H Hm a Ha. by apply H, Hm. Qed.

Lemma write_bytes_mapped m p l a :
  is_Some (m !! a) → is_Some (write_bytes m p l !! a).
Proof.
  intros H. rewrite lookup_write_bytes. case_decide; [|done].
  apply lookup_lt_is_Some_2. lia.
Qed.

Lemma bytes_ok_write m p l : bytes_ok m → Forall in_u8 l → bytes_ok (write_bytes m p l).
Proof.
  intros Hm Hl a b. rewrite lookup_write_bytes. case_decide.
  - intros Hb. by eapply (Forall_lookup_1 _ _ _ _ Hl).
  - apply Hm.
Qed.

(** ** Weakest preconditions of the accesses *)

(** A memory of zero bytes, for examples. *)
Definition zeros (p : Z) (n : nat) : mem := write_bytes ∅ p (replicate n 0).

Lemma zeros_ok p n : bytes_ok (zeros p n).
Proof.
  apply bytes_ok_write; [apply map_Forall_empty |]. apply Forall_replicate. unfold in_u8. lia.
Qed.

Lemma zeros_mapped p n : mapped (zeros p n) p (Z.of_nat n).
Proof.
  intros a Ha. unfold zeros. rewrite lookup_write_bytes, length_replicate, decide_True by lia.
  apply lookup_lt_is_Some_2. rewrite length_replicate. lia.
Qed.

Lemma wp_load8 p (Q : Z → mem → Prop) m b :
  m !! p = Some b → Q b m → wp (load8 p) Q m.
Proof. intros H HQ. unfold wp, load8. by rewrite H. Qed.

Lemma wp_store8 p v (Q : unit → mem → Prop) m :
  is_Some (m !! p) → Q tt (<[p := u8 v]> m) → wp (store8 p v) Q m.
Proof. intros [b H] HQ. unfold wp, store8. by rewrite H. Qed.

Lemma wp_load8_inc p (Q : Z * Z → mem → Prop) m b :
  m !! p = Some b → Q (b, ptr_add p 1) m → wp (load8_inc p) Q m.
Proof. intros H HQ. apply wp_bind. eapply wp_load8; [done |]. by apply wp_ret. Qed.

Lemma wp_store8_inc p v (Q : Z → mem → Prop) m :
  is_Some (m !! p) → Q (ptr_add p 1) (<[p := u8 v]> m) → wp (store8_inc p v) Q m.
Proof. intros H HQ. apply wp_bind. apply wp_store8; [done |]. by apply wp_ret. Qed.

Lemma ptr_add_small p k : 0 ≤ p + k < 4294967296 → ptr_add p k = p + k.
Proof. apply u32_small. Qed.

Lemma wp_load16 p (Q : Z → mem → Prop) m l :
  0 ≤ p → p + 2 ≤ 4294967296 → length l = 2%nat → has_bytes m p l →
  Q (le_val l) m → wp (load16 p) Q m.
Proof.
  intros H0 Hp Hl H HQ. destruct l as [|b0 [|b1 [|]]]; try done.
  destruct H as (Hb0 & Hb1 & _).
  unfold load16. rewrite ptr_add_small by lia.
  apply wp_bind. eapply wp_load8; [done |].
  apply wp_bind. eapply wp_load8; [done |].
  apply wp_ret. cbn in HQ. by rewrite Z.lor_0_r in HQ.
Qed.

Lemma wp_load32 p (Q : Z → mem → Prop) m l :
  0 ≤ p → p + 4 ≤ 4294967296 → length l = 4%nat → has_bytes m p l →
  Q (le_val l) m → wp (load32 p) Q m.
Proof.
  intros H0 Hp Hl H HQ. destruct l as [|b0 [|b1 [|b2 [|b3 [|]]]]]; try done.
  destruct H as (Hb0 & Hb1 & Hb2 & Hb3 & _).
  unfold load32. rewrite !ptr_add_small by lia.
  apply wp_bind. eapply wp_load8; [done |].
  apply wp_bind. eapply wp_load8; [done |].
  apply wp_bind. eapply wp_load8; [by replace (p + 2) with (p + 1 + 1) by lia |].
  apply wp_bind. eapply wp_load8; [by replace (p + 3) with (p + 1 + 1 + 1) by lia |].
  apply wp_ret. cbn in HQ. by rewrite Z.lor_0_r in HQ.
Qed.

(** A sequence of byte stores is one [write_bytes]. *)
Lemma write_bytes_snoc m p l b :
  write_bytes m p (l ++ [b]) = <[p + Z.of_nat (length l) := b]> (write_bytes m p l).
Proof.
  apply map_eq. intros a.
  rewrite lookup_insert, !lookup_write_bytes, length_app. cbn [length].
  repeat case_decide; subst; try lia; try done.
  - rewrite lookup_app_r by lia.
    by replace (Z.to_nat (p + Z.of_nat (length l) - p) - length l)%nat with 0%nat by lia.
  - by rewrite lookup_app_l by lia.
Qed.

(** The order of the writes of a byte string does not matter. *)
Lemma write_bytes_insert m p b l :
  write_bytes (<[p := b]> m) (p + 1) l = <[p := b]> (write_bytes m (p + 1) l).
Proof.
  apply map_eq. intros a. rewrite lookup_write_bytes, !lookup_insert, lookup_write_bytes.
  repeat case_decide; try done; lia.
Qed.

Lemma wp_store8_seq p vs (Q : Z → mem → Prop) m :
  0 ≤ p → p + Z.of_nat (length vs) < 4294967296 → mapped m p (Z.of_nat (length vs)) →
  Q (p + Z.of_nat (length vs)) (write_bytes m p (map u8 vs)) → wp (store8_seq p vs) Q m.
Proof.
  revert p m. induction vs as [|v vs IH]; intros p m H0 Hp Hm HQ; cbn [store8_seq length map] in *.
  { rewrite Z.add_0_r in HQ. by apply wp_ret. }
  apply wp_bind, wp_store8_inc; [apply Hm; lia |]. rewrite ptr_add_small by lia.
  apply IH; [lia | lia | |].
  - intros a Ha. apply lookup_insert_is_Some'. right. apply Hm. lia.
  - rewrite write_bytes_insert. replace (p + 1 + Z.of_nat (length vs)) with (p + Z.of_nat (S (length vs))) by lia.
    done.
Qed.

Lemma wp_store16 p v (Q : unit → mem → Prop) m :
  0 ≤ p → p + 2 ≤ 4294967296 → mapped m p 2 →
  Q tt (write_bytes m p (le_bytes 2 v)) → wp (store16 p v) Q m.
Proof.
  intros H0 Hp Hm HQ. unfold store16. rewrite ptr_add_small by lia.
  apply wp_bind. apply wp_store8; [apply Hm; lia |].
  apply wp_store8; [apply lookup_insert_is_Some'; right; apply Hm; lia |].
  cbn in HQ. rewrite insert_insert_ne by lia. done.
Qed.

Lemma wp_store32 p v (Q : unit → mem → Prop) m :
  0 ≤ p → p + 4 ≤ 4294967296 → mapped m p 4 →
  Q tt (write_bytes m p (le_bytes 4 v)) → wp (store32 p v) Q m.
Proof.
  intros H0 Hp Hm HQ. unfold store32. rewrite !ptr_add_small by lia.
  apply wp_bind, wp_store8; [apply Hm; lia |].
  apply wp_bind, wp_store8; [rewrite !lookup_insert_is_Some'; right; apply Hm; lia |].
  apply wp_bind, wp_store8; [rewrite !lookup_insert_is_Some'; right; right; apply Hm; lia |].
  apply wp_store8; [rewrite !lookup_insert_is_Some'; do 3 right; apply Hm; lia |].
  refine (eq_ind_r (Q tt) HQ _).
  cbn [le_bytes write_bytes]. rewrite !Z.shiftr_shiftr by lia.
  apply map_eq. intros a. rewrite !lookup_insert. repeat case_decide; lia || done.
Qed.

Lemma lookup_eq (m : mem) a a' : a = a' → m !! a = m !! a'.
Proof. by intros ->. Qed.

(** ** What the string routines do *)

(** [m'] is [m] with [c] in the [n] bytes at [p]. *)
Definition filled (m m' : mem) (p n c : Z) : Prop :=
  ∀ a, m' !! a = if decide (p ≤ a < p + n) then Some c else m !! a.

Lemma memset_word_bytes c : le_bytes 4 (memset_word c) = replicate 4 (u8 c).
Proof.
  cbv [memset_word Nat.iter nat_rect]. rewrite !land_255.
  pose proof (u8_range c) as Hc. set (b := u8 c) in *. clearbody b.
  assert (Hr : ∀ n, Forall in_u8 (replicate n b)) by (intros; by apply Forall_replicate).
  assert (Hw : ∀ n, (n ≤ 3)%nat →
    Z.lor (u32 (Z.shiftl (le_val (replicate n b)) 8)) b = le_val (replicate (Datatypes.S n) b)).
  { intros n Hn. cbn [le_val replicate]. rewrite Z.lor_comm. f_equal. apply u32_small.
    pose proof (le_val_range _ (Hr n)) as Hv. rewrite length_replicate in Hv.
    rewrite Z.shiftl_mul_pow2 by lia.
    assert (2 ^ (8 * Z.of_nat n) ≤ 2 ^ 24) by (apply Z.pow_le_mono_r; lia). lia. }
  change (Z.shiftl 0 8) with (Z.shiftl (le_val (replicate 0 b)) 8).
  rewrite (Hw 0%nat), (Hw 1%nat), (Hw 2%nat), (Hw 3%nat) by lia.
  apply (le_bytes_val (replicate 4 b)), Hr.
Qed.

Lemma filled_word m m' s i c :
  0 ≤ i → filled m m' s (4 * i) c → filled m (write_bytes m' (s + 4 * i) (replicate 4 c)) s (4 * (i + 1)) c.
Proof.
  intros Hi Hf a. rewrite lookup_write_bytes, Hf, length_replicate.
  repeat case_decide; try lia; try done.
  by apply lookup_replicate_2; lia.
Qed.

Lemma filled_mapped m m' p n c a :
  filled m m' p n c → is_Some (m !! a) → is_Some (m' !! a).
Proof. intros Hf H. rewrite Hf. by case_decide. Qed.

Lemma memset_words_spec fuel s c i n m m' :
  0 ≤ s → s + n < 4294967296 → mapped m s n → 0 ≤ i → 4 * i ≤ n →
  n - 4 * i ≤ Z.of_nat fuel →
  filled m m' s (4 * i) (u8 c) →
  wp (memset_words fuel (s + 4 * i) (memset_word c) (n - 4 * i))
    (λ '(s8, count) m', ∃ k, s8 = s + k ∧ count = n - k ∧ 0 ≤ k ≤ n ∧
       filled m m' s k (u8 c)) m'.
Proof.
  intros Hs Hn Hm. revert i m'. induction fuel as [|fuel IH]; intros i m' Hi Hin Hfu Hf;
    cbn [memset_words].
  - apply wp_ret. exists (4 * i). auto with lia.
  - case_match eqn:Hc.
    + apply wp_bind. apply wp_store32; [lia | lia | |].
      { eapply mapped_agree; [intros ?; eapply filled_mapped; exact Hf |].
        eapply mapped_sub; [done | lia | lia]. }
      rewrite memset_word_bytes. apply (filled_word _ _ _ i) in Hf; [|done].
      rewrite ptr_add_small by lia.
      replace (s + 4 * i + 4) with (s + 4 * (i + 1)) by lia.
      replace (n - 4 * i - 4) with (n - 4 * (i + 1)) by lia.
      apply IH; [lia | lia | lia | done].
    + apply wp_ret. exists (4 * i). auto with lia.
Qed.

(** [memset] stores the byte in exactly the range it is given. *)
Lemma memset_spec s c n m :
  0 ≤ s → 0 ≤ n → s + n < 4294967296 → mapped m s n →
  wp (memset s c n) (λ r m', r = s ∧ filled m m' s n (u8 c)) m.
Proof.
  intros Hs Hn Hb Hm. unfold memset. apply wp_bind.
  apply (wp_mono _ (λ '(s8, count) m', ∃ k, s8 = s + k ∧ count = n - k ∧ 0 ≤ k ≤ n ∧
       filled m m' s k (u8 c))).
  { case_match.
    - pose proof (memset_words_spec (Z.to_nat n) s c 0 n m m) as Hw.
      rewrite Z.add_0_r, Z.sub_0_r in Hw. apply Hw; try lia; [done |].
      intros a. by rewrite decide_False by lia.
    - apply wp_ret. exists 0. split_and!; try lia. intros a. by rewrite decide_False by lia. }
  intros [s8 count] m1 (k & -> & -> & Hk & Hf). apply wp_bind.
  apply (wp_for_to _ _ _ _ (λ i s8 m', s8 = s + k + i ∧ filled m m' s (k + i) (u8 c))).
  - lia.
  - rewrite !Z.add_0_r. done.
  - intros i s8 m2 Hi [-> Hf2]. apply wp_store8_inc.
    + eapply filled_mapped; [done |]. apply Hm. lia.
    + rewrite ptr_add_small by lia. split; [lia |].
      intros a. rewrite lookup_insert, Hf2. repeat case_decide; try lia; done.
  - intros s8 m2 [_ Hf2]. apply wp_ret. split; [done |].
    by replace (k + (n - k)) with n in Hf2 by lia.
Qed.

Lemma copied_mapped m m' dst src n a :
  mapped m src n → copied m m' dst src n → is_Some (m !! a) → is_Some (m' !! a).
Proof. intros Hs Hc H. rewrite Hc. case_decide; [apply Hs; lia | done]. Qed.

Lemma copied_0 m dst src : copied m m dst src 0.
Proof. intros a. by rewrite decide_False by lia. Qed.

(** Where the copy goes forward, source bytes not yet copied are unchanged. *)
Lemma copied_src m m' dst src i a :
  dst ≤ src ∨ dst + i ≤ a ∨ a < dst → copied m m' dst src i → src + i ≤ a → m' !! a = m !! a.
Proof. intros Hd Hc Ha. rewrite Hc. case_decide; [lia | done]. Qed.

(** One byte of a forward copy. *)
Lemma wp_copy8_inc m m' dst src n i (Q : Z * Z → mem → Prop) :
  bytes_ok m →
  0 ≤ dst → 0 ≤ src → dst + n < 4294967296 → src + n < 4294967296 → 0 ≤ i < n →
  mapped m dst n → mapped m src n →
  dst ≤ src ∨ src + n ≤ dst →
  copied m m' dst src i →
  (∀ m'', copied m m'' dst src (i + 1) → Q (dst + (i + 1), src + (i + 1)) m'') →
  wp (copy8_inc (dst + i) (src + i)) Q m'.
Proof.
  intros Hok H0 H1 Hd Hs Hi Hmd Hms Hov Hc HQ. unfold copy8_inc.
  destruct (Hms (src + i)) as [b Hb]; [lia |].
  assert (Hb' : m' !! (src + i) = Some b).
  { rewrite <- Hb. apply (copied_src _ _ dst src i); [lia | done | lia]. }
  apply wp_bind. eapply wp_load8_inc; [done |].
  apply wp_bind. apply wp_store8_inc.
  { rewrite Hc. case_decide; [lia |]. apply Hmd. lia. }
  rewrite !ptr_add_small by lia. apply wp_ret.
  replace (dst + i + 1) with (dst + (i + 1)) by lia.
  replace (src + i + 1) with (src + (i + 1)) by lia.
  apply HQ. intros a. rewrite u8_small by apply (Hok _ _ Hb).
  rewrite lookup_insert, Hc. repeat case_decide; subst; try lia; try done.
  by replace (dst + i - dst + src) with (src + i) by lia.
Qed.

(** The byte loop of [memcpy] and of the forward half of [memmove]. *)
Lemma copy_forward_spec {A} (r : A) m m' dst src k n :
  bytes_ok m →
  0 ≤ dst → 0 ≤ src → dst + n < 4294967296 → src + n < 4294967296 → 0 ≤ k ≤ n →
  mapped m dst n → mapped m src n →
  dst ≤ src ∨ src + n ≤ dst →
  copied m m' dst src k →
  wp (for_to (n - k) (λ _ '(d8, s8), copy8_inc d8 s8) (dst + k, src + k) ;; ret r)
    (λ r' m'', r' = r ∧ copied m m'' dst src n) m'.
Proof.
  intros Hok H0 H1 Hd Hs Hk Hmd Hms Hov Hc. apply wp_bind.
  apply (wp_for_to _ _ _ _ (λ i '(d8, s8) m', d8 = dst + (k + i) ∧ s8 = src + (k + i) ∧
    copied m m' dst src (k + i))).
  - lia.
  - by rewrite Z.add_0_r.
  - intros i [d8 s8] m1 Hi (-> & -> & Hc1).
    apply (wp_copy8_inc m m1 dst src n (k + i)); try done; try lia.
    intros m2 Hc2. rewrite <- Z.add_assoc in Hc2. split_and!; [lia | lia | done].
  - intros [d8 s8] m1 (_ & _ & Hc1). apply wp_ret. split; [done |].
    by replace (k + (n - k)) with n in Hc1 by lia.
Qed.

(** One word of a forward copy. *)
Lemma copied_word m m' dst src n i l :
  0 ≤ i → 4 * i + 4 ≤ n → dst ≤ src ∨ src + n ≤ dst →
  copied m m' dst src (4 * i) → length l = 4%nat → has_bytes m' (src + 4 * i) l →
  copied m (write_bytes m' (dst + 4 * i) l) dst src (4 * (i + 1)).
Proof.
  intros Hi Hin Hov Hc Hl Hb a. rewrite lookup_write_bytes, Hl.
  case_decide as Hr.
  - rewrite decide_True by lia.
    destruct (lookup_lt_is_Some_2 l (Z.to_nat (a - (dst + 4 * i)))) as [b Hb']; [lia |].
    rewrite Hb'. rewrite has_bytes_lookup in Hb. specialize (Hb _ _ Hb').
    rewrite <- Hb.
    replace (src + 4 * i + Z.of_nat (Z.to_nat (a - (dst + 4 * i)))) with (a - dst + src) by lia.
    apply (copied_src _ _ dst src (4 * i)); [lia | done | lia].
  - rewrite Hc. repeat case_decide; lia || done.
Qed.

Lemma memcpy_words_spec fuel dst src i n m m' :
  bytes_ok m →
  0 ≤ dst → 0 ≤ src → dst + n < 4294967296 → src + n < 4294967296 →
  mapped m dst n → mapped m src n → dst ≤ src ∨ src + n ≤ dst →
  0 ≤ i → 4 * i ≤ n → n - 4 * i ≤ Z.of_nat fuel →
  copied m m' dst src (4 * i) →
  wp (memcpy_words fuel (dst + 4 * i) (src + 4 * i) (n - 4 * i))
    (λ '(d8, s8, count) m'', ∃ k, d8 = dst + k ∧ s8 = src + k ∧ count = n - k ∧ 0 ≤ k ≤ n ∧
       copied m m'' dst src k) m'.
Proof.
  intros Hok H0 H1 Hd Hs Hmd Hms Hov. revert i m'.
  induction fuel as [|fuel IH]; intros i m' Hi Hin Hfu Hc; cbn [memcpy_words].
  - apply wp_ret. exists (4 * i). auto with lia.
  - case_match eqn:Hcnt; [|apply wp_ret; exists (4 * i); auto with lia].
    assert (Hm' : ∀ a, is_Some (m !! a) → is_Some (m' !! a)).
    { intros a. eapply copied_mapped; [|done]. apply (mapped_sub m src n); [done | lia | lia]. }
    destruct (mapped_has_bytes m' (src + 4 * i) 4) as (l & Hl & Hb).
    { eapply mapped_agree; [exact Hm' |]. apply (mapped_sub m src n); [done | lia | lia]. }
    assert (Hlo : Forall in_u8 l).
    { apply (has_bytes_in_u8 m (src + 4 * i)); [done |].
      eapply has_bytes_agree; [|exact Hb]. intros a Ha. symmetry.
      apply (copied_src _ _ dst src (4 * i)); [lia | done | lia]. }
    apply wp_bind. eapply wp_load32; [lia | lia | done | done |].
    apply wp_bind. apply wp_store32; [lia | lia | |].
    { eapply mapped_agree; [exact Hm' |]. apply (mapped_sub m dst n); [done | lia | lia]. }
    rewrite !ptr_add_small by lia.
    replace (dst + 4 * i + 4) with (dst + 4 * (i + 1)) by lia.
    replace (src + 4 * i + 4) with (src + 4 * (i + 1)) by lia.
    replace (n - 4 * i - 4) with (n - 4 * (i + 1)) by lia.
    apply IH; [lia | lia | lia |].
    rewrite <- Hl, le_bytes_val by done.
    apply (copied_word m m' dst src n); done || lia.
Qed.

(** [memcpy] copies a range to a range that does not start inside it. *)
Lemma memcpy_spec dst src n m :
  bytes_ok m → 0 ≤ dst → 0 ≤ src → 0 ≤ n → dst + n < 4294967296 → src + n < 4294967296 →
  mapped m dst n → mapped m src n → dst ≤ src ∨ src + n ≤ dst →
  wp (memcpy dst src n) (λ r m', r = dst ∧ copied m m' dst src n) m.
Proof.
  intros Hok H0 H1 Hn Hd Hs Hmd Hms Hov. unfold memcpy. apply wp_bind.
  apply (wp_mono _ (λ '(d8, s8, count) m'', ∃ k, d8 = dst + k ∧ s8 = src + k ∧
    count = n - k ∧ 0 ≤ k ≤ n ∧ copied m m'' dst src k)).
  { case_match.
    - pose proof (memcpy_words_spec (Z.to_nat n) dst src 0 n m m) as Hw.
      rewrite !Z.add_0_r, Z.sub_0_r in Hw. apply Hw; try lia; try done. apply copied_0.
    - apply wp_ret. exists 0. split_and!; try lia. apply copied_0. }
  intros [[d8 s8] count] m1 (k & -> & -> & -> & Hk & Hc).
  by apply copy_forward_spec.
Qed.

(** [m'] is [m] with the last [i] of [n] bytes copied. *)
Definition copied_tail (m m' : mem) (dst src n i : Z) : Prop :=
  copied m m' (dst + (n - i)) (src + (n - i)) i.

(** [memmove] copies a range whatever the overlap. *)
Lemma memmove_spec dst src n m :
  bytes_ok m → 0 ≤ dst → 0 ≤ src → 0 ≤ n → dst + n < 4294967296 → src + n < 4294967296 →
  mapped m dst n → mapped m src n →
  wp (memmove dst src n) (λ r m', r = dst ∧ copied m m' dst src n) m.
Proof.
  intros Hok H0 H1 Hn Hd Hs Hmd Hms. unfold memmove.
  destruct (Z.leb_spec dst src).
  { pose proof (copy_forward_spec dst m m dst src 0 n) as Hf.
    rewrite !Z.add_0_r, Z.sub_0_r in Hf. apply Hf; try done; try lia. apply copied_0. }
  rewrite !ptr_add_small by lia. apply wp_bind.
  apply (wp_for_to _ _ _ _ (λ i '(t, s) m', t = dst + (n - i) ∧ s = src + (n - i) ∧
    copied_tail m m' dst src n i)).
  - done.
  - rewrite Z.sub_0_r. split_and!; [done | done | apply copied_0].
  - intros i [t s] m1 Hi (-> & -> & Hc). unfold copied_tail in Hc.
    unfold copy8_dec. rewrite !ptr_add_small by lia.
    destruct (Hms (src + (n - (i + 1)))) as [b Hb]; [lia |].
    apply wp_bind. apply (wp_load8 _ _ _ b).
    { rewrite Hc, decide_False by lia.
      by replace (src + (n - i) + -1) with (src + (n - (i + 1))) by lia. }
    apply wp_bind. apply wp_store8.
    { rewrite Hc, decide_False by lia. apply Hmd. lia. }
    apply wp_ret. split_and!; [lia | lia |]. intros a.
    rewrite u8_small by apply (Hok _ _ Hb). rewrite lookup_insert, Hc.
    repeat case_decide; subst; try lia; try done.
    + rewrite <- Hb. by apply lookup_eq; lia.
    + by apply lookup_eq; lia.
  - intros [t s] m1 (_ & _ & Hc). apply wp_ret. split; [done |]. unfold copied_tail in Hc.
    by rewrite Z.sub_diag, !Z.add_0_r in Hc.
Qed.

(** ** Properties *)

(** [memmove] returns its first argument and leaves at the destination the
    bytes that were at the source, however the two ranges overlap, and
    changes nothing else. *)
Theorem memmove_correct dst src n m :
  bytes_ok m → 0 ≤ dst → 0 ≤ src → 0 ≤ n → dst + n < 4294967296 → src + n < 4294967296 →
  mapped m dst n → mapped m src n →
  ∃ m', memmove dst src n m = Some (dst, m') ∧
    (∀ i, 0 ≤ i < n → m' !! (dst + i) = m !! (src + i)) ∧
    (∀ a, a < dst ∨ dst + n ≤ a → m' !! a = m !! a).
Proof.
  intros. destruct (wp_elim _ _ _ (memmove_spec dst src n m ltac:(done) ltac:(done) ltac:(done)
    ltac:(done) ltac:(done) ltac:(done) ltac:(done) ltac:(done))) as (r & m' & E & -> & Hc).
  exists m'. split; [done |]. split.
  - intros i Hi. rewrite Hc, decide_True by lia. apply lookup_eq. lia.
  - intros a Ha. by rewrite Hc, decide_False by lia.
Qed.

Lemma memmove_correct_witness :
  ∃ m', memmove 101 100 4 (write_bytes ∅ 100 [1; 2; 3; 4; 5]) = Some (101, m') ∧
    (∀ i, 0 ≤ i < 4 → m' !! (101 + i) = write_bytes ∅ 100 [1; 2; 3; 4; 5] !! (100 + i)) ∧
    (∀ a, a < 101 ∨ 101 + 4 ≤ a → m' !! a = write_bytes ∅ 100 [1; 2; 3; 4; 5] !! a).
Proof.
  apply (memmove_correct 101 100 4 (write_bytes ∅ 100 [1; 2; 3; 4; 5])); try lia.
  - apply bytes_ok_write; [apply map_Forall_empty |]. by repeat constructor.
  - intros a Ha. rewrite lookup_write_bytes, decide_True by (cbn; lia).
    apply lookup_lt_is_Some_2. cbn. lia.
  - intros a Ha. rewrite lookup_write_bytes, decide_True by (cbn; lia).
    apply lookup_lt_is_Some_2. cbn. lia.
Defined.

(** Copying by words when both pointers are aligned makes no difference:
    on ranges that do not overlap with the destination above the source,
    [memcpy] is [memmove]. *)
Theorem memcpy_memmove dst src n m :
  bytes_ok m → 0 ≤ dst → 0 ≤ src → 0 ≤ n → dst + n < 4294967296 → src + n < 4294967296 →
  mapped m dst n → mapped m src n → dst ≤ src ∨ src + n ≤ dst →
  memcpy dst src n m = memmove dst src n m.
Proof.
  intros. destruct (wp_elim _ _ _ (memmove_spec dst src n m ltac:(done) ltac:(done) ltac:(done)
    ltac:(done) ltac:(done) ltac:(done) ltac:(done) ltac:(done))) as (r & m1 & -> & -> & Hc1).
  destruct (wp_elim _ _ _ (memcpy_spec dst src n m ltac:(done) ltac:(done) ltac:(done)
    ltac:(done) ltac:(done) ltac:(done) ltac:(done) ltac:(done) ltac:(done))) as (r & m2 & -> & -> & Hc2).
  do 2 f_equal. apply map_eq. intros a. by rewrite Hc1, Hc2.
Qed.

Lemma memcpy_memmove_witness :
  memcpy 96 100 8 (zeros 96 12) = memmove 96 100 8 (zeros 96 12).
Proof.
  apply (memcpy_memmove 96 100 8 (zeros 96 12)); try lia.
  - apply zeros_ok.
  - apply (mapped_sub _ 96 12); [apply zeros_mapped | lia | lia].
  - apply (mapped_sub _ 96 12); [apply zeros_mapped | lia | lia].
Defined.
