(* ===== verification/CString.v ===== *)
(** * C strings: the comparison routines of [lib/string.c]

    A C string is the list of the bytes before its terminating zero; [char] is
    unsigned on this core. *)

From stdpp Require Import prelude strings.
From Stdlib Require Import ZArith Lia Ascii.
From S2P Require Import Prelude.

Local Open Scope Z_scope.

Definition char_val (c : ascii) : Z := Z.of_N (N_of_ascii c).

(** [signed char __res = *cs - *ct] *)
Definition s8 (z : Z) : Z := (z + 128) mod 256 - 128.

Fixpoint strcmp (cs ct : string) : Z :=
  match cs, ct with
  | EmptyString, EmptyString => 0
  | EmptyString, String b _ => s8 (0 - char_val b)
  | String a _, EmptyString => s8 (char_val a - 0)
  | String a cs', String b ct' =>
      let __res := s8 (char_val a - char_val b) in
      if __res =? 0 then strcmp cs' ct' else __res
  end.

(** The string holds no zero byte, as a C string cannot. *)
Fixpoint c_string (s : string) : bool :=
  match s with
  | EmptyString => true
  | String a s' => negb (char_val a =? 0) && c_string s'
  end.

Fixpoint strlen (s : string) : Z :=
  match s with EmptyString => 0 | String _ s' => 1 + strlen s' end.

(** [memcmp] of the first [count] bytes, [count] at most the length of [ct]. *)
Fixpoint memcmp (count : nat) (cs ct : string) : Z :=
  match count with
  | O => 0
  | S count' =>
      match cs, ct with
      | String a cs', String b ct' =>
          let res := char_val a - char_val b in
          if res =? 0 then memcmp count' cs' ct' else res
      | _, _ => 0
      end
  end.

(** The loop of [strstr]: the suffix of [s1] where [s2] was found. *)
Fixpoint strstr_loop (s1 : string) (l1 l2 : Z) (s2 : string) : option string :=
  if l1 >=? l2 then
    if memcmp (Z.to_nat l2) s1 s2 =? 0 then Some s1
    else match s1 with
         | EmptyString => None
         | String _ s1' => strstr_loop s1' (l1 - 1) l2 s2
         end
  else None.

Definition strstr (s1 s2 : string) : option string :=
  let l2 := strlen s2 in
  if l2 =? 0 then Some s1 else
  let l1 := strlen s1 in
  strstr_loop s1 l1 l2 s2.

Lemma char_val_range c : 0 ≤ char_val c < 256.
Proof. unfold char_val. pose proof (N_ascii_bounded c). lia. Qed.

Lemma char_val_inj a b : char_val a = char_val b → a = b.
Proof.
  unfold char_val. intros H. rewrite <- (ascii_N_embedding a), <- (ascii_N_embedding b).
  f_equal. lia.
Qed.

Lemma s8_zero a b : s8 (char_val a - char_val b) = 0 ↔ a = b.
Proof.
  pose proof (char_val_range a). pose proof (char_val_range b). unfold s8. split.
  - intros E. apply char_val_inj. Z.to_euclidean_division_equations. lia.
  - intros ->. rewrite Z.sub_diag. reflexivity.
Qed.

Lemma strcmp_zero cs ct :
  c_string cs = true → c_string ct = true → strcmp cs ct = 0 ↔ cs = ct.
Proof.
  revert ct. induction cs as [|a cs IH]; intros [|b ct] Hs Ht; cbn in *; try done.
  - pose proof (char_val_range b). split; [|done]. intros E. exfalso.
    unfold s8 in E. Z.to_euclidean_division_equations. lia.
  - pose proof (char_val_range a). split; [|done]. intros E. exfalso.
    unfold s8 in E. Z.to_euclidean_division_equations. lia.
  - apply andb_prop in Hs as [_ Hs], Ht as [_ Ht].
    destruct (Z.eqb_spec (s8 (char_val a - char_val b)) 0) as [E|E].
    + apply s8_zero in E as ->. rewrite IH by done. split; [by intros -> | by intros [=]].
    + split; [done |]. intros [= -> ->]. by destruct E; apply s8_zero.
Qed.
