(* ===== verification/Div64.v ===== *)
(** * Division of 64-bit by 32-bit numbers: [lib/div64.c], [include/div64.h]

    The processor divides 32-bit numbers only.  [__div64_32] doubles the divisor
    until it is not below the dividend and subtracts on the way back. *)

From stdpp Require Import prelude.
From Stdlib Require Import ZArith Lia.
From S2P Require Import Prelude.

Local Open Scope Z_scope.
Local Open Scope word_scope.

(** [(int64_t)z] *)
Definition s64 (z : Z) : Z := (z + 9223372036854775808) mod 18446744073709551616 - 9223372036854775808.

(** [while ((int64_t)b > 0 && b < rem) { b = b+b; d = d+d; }] *)
Fixpoint double_loop (fuel : nat) (b d rem : Z) : option (Z * Z) :=
  if (s64 b >? 0) && (b <? rem) then
    match fuel with
    | O => None
    | Datatypes.S fuel => double_loop fuel (u64 (b + b)) (u64 (d + d)) rem
    end
  else Some (b, d).

(** [do { if (rem >= b) { rem -= b; res += d; } b >>= 1; d >>= 1; } while (d);] *)
Fixpoint subtract_loop (fuel : nat) (b d res rem : Z) : option (Z * Z) :=
  match fuel with
  | O => None
  | Datatypes.S fuel =>
      let '(res, rem) := if rem >=? b then (u64 (res + d), u64 (rem - b)) else (res, rem) in
      let b := Z.shiftr b 1 in
      let d := Z.shiftr d 1 in
      if d =? 0 then Some (res, rem) else subtract_loop fuel b d res rem
  end.

(** The new [*n] and the result. *)
Definition __div64_32 (fuel : nat) (n base : Z) : option (Z * Z) :=
  let rem := n in
  let b := base in
  let d := 1 in
  let high := u32 (Z.shiftr rem 32) in
  let res := 0 in
  let '(res, rem) :=
    if high >=? base then
      let high := high / base in
      (Z.shiftl high 32, u64 (rem - Z.shiftl (high *u base) 32))
    else (res, rem) in
  match double_loop fuel b d rem with
  | Some (b, d) =>
      match subtract_loop fuel b d res rem with
      | Some (res, rem) => Some (res, u32 rem)
      | None => None
      end
  | None => None
  end.

(** The macro [do_div]: the new [n] and the remainder. *)
Definition do_div (n base : Z) : option (Z * Z) :=
  if Z.shiftr n 32 =? 0 then Some (u32 n / base, u32 n mod base)
  else __div64_32 64 n base.

(** ** The loops *)

Lemma s64_pos b : 0 ≤ b < 18446744073709551616 → (s64 b >? 0) = (0 <? b) && (b <? 9223372036854775808).
Proof.
  intros Hb. unfold s64.
  destruct (Z.ltb_spec b 9223372036854775808).
  - rewrite Z.mod_small by lia. lia.
  - replace (b + 9223372036854775808) with (b - 9223372036854775808 + 1 * 18446744073709551616) by lia.
    rewrite Z.mod_add, Z.mod_small by lia. lia.
Qed.

(** Doubling ends with a multiple of which the dividend is less than twice. *)
Lemma double_loop_spec fuel k base rem :
  0 < base → 0 ≤ k ≤ 33 → 0 ≤ rem < base * 2 ^ 32 → rem < 18446744073709551616 →
  base * 2 ^ k < 18446744073709551616 → (33 - Z.of_nat fuel ≤ k) →
  ∃ j, k ≤ j ∧ double_loop fuel (base * 2 ^ k) (2 ^ k) rem = Some (base * 2 ^ j, 2 ^ j) ∧
    rem < 2 * (base * 2 ^ j) ∧ j ≤ 33 ∧ base * 2 ^ j < 18446744073709551616.
Proof.
  intros Hb. revert k. induction fuel as [|fuel IH]; intros k Hk Hr Hr64 Hk64 Hf;
    cbn [double_loop]; rewrite s64_pos by nia; pose proof (Z.pow_pos_nonneg 2 k).
  - assert (k = 33) as -> by lia. rewrite (proj2 (Z.ltb_ge (base * 2 ^ 33) rem)), andb_false_r by nia.
    exists 33. split_and!; nia || done.
  - destruct (Z.ltb_spec (base * 2 ^ k) rem) as [Hlt|Hge]; [| rewrite andb_false_r; exists k; split_and!; nia || done].
    destruct (Z.ltb_spec (base * 2 ^ k) 9223372036854775808) as [H63|H63].
    2: { rewrite andb_false_r. exists k. split_and!; nia || done. }
    rewrite (proj2 (Z.ltb_lt 0 _)) by nia. cbn [andb].
    assert (k < 32) by (destruct (Z.lt_ge_cases k 32); [done |];
      pose proof (Z.pow_le_mono_r 2 32 k); nia).
    rewrite !u64_small by nia. replace (2 ^ k + 2 ^ k) with (2 ^ (k + 1)) by (rewrite Z.pow_add_r; lia).
    replace (base * 2 ^ k + base * 2 ^ k) with (base * 2 ^ (k + 1)) by (rewrite Z.pow_add_r; lia).
    destruct (IH (k + 1)) as (j & ? & ? & ? & ? & ?); [lia | done | done | rewrite Z.pow_add_r; lia | lia |].
    exists j. split_and!; done || lia.
Qed.

(** Subtracting on the way back is long division. *)
Lemma subtract_loop_spec fuel k base res rem :
  0 < base → 0 ≤ k < Z.of_nat fuel → 0 ≤ rem < 2 * (base * 2 ^ k) → rem < 18446744073709551616 →
  0 ≤ res → res + rem / base < 18446744073709551616 →
  subtract_loop fuel (base * 2 ^ k) (2 ^ k) res rem = Some (res + rem / base, rem mod base).
Proof.
  intros Hb. revert k res rem. induction fuel as [|fuel IH]; intros k res rem Hk Hr Hr64 Hres Hq; [lia |].
  cbn [subtract_loop]. pose proof (Z.pow_pos_nonneg 2 k).
  assert (∃ res' rem', (if rem >=? base * 2 ^ k then (u64 (res + 2 ^ k), u64 (rem - base * 2 ^ k)) else (res, rem)) = (res', rem') ∧
    0 ≤ rem' < base * 2 ^ k ∧ rem' < 18446744073709551616 ∧ 0 ≤ res' ∧
    res + rem / base = res' + rem' / base ∧ rem mod base = rem' mod base) as (res' & rem' & -> & Hr' & ? & ? & E1 & E2).
  { rewrite Z.geb_leb. destruct (Z.leb_spec (base * 2 ^ k) rem) as [Hle|Hgt]; [| exists res, rem; split_and!; done || lia].
    assert (rem / base = 2 ^ k + (rem - base * 2 ^ k) / base) as E.
    { rewrite <- Z.div_add_l by lia. f_equal. lia. }
    assert (0 ≤ (rem - base * 2 ^ k) / base) by (apply Z.div_pos; lia).
    rewrite !u64_small by lia. exists (res + 2 ^ k), (rem - base * 2 ^ k). split_and!; [done | lia.. |].
    replace rem with (rem - base * 2 ^ k + 2 ^ k * base) at 1 by lia. by rewrite Z.mod_add by lia. }
  rewrite E1, E2 in *. rewrite !Z.shiftr_div_pow2 by lia. change (2 ^ 1) with 2.
  destruct (Z.eq_dec k 0) as [->|Hk0].
  - change (2 ^ 0 / 2) with 0. cbn [Z.eqb]. rewrite Z.div_small, Z.mod_small by lia. f_equal. f_equal. lia.
  - assert (2 ^ k = 2 ^ (k - 1) * 2) as Ek by (replace k with (k - 1 + 1) at 1 by lia; rewrite Z.pow_add_r; lia).
    rewrite Ek, Z.mul_assoc, !Z.div_mul by lia. pose proof (Z.pow_pos_nonneg 2 (k - 1)).
    rewrite (proj2 (Z.eqb_neq _ 0)) by lia. apply IH; lia.
Qed.

Lemma __div64_32_spec n base :
  0 ≤ n < 18446744073709551616 → 0 < base < 4294967296 →
  __div64_32 64 n base = Some (n / base, n mod base).
Proof.
  intros Hn Hb. unfold __div64_32. rewrite Z.shiftr_div_pow2, !Z.shiftl_mul_pow2 by lia. change (2 ^ 32) with 4294967296.
  pose proof (Z.div_mod n 4294967296 ltac:(lia)) as En. pose proof (Z.mod_pos_bound n 4294967296 ltac:(lia)) as Hlo.
  set (high := n / 4294967296) in *. set (lo := n mod 4294967296) in *.
  assert (0 ≤ high < 4294967296) as Hh by lia. rewrite (u32_small high) by lia.
  assert (∃ res rem, (if high >=? base then (high / base * 4294967296, u64 (n - high / base *u base * 4294967296)) else (0, n))
    = (res, rem) ∧ 0 ≤ rem < base * 2 ^ 32 ∧ rem < 18446744073709551616 ∧ 0 ≤ res ∧ n = rem + res * base)
    as (res & rem & -> & Hr & Hr64 & Hres & E).
  { change (2 ^ 32) with 4294967296. rewrite Z.geb_leb. destruct (Z.leb_spec base high).
    - pose proof (Z.div_mod high base ltac:(lia)) as Eh. pose proof (Z.mod_pos_bound high base ltac:(lia)).
      assert (0 ≤ high / base) by (apply Z.div_pos; lia).
      rewrite (u32_small (_ * base)), u64_small by nia. eexists _, _. split; [done |]. split_and!; nia.
    - exists 0, n. split_and!; done || nia. }
  assert (n / base = res + rem / base ∧ n mod base = rem mod base) as [-> ->].
  { rewrite E, Z.div_add, Z.mod_add by lia. split; lia. }
  destruct (double_loop_spec 64 0 base rem) as (j & ? & Ej & ? & ? & ?); try lia.
  rewrite Z.mul_1_r in Ej. change (2 ^ 0) with 1 in Ej. rewrite Ej.
  assert (rem / base ≤ rem) by (apply Z.div_le_upper_bound; nia).
  rewrite subtract_loop_spec; try lia.
  - do 2 f_equal. apply u32_small. pose proof (Z.mod_pos_bound rem base). lia.
  - assert (res + rem / base = n / base) as -> by (rewrite E, Z.div_add by lia; lia).
    assert (n / base ≤ n) by (apply Z.div_le_upper_bound; nia). lia.
Qed.

Lemma do_div_spec n base :
  0 ≤ n < 18446744073709551616 → 0 < base < 4294967296 → do_div n base = Some (n / base, n mod base).
Proof.
  intros Hn Hb. unfold do_div. destruct (Z.eqb_spec (Z.shiftr n 32) 0) as [E|E]; [|by apply __div64_32_spec].
  rewrite Z.shiftr_div_pow2 in E by lia. change (2 ^ 32) with 4294967296 in E.
  apply Z.div_small_iff in E; [|lia]. by rewrite u32_small by lia.
Qed.

(** C39: [__div64_32] divides any 64-bit number by any 32-bit number but zero:
    it returns after at most 64 rounds of its loops, with quotient and
    remainder, in spite of the doubled divisor reaching the sign bit. *)
Theorem div64_correct n base :
  0 ≤ n < 2 ^ 64 → 0 < base < 2 ^ 32 → __div64_32 64 n base = Some (n / base, n mod base).
Proof. apply __div64_32_spec. Qed.

Lemma div64_correct_witness : __div64_32 64 18446744073709551615 3000000000 = Some (6148914691, 709551615).
Proof. apply (div64_correct 18446744073709551615 3000000000); done. Defined.
