(* ===== verification/Number.v ===== *)
(** * Numbers as text: [lib/ctype.c] and the first half of [lib/vsprintf.c]

    Character classes, the [simple_strto*] family, the decimal conversion by
    multiplications and shifts, and [number], the formatter of integers. *)

From stdpp Require Import prelude strings.
From Stdlib Require Import ZArith Lia Ascii.
From S2P Require Import Prelude CString Div64.

Local Open Scope Z_scope.
Local Open Scope word_scope.

(** ** Characters *)

(** A character constant, and a string literal without its zero. *)
Definition ch (a : ascii) : Z := char_val a.
Arguments ch a%_char_scope.

Fixpoint chars (s : string) : list Z :=
  match s with EmptyString => [] | String a s => ch a :: chars s end.
Arguments chars s%_string_scope.

(** [*s], where [s] points into a C string: its zero at the end. *)
Definition cur (s : list Z) : Z := hd 0 s.

Inductive ctype_bit := _U | _L | _D | _C | _P | _S | _X | _SP.

Definition ctype_value (b : ctype_bit) : Z :=
  match b with
  | _U => 0x01 | _L => 0x02 | _D => 0x04 | _C => 0x08 | _P => 0x10 | _S => 0x20 | _X => 0x40 | _SP => 0x80
  end.

Coercion ctype_value : ctype_bit >-> Z.

Definition _ctype : list Z :=
  map (foldr (λ b : ctype_bit, Z.lor b) 0)
    [[_C]; [_C]; [_C]; [_C]; [_C]; [_C]; [_C]; [_C];
     [_C]; [_C; _S]; [_C; _S]; [_C; _S]; [_C; _S]; [_C; _S]; [_C]; [_C];
     [_C]; [_C]; [_C]; [_C]; [_C]; [_C]; [_C]; [_C];
     [_C]; [_C]; [_C]; [_C]; [_C]; [_C]; [_C]; [_C];
     [_S; _SP]; [_P]; [_P]; [_P]; [_P]; [_P]; [_P]; [_P];
     [_P]; [_P]; [_P]; [_P]; [_P]; [_P]; [_P]; [_P];
     [_D]; [_D]; [_D]; [_D]; [_D]; [_D]; [_D]; [_D];
     [_D]; [_D]; [_P]; [_P]; [_P]; [_P]; [_P]; [_P];
     [_P]; [_U; _X]; [_U; _X]; [_U; _X]; [_U; _X]; [_U; _X]; [_U; _X]; [_U];
     [_U]; [_U]; [_U]; [_U]; [_U]; [_U]; [_U]; [_U];
     [_U]; [_U]; [_U]; [_U]; [_U]; [_U]; [_U]; [_U];
     [_U]; [_U]; [_U]; [_P]; [_P]; [_P]; [_P]; [_P];
     [_P]; [_L; _X]; [_L; _X]; [_L; _X]; [_L; _X]; [_L; _X]; [_L; _X]; [_L];
     [_L]; [_L]; [_L]; [_L]; [_L]; [_L]; [_L]; [_L];
     [_L]; [_L]; [_L]; [_L]; [_L]; [_L]; [_L]; [_L];
     [_L]; [_L]; [_L]; [_P]; [_P]; [_P]; [_P]; [_C];
     []; []; []; []; []; []; []; []; []; []; []; []; []; []; []; [];
     []; []; []; []; []; []; []; []; []; []; []; []; []; []; []; [];
     [_S; _SP]; [_P]; [_P]; [_P]; [_P]; [_P]; [_P]; [_P]; [_P]; [_P]; [_P]; [_P]; [_P]; [_P]; [_P]; [_P];
     [_P]; [_P]; [_P]; [_P]; [_P]; [_P]; [_P]; [_P]; [_P]; [_P]; [_P]; [_P]; [_P]; [_P]; [_P]; [_P];
     [_U]; [_U]; [_U]; [_U]; [_U]; [_U]; [_U]; [_U]; [_U]; [_U]; [_U]; [_U]; [_U]; [_U]; [_U]; [_U];
     [_U]; [_U]; [_U]; [_U]; [_U]; [_U]; [_U]; [_P]; [_U]; [_U]; [_U]; [_U]; [_U]; [_U]; [_U]; [_L];
     [_L]; [_L]; [_L]; [_L]; [_L]; [_L]; [_L]; [_L]; [_L]; [_L]; [_L]; [_L]; [_L]; [_L]; [_L]; [_L];
     [_L]; [_L]; [_L]; [_L]; [_L]; [_L]; [_L]; [_P]; [_L]; [_L]; [_L]; [_L]; [_L]; [_L]; [_L]; [_L]].

Definition ismask (x : Z) : Z := nth (Z.to_nat (u8 x)) _ctype 0.

Definition isalnum (c : Z) : bool := negb (Z.land (ismask c) (Z.lor _U (Z.lor _L _D)) =? 0).
Definition isdigit (c : Z) : bool := negb (Z.land (ismask c) _D =? 0).
Definition islower (c : Z) : bool := negb (Z.land (ismask c) _L =? 0).
Definition isxdigit (c : Z) : bool := negb (Z.land (ismask c) (Z.lor _D _X) =? 0).

Definition toupper (c : Z) : Z := if islower c then u8 (c - (ch "a" - ch "A")) else c.

(** ** Reading numbers *)

Definition digit_value (c : Z) : Z :=
  if isdigit c then c - ch "0" else (if islower c then toupper c else c) - ch "A" + 10.

(** The loop of [simple_strtoul] and [simple_strtoull], on numbers reduced by [wrap]. *)
Fixpoint strto_loop (wrap : Z → Z) (result base : Z) (cp : list Z) : Z * list Z :=
  match cp with
  | [] => (result, cp)
  | c :: cp' =>
      if isxdigit c && (digit_value c <? base)
      then strto_loop wrap (wrap (result * base + digit_value c)) base cp'
      else (result, cp)
  end.

(** The base, and what follows a prefix. *)
Definition strto_base (cp : list Z) (base : Z) : Z * list Z :=
  let '(base, cp) :=
    if cur cp =? ch "0" then
      let cp := tl cp in
      let '(base, cp) := if (cur cp =? ch "x") && isxdigit (cur (tl cp)) then (16, tl cp) else (base, cp) in
      (if base =? 0 then 8 else base, cp)
    else (base, cp) in
  (if base =? 0 then 10 else base, cp).

(** The result and [*endp]. *)
Definition simple_strtoul (cp : list Z) (base : Z) : Z * list Z :=
  let '(base, cp) := strto_base cp base in strto_loop u32 0 base cp.

Definition simple_strtoull (cp : list Z) (base : Z) : Z * list Z :=
  let '(base, cp) := strto_base cp base in strto_loop u64 0 base cp.

Definition simple_strtol (cp : list Z) (base : Z) : Z * list Z :=
  if cur cp =? ch "-" then
    let '(r, endp) := simple_strtoul (tl cp) base in (s32 (u32 (- r)), endp)
  else let '(r, endp) := simple_strtoul cp base in (s32 r, endp).

Definition ustrtoul (cp : list Z) (base : Z) : Z * list Z :=
  let '(result, endp) := simple_strtoul cp base in
  let k := cur endp in
  let result := if k =? ch "G" then result *u 1024 else result in
  let result := if (k =? ch "G") || (k =? ch "M") then result *u 1024 else result in
  if (k =? ch "G") || (k =? ch "M") || (k =? ch "K") || (k =? ch "k") then
    let result := result *u 1024 in
    let endp :=
      if cur (tl endp) =? ch "i" then
        if cur (tl (tl endp)) =? ch "B" then drop 3 endp else drop 2 endp
      else endp in
    (s32 result, endp)
  else (s32 result, endp).

(** ** Decimal digits *)

Definition is_digit (c : Z) : bool := (c >=? ch "0") && (c <=? ch "9").

Fixpoint skip_atoi_loop (i : Z) (s : list Z) : Z * list Z :=
  match s with
  | c :: s' => if is_digit c then skip_atoi_loop (i *s 10 +s c -s ch "0") s' else (i, s)
  | [] => (i, s)
  end.

Definition skip_atoi (s : list Z) : Z * list Z := skip_atoi_loop 0 s.

(** What is written to [buf], the least significant digit first. *)
Definition put_dec_trunc (q : Z) : list Z :=
  let d1 := Z.land (Z.shiftr q 4) 0xf in
  let d2 := Z.land (Z.shiftr q 8) 0xf in
  let d3 := Z.shiftr q 12 in
  let d0 := u32 (6 * (d3 + d2 + d1) + Z.land q 0xf) in
  let q := Z.shiftr (d0 *u 0xcd) 11 in
  let d0 := d0 -u 10 * q in
  u8 (d0 + ch "0") ::
  let d1 := u32 (q + 9 * d3 + 5 * d2 + d1) in
  if negb (d1 =? 0) then
    let q := Z.shiftr (d1 *u 0xcd) 11 in
    let d1 := d1 -u 10 * q in
    u8 (d1 + ch "0") ::
    let d2 := u32 (q + 2 * d2) in
    if negb (d2 =? 0) || negb (d3 =? 0) then
      let q := Z.shiftr (d2 *u 0xd) 7 in
      let d2 := d2 -u 10 * q in
      u8 (d2 + ch "0") ::
      let d3 := u32 (q + 4 * d3) in
      if negb (d3 =? 0) then
        let q := Z.shiftr (d3 *u 0xcd) 11 in
        let d3 := d3 -u 10 * q in
        u8 (d3 + ch "0") ::
        if negb (q =? 0) then [u8 (q + ch "0")] else []
      else []
    else []
  else [].

Definition put_dec_full (q : Z) : list Z :=
  let d1 := Z.land (Z.shiftr q 4) 0xf in
  let d2 := Z.land (Z.shiftr q 8) 0xf in
  let d3 := Z.shiftr q 12 in
  let d0 := u32 (6 * (d3 + d2 + d1) + Z.land q 0xf) in
  let q := Z.shiftr (d0 *u 0xcd) 11 in
  let d0 := d0 -u 10 * q in
  let c0 := u8 (d0 + ch "0") in
  let d1 := u32 (q + 9 * d3 + 5 * d2 + d1) in
  let q := Z.shiftr (d1 *u 0xcd) 11 in
  let d1 := d1 -u 10 * q in
  let c1 := u8 (d1 + ch "0") in
  let d2 := u32 (q + 2 * d2) in
  let q := Z.shiftr (d2 *u 0xd) 7 in
  let d2 := d2 -u 10 * q in
  let c2 := u8 (d2 + ch "0") in
  let d3 := u32 (q + 4 * d3) in
  let q := Z.shiftr (d3 *u 0xcd) 11 in
  let d3 := d3 -u 10 * q in
  let c3 := u8 (d3 + ch "0") in
  let c4 := u8 (q + ch "0") in
  [c0; c1; c2; c3; c4].

Fixpoint put_dec (fuel : nat) (num : Z) : option (list Z) :=
  match fuel with
  | O => None
  | S fuel =>
      if num <? 100000 then Some (put_dec_trunc (u32 num))
      else
        match do_div num 100000 with
        | Some (num, rem) =>
            match put_dec fuel num with
            | Some buf => Some (put_dec_full rem ++ buf)
            | None => None
            end
        | None => None
        end
  end.

(** ** [number] *)

Inductive printf_flag := ZEROPAD | SIGN | PLUS | SPACE | LEFT | SMALL | SPECIAL.

Definition flag_value (f : printf_flag) : Z :=
  match f with
  | ZEROPAD => 1 | SIGN => 2 | PLUS => 4 | SPACE => 8 | LEFT => 16 | SMALL => 32 | SPECIAL => 64
  end.

Coercion flag_value : printf_flag >-> Z.

(** [type & flag] as a condition. *)
Definition has (type flag : Z) : bool := negb (Z.land type flag =? 0).

Definition digits : list Z := chars "0123456789ABCDEF".

(** [do { tmp[i++] = (digits[((unsigned char)num) & mask] | locase); num >>= shift; } while (num);] *)
Fixpoint put_pow2 (fuel : nat) (num mask shift locase : Z) : option (list Z) :=
  match fuel with
  | O => None
  | S fuel =>
      let c := Z.lor (nth (Z.to_nat (Z.land (u8 num) mask)) digits 0) locase in
      let num := Z.shiftr num shift in
      if num =? 0 then Some [c]
      else match put_pow2 fuel num mask shift locase with
           | Some tmp => Some (c :: tmp)
           | None => None
           end
  end.

(** [while (--size >= 0) *buf++ = c;]: what is written, and [size] afterwards. *)
Definition pad (size c : Z) : list Z * Z :=
  if size <=? 0 then ([], size - 1) else (replicate (Z.to_nat size) c, -1).

(** The sign, what is left of the number, and [size]. *)
Definition number_sign (num size type : Z) : list Z * Z * Z :=
  if has type SIGN then
    if s64 num <? 0 then ([ch "-"], u64 (- s64 num), size -s 1)
    else if has type PLUS then ([ch "+"], num, size -s 1)
    else if has type SPACE then ([ch " "], num, size -s 1)
    else ([], num, size)
  else ([], num, size).

(** The digits in [tmp], in reverse order. *)
Definition number_tmp (num base locase : Z) : option (list Z) :=
  if num =? 0 then Some [ch "0"]
  else if negb (base =? 10) then
    put_pow2 22 num (base - 1) (if base =? 16 then 4 else 3) locase
  else put_dec 4 num.

(** What [number] writes to [buf]. *)
Definition number (num base size precision type : Z) : option (list Z) :=
  let need_pfx := has type SPECIAL && negb (base =? 10) in
  let locase := Z.land type SMALL in
  let type := if has type LEFT then Z.land type (Z.lnot ZEROPAD) else type in
  let '(sign, num, size) := number_sign num size type in
  let size := if need_pfx then if base =? 16 then size -s 1 -s 1 else size -s 1 else size in
  match number_tmp num base locase with
  | None => None
  | Some tmp =>
      let i := Z.of_nat (length tmp) in
      let precision := if i >? precision then i else precision in
      let size := size -s precision in
      let '(lead, size) := if negb (has type (ZEROPAD + LEFT)) then pad size (ch " ") else ([], size) in
      let pfx :=
        if need_pfx then ch "0" :: (if base =? 16 then [Z.lor (ch "X") locase] else []) else [] in
      let '(mid, size) :=
        if negb (has type LEFT) then pad size (if has type ZEROPAD then ch "0" else ch " ") else ([], size) in
      (* while (i <= --precision) *buf++ = '0'; *)
      let zeros := replicate (Z.to_nat (precision - i)) (ch "0") in
      let '(trail, size) := pad size (ch " ") in
      Some (lead ++ sign ++ pfx ++ mid ++ zeros ++ rev tmp ++ trail)
  end.

(** ** The reference: digits by division *)

Fixpoint digits_of (fuel : nat) (b n : Z) : list Z :=
  match fuel with
  | O => []
  | S fuel => n mod b :: (if n / b =? 0 then [] else digits_of fuel b (n / b))
  end.

(** The digits of a 64-bit number, the least significant first. *)
Definition digits_in (b n : Z) : list Z := digits_of 64 b n.

Definition digit_char (locase d : Z) : Z := if d <? 10 then 48 + d else 55 + locase + d.

Lemma digits_of_S f b n : digits_of (S f) b n = n mod b :: (if n / b =? 0 then [] else digits_of f b (n / b)).
Proof. done. Qed.

Lemma digits_of_fuel b f g n :
  2 ≤ b → 0 ≤ n → n < b ^ Z.of_nat f → n < b ^ Z.of_nat g → (0 < f)%nat → (0 < g)%nat →
  digits_of f b n = digits_of g b n.
Proof.
  intros Hb. revert g n. induction f as [|f IH]; intros [|g] n Hn Hf Hg Lf Lg; try lia.
  cbn [digits_of]. f_equal. destruct (Z.eqb_spec (n / b) 0) as [E|E]; [done |].
  assert (0 < n / b) by (pose proof (Z.div_pos n b); lia).
  rewrite Nat2Z.inj_succ, Z.pow_succ_r in Hf, Hg by lia.
  assert (n / b < b ^ Z.of_nat f ∧ n / b < b ^ Z.of_nat g) as [? ?] by (split; apply Z.div_lt_upper_bound; lia).
  apply IH; try done; [lia | |]; (destruct f, g; [..]; cbn in *; lia).
Qed.

Lemma pow_2_64 b : 2 ≤ b → 18446744073709551616 ≤ b ^ 64.
Proof. intros Hb. change 18446744073709551616 with (2 ^ 64). apply Z.pow_le_mono_l. lia. Qed.

Lemma digits_in_eq b n :
  2 ≤ b → 0 ≤ n < 18446744073709551616 →
  digits_in b n = n mod b :: (if n / b =? 0 then [] else digits_in b (n / b)).
Proof.
  intros Hb Hn. unfold digits_in at 1. rewrite (digits_of_S 63).
  destruct (Z.eqb_spec (n / b) 0) as [E|E]; [done |].
  assert (0 < n / b) by (pose proof (Z.div_pos n b); lia).
  assert (n / b < 2 ^ 63) by (apply Z.div_lt_upper_bound; [lia |]; change (2 ^ 63) with 9223372036854775808; nia).
  pose proof (Z.pow_le_mono_l 2 b 63). pose proof (Z.pow_le_mono_l 2 b 64).
  apply (f_equal (cons _)), digits_of_fuel; lia.
Qed.

Lemma digits_in_lt b n : 2 ≤ b → Forall (λ d, 0 ≤ d < b) (digits_in b n).
Proof.
  intros Hb. unfold digits_in. generalize 64%nat as f. intros f. revert n.
  induction f as [|f IH]; intros n; constructor; [apply Z.mod_pos_bound; lia |]. case_match; [done | apply IH].
Qed.

(** Octal and hexadecimal digits by masks and shifts. *)
Lemma put_pow2_spec fuel num s locase :
  (0 < fuel)%nat → s = 3 ∨ s = 4 → locase = 0 ∨ locase = 32 → 0 ≤ num < (2 ^ s) ^ Z.of_nat fuel →
  put_pow2 fuel num (2 ^ s - 1) s locase = Some (map (digit_char locase) (digits_of fuel (2 ^ s) num)).
Proof.
  intros Hf Hs Hl. revert num. induction fuel as [|fuel IH]; intros num Hn; [lia |]. cbn [put_pow2 digits_of map].
  rewrite Z.shiftr_div_pow2 by lia.
  assert (Z.lor (nth (Z.to_nat (Z.land (u8 num) (2 ^ s - 1))) digits 0) locase = digit_char locase (num mod 2 ^ s)) as ->.
  { replace (2 ^ s - 1) with (Z.ones s) by (rewrite Z.ones_equiv; lia). rewrite Z.land_ones by lia.
    unfold u8. change 256 with (2 ^ 8). replace (2 ^ 8) with (2 ^ s * 2 ^ (8 - s)) by (destruct Hs as [-> | ->]; done).
    rewrite Z.rem_mul_r, Z.mul_comm, Z.mod_add, Z.mod_mod by (destruct Hs as [-> | ->]; done).
    assert (0 ≤ num mod 2 ^ s < 16) as Hd by (destruct Hs as [-> | ->];
      [pose proof (Z.mod_pos_bound num (2 ^ 3)) | pose proof (Z.mod_pos_bound num (2 ^ 4))]; lia).
    generalize dependent (num mod 2 ^ s). intros d Hd. revert d Hd. apply seqZ_forall.
    destruct Hl as [-> | ->]; repeat (constructor; [reflexivity |]); constructor. }
  destruct (Z.eqb_spec (num / 2 ^ s) 0) as [E|E]; [done |]. destruct fuel as [|fuel].
  - exfalso. apply E. apply Z.div_small. destruct Hs as [-> | ->]; cbn in Hn |- *; lia.
  - rewrite IH; [done | lia |]. assert (0 < 2 ^ s) by lia. split; [apply Z.div_pos; lia |].
    rewrite (Nat2Z.inj_succ (S fuel)), Z.pow_succ_r in Hn by lia. apply Z.div_lt_upper_bound; lia.
Qed.

(** ** Decimal digits *)

(** The five digits of [put_dec_full]. *)
Definition five_digits (q : Z) : list Z :=
  [q mod 10; q / 10 mod 10; q / 100 mod 10; q / 1000 mod 10; q / 10000 mod 10].

(** Division by ten with a multiplication and a shift. *)
Lemma div10_cd x : 0 ≤ x < 1024 → Z.shiftr (x *u 0xcd) 11 = x / 10.
Proof.
  intros Hx. apply Z.eqb_eq. apply (check_below_spec 1024 (λ x, Z.shiftr (x *u 0xcd) 11 =? x / 10)); [|done].
  by vm_compute.
Qed.

Lemma div10_d x : 0 ≤ x < 69 → Z.shiftr (x *u 0xd) 7 = x / 10.
Proof.
  intros Hx. apply Z.eqb_eq. apply (check_below_spec 69 (λ x, Z.shiftr (x *u 0xd) 7 =? x / 10)); [|done].
  by vm_compute.
Qed.

Lemma carry x y k : x = y + 10 * k → x mod 10 = y mod 10 ∧ x / 10 = y / 10 + k.
Proof. intros ->. rewrite (Z.mul_comm 10 k), Z.mod_add, Z.div_add by lia. done. Qed.

Lemma digit_written a : 0 ≤ a < 1024 → u8 (u32 (a - 10 * (a / 10)) + ch "0") = digit_char 0 (a mod 10).
Proof.
  intros Ha. pose proof (Z.mod_pos_bound a 10). rewrite Z.mod_eq in * by lia. change (ch "0") with 48. unfold digit_char.
  rewrite (proj2 (Z.ltb_lt _ 10)), u32_small, u8_small by lia. lia.
Qed.

(** The carries of the conversion: [a0] to [a3] are the sums the digits are
    taken from. *)
Section decimal.
Context (q : Z).
Hypothesis Hq : 0 ≤ q < 100000.
Let d1 := Z.land (Z.shiftr q 4) 0xf.
Let d2 := Z.land (Z.shiftr q 8) 0xf.
Let d3 := Z.shiftr q 12.
Let a0 := 6 * (d3 + d2 + d1) + Z.land q 0xf.
Let a1 := a0 / 10 + 9 * d3 + 5 * d2 + d1.
Let a2 := a1 / 10 + 2 * d2.
Let a3 := a2 / 10 + 4 * d3.

Lemma nibbles : q = 4096 * d3 + 256 * d2 + 16 * d1 + Z.land q 0xf ∧
  0 ≤ d3 ≤ 24 ∧ 0 ≤ d2 ≤ 15 ∧ 0 ≤ d1 ≤ 15 ∧ 0 ≤ Z.land q 0xf ≤ 15.
Proof using Hq.
  unfold d1, d2, d3. change 15 with (Z.ones 4). rewrite !Z.land_ones, !Z.shiftr_div_pow2 by lia.
  change (2 ^ 4) with 16. change (2 ^ 8) with 256. change (2 ^ 12) with 4096. change (Z.ones 4) with 15. clear d1 d2 d3 a0 a1 a2 a3.
  Z.to_euclidean_division_equations. lia.
Qed.

Lemma sums :
  (a0 mod 10 = q mod 10 ∧ a1 mod 10 = q / 10 mod 10 ∧ a2 mod 10 = q / 100 mod 10 ∧ a3 mod 10 = q / 1000 mod 10) ∧
  (q / 10 = a1 + 10 * (40 * d3 + 2 * d2) ∧ q / 100 = a2 + 10 * (4 * d3) ∧ q / 1000 = a3 ∧ q / 10000 = a3 / 10) ∧
  (0 ≤ a0 ≤ 339 ∧ 0 ≤ a1 ≤ 339 ∧ 0 ≤ a2 ≤ 63 ∧ 0 ≤ a3 ≤ 102) ∧
  0 ≤ d3 ∧ 0 ≤ d2 ∧ 9 * d3 + 5 * d2 ≤ a1.
Proof using Hq.
  destruct nibbles as (E & H3 & H2 & H1 & H0).
  assert (Hd : ∀ x n, 0 ≤ x ≤ n → 0 ≤ x / 10 ∧ 10 * (x / 10) ≤ n)
    by (intros; Z.to_euclidean_division_equations; lia).
  destruct (carry q a0 (409 * d3 + 25 * d2 + d1)) as [M0 Q0]; [subst a0; lia |].
  destruct (carry (q / 10) a1 (40 * d3 + 2 * d2)) as [M1 Q1]; [subst a1; lia |].
  rewrite Z.div_div in Q1 by lia. change (10 * 10) with 100 in Q1.
  destruct (carry (q / 100) a2 (4 * d3)) as [M2 Q2]; [subst a2; lia |].
  rewrite Z.div_div in Q2 by lia. change (100 * 10) with 1000 in Q2. fold a3 in Q2.
  assert (q / 10000 = a3 / 10) as Q3 by (rewrite <- Q2, Z.div_div by lia; done).
  assert (0 ≤ a0 ≤ 339) by (subst a0; lia). pose proof (Hd a0 339).
  assert (0 ≤ a1 ≤ 339) by (subst a1; lia). pose proof (Hd a1 339).
  assert (0 ≤ a2 ≤ 63) by (subst a2; lia). pose proof (Hd a2 63).
  assert (0 ≤ a3 ≤ 102) by (subst a3; lia). rewrite Q2. split_and!; subst a1 a2; done || lia.
Qed.

Lemma put_dec_full_eq : put_dec_full q = map (digit_char 0) (five_digits q).
Proof using Hq.
  destruct sums as ((M0 & M1 & M2 & M3) & (_ & _ & _ & Q3) & (B0 & B1 & B2 & B3) & _).
  unfold put_dec_full. fold d1 d2 d3. cbv zeta. fold a0. rewrite (u32_small a0), !(div10_cd a0) by lia. fold a1.
  rewrite (u32_small a1), !(div10_cd a1) by lia. fold a2.
  rewrite (u32_small a2), !(div10_d a2) by lia. fold a3.
  rewrite (u32_small a3), !(div10_cd a3), !digit_written by lia. unfold five_digits. cbn [map].
  rewrite M0, M1, M2, M3, Q3, (Z.mod_small (a3 / 10)) by (Z.to_euclidean_division_equations; lia).
  do 5 f_equal. unfold digit_char. change (ch "0") with 48.
  rewrite (proj2 (Z.ltb_lt _ 10)), u8_small by (Z.to_euclidean_division_equations; lia). lia.
Qed.

Lemma put_dec_trunc_eq : put_dec_trunc q = map (digit_char 0) (digits_in 10 q).
Proof using Hq.
  destruct sums as ((M0 & M1 & M2 & M3) & (Q1 & Q2 & Q3 & Q4) & (B0 & B1 & B2 & B3) & D3 & D2 & D1).
  unfold put_dec_trunc. fold d1 d2 d3. cbv zeta. fold a0. rewrite (u32_small a0), !(div10_cd a0) by lia. fold a1.
  rewrite (u32_small a1), !(div10_cd a1) by lia. fold a2.
  rewrite (u32_small a2), !(div10_d a2) by lia. fold a3.
  rewrite (u32_small a3), !(div10_cd a3), !digit_written by lia.
  assert (0 ≤ q / 10 < 10000 ∧ 0 ≤ q / 100 < 1000 ∧ 0 ≤ q / 1000 < 100 ∧ 0 ≤ q / 10000 < 10) as (R1 & R2 & R3 & R4)
    by (Z.to_euclidean_division_equations; lia).
  rewrite digits_in_eq, M0 by lia.
  replace (negb (a1 =? 0)) with (negb (q / 10 =? 0)) by lia.
  destruct (q / 10 =? 0); [done |]. cbn [negb map]. rewrite digits_in_eq, Z.div_div, M1 by lia. change (10 * 10) with 100.
  replace (negb (a2 =? 0) || negb (d3 =? 0)) with (negb (q / 100 =? 0)) by lia.
  destruct (q / 100 =? 0); [done |]. cbn [negb map]. rewrite digits_in_eq, Z.div_div, M2 by lia. change (100 * 10) with 1000.
  replace (negb (a3 =? 0)) with (negb (q / 1000 =? 0)) by lia.
  destruct (q / 1000 =? 0); [done |]. cbn [negb map]. rewrite digits_in_eq, Z.div_div, M3 by lia. change (1000 * 10) with 10000.
  replace (a3 / 10 =? 0) with (q / 10000 =? 0) by lia.
  destruct (q / 10000 =? 0); [done |]. cbn [negb map].
  rewrite digits_in_eq, (Z.mod_small (q / 10000)), (Z.div_small (q / 10000)), Q4 by lia. cbn [Z.eqb map].
  do 5 f_equal. unfold digit_char. change (ch "0") with 48. rewrite (proj2 (Z.ltb_lt _ 10)), u8_small by lia. lia.
Qed.
End decimal.

(** The five lowest digits come before the digits of the rest. *)
Lemma digits_in_split n :
  100000 ≤ n < 18446744073709551616 →
  digits_in 10 n = five_digits (n mod 100000) ++ digits_in 10 (n / 100000).
Proof.
  intros Hn. pose proof (Z.div_mod n 100000 ltac:(lia)) as E. pose proof (Z.mod_pos_bound n 100000 ltac:(lia)) as Hr.
  set (h := n / 100000) in *. set (r := n mod 100000) in *.
  assert (1 ≤ h) by lia.
  assert (∀ k j, 0 < k → 100000 = k * j * 10 → n / k = r / k + j * 10 * h) as Hk.
  { intros k j Hk Hj. rewrite E. replace (100000 * h + r) with (r + (j * 10 * h) * k) by nia. by rewrite Z.div_add by lia. }
  assert (∀ k j, 0 < k → 0 < j → 100000 = k * j * 10 → n / k mod 10 = r / k mod 10 ∧ 0 < n / k) as Hm.
  { intros k j Hk0 Hj0 Hj. rewrite (Hk k j Hk0 Hj). pose proof (Z.div_pos r k). split; [|nia].
    replace (r / k + j * 10 * h) with (r / k + (j * h) * 10) by lia. by rewrite Z.mod_add by lia. }
  destruct (Hm 1 10000) as [M0 _]; [done..|]. rewrite !Z.div_1_r in M0.
  destruct (Hm 10 1000) as [M1 P1]; [done..|]. destruct (Hm 100 100) as [M2 P2]; [done..|].
  destruct (Hm 1000 10) as [M3 P3]; [done..|]. destruct (Hm 10000 1) as [M4 P4]; [done..|].
  assert (∀ k, 0 < k → n / k < 18446744073709551616) as B by (intros; apply Z.div_lt_upper_bound; nia).
  pose proof (B 10). pose proof (B 100). pose proof (B 1000). pose proof (B 10000).
  unfold five_digits. cbn [app].
  rewrite digits_in_eq, M0, (proj2 (Z.eqb_neq (n / 10) 0)) by lia.
  rewrite (digits_in_eq 10 (n / 10)), M1, Z.div_div by lia. change (10 * 10) with 100.
  rewrite (proj2 (Z.eqb_neq (n / 100) 0)) by lia.
  rewrite (digits_in_eq 10 (n / 100)), M2, Z.div_div by lia. change (100 * 10) with 1000.
  rewrite (proj2 (Z.eqb_neq (n / 1000) 0)) by lia.
  rewrite (digits_in_eq 10 (n / 1000)), M3, Z.div_div by lia. change (1000 * 10) with 10000.
  rewrite (proj2 (Z.eqb_neq (n / 10000) 0)) by lia.
  rewrite (digits_in_eq 10 (n / 10000)), M4, Z.div_div by lia. change (10000 * 10) with 100000. fold h.
  by rewrite (proj2 (Z.eqb_neq h 0)) by lia.
Qed.

Lemma put_dec_spec f num :
  0 ≤ num < 18446744073709551616 → num < 100000 ^ Z.of_nat (S f) →
  put_dec (S f) num = Some (map (digit_char 0) (digits_in 10 num)).
Proof.
  revert num. induction f as [|f IH]; intros num Hn Hf; cbn [put_dec];
    (destruct (Z.ltb_spec num 100000) as [Hs|Hl]; [rewrite u32_small, put_dec_trunc_eq by lia; done |]); [cbn in Hf; lia |].
  cbn [put_dec] in IH. rewrite do_div_spec by lia. rewrite IH.
  - rewrite put_dec_full_eq by (apply Z.mod_pos_bound; lia). by rewrite (digits_in_split num), map_app by lia.
  - split; [apply Z.div_pos; lia | apply Z.div_lt_upper_bound; lia].
  - rewrite Nat2Z.inj_succ, Z.pow_succ_r in Hf by lia. apply Z.div_lt_upper_bound; lia.
Qed.

Lemma number_tmp_spec num base locase :
  0 ≤ num < 18446744073709551616 → base = 8 ∨ base = 10 ∨ base = 16 → locase = 0 ∨ locase = 32 →
  number_tmp num base locase = Some (map (digit_char locase) (digits_in base num)).
Proof.
  intros Hn Hb Hl. unfold number_tmp. destruct (Z.eqb_spec num 0) as [->|Hn0].
  { destruct Hb as [-> | [-> | ->]]; by destruct Hl as [-> | ->]. }
  destruct Hb as [-> | [-> | ->]]; cbn [Z.eqb Pos.eqb negb].
  - rewrite (put_pow2_spec 22 num 3) by (lia || auto). change (2 ^ 3) with 8. unfold digits_in.
    by rewrite (digits_of_fuel 8 22 64) by lia.
  - rewrite put_dec_spec by lia. apply (f_equal Some), map_ext_Forall.
    eapply Forall_impl; [apply digits_in_lt; lia |]. intros d Hd. cbn in Hd. unfold digit_char.
    by rewrite (proj2 (Z.ltb_lt d 10)) by lia.
  - rewrite (put_pow2_spec 22 num 4) by (lia || auto). change (2 ^ 4) with 16. unfold digits_in.
    by rewrite (digits_of_fuel 16 22 64) by lia.
Qed.

(** ** What [number] prints *)

Definition sign_of (num type : Z) : list Z :=
  if negb (has type SIGN) then []
  else if s64 num <? 0 then [ch "-"]
  else if has type PLUS then [ch "+"]
  else if has type SPACE then [ch " "] else [].

Definition magnitude (num type : Z) : Z := if has type SIGN && (s64 num <? 0) then - s64 num else num.

Definition prefix_of (base type : Z) : list Z :=
  if has type SPECIAL then
    if base =? 16 then [ch "0"; Z.lor (ch "X") (Z.land type SMALL)] else if base =? 8 then [ch "0"] else []
  else [].

(** Sign and prefix, at least [precision] digits, and the fill that makes the
    field [size] wide: behind them, between them, or in front. *)
Definition format_number (num base size precision type : Z) : list Z :=
  let head := sign_of num type ++ prefix_of base type in
  let ds := rev (map (digit_char (Z.land type SMALL)) (digits_in base (magnitude num type))) in
  let body := replicate (Z.to_nat (precision - Z.of_nat (length ds))) (ch "0") ++ ds in
  let room := Z.to_nat (size - Z.of_nat (length (head ++ body))) in
  if has type LEFT then head ++ body ++ replicate room (ch " ")
  else if has type ZEROPAD then head ++ replicate room (ch "0") ++ body
  else replicate room (ch " ") ++ head ++ body.

Lemma has_lor type f g : has type (Z.lor f g) = has type f || has type g.
Proof.
  unfold has. rewrite Z.land_lor_distr_r.
  destruct (Z.eqb_spec (Z.lor (Z.land type f) (Z.land type g)) 0) as [E|E].
  - apply Z.lor_eq_0_iff in E as [-> ->]. done.
  - destruct (Z.eqb_spec (Z.land type f) 0) as [E1|]; [|done].
    destruct (Z.eqb_spec (Z.land type g) 0) as [E2|]; [|done]. by rewrite E1, E2 in E.
Qed.

(** Without the flag that [LEFT] overrides. *)
Definition without_zeropad (type : Z) : Z := if has type LEFT then Z.land type (Z.lnot ZEROPAD) else type.

Lemma has_without type f : Z.land (Z.lnot ZEROPAD) f = f → has (without_zeropad type) f = has type f.
Proof. intros E. unfold without_zeropad. case_match; [|done]. unfold has. by rewrite <- Z.land_assoc, E. Qed.

Lemma has_zeropad type : has (without_zeropad type) ZEROPAD = negb (has type LEFT) && has type ZEROPAD.
Proof.
  unfold without_zeropad. destruct (has type LEFT); [|done]. unfold has.
  rewrite <- Z.land_assoc. change (Z.land (Z.lnot ZEROPAD) ZEROPAD) with 0. by rewrite Z.land_0_r.
Qed.

Lemma number_sign_spec num size type :
  -1073741824 < size < 1073741824 →
  number_sign num size (without_zeropad type) =
    (sign_of num type, if has type SIGN && (s64 num <? 0) then u64 (- s64 num) else num,
     size - Z.of_nat (length (sign_of num type))) ∧
  Z.of_nat (length (sign_of num type)) ≤ 1.
Proof.
  intros Hs. unfold number_sign, sign_of. rewrite !has_without by done.
  destruct (has type SIGN); cbn [negb andb]; [|split; [f_equal; cbn; lia | done]].
  repeat case_match; cbn; rewrite ?s32_small by lia; split; done || (repeat f_equal; lia).
Qed.

Lemma magnitude_range num type :
  0 ≤ num < 18446744073709551616 →
  0 ≤ magnitude num type < 18446744073709551616 ∧
  (if has type SIGN && (s64 num <? 0) then u64 (- s64 num) else num) = magnitude num type.
Proof.
  intros Hn. unfold magnitude. case_match eqn:E; [|done].
  assert (- s64 num = 18446744073709551616 - num ∧ 9223372036854775808 ≤ num) as [E2 ?].
  { apply andb_prop in E as [_ E]. apply Z.ltb_lt in E. unfold s64 in *. Z.to_euclidean_division_equations; lia. }
  rewrite u64_small by lia. lia.
Qed.

Lemma small_flag type : Z.land type SMALL = 0 ∨ Z.land type SMALL = 32.
Proof.
  change (flag_value SMALL) with (2 ^ 5). destruct (Z.testbit type 5) eqn:E; [right | left]; apply Z.bits_inj'; intros k Hk;
    rewrite Z.land_spec, ?Z.testbit_0_l; change 32 with (2 ^ 5); rewrite !Z.pow2_bits_eqb by lia;
    destruct (Z.eqb_spec 5 k) as [<-|]; by rewrite ?E, ?andb_false_r.
Qed.

(** [size] after the prefix is counted. *)
Lemma prefix_size base size type :
  base = 8 ∨ base = 10 ∨ base = 16 → -1073741824 ≤ size < 1073741824 →
  (if has type SPECIAL && negb (base =? 10) then if base =? 16 then size -s 1 -s 1 else size -s 1 else size) =
    size - Z.of_nat (length (prefix_of base type)) ∧
  (if has type SPECIAL && negb (base =? 10) then ch "0" :: (if base =? 16 then [Z.lor (ch "X") (Z.land type SMALL)] else [])
   else []) = prefix_of base type ∧ Z.of_nat (length (prefix_of base type)) ≤ 2.
Proof.
  intros Hb Hs. unfold prefix_of. destruct (has type SPECIAL); destruct Hb as [-> | [-> | ->]];
    cbn -[s32]; rewrite ?(s32_small (size - 1)), ?s32_small by lia; split_and!; done || lia.
Qed.

Lemma number_spec num base size precision type :
  0 ≤ num < 18446744073709551616 → base = 8 ∨ base = 10 ∨ base = 16 →
  -1073741824 < size < 1073741824 → -536870912 < precision < 536870912 →
  number num base size precision type = Some (format_number num base size precision type).
Proof.
  intros Hn Hb Hs Hp. unfold number, format_number. cbv zeta. fold (without_zeropad type).
  destruct (number_sign_spec num size type Hs) as [-> Ls]. destruct (magnitude_range num type Hn) as [Hm ->].
  set (sgn := sign_of num type) in *.
  destruct (prefix_size base (size - Z.of_nat (length sgn)) type Hb) as (-> & -> & Lp); [lia |].
  rewrite number_tmp_spec by (done || apply small_flag).
  set (pfx := prefix_of base type) in *. set (tmp := map _ (digits_in _ _)).
  assert (Z.of_nat (length tmp) ≤ 64) as Lt.
  { subst tmp. rewrite length_map. unfold digits_in. generalize (magnitude num type). intros n.
    change 64 with (Z.of_nat 64). generalize 64%nat as f. clear. intros f. revert n.
    induction f as [|f IH]; intros n; cbn [digits_of length]; [done |]. case_match; [cbn; lia |]. specialize (IH (n / base)). lia. }
  change (ZEROPAD + LEFT) with (Z.lor ZEROPAD LEFT). rewrite has_lor, has_zeropad, (has_without type LEFT) by done.
  set (i := Z.of_nat (length tmp)) in *. rewrite s32_small by (repeat case_match; lia).
  assert (replicate (Z.to_nat ((if i >? precision then i else precision) - i)) (ch "0") =
          replicate (Z.to_nat (precision - Z.of_nat (length (rev tmp)))) (ch "0")) as ->.
  { f_equal. rewrite length_rev. fold i. case_match; lia. }
  set (body := replicate (Z.to_nat (precision - _)) _ ++ rev tmp).
  assert (size - Z.of_nat (length ((sgn ++ pfx) ++ body)) =
          size - Z.of_nat (length sgn) - Z.of_nat (length pfx) - (if i >? precision then i else precision)) as ->.
  { subst body. rewrite !length_app, length_replicate, !length_rev. fold i. case_match; lia. }
  generalize (size - Z.of_nat (length sgn) - Z.of_nat (length pfx) - (if i >? precision then i else precision)).
  intros room. unfold pad.
  destruct (has type LEFT), (has type ZEROPAD); cbn [negb andb orb];
    destruct (Z.leb_spec room 0) as [Hr|Hr]; cbn [andb];
    rewrite ?(proj2 (Z.leb_le (room - 1) 0)), ?(proj2 (Z.leb_le (room - 1 - 1) 0)) by lia;
    rewrite ?(proj2 (Z.leb_le room 0)) by lia; cbn [Z.leb Z.compare];
    rewrite ?(Z2Nat.nonpos room) by lia; cbn [replicate app];
    try change (-1 - 1 <=? 0) with true; cbn iota; subst body; by rewrite ?app_nil_r, <- ?app_assoc.
Qed.

(** ** Reading back *)

(** Every digit that is printed is read as what it stands for. *)
Lemma digit_char_read locase d :
  locase = 0 ∨ locase = 32 → 0 ≤ d < 16 →
  isxdigit (digit_char locase d) = true ∧ digit_value (digit_char locase d) = d ∧
  (digit_char locase d =? ch "x") = false ∧ (digit_char locase d =? ch "0") = (d =? 0) ∧
  (d < 10 → is_digit (digit_char locase d) = true ∧ digit_char locase d - ch "0" = d).
Proof.
  intros Hl Hd. revert d Hd. apply seqZ_forall.
  destruct Hl as [-> | ->]; repeat (constructor; [split_and!; try reflexivity; intros; (lia || by split) |]); constructor.
Qed.

Lemma strto_loop_digits wrap locase b acc ds rest :
  locase = 0 ∨ locase = 32 → b ≤ 16 → Forall (λ d, 0 ≤ d < b) ds →
  strto_loop wrap acc b (map (digit_char locase) ds ++ rest) =
  strto_loop wrap (foldl (λ a d, wrap (a * b + d)) acc ds) b rest.
Proof.
  intros Hl Hb Hds. revert acc. induction Hds as [|d ds Hd _ IH]; intros acc; [done |]. cbn [map app strto_loop foldl].
  destruct (digit_char_read locase d Hl ltac:(lia)) as (-> & -> & _).
  rewrite (proj2 (Z.ltb_lt d b)) by lia. apply IH.
Qed.

Lemma fold_digits f b n :
  2 ≤ b → 0 ≤ n < b ^ Z.of_nat f → foldl (λ a d, u32 (a * b + d)) 0 (rev (digits_of f b n)) = u32 n.
Proof.
  intros Hb. revert n. induction f as [|f IH]; intros n Hn; [cbn in *; by replace n with 0 by lia |].
  cbn [digits_of rev]. rewrite foldl_app. cbn [foldl]. pose proof (Z.div_mod n b ltac:(lia)).
  destruct (Z.eqb_spec (n / b) 0) as [E|E].
  - cbn. f_equal. lia.
  - rewrite IH.
    + rewrite <- (u32_add_l (_ * _)), u32_mul_l, u32_add_l. f_equal. lia.
    + rewrite Nat2Z.inj_succ, Z.pow_succ_r in Hn by lia.
      split; [apply Z.div_pos; lia | apply Z.div_lt_upper_bound; lia].
Qed.

(** Digits, with leading zeros, are read as the number they stand for. *)
Lemma strtoul_digits locase b k n :
  locase = 0 ∨ locase = 32 → 2 ≤ b ≤ 16 → 0 ≤ n < 18446744073709551616 →
  simple_strtoul (replicate k (ch "0") ++ rev (map (digit_char locase) (digits_in b n))) b = (u32 n, []).
Proof.
  intros Hl Hb Hn. rewrite <- map_rev. set (ds := rev (digits_in b n)).
  assert (Forall (λ d, 0 ≤ d < b) ds) as Hds by (apply Forall_rev, digits_in_lt; lia).
  assert (foldl (λ a d, u32 (a * b + d)) 0 ds = u32 n) as Hval.
  { apply fold_digits; [lia |]. pose proof (pow_2_64 b). change (Z.of_nat 64) with 64. lia. }
  clearbody ds. unfold simple_strtoul.
  assert (∃ ds', strto_base (replicate k (ch "0") ++ map (digit_char locase) ds) b = (b, map (digit_char locase) ds') ∧
    Forall (λ d, 0 ≤ d < b) ds' ∧ foldl (λ a d, u32 (a * b + d)) 0 ds' = u32 n) as (ds' & -> & Hds' & <-).
  { replace (replicate k (ch "0")) with (map (digit_char locase) (replicate k 0)) by (clear; induction k as [|k IH]; cbn; by rewrite ?IH).
    rewrite <- map_app. assert (Forall (λ d, 0 ≤ d < b) (replicate k 0 ++ ds)) as Hall.
    { apply Forall_app. split; [|done]. apply Forall_replicate. lia. }
    assert (foldl (λ a d, u32 (a * b + d)) 0 (replicate k 0 ++ ds) = u32 n) as Hv.
    { rewrite <- Hval. clear. induction k as [|k IH]; [done |]. cbn. by rewrite Z.mul_0_l. }
    generalize dependent (replicate k 0 ++ ds). clear ds Hds Hval. intros ds Hds Hval. unfold strto_base.
    destruct ds as [|d ds]; [exists []; cbn [map cur hd]; change (0 =? ch "0") with false; cbv iota beta; by rewrite (proj2 (Z.eqb_neq b 0)) by lia |].
    inversion Hds as [|? ? Hd Hds']; subst. unfold cur. cbn [map hd tl].
    destruct (digit_char_read locase d Hl ltac:(lia)) as (_ & _ & _ & -> & _).
    destruct (Z.eqb_spec d 0) as [->|Hd0].
    - exists ds. assert ((hd 0 (map (digit_char locase) ds) =? ch "x") = false) as ->.
      { destruct ds as [|d' ds]; [done |]. inversion Hds'; subst. cbn [map hd].
        by apply digit_char_read; [|lia]. }
      cbn [andb]. rewrite (proj2 (Z.eqb_neq b 0)) by lia. rewrite (proj2 (Z.eqb_neq b 0)) by lia.
      split_and!; [done | done |]. rewrite <- Hval. cbn. by rewrite Z.mul_0_l.
    - exists (d :: ds). by rewrite (proj2 (Z.eqb_neq b 0)) by lia. }
  rewrite <- (app_nil_r (map _ ds')), (strto_loop_digits u32) by (done || lia). done.
Qed.

Lemma skip_atoi_digits n rest :
  0 ≤ n < 1073741824 → is_digit (cur rest) = false →
  skip_atoi (rev (map (digit_char 0) (digits_in 10 n)) ++ rest) = (n, rest).
Proof.
  intros Hn Hrest. unfold skip_atoi. rewrite <- map_rev. unfold digits_in.
  assert (n < 10 ^ Z.of_nat 64) as Hf by (change (10 ^ Z.of_nat 64) with (10 ^ 64); lia).
  revert Hf. generalize 64%nat as f. intros f Hf.
  assert (∀ r, skip_atoi_loop 0 (map (digit_char 0) (rev (digits_of f 10 n)) ++ r) = skip_atoi_loop n r) as ->.
  { revert n Hn Hf. induction f as [|f IH]; intros n Hn Hf r; [cbn in *; by replace n with 0 by lia |].
    rewrite Nat2Z.inj_succ, Z.pow_succ_r in Hf by lia. pose proof (Z.div_mod n 10 ltac:(lia)) as E.
    pose proof (Z.mod_pos_bound n 10 ltac:(lia)). pose proof (Z.div_pos n 10 ltac:(lia)).
    assert (n / 10 < 10 ^ Z.of_nat f) by (apply Z.div_lt_upper_bound; lia).
    destruct (digit_char_read 0 (n mod 10)) as (_ & _ & _ & _ & Hd); [by left | lia |].
    destruct Hd as [Hd Ed]; [lia |].
    assert (∀ i, i = n / 10 → skip_atoi_loop i (digit_char 0 (n mod 10) :: r) = skip_atoi_loop n r) as Hlast.
    { intros i ->. cbn [skip_atoi_loop]. rewrite Hd. change (ch "0") with 48 in *.
      f_equal. rewrite (s32_small (n / 10 * 10)), (s32_small (_ + digit_char _ _)), s32_small by lia. lia. }
    cbn [digits_of rev]. rewrite map_app, <- app_assoc. cbn [map app].
    destruct (Z.eqb_spec (n / 10) 0) as [E0|E0]; [by apply Hlast|].
    rewrite IH by lia. by apply Hlast. }
  destruct rest as [|c rest]; [done |]. cbn in Hrest |- *. by rewrite Hrest.
Qed.

(** ** Properties *)

(** C38: [number], whose decimal digits come from multiplications, shifts and
    groups of five, and whose other digits come from masks, prints every 64-bit
    number in base 8, 10 and 16 as the reference does: sign, prefix, at least
    [precision] of the digits division gives, and fill to [size], on the side
    and of the kind the flags ask for. *)
Theorem number_correct num base size precision type :
  0 ≤ num < 2 ^ 64 → base = 8 ∨ base = 10 ∨ base = 16 →
  -1073741824 < size < 1073741824 → -536870912 < precision < 536870912 →
  number num base size precision type = Some (format_number num base size precision type).
Proof. apply number_spec. Qed.

Lemma number_correct_witness :
  number 18446744073709551574 10 6 3 (Z.lor SIGN ZEROPAD) = Some (chars "-00042") ∧
  number 48879 16 8 (-1) (Z.lor SPECIAL SMALL) = Some (chars "  0xbeef").
Proof.
  split.
  - rewrite (number_correct 18446744073709551574 10 6 3 (Z.lor SIGN ZEROPAD)); [by vm_compute | lia | auto | lia | lia].
  - rewrite (number_correct 48879 16 8 (-1) (Z.lor SPECIAL SMALL)); [by vm_compute | lia | auto | lia | lia].
Defined.

(** What [number] prints with zero padding and without sign and prefix,
    [simple_strtoul] in the same base reads back to the end: the low 32 bits of
    the number, whatever width and precision. *)
Theorem number_read_back num base size precision type :
  0 ≤ num < 2 ^ 64 → base = 8 ∨ base = 10 ∨ base = 16 →
  -1073741824 < size < 1073741824 → -536870912 < precision < 536870912 →
  has type ZEROPAD = true → has type LEFT = false → has type SIGN = false → has type SPECIAL = false →
  ∃ text, number num base size precision type = Some text ∧ simple_strtoul text base = (u32 num, []).
Proof.
  intros Hn Hb Hs Hp Hz Hl Hsg Hsp. rewrite number_spec by done. eexists. split; [done |].
  unfold format_number, sign_of, prefix_of, magnitude. rewrite Hz, Hl, Hsg, Hsp. cbn [negb andb app].
  rewrite app_assoc, <- replicate_add. apply strtoul_digits; [apply small_flag | lia | done].
Qed.

Lemma number_read_back_witness :
  ∃ text, number 4294967295 16 12 (-1) (Z.lor SMALL ZEROPAD) = Some text ∧ simple_strtoul text 16 = (4294967295, []).
Proof.
  destruct (number_read_back 4294967295 16 12 (-1) (Z.lor SMALL ZEROPAD)) as (text & E & Er);
    [lia | auto | lia | lia | reflexivity .. |].
  exists text. split; [exact E |]. rewrite Er. reflexivity.
Defined.

(** With the prefix the reader finds the base itself, but it knows [0x] only. *)
Example prefix_read_back :
  number 48879 16 (-1) (-1) (Z.lor SPECIAL SMALL) = Some (chars "0xbeef") ∧
  simple_strtoul (chars "0xbeef") 0 = (48879, []) ∧
  number 48879 16 (-1) (-1) SPECIAL = Some (chars "0XBEEF") ∧
  simple_strtoul (chars "0XBEEF") 0 = (0, chars "XBEEF").
Proof. split_and!; by vm_compute. Qed.
