(* ===== verification/Printf.v ===== *)
(** * Formatted text: [vsprintf] of [lib/vsprintf.c]

    The second half of the file: strings, addresses, and the reader of format
    strings.  Texts are lists of characters without the zero at the end. *)

From stdpp Require Import prelude gmap strings.
From Stdlib Require Import ZArith Lia Ascii.
From S2P Require Import Prelude CString Memory Div64 Number.

Local Open Scope Z_scope.
Local Open Scope word_scope.

(** The arguments behind [...]: 32-bit words, 64-bit words, and strings, which
    may be null.  Taking an argument of another kind is undefined behaviour. *)
Inductive arg :=
  | Word (w : Z)
  | DWord (w : Z)
  | Str (s : option (list Z)).

(** [va_arg(args, int)], and what is left of the arguments. *)
Definition va_word (args : list arg) : option (Z * list arg) :=
  match args with Word w :: args => Some (u32 w, args) | _ => None end.

Definition va_dword (args : list arg) : option (Z * list arg) :=
  match args with DWord w :: args => Some (u64 w, args) | _ => None end.

Definition va_str (args : list arg) : option (option (list Z) * list arg) :=
  match args with Str s :: args => Some (s, args) | _ => None end.

(** ** Strings and addresses *)

(** [while (len < field_width--) *buf++ = ' ';]: what is written, and [field_width] afterwards. *)
Definition pad_field (len field_width : Z) : list Z * Z :=
  if len <? field_width then (replicate (Z.to_nat (field_width - len)) (ch " "), len - 1)
  else ([], field_width - 1).

(** [strnlen], where [count] is unsigned. *)
Definition strnlen (s : list Z) (count : Z) : Z := Z.min (Z.of_nat (length s)) (u32 count).

Definition put_string (s : option (list Z)) (field_width precision flags : Z) : list Z :=
  let s := default (chars "<NULL>") s in
  let len := strnlen s precision in
  let '(lead, field_width) := if negb (has flags LEFT) then pad_field len field_width else ([], field_width) in
  let body := take (Z.to_nat len) s in
  let '(trail, field_width) := pad_field len field_width in
  lead ++ body ++ trail.

Definition hex_asc : list Z := chars "0123456789abcdef".

Definition pack_hex_byte (byte : Z) : list Z :=
  [nth (Z.to_nat (Z.shiftr (Z.land byte 0xf0) 4)) hex_asc 0; nth (Z.to_nat (Z.land byte 0x0f)) hex_asc 0].

(** [for (i = 0; i < n; i++) ...], which writes [f] of the byte at each address
    and a separator between them; a fault where there is no memory. *)
Fixpoint put_bytes (m : mem) (addr : Z) (n : nat) (f : Z → list Z) (sep : nat → list Z) : option (list Z) :=
  match n with
  | O => Some []
  | S n =>
      match m !! addr, put_bytes m (addr + 1) n f sep with
      | Some b, Some rest => Some (f b ++ sep n ++ rest)
      | _, _ => None
      end
  end.

(** [n] bytes are still to come. *)
Definition mac_sep (flags : Z) (n : nat) : list Z :=
  if negb (has flags SPECIAL) && negb (bool_decide (n = O)) then [ch ":"] else [].

Definition ip6_sep (flags : Z) (n : nat) : list Z :=
  if Nat.odd n then [] else if negb (has flags SPECIAL) && negb (bool_decide (n = O)) then [ch ":"] else [].

Definition ip4_sep (n : nat) : list Z := if bool_decide (n = O) then [] else [ch "."].

Definition no_special (flags : Z) : Z := Z.land flags (Z.lnot SPECIAL).

Definition mac_address_string (m : mem) (addr field_width precision flags : Z) : option (list Z) :=
  match put_bytes m addr 6 pack_hex_byte (mac_sep flags) with
  | Some mac_addr => Some (put_string (Some mac_addr) field_width precision (no_special flags))
  | None => None
  end.

Definition ip6_addr_string (m : mem) (addr field_width precision flags : Z) : option (list Z) :=
  match put_bytes m addr 16 pack_hex_byte (ip6_sep flags) with
  | Some ip6_addr => Some (put_string (Some ip6_addr) field_width precision (no_special flags))
  | None => None
  end.

Definition ip4_addr_string (m : mem) (addr field_width precision flags : Z) : option (list Z) :=
  match put_bytes m addr 4 (λ b, rev (put_dec_trunc b)) ip4_sep with
  | Some ip4_addr => Some (put_string (Some ip4_addr) field_width precision (no_special flags))
  | None => None
  end.

(** An address without a suffix that is known. *)
Definition plain_pointer (ptr field_width precision flags : Z) : option (list Z) :=
  let flags := Z.lor flags SMALL in
  let '(field_width, flags) :=
    if field_width =? -1 then (2 * 4, Z.lor flags ZEROPAD) else (field_width, flags) in
  number ptr 16 field_width precision flags.

(** [fmt] is what follows the [p]; the board has [CONFIG_CMD_NET]. *)
Definition pointer (m : mem) (fmt : list Z) (ptr field_width precision flags : Z) : option (list Z) :=
  if ptr =? 0 then Some (put_string (Some (chars "(null)")) field_width precision flags)
  else
    let c := cur fmt in
    if c =? ch "m" then mac_address_string m ptr field_width precision (Z.lor flags SPECIAL)
    else if c =? ch "M" then mac_address_string m ptr field_width precision flags
    else if (c =? ch "i") || (c =? ch "I") then
      let flags := if c =? ch "i" then Z.lor flags SPECIAL else flags in
      if cur (tl fmt) =? ch "6" then ip6_addr_string m ptr field_width precision flags
      else if cur (tl fmt) =? ch "4" then ip4_addr_string m ptr field_width precision flags
      else plain_pointer ptr field_width precision (no_special flags)
    else plain_pointer ptr field_width precision flags.

(** ** Conversion specifications *)

(** From [repeat:]; [fmt] is behind the percent sign. *)
Fixpoint get_flags (flags : Z) (fmt : list Z) : Z * list Z :=
  match fmt with
  | c :: fmt' =>
      if c =? ch "-" then get_flags (Z.lor flags LEFT) fmt'
      else if c =? ch "+" then get_flags (Z.lor flags PLUS) fmt'
      else if c =? ch " " then get_flags (Z.lor flags SPACE) fmt'
      else if c =? ch "#" then get_flags (Z.lor flags SPECIAL) fmt'
      else if c =? ch "0" then get_flags (Z.lor flags ZEROPAD) fmt'
      else (flags, fmt)
  | [] => (flags, fmt)
  end.

(** The state of the conversion: the width or the precision, the flags, and
    what is left of the format and of the arguments. *)
Definition get_width (flags : Z) (fmt : list Z) (args : list arg) : option (Z * Z * list Z * list arg) :=
  if is_digit (cur fmt) then let '(w, fmt) := skip_atoi fmt in Some (w, flags, fmt, args)
  else if cur fmt =? ch "*" then
    match va_word args with
    | Some (w, args) =>
        let w := s32 w in
        if w <? 0 then Some (s32 (- w), Z.lor flags LEFT, tl fmt, args) else Some (w, flags, tl fmt, args)
    | None => None
    end
  else Some (-1, flags, fmt, args).

Definition get_precision (fmt : list Z) (args : list arg) : option (Z * list Z * list arg) :=
  if cur fmt =? ch "." then
    let fmt := tl fmt in
    match
      (if is_digit (cur fmt) then let '(p, fmt) := skip_atoi fmt in Some (p, fmt, args)
       else if cur fmt =? ch "*" then
         match va_word args with Some (p, args) => Some (s32 p, tl fmt, args) | None => None end
       else Some (-1, fmt, args))
    with
    | Some (p, fmt, args) => Some (if p <? 0 then 0 else p, fmt, args)
    | None => None
    end
  else Some (-1, fmt, args).

Definition get_qualifier (fmt : list Z) : Z * list Z :=
  let c := cur fmt in
  if (c =? ch "h") || (c =? ch "l") || (c =? ch "L") || (c =? ch "Z") || (c =? ch "z") || (c =? ch "t") then
    let fmt := tl fmt in
    if (c =? ch "l") && (cur fmt =? ch "l") then (ch "L", tl fmt) else (c, fmt)
  else (-1, fmt).

(** [(signed short)z] *)
Definition s16 (z : Z) : Z := (z + 32768) mod 65536 - 32768.

(** The argument of an integer conversion, as a 64-bit number. *)
Definition get_num (qualifier flags : Z) (args : list arg) : option (Z * list arg) :=
  if qualifier =? ch "L" then va_dword args
  else
    match va_word args with
    | None => None
    | Some (w, args) =>
        if qualifier =? ch "l" then Some (if has flags SIGN then u64 (s32 w) else w, args)
        else if (qualifier =? ch "Z") || (qualifier =? ch "z") then Some (w, args)
        else if qualifier =? ch "t" then Some (u64 (s32 w), args)
        else if qualifier =? ch "h" then Some (if has flags SIGN then u64 (s16 (u16 w)) else u16 w, args)
        else Some (if has flags SIGN then u64 (s32 w) else w, args)
    end.

Fixpoint skip_alnum (fmt : list Z) : list Z :=
  match fmt with
  | c :: fmt' => if isalnum c then skip_alnum fmt' else fmt
  | [] => fmt
  end.

(** What one conversion writes, the number it stores behind a pointer, and
    what is left of the format and of the arguments. *)
Record step := Step {
  st_out : list Z;
  st_store : option (Z * Z);
  st_fmt : list Z;
  st_args : list arg;
}.

(** The [switch]; [len] is [str - buf]. *)
Definition convert (m : mem) (len flags field_width precision qualifier : Z) (fmt : list Z) (args : list arg)
    : option step :=
  let c := cur fmt in
  let integer (base flags : Z) :=
    match get_num qualifier flags args with
    | Some (num, args) =>
        match number num base field_width precision flags with
        | Some out => Some (Step out None (tl fmt) args)
        | None => None
        end
    | None => None
    end in
  if c =? ch "c" then
    match va_word args with
    | Some (w, args) =>
        let fill := replicate (Z.to_nat (field_width - 1)) (ch " ") in
        Some (Step (if negb (has flags LEFT) then fill ++ [u8 w] else u8 w :: fill) None (tl fmt) args)
    | None => None
    end
  else if c =? ch "s" then
    match va_str args with
    | Some (s, args) => Some (Step (put_string s field_width precision flags) None (tl fmt) args)
    | None => None
    end
  else if c =? ch "p" then
    match va_word args with
    | Some (ptr, args) =>
        match pointer m (tl fmt) ptr field_width precision flags with
        | Some out => Some (Step out None (skip_alnum (tl fmt)) args)
        | None => None
        end
    | None => None
    end
  else if c =? ch "n" then
    match va_word args with
    | Some (ip, args) => Some (Step [] (Some (ip, len)) (tl fmt) args)
    | None => None
    end
  else if c =? ch "%" then Some (Step [ch "%"] None (tl fmt) args)
  else if c =? ch "o" then integer 8 flags
  else if c =? ch "x" then integer 16 (Z.lor flags SMALL)
  else if c =? ch "X" then integer 16 flags
  else if (c =? ch "d") || (c =? ch "i") then integer 10 (Z.lor flags SIGN)
  else if c =? ch "u" then integer 10 flags
  else
    match fmt with
    | [] => Some (Step [ch "%"] None [] args)
    | c :: fmt => Some (Step [ch "%"; c] None fmt args)
    end.

(** One conversion specification; [fmt] is behind the percent sign. *)
Definition directive (m : mem) (len : Z) (fmt : list Z) (args : list arg) : option step :=
  let '(flags, fmt) := get_flags 0 fmt in
  match get_width flags fmt args with
  | None => None
  | Some (field_width, flags, fmt, args) =>
      match get_precision fmt args with
      | None => None
      | Some (precision, fmt, args) =>
          let '(qualifier, fmt) := get_qualifier fmt in
          convert m len flags field_width precision qualifier fmt args
      end
  end.

(** The text so far is [str], the stores so far [stores]. *)
Fixpoint vsprintf_loop (fuel : nat) (m : mem) (str : list Z) (stores : list (Z * Z)) (fmt : list Z) (args : list arg)
    : option (list Z * list (Z * Z)) :=
  match fmt with
  | [] => Some (str, stores)
  | c :: fmt' =>
      match fuel with
      | O => None
      | S fuel =>
          if negb (c =? ch "%") then vsprintf_loop fuel m (str ++ [c]) stores fmt' args
          else
            match directive m (Z.of_nat (length str)) fmt' args with
            | Some st =>
                vsprintf_loop fuel m (str ++ st_out st) (stores ++ option_list (st_store st)) (st_fmt st) (st_args st)
            | None => None
            end
      end
  end.

(** The text in [buf], without the zero behind it, and the numbers stored by
    the [n] conversions.  Every round takes a character of the format. *)
Definition vsprintf (m : mem) (fmt : list Z) (args : list arg) : option (list Z * list (Z * Z)) :=
  vsprintf_loop (length fmt) m [] [] fmt args.

Definition sprintf (m : mem) (fmt : list Z) (args : list arg) : option (list Z * list (Z * Z)) := vsprintf m fmt args.

Example vsprintf_example :
  vsprintf {[ 4096 := 192; 4097 := 168; 4098 := 0; 4099 := 7 ]}
    (chars "%3d%%|%-6s|%#06x|%pI4!|%.*d|%hd|%p|%n%Q")
    [Word 42; Str (Some (chars "abc")); Word 255; Word 4096; Word 3; Word 5; Word 65535; Word 16; Word 8192] =
  Some (chars " 42%|abc   |0x00ff|192.168.0.7!|005|-1|00000010|%Q", [(8192, 48)]).
Proof. by vm_compute. Qed.

(** ** Format strings as syntax *)

Inductive flag := FMinus | FPlus | FSpace | FHash | FZero.
Inductive qualifier := QNone | QShort | QLong | QLongLong.
Inductive conversion := ConvD | ConvI | ConvU | ConvO | ConvLowX | ConvUpX.

#[export] Instance flag_eq_dec : EqDecision flag.
Proof. solve_decision. Defined.

(** A conversion specification of an integer or of a string, without [*]. *)
Record layout := Lay {
  l_flags : list flag;
  l_width : option Z;
  l_precision : option Z;
}.

Inductive item :=
  | ILit (c : Z)
  | IPercent
  | INum (l : layout) (q : qualifier) (v : conversion) (w : Z)
  | IText (l : layout) (s : option (list Z)).

(** *** Their text *)

Definition decimal (n : Z) : list Z := rev (map (digit_char 0) (digits_in 10 n)).

Definition flag_char (f : flag) : Z :=
  match f with FMinus => ch "-" | FPlus => ch "+" | FSpace => ch " " | FHash => ch "#" | FZero => ch "0" end.

Definition qualifier_text (q : qualifier) : list Z :=
  match q with QNone => [] | QShort => chars "h" | QLong => chars "l" | QLongLong => chars "ll" end.

Definition conversion_char (v : conversion) : Z :=
  match v with
  | ConvD => ch "d" | ConvI => ch "i" | ConvU => ch "u" | ConvO => ch "o" | ConvLowX => ch "x" | ConvUpX => ch "X"
  end.

Definition layout_text (l : layout) (rest : list Z) : list Z :=
  map flag_char (l_flags l) ++ match l_width l with Some n => decimal n | None => [] end ++
  match l_precision l with Some n => ch "." :: decimal n | None => [] end ++ rest.

Definition item_text (i : item) : list Z :=
  match i with
  | ILit c => [c]
  | IPercent => chars "%%"
  | INum l q v _ => ch "%" :: layout_text l (qualifier_text q ++ [conversion_char v])
  | IText l _ => ch "%" :: layout_text l [ch "s"]
  end.

(** *** Their arguments, and what they stand for *)

Definition item_args (i : item) : list arg :=
  match i with
  | INum _ QLongLong _ w => [DWord w]
  | INum _ _ _ w => [Word w]
  | IText _ s => [Str s]
  | _ => []
  end.

Definition flag_bit (f : flag) : Z :=
  match f with FMinus => LEFT | FPlus => PLUS | FSpace => SPACE | FHash => SPECIAL | FZero => ZEROPAD end.

Definition flag_bits (fs : list flag) : Z := foldl (λ a f, Z.lor a (flag_bit f)) 0 fs.

Definition signed (v : conversion) : bool := match v with ConvD | ConvI => true | _ => false end.

Definition conversion_bits (v : conversion) : Z :=
  match v with ConvD | ConvI => SIGN | ConvLowX => SMALL | _ => 0 end.

Definition conversion_base (v : conversion) : Z :=
  match v with ConvO => 8 | ConvLowX | ConvUpX => 16 | _ => 10 end.

(** The argument at its type, as a 64-bit number. *)
Definition value_of (q : qualifier) (v : conversion) (w : Z) : Z :=
  match q, signed v with
  | QShort, true => u64 (s16 (u16 w))
  | QShort, false => u16 w
  | QLongLong, _ => u64 w
  | _, true => u64 (s32 w)
  | _, false => u32 w
  end.

(** A string, cut at the precision, in a field. *)
Definition format_string (s : option (list Z)) (width precision : option Z) (left : bool) : list Z :=
  let s := default (chars "<NULL>") s in
  let s := match precision with Some n => take (Z.to_nat n) s | None => s end in
  let fill := replicate (Z.to_nat (default 0 width) - length s) (ch " ") in
  if left then s ++ fill else fill ++ s.

(** What the code prints. *)
Definition item_printed (i : item) : list Z :=
  match i with
  | ILit c => [c]
  | IPercent => [ch "%"]
  | INum l q v w =>
      format_number (value_of q v w) (conversion_base v) (default (-1) (l_width l)) (default (-1) (l_precision l))
        (Z.lor (flag_bits (l_flags l)) (conversion_bits v))
  | IText l s => format_string s (l_width l) (l_precision l) (bool_decide (FMinus ∈ l_flags l))
  end.

(** *** What C99 prescribes *)

(** The argument at its type. *)
Definition typed_value (q : qualifier) (v : conversion) (w : Z) : Z :=
  match q, signed v with
  | QShort, true => s16 (u16 w)
  | QShort, false => u16 w
  | QLongLong, true => s64 w
  | QLongLong, false => u64 w
  | _, true => s32 w
  | _, false => u32 w
  end.

Definition lower (v : conversion) : Z := match v with ConvLowX => 0x20 | _ => 0 end.

(** The digits of a number: as many as the precision asks for at least, and none
    for zero with precision zero. *)
Definition c99_digits (v : conversion) (precision : option Z) (n : Z) : list Z :=
  let ds := if (n =? 0) && bool_decide (precision = Some 0) then []
            else rev (map (digit_char (lower v)) (digits_in (conversion_base v) n)) in
  replicate (Z.to_nat (default 1 precision) - length ds) (ch "0") ++ ds.

(** An integer with its sign, its prefix and the fill up to the width.  The flag
    [#] makes the first digit of an octal number a zero and puts [0x] or [0X] in
    front of a hexadecimal one other than zero; [-] overrides [0], [+] overrides
    the space, and a precision switches [0] off. *)
Definition c99_number (l : layout) (v : conversion) (x : Z) : list Z :=
  let fl f := bool_decide (f ∈ l_flags l) in
  let sign := if negb (signed v) then [] else if x <? 0 then [ch "-"]
              else if fl FPlus then [ch "+"] else if fl FSpace then [ch " "] else [] in
  let ds := c99_digits v (l_precision l) (Z.abs x) in
  let ds := if fl FHash && (conversion_base v =? 8) && negb (bool_decide (head ds = Some (ch "0")))
            then ch "0" :: ds else ds in
  let prefix := if fl FHash && (conversion_base v =? 16) && negb (x =? 0)
                then [ch "0"; match v with ConvLowX => ch "x" | _ => ch "X" end] else [] in
  let room := (Z.to_nat (default 0%Z (l_width l)) - length (sign ++ prefix ++ ds))%nat in
  if fl FMinus then sign ++ prefix ++ ds ++ replicate room (ch " ")
  else if fl FZero && bool_decide (l_precision l = None) then sign ++ prefix ++ replicate room (ch "0") ++ ds
  else replicate room (ch " ") ++ sign ++ prefix ++ ds.

Definition item_out (i : item) : list Z :=
  match i with
  | INum l q v w => c99_number l v (typed_value q v w)
  | i => item_printed i
  end.

(** The specifications of integers for which the code prints what C99 prescribes: [0]
    does not come with a precision, unless [-] overrides it; zero is not printed
    with precision zero or with [#]; [#] is used where C99 defines it, and with
    an octal number not longer than the precision makes it. *)
Definition conforming (i : item) : Prop :=
  match i with
  | INum l q v w =>
      let n := Z.abs (typed_value q v w) in
      (FZero ∈ l_flags l → FMinus ∈ l_flags l ∨ l_precision l = None) ∧
      (n = 0 → l_precision l ≠ Some 0) ∧
      (FHash ∈ l_flags l → n ≠ 0 ∧ conversion_base v ≠ 10 ∧
         (v = ConvO → default 0 (l_precision l) ≤ Z.of_nat (length (digits_in 8 n))))
  | _ => True
  end.

(** A width does not start with a zero, which would be a flag; numbers and
    strings have the lengths the [int]s of the code can count. *)
Definition layout_ok (l : layout) : Prop :=
  match l_width l with Some n => 1 ≤ n < 268435456 | None => True end ∧
  match l_precision l with Some n => 0 ≤ n < 268435456 | None => True end.

Definition item_ok (i : item) : Prop :=
  match i with
  | ILit c => c ≠ ch "%"
  | IPercent => True
  | INum l _ _ _ => layout_ok l
  | IText l s => layout_ok l ∧ Z.of_nat (length (default [] s)) < 268435456
  end.

(** ** Reading a specification *)

(** The first digit of a number other than zero is not zero. *)
Lemma digits_head b n :
  2 ≤ b → 0 ≤ n < 18446744073709551616 →
  ∃ d ds, rev (digits_in b n) = d :: ds ∧ 0 ≤ d < b ∧ (0 < n → 0 < d).
Proof.
  intros Hb Hn. unfold digits_in.
  assert (n < b ^ Z.of_nat 64) as Hf.
  { assert (2 ^ 64 ≤ b ^ 64) by (apply Z.pow_le_mono_l; lia). change (2 ^ 64) with 18446744073709551616 in *.
    change (Z.of_nat 64) with 64. lia. }
  assert (0 < 64)%nat as H0 by lia. revert Hf H0. generalize 64%nat as f. intros f. revert n Hn.
  induction f as [|f IH]; intros n Hn Hf H0; [lia |]. cbn [digits_of rev].
  pose proof (Z.mod_pos_bound n b). pose proof (Z.div_mod n b). destruct (Z.eqb_spec (n / b) 0) as [E|E].
  - exists (n mod b), []. cbn. split_and!; try done; lia.
  - rewrite Nat2Z.inj_succ, Z.pow_succ_r in Hf by lia. pose proof (Z.div_pos n b).
    assert (n / b < b ^ Z.of_nat f) by (apply Z.div_lt_upper_bound; lia).
    assert (n / b ≤ n) by (apply Z.div_le_upper_bound; nia).
    destruct (IH (n / b)) as (d & ds & -> & ? & ?); [lia | done | destruct f; cbn in *; lia |].
    exists d, (ds ++ [n mod b]). split_and!; done || lia.
Qed.

Lemma decimal_cons n : 0 ≤ n < 18446744073709551616 → ∃ d ds, decimal n = digit_char 0 d :: ds ∧ 0 ≤ d < 10 ∧ (0 < n → 0 < d).
Proof.
  intros Hn. destruct (digits_head 10 n) as (d & ds & E & ?); [lia | done |].
  exists d, (map (digit_char 0) ds). split; [|done]. unfold decimal. by rewrite <- map_rev, E.
Qed.

(** Puts the codes of the character constants. *)
Ltac ch_codes :=
  repeat match goal with |- context [ch ?a] => let v := eval vm_compute in (ch a) in change (ch a) with v end.

(** The characters that end flags, width and precision: letters and the dot. *)
Definition ends_flags (c : Z) : bool := ((c =? ch ".") || (ch "A" <=? c)).

Lemma ends_flags_spec c :
  ends_flags c = true →
  is_digit c = false ∧ (c =? ch "*") = false ∧ (c =? ch "-") = false ∧ (c =? ch "+") = false ∧
  (c =? ch " ") = false ∧ (c =? ch "#") = false ∧ (c =? ch "0") = false.
Proof. unfold ends_flags, is_digit. ch_codes. lia. Qed.

Lemma get_flags_spec a fs rest :
  ends_flags (cur rest) = true ∨ (ch "1" ≤ cur rest ≤ ch "9") →
  get_flags a (map flag_char fs ++ rest) = (foldl (λ a f, Z.lor a (flag_bit f)) a fs, rest).
Proof.
  intros Hr. revert a. induction fs as [|f fs IH]; intros a; cbn [map app foldl].
  - destruct rest as [|c rest]; [done |]. cbn [get_flags].
    assert ((c =? ch "-") = false ∧ (c =? ch "+") = false ∧ (c =? ch " ") = false ∧ (c =? ch "#") = false ∧ (c =? ch "0") = false)
      as (-> & -> & -> & -> & ->); [|done].
    destruct Hr as [(_ & _ & ? & ? & ? & ? & ?)%ends_flags_spec | Hr]; [done |].
    revert Hr. ch_codes. cbn [cur hd]. lia.
  - destruct f; apply IH.
Qed.

Lemma get_width_spec fl w rest args :
  match w with Some n => 1 ≤ n < 268435456 | None => True end → ends_flags (cur rest) = true →
  get_width fl (match w with Some n => decimal n | None => [] end ++ rest) args = Some (default (-1) w, fl, rest, args).
Proof.
  intros Hw Hr. destruct (ends_flags_spec _ Hr) as (Hd & Hst & _). unfold get_width. destruct w as [n|].
  - destruct (decimal_cons n ltac:(lia)) as (d & ds & E & Hd' & _). unfold cur at 1. rewrite E at 1. cbn [app hd].
    destruct (digit_char_read 0 d) as (_ & _ & _ & _ & Hg); [by left | lia |]. destruct Hg as [-> _]; [lia |].
    unfold decimal. by rewrite skip_atoi_digits by (done || lia).
  - cbn [app]. by rewrite Hd, Hst.
Qed.

Lemma get_precision_spec p rest args :
  match p with Some n => 0 ≤ n < 268435456 | None => True end → ends_flags (cur rest) = true → (cur rest =? ch ".") = false →
  get_precision (match p with Some n => ch "." :: decimal n | None => [] end ++ rest) args =
    Some (default (-1) p, rest, args).
Proof.
  intros Hp Hr Hdot. destruct (ends_flags_spec _ Hr) as (Hd & Hst & _). unfold get_precision. destruct p as [n|].
  - cbn [app cur hd tl]. change (ch "." =? ch ".") with true. cbv iota.
    destruct (decimal_cons n ltac:(lia)) as (d & ds & E & Hd' & _). unfold cur at 1. rewrite E at 1. cbn [app hd].
    destruct (digit_char_read 0 d) as (_ & _ & _ & _ & Hg); [by left | lia |]. destruct Hg as [-> _]; [lia |].
    unfold decimal. rewrite skip_atoi_digits by (done || lia). by rewrite (proj2 (Z.ltb_ge n 0)) by lia.
  - cbn [app]. by rewrite Hdot.
Qed.

Lemma directive_layout m len l rest args :
  layout_ok l → ends_flags (cur rest) = true → (cur rest =? ch ".") = false →
  directive m len (layout_text l rest) args =
    let '(q, fmt) := get_qualifier rest in
    convert m len (flag_bits (l_flags l)) (default (-1) (l_width l)) (default (-1) (l_precision l)) q fmt args.
Proof.
  intros [Hw Hp] Hr Hdot. unfold directive, layout_text.
  assert (ends_flags (cur (match l_precision l with Some n => ch "." :: decimal n | None => [] end ++ rest)) = true) as Hp'
    by by destruct (l_precision l).
  rewrite get_flags_spec; [by rewrite get_width_spec, get_precision_spec by done |].
  destruct (l_width l) as [n|]; [right | by left].
  destruct (decimal_cons n ltac:(lia)) as (d & ds & -> & Hd & Hd0). cbn [app cur hd]. unfold digit_char.
  rewrite (proj2 (Z.ltb_lt d 10)) by lia. ch_codes. lia.
Qed.

(** ** What is printed *)

Lemma layout_text_app l x y : layout_text l x ++ y = layout_text l (x ++ y).
Proof. unfold layout_text. by rewrite <- !app_assoc. Qed.

Lemma has_flag f fs v :
  has (Z.lor (flag_bits fs) (conversion_bits v)) (flag_bit f) = bool_decide (f ∈ fs).
Proof.
  assert (∀ x y, has (Z.lor x y) (flag_bit f) = has x (flag_bit f) || has y (flag_bit f)) as Hl.
  { intros x y. unfold has. rewrite !(Z.land_comm _ (flag_bit f)). apply has_lor. }
  rewrite Hl. replace (has (conversion_bits v) (flag_bit f)) with false by (by destruct v, f).
  rewrite orb_false_r. unfold flag_bits.
  assert (∀ a, has (foldl (λ a f, Z.lor a (flag_bit f)) a fs) (flag_bit f) =
               has a (flag_bit f) || bool_decide (f ∈ fs)) as Hf.
  { induction fs as [|g fs IH]; intros a; cbn [foldl]; [by rewrite orb_false_r |].
    rewrite IH, Hl, <- orb_assoc. f_equal. rewrite (bool_decide_ext (f ∈ g :: fs) (f = g ∨ f ∈ fs))
      by apply elem_of_cons. rewrite bool_decide_or. by destruct f, g. }
  rewrite Hf. by destruct f.
Qed.

Lemma has_left fs : has (flag_bits fs) LEFT = bool_decide (FMinus ∈ fs).
Proof. rewrite <- (has_flag FMinus fs ConvU). cbn [conversion_bits]. by rewrite Z.lor_0_r. Qed.

Lemma put_string_spec s l :
  layout_ok l → Z.of_nat (length (default [] s)) < 268435456 →
  put_string s (default (-1) (l_width l)) (default (-1) (l_precision l)) (flag_bits (l_flags l)) =
  format_string s (l_width l) (l_precision l) (bool_decide (FMinus ∈ l_flags l)).
Proof.
  intros [Hw Hp] Hs. unfold put_string, format_string. rewrite has_left. set (t := default (chars "<NULL>") s).
  assert (Z.of_nat (length t) < 268435456) as Ht by (subst t; by destruct s).
  assert (take (Z.to_nat (strnlen t (default (-1) (l_precision l)))) t =
          match l_precision l with Some n => take (Z.to_nat n) t | None => t end ∧
          strnlen t (default (-1) (l_precision l)) =
          Z.of_nat (length (match l_precision l with Some n => take (Z.to_nat n) t | None => t end))) as [Et El].
  { unfold strnlen. destruct (l_precision l) as [n|]; cbn [default from_option id].
    - rewrite u32_small by lia. rewrite length_take. split; [|lia].
      destruct (Z.le_gt_cases n (Z.of_nat (length t))); [by rewrite Z.min_r by lia |].
      rewrite Z.min_l by lia. rewrite !take_ge by lia. done.
    - change (u32 (-1)) with 4294967295. rewrite Z.min_l by lia. by rewrite take_ge by lia. }
  rewrite Et, El. clear Et El. set (b := match l_precision l with Some n => take (Z.to_nat n) t | None => t end).
  set (len := Z.of_nat (length b)).
  assert (replicate (Z.to_nat (default (-1) (l_width l) - len)) (ch " ") =
          replicate (Z.to_nat (default 0 (l_width l)) - length b) (ch " ")) as E.
  { f_equal. destruct (l_width l); cbn [default from_option id]; lia. }
  rewrite <- E. set (fw := default (-1) (l_width l)). unfold pad_field. clearbody b fw.
  destruct (bool_decide (FMinus ∈ l_flags l)); cbn [negb]; destruct (Z.ltb_spec len fw) as [Hc|Hc].
  - done.
  - by rewrite Z2Nat.nonpos by lia.
  - rewrite (proj2 (Z.ltb_ge len (len - 1))) by lia. by rewrite app_nil_r.
  - rewrite (proj2 (Z.ltb_ge len _)) by lia. by rewrite Z2Nat.nonpos, app_nil_r by lia.
Qed.

Lemma value_of_range q v w : 0 ≤ value_of q v w < 18446744073709551616.
Proof.
  assert (∀ z, 0 ≤ u64 z < 18446744073709551616) by (intros; apply Z.mod_pos_bound; lia).
  pose proof (u32_range w). pose proof (u16_range w). unfold value_of. destruct q, (signed v); auto; lia.
Qed.

Lemma s32_u32 w : s32 (u32 w) = s32 w.
Proof. word_lia. Qed.

Lemma u16_u32 w : u16 (u32 w) = u16 w.
Proof. unfold u16, u32. symmetry. by apply Znumtheory.Zmod_div_mod; [..|exists 65536]. Qed.

(** Evaluates comparisons of given characters. *)
Ltac ch_tests :=
  repeat match goal with |- context [?a =? ch ?b] =>
    let v := eval vm_compute in (a =? ch b) in
    lazymatch v with true => idtac | false => idtac end;
    change (a =? ch b) with v
  end; cbn [andb orb negb]; cbv iota.

Definition qualifier_code (q : qualifier) : Z :=
  match q with QNone => -1 | QShort => ch "h" | QLong => ch "l" | QLongLong => ch "L" end.

(** The argument of an integer conversion. *)
Lemma get_num_spec q v fl l w args :
  has fl SIGN = signed v →
  get_num (qualifier_code q) fl (item_args (INum l q v w) ++ args) = Some (value_of q v w, args).
Proof.
  intros Hs. unfold get_num, value_of. destruct q; cbn [qualifier_code item_args app va_word va_dword]; ch_tests;
    rewrite ?Hs, ?s32_u32, ?u16_u32; by destruct (signed v).
Qed.

Lemma has_sign fs v : has (Z.lor (flag_bits fs) (conversion_bits v)) SIGN = signed v.
Proof.
  assert (∀ x y, has (Z.lor x y) SIGN = has x SIGN || has y SIGN) as Hl.
  { intros x y. unfold has. rewrite !(Z.land_comm _ SIGN). apply has_lor. }
  rewrite Hl. assert (has (flag_bits fs) SIGN = false) as ->; [|by destruct v].
  unfold flag_bits. assert (has 0 SIGN = false) as H0 by done. revert H0. generalize 0 as a.
  induction fs as [|f fs IH]; intros a Ha; [done |]. apply IH. rewrite Hl, Ha. by destruct f.
Qed.

Lemma qualifier_spec q v rest :
  get_qualifier (qualifier_text q ++ conversion_char v :: rest) = (qualifier_code q, conversion_char v :: rest).
Proof. by destruct q, v. Qed.

Lemma convert_num m len q v l w rest args :
  layout_ok l →
  convert m len (flag_bits (l_flags l)) (default (-1) (l_width l)) (default (-1) (l_precision l)) (qualifier_code q)
    (conversion_char v :: rest) (item_args (INum l q v w) ++ args) =
  Some (Step (item_printed (INum l q v w)) None rest args).
Proof.
  intros [Hw Hp]. pose proof (value_of_range q v w). pose proof (has_sign (l_flags l) v) as Hs.
  assert (-1 ≤ default (-1) (l_width l) < 268435456) by (destruct (l_width l); cbn; lia).
  assert (-1 ≤ default (-1) (l_precision l) < 268435456) by (destruct (l_precision l); cbn; lia).
  unfold convert, cur. cbn [hd tl item_printed].
  destruct v; cbn [conversion_char conversion_base conversion_bits] in *; ch_tests; rewrite ?Z.lor_0_r in *;
    rewrite get_num_spec by done; by rewrite number_spec by (lia || auto).
Qed.

(** A specification and its argument give its output. *)
Lemma directive_item m len i fmt rest args :
  item_ok i → item_text i = ch "%" :: fmt → 
  directive m len (fmt ++ rest) (item_args i ++ args) = Some (Step (item_printed i) None rest args).
Proof.
  intros Hok E. destruct i as [c| |l q v w|l s]; cbn [item_text item_ok] in *.
  - by injection E as ->.
  - injection E as <-. done.
  - injection E as <-. rewrite layout_text_app, <- app_assoc. cbn [app].
    rewrite directive_layout; [| done | by destruct q, v | by destruct q, v].
    rewrite qualifier_spec. by apply convert_num.
  - injection E as <-. destruct Hok as [Hl Hs]. rewrite layout_text_app. cbn [app].
    rewrite directive_layout; [| done | done | done]. cbn [item_args item_printed app].
    rewrite <- put_string_spec by done. done.
Qed.

Lemma vsprintf_loop_items fuel m str stores items args :
  Forall item_ok items → (length (concat (map item_text items)) ≤ fuel)%nat →
  vsprintf_loop fuel m str stores (concat (map item_text items)) (concat (map item_args items) ++ args) =
  Some (str ++ concat (map item_printed items), stores).
Proof.
  intros Hok. revert fuel str. induction Hok as [|i items Hi _ IH]; intros fuel str Hf; cbn [map concat] in *.
  { destruct fuel; by rewrite app_nil_r. }
  rewrite length_app in Hf. rewrite (app_assoc str).
  assert ((∃ c, i = ILit c) ∨ ∃ fmt, item_text i = ch "%" :: fmt) as [[c ->] | [fmt E]] by (destruct i; cbn; eauto).
  - cbn [item_text item_args item_printed item_ok app length] in *. destruct fuel as [|fuel]; [lia |]. cbn [vsprintf_loop].
    rewrite (proj2 (Z.eqb_neq c _)) by done. cbn [negb]. rewrite IH by lia. done.
  - rewrite E in *. cbn [app length] in *. destruct fuel as [|fuel]; [lia |]. cbn [vsprintf_loop].
    rewrite Z.eqb_refl. cbn [negb]. rewrite <- (app_assoc (item_args i)), (directive_item _ _ i) by done.
    cbn [st_out st_store st_fmt st_args option_list]. rewrite app_nil_r. apply IH. lia.
Qed.

(** *** The conforming specifications *)

Lemma small_bits fs v : Z.land (Z.lor (flag_bits fs) (conversion_bits v)) SMALL = lower v.
Proof.
  rewrite Z.land_lor_distr_l.
  assert (∀ a, Z.land a SMALL = 0 → Z.land (foldl (λ a f, Z.lor a (flag_bit f)) a fs) SMALL = 0) as Hf.
  { induction fs as [|g fs IH]; intros a Ha; [done |]. apply IH. rewrite Z.land_lor_distr_l, Ha. by destruct g. }
  unfold flag_bits. rewrite Hf by done. by destruct v.
Qed.

Lemma s64_u64 z : -9223372036854775808 ≤ z < 9223372036854775808 → s64 (u64 z) = z.
Proof.
  intros Hz. unfold s64, u64. rewrite Zplus_mod_idemp_l, Z.mod_small; lia.
Qed.

Lemma typed_value_range q v w :
  if signed v then -9223372036854775808 ≤ typed_value q v w < 9223372036854775808
  else 0 ≤ typed_value q v w < 18446744073709551616.
Proof.
  pose proof (u32_range w). pose proof (u16_range w). pose proof (s32_range w).
  assert (0 ≤ u64 w < 18446744073709551616) by (apply Z.mod_pos_bound; lia).
  assert (-9223372036854775808 ≤ s64 w < 9223372036854775808)
    by (unfold s64; pose proof (Z.mod_pos_bound (w + 9223372036854775808) 18446744073709551616); lia).
  assert (-32768 ≤ s16 (u16 w) < 32768)
    by (unfold s16; pose proof (Z.mod_pos_bound (u16 w + 32768) 65536); lia).
  unfold typed_value. unfold in_s32 in *. destruct q, (signed v); lia.
Qed.

(** The 64-bit number [number] gets stands for the argument. *)
Lemma value_typed q v w :
  (signed v = true → s64 (value_of q v w) = typed_value q v w) ∧
  (signed v = false → value_of q v w = typed_value q v w).
Proof.
  pose proof (typed_value_range q v w) as Hr. unfold value_of, typed_value in *.
  split; intros E; rewrite E in *; destruct q; try done; try (apply s64_u64; lia).
  unfold s64, u64. by rewrite Zplus_mod_idemp_l.
Qed.

(** The parts of what [number] prints are those of C99. *)
Lemma sign_conforms l q v w :
  sign_of (value_of q v w) (Z.lor (flag_bits (l_flags l)) (conversion_bits v)) =
  if negb (signed v) then [] else if typed_value q v w <? 0 then [ch "-"]
  else if bool_decide (FPlus ∈ l_flags l) then [ch "+"] else if bool_decide (FSpace ∈ l_flags l) then [ch " "] else [].
Proof.
  unfold sign_of. rewrite has_sign, (has_flag FPlus), (has_flag FSpace).
  destruct (signed v) eqn:E; [|done]. cbn [negb]. by rewrite (proj1 (value_typed q v w) E).
Qed.

Lemma magnitude_conforms fs q v w :
  magnitude (value_of q v w) (Z.lor (flag_bits fs) (conversion_bits v)) = Z.abs (typed_value q v w).
Proof.
  unfold magnitude. rewrite has_sign. pose proof (typed_value_range q v w) as Hr. destruct (signed v) eqn:E; cbn [andb].
  - rewrite (proj1 (value_typed q v w) E). destruct (Z.ltb_spec (typed_value q v w) 0); [lia |].
    pose proof (proj1 (value_typed q v w) E) as Hs. pose proof (value_of_range q v w) as Hv. unfold s64 in Hs.
    rewrite Z.abs_eq by lia. clear Hr. Z.to_euclidean_division_equations; lia.
  - rewrite (proj2 (value_typed q v w) E). lia.
Qed.

Lemma prefix_conforms fs v :
  prefix_of (conversion_base v) (Z.lor (flag_bits fs) (conversion_bits v)) =
  if bool_decide (FHash ∈ fs) then
    if conversion_base v =? 16 then [ch "0"; match v with ConvLowX => ch "x" | _ => ch "X" end]
    else if conversion_base v =? 8 then [ch "0"] else []
  else [].
Proof. unfold prefix_of. rewrite (has_flag FHash), small_bits. by destruct v. Qed.

(** Padding with zeros behind a zero is padding in front of it. *)
Lemma zeros_shift n (x : list Z) :
  ch "0" :: replicate n (ch "0") ++ x = replicate n (ch "0") ++ ch "0" :: x.
Proof. induction n as [|n IH]; cbn; [done | by rewrite IH]. Qed.

Lemma room_conforms w n : Z.to_nat (default (-1) w - Z.of_nat n) = (Z.to_nat (default 0%Z w) - n)%nat.
Proof. destruct w; cbn; lia. Qed.

Lemma digits_conform v p n :
  0 ≤ n < 18446744073709551616 → (n = 0 → p ≠ Some 0) →
  let ds := rev (map (digit_char (lower v)) (digits_in (conversion_base v) n)) in
  c99_digits v p n = replicate (Z.to_nat (default (-1) p - Z.of_nat (length ds))) (ch "0") ++ ds.
Proof.
  intros Hn H0. destruct (digits_head (conversion_base v) n) as (d & ds & Ed & _); [by destruct v | done |].
  cbv zeta. unfold c99_digits. rewrite <- map_rev, Ed. cbn [map length].
  replace ((n =? 0) && bool_decide (p = Some 0)) with false.
  - cbn [length]. f_equal. f_equal. destruct p; cbn; lia.
  - destruct (Z.eqb_spec n 0); [|done]. by rewrite bool_decide_false by auto.
Qed.

(** An octal number other than zero does not start with a zero. *)
Lemma octal_head p n :
  0 < n < 18446744073709551616 → default 0 p ≤ Z.of_nat (length (digits_in 8 n)) →
  bool_decide (head (c99_digits ConvO p n) = Some (ch "0")) = false.
Proof.
  intros Hn Hp. rewrite digits_conform by lia. cbn [conversion_base]. rewrite length_rev, length_map.
  replace (Z.to_nat (default (-1) p - _)) with 0%nat by (destruct p; cbn in *; lia). cbn [replicate app].
  destruct (digits_head 8 n) as (d & ds & Ed & Hd & Hd0); [lia | lia |]. rewrite <- map_rev, Ed. cbn [map head].
  apply bool_decide_false. intros [= E]. revert E. unfold digit_char. ch_codes.
  rewrite (proj2 (Z.ltb_lt d 10)) by lia. lia.
Qed.

(** The place of the fill, when the flag [0] comes without a precision. *)
Ltac pad_cases :=
  match goal with HZ : FZero ∈ l_flags ?l → _ |- _ =>
    destruct (bool_decide_reflect (FMinus ∈ l_flags l)); [done |];
    destruct (bool_decide_reflect (FZero ∈ l_flags l)) as [Hz|]; [| done];
    destruct (HZ Hz) as [| Hp]; [done |]; rewrite (bool_decide_true _ Hp); done
  end.

Lemma item_conforms i : conforming i → item_printed i = item_out i.
Proof.
  destruct i as [c| |l q v w|l s]; try done. intros (HZ & H0 & HH). cbn [item_printed item_out].
  pose proof (typed_value_range q v w) as Hr. pose proof (octal_head (l_precision l) (Z.abs (typed_value q v w))) as Hoct.
  unfold format_number, c99_number. rewrite sign_conforms, magnitude_conforms, prefix_conforms, small_bits.
  rewrite (has_flag FMinus), (has_flag FZero). set (x := typed_value q v w) in *.
  assert (0 ≤ Z.abs x < 18446744073709551616) as Hx by (destruct (signed v); lia).
  cbv zeta. rewrite <- digits_conform by done. set (B := c99_digits v (l_precision l) (Z.abs x)).
  set (sg := if negb (signed v) then _ else _). clearbody sg. rewrite room_conforms, <- !app_assoc.
  destruct (bool_decide_reflect (FHash ∈ l_flags l)) as [Hh|Hh]; cbn [andb app].
  - destruct (HH Hh) as (Hn & Hbase & Hlen). rewrite (proj2 (Z.eqb_neq x 0)) by lia.
    destruct v; cbn [conversion_base] in *; try lia; cbn [Z.eqb Pos.eqb andb negb app].
    + unfold B. rewrite Hoct by (lia || auto). fold B. cbn [negb].
      destruct (bool_decide_reflect (FMinus ∈ l_flags l)); [done |].
      destruct (bool_decide_reflect (FZero ∈ l_flags l)) as [Hz|]; [|done].
      destruct (HZ Hz) as [|Hp]; [done |]. rewrite (bool_decide_true _ Hp). cbn [andb]. by rewrite zeros_shift.
    + pad_cases.
    + pad_cases.
  - pad_cases.
Qed.

(** ** Properties *)

(** C37: A format string made of characters, percent signs, and specifications of
    integers and strings with flags, width, precision and length prints, in
    order, the characters and each argument at its type and in its field, as C99
    prescribes it ([item_out]): [vsprintf] returns, reads every specification as
    what it stands for and takes exactly its argument.  Left out are the
    specifications of integers that the code prints otherwise ([conforming]): the
    flag 0 with a precision, zero with precision 0 or with the flag #, and an
    octal number with # and a precision beyond its length.  A NULL string, not
    defined in C99, prints as a fixed text. *)
Theorem vsprintf_correct m items args :
  Forall item_ok items → Forall conforming items →
  vsprintf m (concat (map item_text items)) (concat (map item_args items) ++ args) = Some (concat (map item_out items), []).
Proof.
  intros Hok Hc. unfold vsprintf. rewrite vsprintf_loop_items by done. cbn [app]. do 3 f_equal.
  apply map_ext_Forall. eapply Forall_impl; [exact Hc |]. apply item_conforms.
Qed.

Lemma vsprintf_correct_witness :
  vsprintf ∅ (chars "at %-#6x|%+.3hd|%5.2s.")
    [Word 171; Word 65531; Str (Some (chars "xyz")); Word 0] = Some (chars "at 0xab  |-005|   xy.", []).
Proof.
  apply (vsprintf_correct ∅
    (map ILit (chars "at ") ++
     [INum (Lay [FMinus; FHash] (Some 6) None) QNone ConvLowX 171; ILit (ch "|");
      INum (Lay [FPlus] None (Some 3)) QShort ConvD 65531; ILit (ch "|");
      IText (Lay [] (Some 5) (Some 2)) (Some (chars "xyz")); ILit (ch ".")]) [Word 0]).
  - repeat constructor; vm_compute; try done.
  - repeat constructor; cbn; try done; set_solver.
Defined.

(** Where the comment of the code, which promises the C99 behaviour, is not met:
    a precision does not switch the flag [0] off, zero with precision zero is
    printed, zero gets a prefix, an octal number gets one zero too many, and the
    symbol suffixes of [p] are skipped. *)
Example not_c99 :
  vsprintf ∅ (chars "%05.3d|%.0d|%#x|%#.3o|%pS") [Word 42; Word 0; Word 0; Word 8; Word 4096] =
  Some (chars "00042|0|0x0|0010|00001000", []).
Proof. by vm_compute. Qed.
