(* ===== verification/Crc.v ===== *)
(** * Checksums: [lib/crc16.c], [lib/crc32.c]

    Both are computed a byte at a time with tables; [crc32] also reads aligned
    words.  The reference is the shift register of the division by the
    polynomial, one bit at a time: the CRC-16 is shown to be the remainder of
    the message, and the CRC-32 to agree with the register on the bytes in
    memory, whatever the alignment, and to differ for messages that differ in
    four consecutive bytes only. *)

From stdpp Require Import prelude gmap.
From Stdlib Require Import ZArith Lia.
From S2P Require Import Prelude Prog Memory.

Local Open Scope Z_scope.
Local Open Scope word_scope.

(** ** [crc16.c] *)

Definition crc16_tab : list Z :=
  [
   0x0000; 0x1021; 0x2042; 0x3063; 0x4084; 0x50a5; 0x60c6; 0x70e7;
   0x8108; 0x9129; 0xa14a; 0xb16b; 0xc18c; 0xd1ad; 0xe1ce; 0xf1ef;
   0x1231; 0x0210; 0x3273; 0x2252; 0x52b5; 0x4294; 0x72f7; 0x62d6;
   0x9339; 0x8318; 0xb37b; 0xa35a; 0xd3bd; 0xc39c; 0xf3ff; 0xe3de;
   0x2462; 0x3443; 0x0420; 0x1401; 0x64e6; 0x74c7; 0x44a4; 0x5485;
   0xa56a; 0xb54b; 0x8528; 0x9509; 0xe5ee; 0xf5cf; 0xc5ac; 0xd58d;
   0x3653; 0x2672; 0x1611; 0x0630; 0x76d7; 0x66f6; 0x5695; 0x46b4;
   0xb75b; 0xa77a; 0x9719; 0x8738; 0xf7df; 0xe7fe; 0xd79d; 0xc7bc;
   0x48c4; 0x58e5; 0x6886; 0x78a7; 0x0840; 0x1861; 0x2802; 0x3823;
   0xc9cc; 0xd9ed; 0xe98e; 0xf9af; 0x8948; 0x9969; 0xa90a; 0xb92b;
   0x5af5; 0x4ad4; 0x7ab7; 0x6a96; 0x1a71; 0x0a50; 0x3a33; 0x2a12;
   0xdbfd; 0xcbdc; 0xfbbf; 0xeb9e; 0x9b79; 0x8b58; 0xbb3b; 0xab1a;
   0x6ca6; 0x7c87; 0x4ce4; 0x5cc5; 0x2c22; 0x3c03; 0x0c60; 0x1c41;
   0xedae; 0xfd8f; 0xcdec; 0xddcd; 0xad2a; 0xbd0b; 0x8d68; 0x9d49;
   0x7e97; 0x6eb6; 0x5ed5; 0x4ef4; 0x3e13; 0x2e32; 0x1e51; 0x0e70;
   0xff9f; 0xefbe; 0xdfdd; 0xcffc; 0xbf1b; 0xaf3a; 0x9f59; 0x8f78;
   0x9188; 0x81a9; 0xb1ca; 0xa1eb; 0xd10c; 0xc12d; 0xf14e; 0xe16f;
   0x1080; 0x00a1; 0x30c2; 0x20e3; 0x5004; 0x4025; 0x7046; 0x6067;
   0x83b9; 0x9398; 0xa3fb; 0xb3da; 0xc33d; 0xd31c; 0xe37f; 0xf35e;
   0x02b1; 0x1290; 0x22f3; 0x32d2; 0x4235; 0x5214; 0x6277; 0x7256;
   0xb5ea; 0xa5cb; 0x95a8; 0x8589; 0xf56e; 0xe54f; 0xd52c; 0xc50d;
   0x34e2; 0x24c3; 0x14a0; 0x0481; 0x7466; 0x6447; 0x5424; 0x4405;
   0xa7db; 0xb7fa; 0x8799; 0x97b8; 0xe75f; 0xf77e; 0xc71d; 0xd73c;
   0x26d3; 0x36f2; 0x0691; 0x16b0; 0x6657; 0x7676; 0x4615; 0x5634;
   0xd94c; 0xc96d; 0xf90e; 0xe92f; 0x99c8; 0x89e9; 0xb98a; 0xa9ab;
   0x5844; 0x4865; 0x7806; 0x6827; 0x18c0; 0x08e1; 0x3882; 0x28a3;
   0xcb7d; 0xdb5c; 0xeb3f; 0xfb1e; 0x8bf9; 0x9bd8; 0xabbb; 0xbb9a;
   0x4a75; 0x5a54; 0x6a37; 0x7a16; 0x0af1; 0x1ad0; 0x2ab3; 0x3a92;
   0xfd2e; 0xed0f; 0xdd6c; 0xcd4d; 0xbdaa; 0xad8b; 0x9de8; 0x8dc9;
   0x7c26; 0x6c07; 0x5c64; 0x4c45; 0x3ca2; 0x2c83; 0x1ce0; 0x0cc1;
   0xef1f; 0xff3e; 0xcf5d; 0xdf7c; 0xaf9b; 0xbfba; 0x8fd9; 0x9ff8;
   0x6e17; 0x7e36; 0x4e55; 0x5e74; 0x2e93; 0x3eb2; 0x0ed1; 0x1ef0].

(** A buffer is the list of its bytes. *)
Fixpoint crc16_loop (buf : list Z) (cksum : Z) : Z :=
  match buf with
  | [] => cksum
  | b :: buf' =>
      crc16_loop buf'
        (u16 (Z.lxor (nth (Z.to_nat (Z.land (Z.lxor (Z.shiftr cksum 8) b) 0xff)) crc16_tab 0) (Z.shiftl cksum 8)))
  end.

Definition cyg_crc16 (buf : list Z) : Z := crc16_loop buf 0.

(** ** [crc32.c] *)

(** The generator of the table, with the terms of the polynomial. *)
Definition crc_poly_terms : list Z := [0; 1; 2; 4; 5; 7; 8; 10; 11; 12; 16; 22; 23; 26].
Definition crc_poly : Z := foldl (λ poly n, Z.lor poly (Z.shiftl 1 (31 - n))) 0 crc_poly_terms.
Definition crc_shift (c : Z) : Z :=
  if Z.land c 1 =? 0 then Z.shiftr c 1 else Z.lxor crc_poly (Z.shiftr c 1).
Definition make_crc_table : list Z := (λ n, Nat.iter 8 crc_shift n) <$> seqZ 0 256.

Definition crc_table : list Z :=
  [
   0x00000000; 0x77073096; 0xee0e612c; 0x990951ba; 0x076dc419; 0x706af48f; 0xe963a535; 0x9e6495a3;
   0x0edb8832; 0x79dcb8a4; 0xe0d5e91e; 0x97d2d988; 0x09b64c2b; 0x7eb17cbd; 0xe7b82d07; 0x90bf1d91;
   0x1db71064; 0x6ab020f2; 0xf3b97148; 0x84be41de; 0x1adad47d; 0x6ddde4eb; 0xf4d4b551; 0x83d385c7;
   0x136c9856; 0x646ba8c0; 0xfd62f97a; 0x8a65c9ec; 0x14015c4f; 0x63066cd9; 0xfa0f3d63; 0x8d080df5;
   0x3b6e20c8; 0x4c69105e; 0xd56041e4; 0xa2677172; 0x3c03e4d1; 0x4b04d447; 0xd20d85fd; 0xa50ab56b;
   0x35b5a8fa; 0x42b2986c; 0xdbbbc9d6; 0xacbcf940; 0x32d86ce3; 0x45df5c75; 0xdcd60dcf; 0xabd13d59;
   0x26d930ac; 0x51de003a; 0xc8d75180; 0xbfd06116; 0x21b4f4b5; 0x56b3c423; 0xcfba9599; 0xb8bda50f;
   0x2802b89e; 0x5f058808; 0xc60cd9b2; 0xb10be924; 0x2f6f7c87; 0x58684c11; 0xc1611dab; 0xb6662d3d;
   0x76dc4190; 0x01db7106; 0x98d220bc; 0xefd5102a; 0x71b18589; 0x06b6b51f; 0x9fbfe4a5; 0xe8b8d433;
   0x7807c9a2; 0x0f00f934; 0x9609a88e; 0xe10e9818; 0x7f6a0dbb; 0x086d3d2d; 0x91646c97; 0xe6635c01;
   0x6b6b51f4; 0x1c6c6162; 0x856530d8; 0xf262004e; 0x6c0695ed; 0x1b01a57b; 0x8208f4c1; 0xf50fc457;
   0x65b0d9c6; 0x12b7e950; 0x8bbeb8ea; 0xfcb9887c; 0x62dd1ddf; 0x15da2d49; 0x8cd37cf3; 0xfbd44c65;
   0x4db26158; 0x3ab551ce; 0xa3bc0074; 0xd4bb30e2; 0x4adfa541; 0x3dd895d7; 0xa4d1c46d; 0xd3d6f4fb;
   0x4369e96a; 0x346ed9fc; 0xad678846; 0xda60b8d0; 0x44042d73; 0x33031de5; 0xaa0a4c5f; 0xdd0d7cc9;
   0x5005713c; 0x270241aa; 0xbe0b1010; 0xc90c2086; 0x5768b525; 0x206f85b3; 0xb966d409; 0xce61e49f;
   0x5edef90e; 0x29d9c998; 0xb0d09822; 0xc7d7a8b4; 0x59b33d17; 0x2eb40d81; 0xb7bd5c3b; 0xc0ba6cad;
   0xedb88320; 0x9abfb3b6; 0x03b6e20c; 0x74b1d29a; 0xead54739; 0x9dd277af; 0x04db2615; 0x73dc1683;
   0xe3630b12; 0x94643b84; 0x0d6d6a3e; 0x7a6a5aa8; 0xe40ecf0b; 0x9309ff9d; 0x0a00ae27; 0x7d079eb1;
   0xf00f9344; 0x8708a3d2; 0x1e01f268; 0x6906c2fe; 0xf762575d; 0x806567cb; 0x196c3671; 0x6e6b06e7;
   0xfed41b76; 0x89d32be0; 0x10da7a5a; 0x67dd4acc; 0xf9b9df6f; 0x8ebeeff9; 0x17b7be43; 0x60b08ed5;
   0xd6d6a3e8; 0xa1d1937e; 0x38d8c2c4; 0x4fdff252; 0xd1bb67f1; 0xa6bc5767; 0x3fb506dd; 0x48b2364b;
   0xd80d2bda; 0xaf0a1b4c; 0x36034af6; 0x41047a60; 0xdf60efc3; 0xa867df55; 0x316e8eef; 0x4669be79;
   0xcb61b38c; 0xbc66831a; 0x256fd2a0; 0x5268e236; 0xcc0c7795; 0xbb0b4703; 0x220216b9; 0x5505262f;
   0xc5ba3bbe; 0xb2bd0b28; 0x2bb45a92; 0x5cb36a04; 0xc2d7ffa7; 0xb5d0cf31; 0x2cd99e8b; 0x5bdeae1d;
   0x9b64c2b0; 0xec63f226; 0x756aa39c; 0x026d930a; 0x9c0906a9; 0xeb0e363f; 0x72076785; 0x05005713;
   0x95bf4a82; 0xe2b87a14; 0x7bb12bae; 0x0cb61b38; 0x92d28e9b; 0xe5d5be0d; 0x7cdcefb7; 0x0bdbdf21;
   0x86d3d2d4; 0xf1d4e242; 0x68ddb3f8; 0x1fda836e; 0x81be16cd; 0xf6b9265b; 0x6fb077e1; 0x18b74777;
   0x88085ae6; 0xff0f6a70; 0x66063bca; 0x11010b5c; 0x8f659eff; 0xf862ae69; 0x616bffd3; 0x166ccf45;
   0xa00ae278; 0xd70dd2ee; 0x4e048354; 0x3903b3c2; 0xa7672661; 0xd06016f7; 0x4969474d; 0x3e6e77db;
   0xaed16a4a; 0xd9d65adc; 0x40df0b66; 0x37d83bf0; 0xa9bcae53; 0xdebb9ec5; 0x47b2cf7f; 0x30b5ffe9;
   0xbdbdf21c; 0xcabac28a; 0x53b39330; 0x24b4a3a6; 0xbad03605; 0xcdd70693; 0x54de5729; 0x23d967bf;
   0xb3667a2e; 0xc4614ab8; 0x5d681b02; 0x2a6f2b94; 0xb40bbe37; 0xc30c8ea1; 0x5a05df1b; 0x2d02ef8d].

Definition DO_CRC (crc x : Z) : Z :=
  Z.lxor (nth (Z.to_nat (Z.land (Z.lxor crc x) 255)) crc_table 0) (Z.shiftr crc 8).

(** [do { DO_CRC( *p++); } while ((--len) && ((long)p) & 3);], at most three
    rounds from an address that is not aligned. *)
Fixpoint crc32_align (fuel : nat) (p crc len : Z) : prog mem (Z * Z * Z) :=
  match fuel with
  | O => fault
  | S fuel' =>
      let* (x, p) := load8_inc p in
      let crc := DO_CRC crc x in
      let len := len -u 1 in
      if negb (len =? 0) && negb (Z.land p 3 =? 0) then crc32_align fuel' p crc len
      else ret (p, crc, len)
  end.

(** [for (--b; len; --len)] over the words; [b] points before the next one. *)
Fixpoint crc32_words (len : nat) (b crc : Z) : prog mem (Z * Z) :=
  match len with
  | O => ret (b, crc)
  | S len' =>
      let b := ptr_add b 4 in
      let* w := load32 b in
      let crc := Z.lxor crc w in
      crc32_words len' b (DO_CRC (DO_CRC (DO_CRC (DO_CRC crc 0) 0) 0) 0)
  end.

(** [do { DO_CRC( *++p); } while (--len);] *)
Fixpoint crc32_rest (len : nat) (p crc : Z) : prog mem Z :=
  match len with
  | O => ret crc
  | S len' =>
      let p := ptr_add p 1 in
      let* x := load8 p in
      crc32_rest len' p (DO_CRC crc x)
  end.

Definition crc32_no_comp (crc buf len : Z) : prog mem Z :=
  let* (b, crc, len) :=
    if negb (Z.land buf 3 =? 0) && negb (len =? 0) then crc32_align 3 buf crc len
    else ret (buf, crc, len) in
  let rem_len := Z.land len 3 in
  let* (b, crc) := crc32_words (Z.to_nat (Z.shiftr len 2)) (b -u 4) crc in
  crc32_rest (Z.to_nat rem_len) (b +u 4 -u 1) crc.

Definition crc32 (crc p len : Z) : prog mem Z :=
  let* c := crc32_no_comp (Z.lxor crc 0xffffffff) p len in ret (Z.lxor c 0xffffffff).

(** The board has no watchdog to reset. *)
Definition crc32_wd (crc buf len chunk_sz : Z) : prog mem Z := crc32 crc buf len.

(** ** The shift register of the CRC-32 *)

Definition crc_byte (c b : Z) : Z := Nat.iter 8 crc_shift (Z.lxor c b).
Definition crc_bytes (c : Z) (l : list Z) : Z := foldl crc_byte c l.

Lemma crc_shift_lxor x y : crc_shift (Z.lxor x (2 * y)) = Z.lxor (crc_shift x) y.
Proof.
  unfold crc_shift. replace (Z.land (Z.lxor x (2 * y)) 1) with (Z.land x 1).
  2: { change 1 with (Z.ones 1). rewrite !Z.land_ones by lia. apply Z.bits_inj'. intros i Hi. destruct (Z.eq_dec i 0) as [->|].
    - rewrite !Z.mod_pow2_bits_low by lia. rewrite Z.lxor_spec, Z.testbit_even_0. by rewrite xorb_false_r.
    - by rewrite !Z.mod_pow2_bits_high by lia. }
  rewrite Z.shiftr_lxor, (Z.shiftr_div_pow2 (2 * y)) by lia. change (2 ^ 1) with 2.
  rewrite (Z.mul_comm 2), Z.div_mul by lia. case_match; [done | by rewrite Z.lxor_assoc].
Qed.

Lemma iter_shift_lxor n x y :
  Nat.iter n crc_shift (Z.lxor x (Z.shiftl y (Z.of_nat n))) = Z.lxor (Nat.iter n crc_shift x) y.
Proof.
  revert x. induction n as [|n IH]; intros x; [by rewrite Z.shiftl_0_r |].
  rewrite !Nat.iter_succ_r, <- IH. f_equal.
  rewrite <- crc_shift_lxor. do 2 f_equal. rewrite Nat2Z.inj_succ, <- Z.add_1_r, Z.add_comm, <- Z.shiftl_shiftl by lia.
  rewrite !Z.shiftl_mul_pow2 by lia. lia.
Qed.

Lemma iter_shift_lxor_8 x y :
  Nat.iter 8 crc_shift (Z.lxor x (Z.shiftl y 8)) = Z.lxor (Nat.iter 8 crc_shift x) y.
Proof. apply (iter_shift_lxor 8). Qed.

Lemma crc_table_made : crc_table = make_crc_table.
Proof. vm_compute. reflexivity. Qed.

Lemma crc_table_nth i : 0 ≤ i < 256 → nth (Z.to_nat i) crc_table 0 = Nat.iter 8 crc_shift i.
Proof.
  intros Hi. rewrite crc_table_made. unfold make_crc_table. rewrite nth_lookup, list_lookup_fmap, lookup_seqZ_lt by lia.
  cbn [fmap option_fmap option_map default]. by rewrite Z.add_0_l, Z2Nat.id by lia.
Qed.

Lemma lxor_shiftr_byte c b k : 0 ≤ b < 256 → Z.shiftr (Z.lxor c b) (8 + Z.of_nat k) = Z.shiftr c (8 + Z.of_nat k).
Proof.
  intros Hb. rewrite Z.shiftr_lxor, (Z.shiftr_div_pow2 b) by lia.
  rewrite Z.div_small, Z.lxor_0_r; [done |]. split; [lia |]. rewrite Z.pow_add_r by lia.
  assert (0 < 2 ^ Z.of_nat k) by (apply Z.pow_pos_nonneg; lia). lia.
Qed.

(** The low byte and the rest of a number. *)
Lemma lxor_low_byte z : Z.lxor (Z.land z 255) (Z.shiftl (Z.shiftr z 8) 8) = z.
Proof.
  apply Z.bits_inj'. intros i Hi. rewrite Z.lxor_spec, Z.land_spec, Z.shiftl_spec by lia.
  change 255 with (Z.ones 8). destruct (Z.ltb_spec i 8).
  - rewrite Z.ones_spec_low, (Z.testbit_neg_r _ (i - 8)) by lia. by rewrite andb_true_r, xorb_false_r.
  - rewrite Z.ones_spec_high, Z.shiftr_spec by lia. rewrite andb_false_r. cbn. f_equal. lia.
Qed.

(** A step of the table is eight steps of the register. *)
Lemma DO_CRC_byte c b : in_u8 b → DO_CRC c b = crc_byte c b.
Proof.
  intros Hb. unfold DO_CRC, crc_byte. rewrite crc_table_nth by (rewrite land_255; apply u8_range).
  rewrite <- (lxor_low_byte (Z.lxor c b)) at 2. rewrite iter_shift_lxor_8. f_equal.
  symmetry. apply (lxor_shiftr_byte c b 0). done.
Qed.

Lemma le_val_cons b l : in_u8 b → le_val (b :: l) = Z.lxor b (Z.shiftl (le_val l) 8).
Proof.
  intros Hb. cbn. apply Z.bits_inj'. intros i Hi. rewrite Z.lor_spec, Z.lxor_spec, Z.shiftl_spec by lia.
  destruct (Z.ltb_spec i 8).
  - rewrite (Z.testbit_neg_r _ (i - 8)) by lia. by destruct (Z.testbit b i).
  - rewrite (testbit_above b 8 i) by (unfold in_u8 in Hb; lia). done.
Qed.

(** Bytes can be added to the register at once, as a little-endian number. *)
Lemma crc_bytes_shift c l :
  Forall in_u8 l → crc_bytes c l = Nat.iter (8 * length l) crc_shift (Z.lxor c (le_val l)).
Proof.
  intros Hl. revert c. induction Hl as [|b l Hb Hl IH]; intros c; [cbn; by rewrite Z.lxor_0_r |].
  cbn [crc_bytes foldl]. fold (crc_bytes (crc_byte c b) l). rewrite IH, le_val_cons by done.
  replace (8 * length (b :: l))%nat with (8 * length l + 8)%nat by (cbn; lia). rewrite Nat.iter_add.
  rewrite <- Z.lxor_assoc. by rewrite iter_shift_lxor_8.
Qed.

(** ** The bytes in memory *)

Lemma crc_bytes_app c l1 l2 : crc_bytes c (l1 ++ l2) = crc_bytes (crc_bytes c l1) l2.
Proof. apply foldl_app. Qed.

Lemma crc32_rest_spec l p a crc m :
  has_bytes m a l → Forall in_u8 l → 0 ≤ a → a + Z.of_nat (length l) ≤ 4294967296 → u32 (p + 1) = u32 a →
  wp (crc32_rest (length l) p crc) (λ c m', c = crc_bytes crc l ∧ m' = m) m.
Proof.
  intros H Hl. revert p a crc H. induction Hl as [|b l Hb Hl IH]; intros p a crc H Ha Hlen Hp; [by apply wp_ret |].
  destruct H as [H1 H2]. cbn [length crc32_rest] in *. unfold ptr_add. rewrite Hp, u32_small by lia.
  apply wp_bind. eapply wp_load8; [done |]. rewrite DO_CRC_byte by done. eapply IH; [done | lia | lia | done].
Qed.

Lemma DO_CRC_word c l : Forall in_u8 l → length l = 4%nat →
  DO_CRC (DO_CRC (DO_CRC (DO_CRC (Z.lxor c (le_val l)) 0) 0) 0) 0 = crc_bytes c l.
Proof.
  intros Hl Hlen. rewrite crc_bytes_shift, Hlen by done. rewrite !DO_CRC_byte by (unfold in_u8; lia). unfold crc_byte.
  by rewrite !Z.lxor_0_r, <- !Nat.iter_add.
Qed.

Lemma crc32_words_spec n l b a crc m :
  has_bytes m a l → Forall in_u8 l → length l = (4 * n)%nat → 0 ≤ a → a + Z.of_nat (length l) ≤ 4294967296 →
  u32 (b + 4) = u32 a →
  wp (crc32_words n b crc)
    (λ '(b', c) m', u32 (b' + 4) = u32 (a + Z.of_nat (length l)) ∧ c = crc_bytes crc l ∧ m' = m) m.
Proof.
  revert l b a crc. induction n as [|n IH]; intros l b a crc H Hl Hlen Ha Hle Hb.
  { destruct l; [|done]. apply wp_ret. split; [|done]. by rewrite Z.add_0_r. }
  rewrite <- (take_drop 4 l) in H, Hl. apply has_bytes_app in H as [H1 H2]. apply Forall_app in Hl as [Hl1 Hl2].
  assert (length (take 4 l) = 4%nat) as H4 by (rewrite length_take; lia). rewrite H4 in H2.
  assert (length (drop 4 l) = (4 * n)%nat) as H4' by (rewrite length_drop; lia).
  cbn [crc32_words]. unfold ptr_add. rewrite Hb, u32_small by lia.
  apply wp_bind. apply (wp_load32 _ _ _ (take 4 l)); [lia | lia | done | done |]. rewrite DO_CRC_word by done.
  eapply wp_mono; [apply (IH (drop 4 l)); [done | done | done | lia | lia | done] |].
  intros [b' c] m' (Hb' & -> & ->). split_and!; [|by rewrite <- crc_bytes_app, take_drop | done].
  rewrite Hb'. f_equal. lia.
Qed.

Lemma crc32_align_spec fuel l p crc m :
  has_bytes m p l → Forall in_u8 l → l ≠ [] → 0 ≤ p → p + Z.of_nat (length l) ≤ 4294967296 →
  p mod 4 ≠ 0 → 4 - p mod 4 ≤ Z.of_nat fuel →
  wp (crc32_align fuel p crc (Z.of_nat (length l)))
    (λ '(p', c, len) m', m' = m ∧ ∃ l1 l2, l = l1 ++ l2 ∧ p' = u32 (p + Z.of_nat (length l1)) ∧
      c = crc_bytes crc l1 ∧ len = Z.of_nat (length l2)) m.
Proof.
  intros H Hl. revert fuel p crc H. induction Hl as [|b l Hb Hl IH]; intros fuel p crc H Hne Hp Hle Hmod Hfuel; [done |].
  pose proof (Z.mod_pos_bound p 4 ltac:(lia)). destruct fuel as [|fuel]; [lia |]. destruct H as [H1 H2]. cbn [length] in Hle.
  cbn [crc32_align]. apply wp_bind. eapply wp_load8_inc; [done |]. rewrite DO_CRC_byte by done.
  replace (Z.of_nat (length (b :: l)) -u 1) with (Z.of_nat (length l)) by (cbn; rewrite u32_small; lia).
  unfold ptr_add. change 3 with (Z.ones 2). rewrite Z.land_ones by lia. change (2 ^ 2) with 4.
  destruct (Z.eqb_spec (Z.of_nat (length l)) 0), (Z.eqb_spec (u32 (p + 1) mod 4) 0) as [?|Hm]; cbn [negb andb].
  1, 2, 3: apply wp_ret; split; [done |]; exists [b], l; split_and!; done.
  rewrite u32_small in * by lia. eapply wp_mono; [apply IH; [done | by destruct l | lia | lia | done |] |].
  - pose proof (Z.mod_pos_bound (p + 1) 4 ltac:(lia)). Z.to_euclidean_division_equations. lia.
  - intros [[p' c] len] m' (-> & l1 & l2 & -> & -> & -> & ->). split; [done |]. exists (b :: l1), l2.
    split_and!; [done | f_equal; cbn; lia | done | done].
Qed.

Lemma crc32_no_comp_spec l p crc m :
  has_bytes m p l → Forall in_u8 l → 0 ≤ p → p + Z.of_nat (length l) ≤ 4294967296 → Z.of_nat (length l) < 4294967296 →
  wp (crc32_no_comp crc p (Z.of_nat (length l))) (λ c m', c = crc_bytes crc l ∧ m' = m) m.
Proof.
  intros H Hl Hp Hle Hlt. unfold crc32_no_comp. apply wp_bind.
  apply (wp_mono _ (λ '(p', c, len) m', m' = m ∧ ∃ l1 l2, l = l1 ++ l2 ∧ u32 p' = u32 (p + Z.of_nat (length l1)) ∧
      c = crc_bytes crc l1 ∧ len = Z.of_nat (length l2))).
  { change 3 with (Z.ones 2) at 1. rewrite Z.land_ones by lia. change (2 ^ 2) with 4. pose proof (Z.mod_pos_bound p 4 ltac:(lia)).
    destruct (Z.eqb_spec (p mod 4) 0), (Z.eqb_spec (Z.of_nat (length l)) 0); cbn [negb andb].
    1, 2, 3: apply wp_ret; split; [done |]; exists [], l; split_and!; [done | by rewrite Z.add_0_r | done | done].
    eapply wp_mono; [apply crc32_align_spec; [done | done | by destruct l | done | done | done | lia] |].
    intros [[p' c] len] m' (-> & l1 & l2 & -> & -> & -> & ->). split; [done |]. exists l1, l2. by rewrite u32_idemp. }
  intros [[b c] len] m' (-> & l1 & l2 & -> & Hb & -> & ->). clear Hlt.
  apply has_bytes_app in H as [_ H]. apply Forall_app in Hl as [_ Hl]. rewrite length_app in Hle.
  set (a := p + Z.of_nat (length l1)) in *.
  change 3 with (Z.ones 2). rewrite Z.land_ones, Z.shiftr_div_pow2 by lia. change (2 ^ 2) with 4.
  set (n := Z.to_nat (Z.of_nat (length l2) / 4)).
  assert (length l2 = 4 * n + Z.to_nat (Z.of_nat (length l2) mod 4))%nat as Hlen.
  { subst n. pose proof (Z.div_mod (Z.of_nat (length l2)) 4 ltac:(lia)). pose proof (Z.mod_pos_bound (Z.of_nat (length l2)) 4 ltac:(lia)).
    assert (0 ≤ Z.of_nat (length l2) / 4) by (apply Z.div_pos; lia). lia. }
  rewrite <- (take_drop (4 * n) l2) in H, Hl. apply has_bytes_app in H as [H1 H2]. apply Forall_app in Hl as [Hl1 Hl2].
  assert (length (take (4 * n) l2) = (4 * n)%nat) as Ht by (rewrite length_take; lia). rewrite Ht in H2.
  apply wp_bind. eapply wp_mono; [apply (crc32_words_spec n (take (4 * n) l2) _ a); [done | done | done | lia | lia |] |].
  { rewrite u32_add_l, Z.sub_add. done. }
  intros [b' c'] m' (Hb' & -> & ->). rewrite Ht in Hb'.
  replace (Z.to_nat (Z.of_nat (length l2) mod 4)) with (length (drop (4 * n) l2)) by (rewrite length_drop; lia).
  eapply wp_mono; [apply (crc32_rest_spec _ _ (a + Z.of_nat (4 * n))); [done | done | lia | rewrite length_drop; lia |] |].
  { rewrite u32_add_l. rewrite Z.sub_add. by rewrite u32_idemp. }
  cbn. intros x m' [-> ->]. split; [|done]. by rewrite <- !crc_bytes_app, take_drop.
Qed.

(** ** Different messages *)

Lemma crc_shift_range c : in_u32 c → in_u32 (crc_shift c).
Proof.
  intros Hc. assert (0 ≤ Z.shiftr c 1 < 2 ^ 31) by (apply shiftr_range; [lia | lia | exact Hc]).
  unfold crc_shift, in_u32. case_match; [lia |]. change 4294967296 with (2 ^ 32). apply lxor_range; [lia | | lia].
  by vm_compute.
Qed.

(** The register can be run backwards: the top bit says which bit fell out. *)
Lemma crc_shift_inj c c' : in_u32 c → in_u32 c' → crc_shift c = crc_shift c' → c = c'.
Proof.
  intros Hc Hc' E.
  assert (∀ x, in_u32 x → Z.testbit (crc_shift x) 31 = negb (Z.land x 1 =? 0)) as Htop.
  { intros x Hx. assert (Z.testbit (Z.shiftr x 1) 31 = false) as H.
    { rewrite Z.shiftr_spec by lia. apply (testbit_above x 32); [lia | exact Hx | lia]. }
    unfold crc_shift. destruct (Z.land x 1 =? 0); [done |]. by rewrite Z.lxor_spec, H. }
  assert (Z.land c 1 = Z.land c' 1) as Elow.
  { pose proof (Htop c Hc) as H1. pose proof (Htop c' Hc') as H2. rewrite E, H2 in H1.
    change 1 with (Z.ones 1) in *. rewrite !Z.land_ones in * by lia. change (2 ^ 1) with 2 in *.
    destruct (Z.eqb_spec (c mod 2) 0), (Z.eqb_spec (c' mod 2) 0); try done; Z.to_euclidean_division_equations; lia. }
  assert (Z.shiftr c 1 = Z.shiftr c' 1) as Ehigh.
  { unfold crc_shift in E. rewrite Elow in E. destruct (Z.land c' 1 =? 0); [done |].
    apply (f_equal (Z.lxor crc_poly)) in E. by rewrite <- !Z.lxor_assoc, Z.lxor_nilpotent, !Z.lxor_0_l in E. }
  rewrite !Z.shiftr_div_pow2 in Ehigh by lia. change 1 with (Z.ones 1) in Elow. rewrite !Z.land_ones in Elow by lia.
  change (2 ^ 1) with 2 in *. Z.to_euclidean_division_equations. lia.
Qed.

Lemma iter_shift_range n c : in_u32 c → in_u32 (Nat.iter n crc_shift c).
Proof. intros Hc. induction n as [|n IH]; [done |]. by apply crc_shift_range. Qed.

Lemma iter_shift_inj n c c' :
  in_u32 c → in_u32 c' → Nat.iter n crc_shift c = Nat.iter n crc_shift c' → c = c'.
Proof.
  intros Hc Hc'. induction n as [|n IH]; [done |]. cbn. intros E. apply IH.
  by apply crc_shift_inj; [apply iter_shift_range .. |].
Qed.

Lemma lxor_u32 a b : in_u32 a → in_u32 b → in_u32 (Z.lxor a b).
Proof. apply (lxor_range a b 32). lia. Qed.

Lemma crc_bytes_range c l : in_u32 c → Forall in_u8 l → in_u32 (crc_bytes c l).
Proof.
  intros Hc Hl. revert c Hc. induction Hl as [|b l Hb Hl IH]; intros c Hc; [done |]. apply IH.
  apply iter_shift_range, lxor_u32; [done |]. unfold in_u8, in_u32 in *. lia.
Qed.

Lemma lxor_cancel_l a b c : Z.lxor a b = Z.lxor a c → b = c.
Proof. intros E. apply (f_equal (Z.lxor a)) in E. by rewrite <- !Z.lxor_assoc, Z.lxor_nilpotent, !Z.lxor_0_l in E. Qed.

(** Different bytes, four at most, bring the register to different states. *)
Lemma crc_bytes_inj_word c w w' :
  in_u32 c → Forall in_u8 w → Forall in_u8 w' → length w = length w' → (length w ≤ 4)%nat →
  crc_bytes c w = crc_bytes c w' → w = w'.
Proof.
  intros Hc Hw Hw' Hlen H4. rewrite !crc_bytes_shift, <- Hlen by done.
  assert (∀ l, Forall in_u8 l → (length l ≤ 4)%nat → in_u32 (le_val l)) as Hval.
  { intros l Hl Hle. pose proof (le_val_range l Hl). unfold in_u32.
    assert (2 ^ (8 * Z.of_nat (length l)) ≤ 2 ^ 32) by (apply Z.pow_le_mono_r; lia). lia. }
  intros E. apply iter_shift_inj in E; [|apply lxor_u32; auto with lia ..]. apply lxor_cancel_l in E.
  rewrite <- (le_bytes_val w), <- (le_bytes_val w') by done. by rewrite E, Hlen.
Qed.

(** The same bytes bring different states to different states. *)
Lemma crc_bytes_inj c c' l : in_u32 c → in_u32 c' → Forall in_u8 l → crc_bytes c l = crc_bytes c' l → c = c'.
Proof.
  intros Hc Hc' Hl. revert c c' Hc Hc'. induction Hl as [|b l Hb Hl IH]; intros c c' Hc Hc' E; [done |].
  assert (in_u32 b) by (unfold in_u8, in_u32 in *; lia).
  apply IH in E; [|apply iter_shift_range, lxor_u32; done ..].
  apply iter_shift_inj in E; [|apply lxor_u32; done ..]. rewrite !(Z.lxor_comm _ b) in E. by apply lxor_cancel_l in E.
Qed.

(** ** The CRC-16 as a remainder *)

(** x^16 + x^12 + x^5 + 1 *)
Definition crc16_poly : Z := 0x11021.

(** The product of the polynomial with the one whose coefficients, from the
    highest on, are [q]. *)
Definition poly_mul (q : list bool) : Z := foldl (λ a b, Z.lxor (2 * a) (if b : bool then crc16_poly else 0)) 0 q.

(** The bytes of a message as one number, the first byte the most significant. *)
Definition be_val (l : list Z) : Z := foldl (λ v b, Z.lxor (Z.shiftl v 8) b) 0 l.

Definition crc16_shift (c : Z) : Z := Z.lxor (2 * c) (if Z.testbit c 15 then crc16_poly else 0).
Definition crc16_byte (c b : Z) : Z := Nat.iter 8 crc16_shift (Z.lxor c (Z.shiftl b 8)).

Lemma double_lxor a b : 2 * Z.lxor a b = Z.lxor (2 * a) (2 * b).
Proof. change 2 with (2 ^ 1). rewrite !(Z.mul_comm (2 ^ 1)), <- !Z.shiftl_mul_pow2 by lia. apply Z.shiftl_lxor. Qed.

Lemma lxor_swap a b c d : Z.lxor (Z.lxor a b) (Z.lxor c d) = Z.lxor (Z.lxor a c) (Z.lxor b d).
Proof. rewrite !Z.lxor_assoc. f_equal. rewrite <- !Z.lxor_assoc. f_equal. apply Z.lxor_comm. Qed.

Lemma crc16_shift_lxor x y : crc16_shift (Z.lxor x y) = Z.lxor (crc16_shift x) (crc16_shift y).
Proof.
  unfold crc16_shift. rewrite double_lxor, Z.lxor_spec, lxor_swap. f_equal.
  destruct (Z.testbit x 15), (Z.testbit y 15); cbn; by rewrite ?Z.lxor_nilpotent, ?Z.lxor_0_r, ?Z.lxor_0_l.
Qed.

Lemma iter_crc16_lxor n x y :
  Nat.iter n crc16_shift (Z.lxor x y) = Z.lxor (Nat.iter n crc16_shift x) (Nat.iter n crc16_shift y).
Proof. induction n as [|n IH]; [done |]. by rewrite !Nat.iter_succ, IH, crc16_shift_lxor. Qed.

Lemma crc16_shift_range c : 0 ≤ c < 65536 → 0 ≤ crc16_shift c < 65536.
Proof.
  intros Hc. unfold crc16_shift. destruct (Z.testbit c 15) eqn:E.
  - assert (0 ≤ Z.lxor (2 * c) crc16_poly < 2 ^ 17) by (apply lxor_range; [lia | lia | by vm_compute]).
    assert (Z.lxor (2 * c) crc16_poly = Z.lxor (2 * c) crc16_poly mod 2 ^ 16) as ->; [|apply Z.mod_pos_bound; lia].
    apply Z.bits_inj'. intros i Hi. destruct (Z.ltb_spec i 16); [by rewrite Z.mod_pow2_bits_low |].
    rewrite Z.mod_pow2_bits_high by lia. destruct (Z.eq_dec i 16) as [->|].
    + change 16 with (Z.succ 15). rewrite Z.lxor_spec, Z.double_bits_succ, E. done.
    + apply (testbit_above _ 17); lia.
  - rewrite Z.lxor_0_r. assert (c < 32768); [|lia]. destruct (Z.lt_ge_cases c 32768); [done |].
    enough (Z.testbit c 15 = true) by congruence. rewrite Z.testbit_true by lia.
    change (2 ^ 15) with 32768. replace (c / 32768) with 1; [done |]. Z.to_euclidean_division_equations. lia.
Qed.

Lemma iter_crc16_range n c : 0 ≤ c < 65536 → 0 ≤ Nat.iter n crc16_shift c < 65536.
Proof. intros Hc. induction n as [|n IH]; [done |]. by apply crc16_shift_range. Qed.

Lemma crc16_tab_nth i : 0 ≤ i < 256 → nth (Z.to_nat i) crc16_tab 0 = Nat.iter 8 crc16_shift (Z.shiftl i 8).
Proof.
  revert i. assert (crc16_tab = (λ i, Nat.iter 8 crc16_shift (Z.shiftl i 8)) <$> seqZ 0 256) as -> by by vm_compute.
  intros i Hi. rewrite nth_lookup, list_lookup_fmap, lookup_seqZ_lt by lia.
  cbn [fmap option_fmap option_map default]. by rewrite Z.add_0_l, Z2Nat.id by lia.
Qed.

(** A byte in the low half is only shifted. *)
Lemma iter_crc16_low b : in_u8 b → Nat.iter 8 crc16_shift b = Z.shiftl b 8.
Proof.
  intros Hb. apply (check_below_spec 256 (λ b, Nat.iter 8 crc16_shift b =? Z.shiftl b 8)) in Hb; [by apply Z.eqb_eq |].
  by vm_compute.
Qed.

(** A step of the table is eight steps of the register. *)
Lemma crc16_table_step c b :
  0 ≤ c < 65536 → in_u8 b →
  u16 (Z.lxor (nth (Z.to_nat (Z.land (Z.lxor (Z.shiftr c 8) b) 0xff)) crc16_tab 0) (Z.shiftl c 8)) = crc16_byte c b.
Proof.
  intros Hc Hb. unfold in_u8 in Hb.
  assert (0 ≤ Z.shiftr c 8 < 2 ^ 8) as Hhi by (apply shiftr_range; [lia | lia | exact Hc]).
  assert (0 ≤ Z.lxor (Z.shiftr c 8) b < 2 ^ 8) by (apply lxor_range; [lia | done | done]).
  rewrite land_255, u8_small, crc16_tab_nth by done. unfold crc16_byte.
  rewrite <- (lxor_low_byte c) at 3. rewrite Z.lxor_assoc, <- Z.shiftl_lxor, iter_crc16_lxor, Z.lxor_comm.
  rewrite (iter_crc16_low (Z.land c 255)) by (rewrite land_255; apply u8_range).
  set (t := Nat.iter 8 crc16_shift _). assert (0 ≤ t < 65536) as Ht.
  { apply iter_crc16_range. rewrite Z.shiftl_mul_pow2 by lia. lia. }
  apply Z.bits_inj'. intros i Hi. unfold u16. change 65536 with (2 ^ 16) in *. rewrite Z.lxor_spec, Z.shiftl_spec, land_255 by lia.
  unfold u8. change 256 with (2 ^ 8). destruct (Z.ltb_spec i 16).
  - rewrite Z.mod_pow2_bits_low, Z.lxor_spec, Z.shiftl_spec by lia.
    destruct (Z.ltb_spec i 8); [by rewrite !(Z.testbit_neg_r _ (i - 8)) by lia | by rewrite Z.mod_pow2_bits_low by lia].
  - rewrite Z.mod_pow2_bits_high, (testbit_above t 16), Z.mod_pow2_bits_high by lia. done.
Qed.

Lemma poly_mul_snoc q b : poly_mul (q ++ [b]) = Z.lxor (2 * poly_mul q) (if b : bool then crc16_poly else 0).
Proof. unfold poly_mul. by rewrite foldl_app. Qed.

Lemma poly_mul_app q t : poly_mul (q ++ t) = Z.lxor (Z.shiftl (poly_mul q) (Z.of_nat (length t))) (poly_mul t).
Proof.
  induction t as [|b t IH] using rev_ind; [by rewrite app_nil_r, Z.shiftl_0_r, Z.lxor_0_r |].
  rewrite app_assoc, !poly_mul_snoc, length_app, IH, double_lxor, Z.lxor_assoc. f_equal.
  rewrite Nat2Z.inj_add, <- Z.shiftl_shiftl by lia. cbn [length]. rewrite (Z.shiftl_mul_pow2 _ (Z.of_nat 1)) by lia.
  change (2 ^ Z.of_nat 1) with 2. lia.
Qed.

(** The register divides: what it subtracts is a multiple of the polynomial. *)
Lemma iter_crc16_divides n c :
  ∃ t, length t = n ∧ Z.shiftl c (Z.of_nat n) = Z.lxor (poly_mul t) (Nat.iter n crc16_shift c).
Proof.
  induction n as [|n (t & Hlen & IH)]; [exists []; split; [done |]; by rewrite Z.shiftl_0_r |].
  exists (t ++ [Z.testbit (Nat.iter n crc16_shift c) 15]). rewrite length_app. split; [cbn; lia |].
  rewrite Nat2Z.inj_succ, <- Z.add_1_r, <- Z.shiftl_shiftl, IH by lia.
  rewrite (Z.shiftl_mul_pow2 _ 1), Z.mul_comm by lia. change (2 ^ 1) with 2.
  rewrite double_lxor, poly_mul_snoc, Nat.iter_succ. unfold crc16_shift at 3.
  rewrite Z.lxor_assoc. f_equal. rewrite (Z.lxor_comm (2 * _)), <- Z.lxor_assoc, Z.lxor_nilpotent. done.
Qed.

Lemma crc16_divides l c v q :
  0 ≤ c < 65536 → Forall in_u8 l → Z.shiftl v 16 = Z.lxor (poly_mul q) c →
  0 ≤ crc16_loop l c < 65536 ∧ ∃ q', length q' = (length q + 8 * length l)%nat ∧
    Z.shiftl (foldl (λ v b, Z.lxor (Z.shiftl v 8) b) v l) 16 = Z.lxor (poly_mul q') (crc16_loop l c).
Proof.
  intros Hc Hl. revert c v q Hc. induction Hl as [|b l Hb Hl IH]; intros c v q Hc Hv.
  { split; [done |]. exists q. split; [cbn; lia | done]. }
  cbn [crc16_loop foldl]. rewrite crc16_table_step by done. unfold in_u8 in Hb.
  destruct (iter_crc16_divides 8 (Z.lxor c (Z.shiftl b 8))) as (t & Ht & Hdiv).
  destruct (IH (crc16_byte c b) (Z.lxor (Z.shiftl v 8) b) (q ++ t)) as (Hr & q' & Hq' & E).
  - apply iter_crc16_range. apply (lxor_range _ _ 16); [lia | done |]. rewrite Z.shiftl_mul_pow2; lia.
  - rewrite poly_mul_app, Ht. rewrite Z.shiftl_lxor, Z.shiftl_shiftl, Z.add_comm, <- Z.shiftl_shiftl, Hv by lia.
    rewrite Z.shiftl_lxor, !Z.lxor_assoc. f_equal. unfold crc16_byte. rewrite <- Hdiv, Z.shiftl_lxor, Z.shiftl_shiftl by lia. done.
  - split; [done |]. exists q'. split; [|done]. rewrite Hq', length_app, Ht. cbn. lia.
Qed.

(** ** Properties *)

(** [cyg_crc16] is the remainder of the message, with sixteen zero bits behind it, divided by
    the polynomial x^16 + x^12 + x^5 + 1 over the field of two elements. *)
Theorem cyg_crc16_correct buf :
  Forall in_u8 buf →
  0 ≤ cyg_crc16 buf < 65536 ∧ ∃ q, length q = (8 * length buf)%nat ∧
    Z.shiftl (be_val buf) 16 = Z.lxor (poly_mul q) (cyg_crc16 buf).
Proof. intros Hb. by apply (crc16_divides buf 0 0 []). Qed.

Lemma cyg_crc16_witness :
  0 ≤ cyg_crc16 [0x31; 0x32; 0x33] < 65536 ∧ ∃ q, length q = (8 * length [0x31; 0x32; 0x33])%nat ∧
    Z.shiftl (be_val [0x31; 0x32; 0x33]) 16 = Z.lxor (poly_mul q) (cyg_crc16 [0x31; 0x32; 0x33]).
Proof. apply cyg_crc16_correct. repeat constructor; cbn; lia. Defined.

Lemma crc32_spec l p crc m :
  has_bytes m p l → Forall in_u8 l → 0 ≤ p → p + Z.of_nat (length l) ≤ 4294967296 → Z.of_nat (length l) < 4294967296 →
  crc32 crc p (Z.of_nat (length l)) m = Some (Z.lxor (crc_bytes (Z.lxor crc 0xffffffff) l) 0xffffffff, m).
Proof.
  intros. destruct (wp_elim _ _ _ (crc32_no_comp_spec l p (Z.lxor crc 0xffffffff) m ltac:(done) ltac:(done) ltac:(lia) ltac:(lia) ltac:(lia)))
    as (c & m' & E & -> & ->). unfold crc32, bind. by rewrite E.
Qed.

(** C24: [crc32], which reads bytes up to a word boundary, then words, then the bytes that are left,
    and looks them up in a table, computes the shift register of the polynomial over the bytes in
    memory one bit at a time, for every address, alignment and length; the memory is only read. *)
Theorem crc32_correct l p crc m :
  has_bytes m p l → Forall in_u8 l → 0 ≤ p → p + Z.of_nat (length l) ≤ 4294967296 → Z.of_nat (length l) < 4294967296 →
  crc32 crc p (Z.of_nat (length l)) m = Some (Z.lxor (crc_bytes (Z.lxor crc 0xffffffff) l) 0xffffffff, m).
Proof. apply crc32_spec. Qed.

Lemma crc32_witness :
  crc32 0 0x1001 9 (write_bytes ∅ 0x1001 [0x31; 0x32; 0x33; 0x34; 0x35; 0x36; 0x37; 0x38; 0x39]) =
    Some (0xcbf43926, write_bytes ∅ 0x1001 [0x31; 0x32; 0x33; 0x34; 0x35; 0x36; 0x37; 0x38; 0x39]).
Proof.
  etransitivity; [apply (crc32_correct [0x31; 0x32; 0x33; 0x34; 0x35; 0x36; 0x37; 0x38; 0x39]) |].
  - apply has_bytes_write.
  - repeat constructor; cbn; lia.
  - lia.
  - cbn; lia.
  - cbn; lia.
  - vm_compute. reflexivity.
Defined.

(** C25: Two messages of one length that differ, but in no more than four consecutive bytes, have
    different checksums: the CRC-32 detects every such error. *)
Theorem crc32_detects pre w w' post p p' crc m m' :
  let l := pre ++ w ++ post in
  let l' := pre ++ w' ++ post in
  w ≠ w' → length w = length w' → (length w ≤ 4)%nat → in_u32 crc →
  has_bytes m p l → has_bytes m' p' l' → Forall in_u8 l → Forall in_u8 l' →
  0 ≤ p → p + Z.of_nat (length l) ≤ 4294967296 → 0 ≤ p' → p' + Z.of_nat (length l) ≤ 4294967296 →
  Z.of_nat (length l) < 4294967296 →
  ∃ c c', crc32 crc p (Z.of_nat (length l)) m = Some (c, m) ∧
    crc32 crc p' (Z.of_nat (length l)) m' = Some (c', m') ∧ c ≠ c'.
Proof.
  intros l l' Hne Hlen H4 Hcrc H H' Hl Hl' ? ? ? ? ?.
  assert (length l = length l') as Hll by (subst l l'; rewrite !length_app; lia).
  eexists _, _. split; [by apply crc32_spec |]. split; [rewrite Hll; by apply crc32_spec; [.. | lia | lia] |].
  subst l l'. apply Forall_app in Hl as [Hpre [Hw Hpost]%Forall_app]. apply Forall_app in Hl' as [_ [Hw' _]%Forall_app].
  rewrite !(Z.lxor_comm _ 0xffffffff). intros E%lxor_cancel_l. rewrite !crc_bytes_app in E. apply Hne.
  assert (in_u32 (crc_bytes (Z.lxor 0xffffffff crc) pre)) by (apply crc_bytes_range, Hpre; by apply lxor_u32).
  apply crc_bytes_inj in E; [| by apply crc_bytes_range | by apply crc_bytes_range | done].
  by apply crc_bytes_inj_word in E.
Qed.

Lemma crc32_detects_witness :
  ∃ c c', crc32 0 0x1000 4 (write_bytes ∅ 0x1000 [1; 2; 3; 4]) = Some (c, write_bytes ∅ 0x1000 [1; 2; 3; 4]) ∧
    crc32 0 0x2000 4 (write_bytes ∅ 0x2000 [1; 2; 7; 4]) = Some (c', write_bytes ∅ 0x2000 [1; 2; 7; 4]) ∧ c ≠ c'.
Proof.
  apply (crc32_detects [1; 2] [3] [7] [4] 0x1000 0x2000 0); try done; try (cbn; lia); try apply has_bytes_write;
    repeat constructor; cbn; lia.
Defined.

(** A checksum can be computed in parts. *)
Lemma crc32_parts l1 l2 p crc m :
  has_bytes m p (l1 ++ l2) → Forall in_u8 (l1 ++ l2) → 0 ≤ p → in_u32 crc →
  p + Z.of_nat (length (l1 ++ l2)) ≤ 4294967296 → Z.of_nat (length (l1 ++ l2)) < 4294967296 →
  (let* c := crc32 crc p (Z.of_nat (length l1)) in
   crc32 c (p + Z.of_nat (length l1)) (Z.of_nat (length l2))) m =
  crc32 crc p (Z.of_nat (length (l1 ++ l2))) m.
Proof.
  intros H Hl Hp Hcrc Hle Hlt. rewrite (crc32_spec (l1 ++ l2)) by done. pose proof H as [H1 H2]%has_bytes_app.
  pose proof Hl as [Hl1 Hl2]%Forall_app. rewrite length_app in *. unfold bind. rewrite crc32_spec by (done || lia).
  rewrite crc32_spec by (done || lia). by rewrite crc_bytes_app, Z.lxor_assoc, Z.lxor_nilpotent, Z.lxor_0_r.
Qed.
