(* ===== verification/Lmb.v ===== *)
(** * Logical memory blocks: [lib/lmb.c], [include/lmb.h]

    Before it starts a kernel the boot loader keeps two tables of address
    ranges, the memory there is and the parts of it in use, and finds room for
    the ramdisk and the device tree between them.  A table is an array of nine
    entries of which the first [cnt] count, sorted by address; a table without
    ranges has one entry of size zero.

    The operations are programs on one table; an access outside the array is a
    fault.  The theorems relate a table to the list of its ranges, which are
    sorted and have gaps between them. *)

From stdpp Require Import prelude list.
From Stdlib Require Import ZArith Lia.
From S2P Require Import Prelude Prog.

Local Open Scope Z_scope.
Local Open Scope word_scope.

(** ** The code *)

Definition MAX_LMB_REGIONS : Z := 8.
Definition LMB_ALLOC_ANYWHERE : Z := 0.

Record lmb_property := Range { base : Z; size : Z }.

Record lmb_region := LmbRegion { cnt : Z; total : Z; region : list lmb_property }.

Record lmb := Lmb { memory : lmb_region; reserved : lmb_region }.

Definition region_get (i : Z) : prog lmb_region lmb_property := λ t,
  if i <? 0 then None else
  match region t !! Z.to_nat i with Some p => Some (p, t) | None => None end.

Definition region_put (i : Z) (p : lmb_property) : prog lmb_region unit := λ t,
  if i <? 0 then None else
  match region t !! Z.to_nat i with
  | Some _ => Some (tt, LmbRegion (cnt t) (total t) (<[Z.to_nat i := p]> (region t)))
  | None => None
  end.

Definition get_cnt : prog lmb_region Z := λ t, Some (cnt t, t).
Definition put_cnt (n : Z) : prog lmb_region unit := λ t, Some (tt, LmbRegion n (total t) (region t)).

Definition lmb_addrs_overlap (base1 size1 base2 size2 : Z) : bool :=
  (base1 <? base2 +u size2) && (base2 <? base1 +u size1).

Definition lmb_addrs_adjacent (base1 size1 base2 size2 : Z) : Z :=
  if base2 =? base1 +u size1 then 1
  else if base1 =? base2 +u size2 then -1
  else 0.

Definition lmb_regions_adjacent (r1 r2 : Z) : prog lmb_region Z :=
  let* p1 := region_get r1 in
  let* p2 := region_get r2 in
  ret (lmb_addrs_adjacent (base p1) (size p1) (base p2) (size p2)).

(** The loop leaves the array, a fault, after at most nine rounds. *)
Fixpoint remove_loop (fuel : nat) (i : Z) : prog lmb_region unit :=
  match fuel with
  | O => fault
  | S fuel' =>
      let* c := get_cnt in
      if i <? c -u 1 then
        let* p := region_get (i +u 1) in
        region_put i p ;; remove_loop fuel' (i +u 1)
      else ret tt
  end.

Definition lmb_remove_region (r : Z) : prog lmb_region unit :=
  remove_loop 10 r ;;
  let* c := get_cnt in put_cnt (c -u 1).

Definition lmb_coalesce_regions (r1 r2 : Z) : prog lmb_region unit :=
  let* p1 := region_get r1 in
  let* p2 := region_get r2 in
  region_put r1 (Range (base p1) (size p1 +u size p2)) ;;
  lmb_remove_region r2.

Definition lmb_init (l : lmb) : lmb :=
  let init (t : lmb_region) := LmbRegion 1 0 (<[0%nat := Range 0 0]> (region t)) in
  Lmb (init (memory l)) (init (reserved l)).

(** The search for a range to extend: [None] when the table has the range
    already, else how many ranges were extended and where the search ended. *)
Fixpoint coalesce_loop (n : nat) (i : Z) (b s : Z) : prog lmb_region (option (Z * Z)) :=
  match n with
  | O => ret (Some (0, i))
  | S n' =>
      let* p := region_get i in
      if (base p =? b) && (size p =? s) then ret None else
      let adjacent := lmb_addrs_adjacent b s (base p) (size p) in
      if 0 <? adjacent then
        region_put i (Range (base p -u s) (size p +u s)) ;; ret (Some (1, i))
      else if adjacent <? 0 then
        region_put i (Range (base p) (size p +u s)) ;; ret (Some (1, i))
      else coalesce_loop n' (i + 1) b s
  end.

(** Moves the ranges above [b] up, from the last to the first. *)
Fixpoint insert_loop (n : nat) (b s : Z) : prog lmb_region unit :=
  match n with
  | O => ret tt
  | S n' =>
      let i := Z.of_nat n' in
      let* p := region_get i in
      if b <? base p then region_put (i + 1) p ;; insert_loop n' b s
      else region_put (i + 1) (Range b s)
  end.

(** Merges the range [i] with the next one when they touch; how many merged. *)
Definition coalesce_next (i : Z) : prog lmb_region Z :=
  let* c := get_cnt in
  if i <? c -u 1 then
    let* adjacent := lmb_regions_adjacent i (i + 1) in
    if adjacent =? 0 then ret 0
    else lmb_coalesce_regions i (i + 1) ;; ret 1
  else ret 0.

Definition lmb_add_region (b s : Z) : prog lmb_region Z :=
  let* c := get_cnt in
  let* p0 := region_get 0 in
  if (c =? 1) && (size p0 =? 0) then region_put 0 (Range b s) ;; ret 0 else
  let* found := coalesce_loop (Z.to_nat c) 0 b s in
  match found with
  | None => ret 0
  | Some (coalesced, i) =>
      let* more := coalesce_next i in
      let coalesced := coalesced + more in
      if negb (coalesced =? 0) then ret coalesced else
      let* c := get_cnt in
      if MAX_LMB_REGIONS <=? c then ret (-1) else
      insert_loop (Z.to_nat (s32 (c -u 1) + 1)) b s ;;
      let* p0 := region_get 0 in
      (if b <? base p0 then region_put 0 (Range b s) else ret tt) ;;
      let* c := get_cnt in put_cnt (c +u 1) ;; ret 0
  end.

(** The index of the first range that has all of [b..e), or [cnt]. *)
Fixpoint find_loop (n : nat) (i : Z) (b e : Z) : prog lmb_region Z :=
  match n with
  | O => ret i
  | S n' =>
      let* p := region_get i in
      if (base p <=? b) && (e <=? base p +u size p) then ret i
      else find_loop n' (i + 1) b e
  end.

Definition free_region (b s : Z) : prog lmb_region Z :=
  let e := b +u s in
  let* c := get_cnt in
  let* i := find_loop (Z.to_nat c) 0 b e in
  if i =? c then ret (-1) else
  let* p := region_get i in
  let rgnend := base p +u size p in
  if (base p =? b) && (rgnend =? e) then lmb_remove_region i ;; ret 0
  else if base p =? b then region_put i (Range e (size p -u s)) ;; ret 0
  else if rgnend =? e then region_put i (Range (base p) (size p -u s)) ;; ret 0
  else
    region_put i (Range (base p) (b -u base p)) ;;
    lmb_add_region e (rgnend -u e).

Fixpoint overlaps_loop (n : nat) (i : Z) (b s : Z) : prog lmb_region Z :=
  match n with
  | O => ret (-1)
  | S n' =>
      let* p := region_get i in
      if lmb_addrs_overlap b s (base p) (size p) then ret i else overlaps_loop n' (i + 1) b s
  end.

Definition lmb_overlaps_region (b s : Z) : prog lmb_region Z :=
  let* c := get_cnt in overlaps_loop (Z.to_nat c) 0 b s.

Fixpoint is_reserved_loop (n : nat) (i : Z) (addr : Z) : prog lmb_region Z :=
  match n with
  | O => ret 0
  | S n' =>
      let* p := region_get i in
      let upper := base p +u size p -u 1 in
      if (base p <=? addr) && (addr <=? upper) then ret 1 else is_reserved_loop n' (i + 1) addr
  end.

(** The two tables. *)
Definition on_memory {A} (c : prog lmb_region A) : prog lmb A := λ l,
  match c (memory l) with Some (a, t) => Some (a, Lmb t (reserved l)) | None => None end.
Definition on_reserved {A} (c : prog lmb_region A) : prog lmb A := λ l,
  match c (reserved l) with Some (a, t) => Some (a, Lmb (memory l) t) | None => None end.

Definition lmb_add (b s : Z) : prog lmb Z := on_memory (lmb_add_region b s).
Definition lmb_reserve (b s : Z) : prog lmb Z := on_reserved (lmb_add_region b s).
Definition lmb_free (b s : Z) : prog lmb Z := on_reserved (free_region b s).
Definition lmb_is_reserved (addr : Z) : prog lmb Z :=
  on_reserved (let* c := get_cnt in is_reserved_loop (Z.to_nat c) 0 addr).

Definition lmb_align_down (addr sz : Z) : Z := Z.land addr (not32 (sz -u 1)).
Definition lmb_align_up (addr sz : Z) : Z := Z.land (addr +u (sz -u 1)) (not32 (sz -u 1)).

(** The search below [b] in one range of memory: the address taken, 0 when the
    table of reserved ranges is full, or [None] when there is no room.  A round
    moves below a reserved range that no later round meets, so that rounds are
    not more than the ranges and one. *)
Fixpoint alloc_loop (fuel : nat) (lmbbase b s align : Z) : prog lmb (option Z) :=
  match fuel with
  | O => fault
  | S fuel' =>
      if negb (b =? 0) && (lmbbase <=? b) then
        let* j := on_reserved (lmb_overlaps_region b s) in
        if j <? 0 then
          let* r := on_reserved (lmb_add_region b (lmb_align_up s align)) in
          ret (Some (if r <? 0 then 0 else b))
        else
          let* p := on_reserved (region_get j) in
          if base p <? s then ret None
          else alloc_loop fuel' lmbbase (lmb_align_down (base p -u s) align) s align
      else ret None
  end.

(** The ranges of memory from the last to the first. *)
Fixpoint alloc_regions (n : nat) (s align max_addr : Z) : prog lmb Z :=
  match n with
  | O => ret 0
  | S n' =>
      let* p := on_memory (region_get (Z.of_nat n')) in
      let* r := on_reserved get_cnt in
      let search b :=
        let* found := alloc_loop (S (Z.to_nat r)) (base p) b s align in
        match found with Some a => ret a | None => alloc_regions n' s align max_addr end in
      if size p <? s then alloc_regions n' s align max_addr
      else if max_addr =? LMB_ALLOC_ANYWHERE then
        search (lmb_align_down (base p +u size p -u s) align)
      else if base p <? max_addr then
        search (lmb_align_down (Z.min (base p +u size p) max_addr -u s) align)
      else alloc_regions n' s align max_addr
  end.

Definition __lmb_alloc_base (s align max_addr : Z) : prog lmb Z :=
  let* c := on_memory get_cnt in
  alloc_regions (Z.to_nat (s32 (c -u 1) + 1)) s align max_addr.

(** Prints a message when there is no room. *)
Definition lmb_alloc_base (s align max_addr : Z) : prog lmb Z := __lmb_alloc_base s align max_addr.
Definition lmb_alloc (s align : Z) : prog lmb Z := lmb_alloc_base s align LMB_ALLOC_ANYWHERE.

(** ** Tables as lists of ranges *)

(** The table [t] has the ranges [l]. *)
Definition table (t : lmb_region) (l : list lmb_property) : Prop :=
  length (region t) = 9%nat ∧ (length l ≤ 8)%nat ∧
  match l with
  | [] => cnt t = 1 ∧ ∃ rest, region t = Range 0 0 :: rest
  | _ => cnt t = Z.of_nat (length l) ∧ ∃ rest, region t = l ++ rest
  end.

Definition range_ok (p : lmb_property) : Prop := 0 ≤ base p ∧ 0 < size p ∧ base p + size p < 4294967296.

(** Valid ranges sorted by address, which may overlap. *)
Fixpoint sorted (l : list lmb_property) : Prop :=
  match l with
  | [] => True
  | p :: l' => range_ok p ∧ match l' with [] => True | q :: _ => base p ≤ base q end ∧ sorted l'
  end.

Definition inside (a : Z) (p : lmb_property) : Prop := base p ≤ a < base p + size p.
Definition covered (l : list lmb_property) (a : Z) : Prop := Exists (inside a) l.

(** Adding a range to a list: it extends the first range it touches, which is
    merged with the next one when they touch then, or goes to its place. *)
Section add_range.
Context (b s : Z).

Definition touch (p : lmb_property) : option lmb_property :=
  if base p =? b + s then Some (Range b (size p + s))
  else if b =? base p + size p then Some (Range (base p) (size p + s))
  else None.

Definition merge_next (p : lmb_property) (l : list lmb_property) : Z * list lmb_property :=
  match l with
  | q :: l' => if base q =? base p + size p then (1, Range (base p) (size p + size q) :: l') else (0, p :: l)
  | [] => (0, [p])
  end.

Fixpoint extend_range (l : list lmb_property) : option (Z * list lmb_property) :=
  match l with
  | [] => None
  | p :: l' =>
      if (base p =? b) && (size p =? s) then Some (0, l)
      else match touch p with
      | Some p' => let (r, l'') := merge_next p' l' in Some (1 + r, l'')
      | None => match extend_range l' with Some (r, l'') => Some (r, p :: l'') | None => None end
      end
  end.

Fixpoint insert_range (l : list lmb_property) : list lmb_property :=
  match l with
  | [] => [Range b s]
  | p :: l' => if b <? base p then Range b s :: l else p :: insert_range l'
  end.

Definition add_range (l : list lmb_property) : Z * list lmb_property :=
  match extend_range l with
  | Some res => res
  | None => if (8 <=? length l)%nat then (-1, l) else (0, insert_range l)
  end.
End add_range.

(** ** The code on a table *)

Lemma wp_region_get t i p pre post (Q : lmb_property → lmb_region → Prop) :
  region t = pre ++ p :: post → i = Z.of_nat (length pre) → Q p t → wp (region_get i) Q t.
Proof.
  intros E -> HQ. unfold wp, region_get. destruct (Z.ltb_spec (Z.of_nat (length pre)) 0); [lia |].
  by rewrite Nat2Z.id, E, list_lookup_middle.
Qed.

Lemma wp_region_put t i p p' pre post (Q : unit → lmb_region → Prop) :
  region t = pre ++ p :: post → i = Z.of_nat (length pre) →
  Q tt (LmbRegion (cnt t) (total t) (pre ++ p' :: post)) → wp (region_put i p') Q t.
Proof.
  intros E -> HQ. unfold wp, region_put. destruct (Z.ltb_spec (Z.of_nat (length pre)) 0); [lia |].
  rewrite Nat2Z.id, E, list_lookup_middle by done. cbn.
  by rewrite insert_app_r_alt, Nat.sub_diag by done.
Qed.

Lemma wp_get_cnt t (Q : Z → lmb_region → Prop) : Q (cnt t) t → wp get_cnt Q t.
Proof. done. Qed.

Lemma wp_put_cnt n t (Q : unit → lmb_region → Prop) :
  Q tt (LmbRegion n (total t) (region t)) → wp (put_cnt n) Q t.
Proof. done. Qed.

(** Accesses to the entry between [pre] and [post]. *)
Tactic Notation "get_at" constr(pre) constr(p) constr(post) :=
  apply wp_bind, (wp_region_get _ _ p pre post);
    [first [done | cbn; by rewrite <- ?app_assoc] | rewrite ?length_app; cbn; lia |].
Tactic Notation "put_at" constr(pre) constr(p) constr(post) :=
  apply (wp_region_put _ _ p _ pre post);
    [first [done | cbn; by rewrite <- ?app_assoc] | rewrite ?length_app; cbn; lia | cbn [cnt total region]].
Ltac count := apply wp_bind, wp_get_cnt; cbn [cnt total region].

Lemma remove_loop_spec fuel pre p l rest c tot (Q : unit → lmb_region → Prop) :
  c = Z.of_nat (length pre + S (length l)) → (length l < fuel)%nat → c < 4294967296 →
  (∀ q, Q tt (LmbRegion c tot (pre ++ l ++ q :: rest))) →
  wp (remove_loop fuel (Z.of_nat (length pre))) Q (LmbRegion c tot (pre ++ p :: l ++ rest)).
Proof.
  revert fuel pre p. induction l as [|q l IH]; intros fuel pre p Hc Hf Hlt HQ;
    (destruct fuel as [|fuel]; [cbn in Hf; lia |]); cbn in Hf.
  - cbn [remove_loop]. count. rewrite (u32_small (c - 1)) by (cbn in Hc; lia).
    destruct (Z.ltb_spec (Z.of_nat (length pre)) (c - 1)); [cbn in *; lia |]. apply wp_ret. apply (HQ p).
  - cbn [remove_loop]. count. cbn in Hc. rewrite (u32_small (c - 1)) by lia.
    destruct (Z.ltb_spec (Z.of_nat (length pre)) (c - 1)); [|lia]. rewrite u32_small by lia.
    get_at (pre ++ [p]) q (l ++ rest). apply wp_bind. put_at pre p (q :: l ++ rest).
    replace (Z.of_nat (length pre) + 1) with (Z.of_nat (length (pre ++ [q]))) by (rewrite length_app; cbn; lia).
    replace (pre ++ q :: q :: l ++ rest) with ((pre ++ [q]) ++ q :: l ++ rest) by by rewrite <- app_assoc.
    apply IH; [rewrite length_app; cbn; lia | lia | lia |].
    intros x. specialize (HQ x). by rewrite <- !app_assoc.
Qed.

(** Removing an entry leaves the others and makes room behind them. *)
Lemma lmb_remove_region_spec pre p l rest c tot (Q : unit → lmb_region → Prop) :
  c = Z.of_nat (length pre + S (length l)) → c ≤ 8 →
  (∀ q, Q tt (LmbRegion (c - 1) tot (pre ++ l ++ q :: rest))) →
  wp (lmb_remove_region (Z.of_nat (length pre))) Q (LmbRegion c tot (pre ++ p :: l ++ rest)).
Proof.
  intros Hc H8 HQ. unfold lmb_remove_region. apply wp_bind, remove_loop_spec; [done | lia | lia |].
  intros q. count. apply wp_put_cnt. rewrite u32_small by lia. apply HQ.
Qed.

Lemma lmb_addrs_adjacent_nowrap b s p :
  range_ok (Range b s) → range_ok p →
  lmb_addrs_adjacent b s (base p) (size p) =
    if base p =? b + s then 1 else if b =? base p + size p then -1 else 0.
Proof. unfold range_ok. cbn. intros. unfold lmb_addrs_adjacent. by rewrite !u32_small by lia. Qed.

Lemma insert_loop_spec l1 l2 x rest b s c tot (Q : unit → lmb_region → Prop) :
  Forall (λ p, b < base p) l2 → match last l1 with Some p => base p ≤ b | None => True end →
  (∀ y, y = Range b s ∨ l1 = [] ∧ y = default x (head l2) →
    Q tt (LmbRegion c tot (l1 ++ y :: l2 ++ rest))) →
  wp (insert_loop (length (l1 ++ l2)) b s) Q (LmbRegion c tot (l1 ++ l2 ++ x :: rest)).
Proof.
  intros Hl2 Hl1. revert x rest. induction l2 as [|q l2 IH] using rev_ind; intros x rest HQ.
  - rewrite app_nil_r. cbn. destruct l1 as [|p l1 _] using rev_ind; cbn; [apply HQ; auto |].
    rewrite length_app, Nat.add_comm. cbn. rewrite last_snoc in Hl1. get_at l1 p (x :: rest).
    destruct (Z.ltb_spec b (base p)); [lia |]. put_at (l1 ++ [p]) x rest. apply HQ. auto.
  - apply Forall_app in Hl2 as [Hl2 Hq]. inversion_clear Hq.
    rewrite app_assoc, length_app, Nat.add_comm. cbn [length Nat.add insert_loop].
    get_at (l1 ++ l2) q (x :: rest). destruct (Z.ltb_spec b (base q)); [|lia].
    apply wp_bind. put_at (l1 ++ l2 ++ [q]) x rest.
    replace ((l1 ++ l2 ++ [q]) ++ q :: rest) with (l1 ++ l2 ++ q :: q :: rest) by by rewrite <- !app_assoc.
    apply IH; [done |]. intros y Hy. specialize (HQ y). rewrite <- !app_assoc in HQ. apply HQ.
    destruct Hy as [?|[? Hy]]; [auto | right]. split; [done |]. rewrite Hy. by destruct l2.
Qed.

Lemma table_intro t l rest :
  l ≠ [] → region t = l ++ rest → length (region t) = 9%nat → cnt t = Z.of_nat (length l) →
  (length l ≤ 8)%nat → table t l.
Proof. intros Hl E ? ? ?. unfold table. split_and!; [done .. |]. destruct l; [done |]. eauto. Qed.

Lemma table_elim t l :
  l ≠ [] → table t l → ∃ rest, t = LmbRegion (Z.of_nat (length l)) (total t) (l ++ rest) ∧
    length (l ++ rest) = 9%nat ∧ (length l ≤ 8)%nat.
Proof.
  intros Hl (H9 & H8 & Ht). destruct t as [c tot reg]. cbn in *.
  assert (c = Z.of_nat (length l) ∧ ∃ rest, reg = l ++ rest) as (-> & rest & ->) by by destruct l. eauto.
Qed.

(** The range [p] and the next one. *)
Lemma coalesce_next_spec l1 p l2 rest tot :
  let l := l1 ++ p :: l2 in
  range_ok p → Forall range_ok l2 → match l2 with q :: _ => base p < base q + size q | [] => True end →
  (length l ≤ 8)%nat → length (l ++ rest) = 9%nat →
  wp (coalesce_next (Z.of_nat (length l1)))
    (λ r t, r = (merge_next p l2).1 ∧ table t (l1 ++ (merge_next p l2).2))
    (LmbRegion (Z.of_nat (length l)) tot (l ++ rest)).
Proof.
  intros l Hp Hl2 Hq H8 H9. assert (length l = (length l1 + S (length l2))%nat) as Hlen by apply length_app.
  unfold coalesce_next. count. rewrite u32_small by lia.
  assert (table (LmbRegion (Z.of_nat (length l)) tot (l ++ rest)) l) as Hsame.
  { apply (table_intro _ _ rest); [by destruct l1 | done ..]. }
  destruct l2 as [|q l2].
  { destruct (Z.ltb_spec (Z.of_nat (length l1)) (Z.of_nat (length l) - 1)); [cbn in Hlen; lia |]. by apply wp_ret. }
  cbn in Hlen. destruct (Z.ltb_spec (Z.of_nat (length l1)) (Z.of_nat (length l) - 1)); [|lia].
  apply Forall_cons in Hl2 as [Hqok _].
  assert (l ++ rest = l1 ++ p :: q :: l2 ++ rest) as Hreg by by (unfold l; rewrite <- app_assoc).
  rewrite Hreg in *. unfold lmb_regions_adjacent.
  apply wp_bind. get_at l1 p (q :: l2 ++ rest). get_at (l1 ++ [p]) q (l2 ++ rest). apply wp_ret.
  rewrite lmb_addrs_adjacent_nowrap by done. cbn [merge_next].
  destruct (Z.eqb_spec (base q) (base p + size p)) as [Eq|Ne]; cbn [fst snd].
  - cbn [Z.eqb]. unfold lmb_coalesce_regions. apply wp_bind.
    get_at l1 p (q :: l2 ++ rest). get_at (l1 ++ [p]) q (l2 ++ rest). apply wp_bind. put_at l1 p (q :: l2 ++ rest).
    unfold range_ok in *. rewrite u32_small by lia. set (m := Range (base p) (size p + size q)).
    replace (Z.of_nat (length l1) + 1) with (Z.of_nat (length (l1 ++ [m]))) by (rewrite length_app; cbn; lia).
    replace (l1 ++ m :: q :: l2 ++ rest) with ((l1 ++ [m]) ++ q :: l2 ++ rest) by by rewrite <- app_assoc.
    apply lmb_remove_region_spec; [rewrite length_app; cbn; lia | lia |].
    intros z. apply wp_ret. split; [done |]. rewrite length_app in H9. cbn in H9. rewrite length_app in H9.
    apply (table_intro _ _ (z :: rest)); cbn [region cnt]; rewrite <- ?app_assoc, ?length_app;
      cbn [length app]; rewrite ?length_app; cbn [length]; [by destruct l1 | done | lia ..].
  - destruct (Z.eqb_spec (base p) (base q + size q)); [lia |]. cbn [Z.eqb]. by apply wp_ret.
Qed.

Section add.
Context (b s : Z) (Hbs : range_ok (Range b s)).
Implicit Types (l : list lmb_property) (p : lmb_property).

(** Entries that are passed over. *)
Definition passed p : Prop := range_ok p ∧ (base p =? b) && (size p =? s) = false ∧ touch b s p = None.

Lemma extend_range_cases l :
  Forall range_ok l →
  (Forall passed l ∧ extend_range b s l = None) ∨
  ∃ l1 p l2, l = l1 ++ p :: l2 ∧ Forall passed l1 ∧
    (p = Range b s ∧ extend_range b s l = Some (0, l) ∨
     ∃ p', (base p =? b) && (size p =? s) = false ∧ touch b s p = Some p' ∧
       extend_range b s l = Some (1 + (merge_next p' l2).1, l1 ++ (merge_next p' l2).2)).
Proof.
  induction 1 as [|p l Hp Hl IH]; [by left |]. cbn. destruct ((base p =? b) && (size p =? s)) eqn:E.
  { apply andb_prop in E as [Eb%Z.eqb_eq Es%Z.eqb_eq]. right. exists [], p, l. split; [done |]. split; [constructor |].
    left. split; [|done]. destruct p. cbn in *. by subst. }
  destruct (touch b s p) as [p'|] eqn:E'.
  { right. exists [], p, l. split; [done |]. split; [constructor |]. right. exists p'.
    by destruct (merge_next p' l). }
  destruct IH as [[? ->]|(l1 & q & l2 & -> & ? & IH)].
  { left. split; [|done]. by constructor. }
  right. exists (p :: l1), q, l2. split; [done |]. split; [by constructor |].
  destruct IH as [[? ->]|(p' & ? & ? & ->)]; [by left | right; by exists p'].
Qed.

Lemma coalesce_skip l pre rest n t Q :
  Forall passed l → region t = pre ++ l ++ rest →
  wp (coalesce_loop n (Z.of_nat (length (pre ++ l))) b s) Q t →
  wp (coalesce_loop (length l + n) (Z.of_nat (length pre)) b s) Q t.
Proof using Hbs.
  intros Hl. revert pre. induction Hl as [|p l (Hp & Hne & Ht) _ IH]; intros pre E; cbn [length Nat.add].
  - by rewrite app_nil_r.
  - intros HQ. cbn [coalesce_loop]. get_at pre p (l ++ rest). rewrite Hne.
    rewrite lmb_addrs_adjacent_nowrap by done. unfold touch in Ht. repeat case_match; try done. cbn.
    replace (Z.of_nat (length pre) + 1) with (Z.of_nat (length (pre ++ [p]))) by (rewrite length_app; cbn; lia).
    apply IH; by rewrite <- app_assoc.
Qed.

Lemma coalesce_hit n pre p p' post t Q :
  region t = pre ++ p :: post → range_ok p → (base p =? b) && (size p =? s) = false → touch b s p = Some p' →
  range_ok p' →
  Q (Some (1, Z.of_nat (length pre))) (LmbRegion (cnt t) (total t) (pre ++ p' :: post)) →
  wp (coalesce_loop (S n) (Z.of_nat (length pre)) b s) Q t.
Proof using Hbs.
  intros Ht Hp Hne Htouch Hp' HQ. cbn [coalesce_loop]. get_at pre p post. rewrite Hne.
  rewrite lmb_addrs_adjacent_nowrap by done. unfold touch in Htouch.
  destruct (Z.eqb_spec (base p) (b + s)) as [E|]; [|destruct (Z.eqb_spec b (base p + size p)); [|done]];
    injection Htouch as <-; unfold range_ok in *; cbn [base size Z.ltb Z.compare] in *; rewrite ?u32_small by lia;
    apply wp_bind, (wp_region_put _ _ p _ pre post); try done.
  by replace (base p - s) with b by lia.
Qed.

(** Up to the search on a table with ranges. *)
Lemma add_region_enter l rest tot (Q : Z → lmb_region → Prop) :
  l ≠ [] → Forall range_ok l →
  let t := LmbRegion (Z.of_nat (length l)) tot (l ++ rest) in
  wp (coalesce_loop (length l) 0 b s) (λ found t,
    wp (match found with
        | None => ret 0
        | Some (coalesced, i) =>
            let* more := coalesce_next i in
            let coalesced := coalesced + more in
            if negb (coalesced =? 0) then ret coalesced else
            let* c := get_cnt in
            if MAX_LMB_REGIONS <=? c then ret (-1) else
            insert_loop (Z.to_nat (s32 (c -u 1) + 1)) b s ;;
            let* p0 := region_get 0 in
            (if b <? base p0 then region_put 0 (Range b s) else ret tt) ;;
            let* c := get_cnt in put_cnt (c +u 1) ;; ret 0
        end) Q t) t → wp (lmb_add_region b s) Q t.
Proof.
  intros Hl Hr t HQ. unfold lmb_add_region, t. count. destruct l as [|p l]; [done |].
  get_at (@nil lmb_property) p (l ++ rest). apply Forall_cons in Hr as [(_ & ? & _) _].
  destruct (Z.eqb_spec (size p) 0); [lia |]. rewrite andb_false_r, Nat2Z.id. by apply wp_bind.
Qed.

(** The end of the insertion, which writes the first entry when the new range
    comes before all others. *)
Lemma insert_finish l1 l2 y c tot rest (Q : Z → lmb_region → Prop) :
  l1 ++ l2 ≠ [] → Forall (λ p, base p ≤ b) l1 → Forall (λ p, b < base p) l2 →
  y = Range b s ∨ l1 = [] ∧ y = default y (head l2) → 0 ≤ c < 8 →
  Q 0 (LmbRegion (c + 1) tot (l1 ++ Range b s :: l2 ++ rest)) →
  wp (let* p0 := region_get 0 in
      (if b <? base p0 then region_put 0 (Range b s) else ret tt) ;;
      let* c := get_cnt in put_cnt (c +u 1) ;; ret 0) Q (LmbRegion c tot (l1 ++ y :: l2 ++ rest)).
Proof.
  intros Hne Hl1 Hl2 Hy Hc HQ. apply wp_bind.
  assert (∀ r, r = l1 ++ Range b s :: l2 ++ rest →
    wp (let* c := get_cnt in put_cnt (c +u 1) ;; ret 0) Q (LmbRegion c tot r)) as Hend.
  { intros r ->. count. apply wp_bind, wp_put_cnt, wp_ret. by rewrite u32_small by lia. }
  destruct l1 as [|p l1]; cbn [app].
  - destruct l2 as [|q l2]; [done |]. apply (wp_region_get _ _ y [] ((q :: l2) ++ rest)); [done | done |].
    apply Forall_cons in Hl2 as [? _]. destruct (Z.ltb_spec b (base y)).
    + apply wp_bind. put_at (@nil lmb_property) y ((q :: l2) ++ rest). by apply Hend.
    + apply wp_bind, wp_ret, Hend. destruct Hy as [->|[_ Hy]]; [done |]. cbn in Hy. subst y. lia.
  - destruct Hy as [->|[? _]]; [|done].
    apply (wp_region_get _ _ p [] (l1 ++ Range b s :: l2 ++ rest)); [done | done |].
    apply Forall_cons in Hl1 as [? _]. destruct (Z.ltb_spec b (base p)); [lia |]. by apply wp_bind, wp_ret, Hend.
Qed.
End add.

Lemma sorted_ok l : sorted l → Forall range_ok l.
Proof. induction l as [|p l IH]; cbn; [constructor |]. intros (? & _ & ?). auto. Qed.

Lemma sorted_app_r l1 l2 : sorted (l1 ++ l2) → sorted l2.
Proof. induction l1 as [|p l1 IH]; cbn; [done |]. intros (_ & _ & ?). auto. Qed.

Lemma sorted_above p l : sorted (p :: l) → Forall (λ q, base p ≤ base q) l.
Proof.
  revert p. induction l as [|q l IH]; intros p; [constructor |]. intros (? & ? & Hl). constructor; [done |].
  eapply Forall_impl; [by apply IH |]. cbn. lia.
Qed.

Lemma insert_range_split b s l :
  sorted l → ∃ l1 l2, l = l1 ++ l2 ∧ insert_range b s l = l1 ++ Range b s :: l2 ∧
    Forall (λ p, base p ≤ b) l1 ∧ Forall (λ p, b < base p) l2.
Proof.
  induction l as [|p l IH]; intros Hl; [by exists [], [] |]. cbn. destruct (Z.ltb_spec b (base p)).
  - exists [], (p :: l). split_and!; [done .. |]. constructor; [done |].
    eapply Forall_impl; [by apply sorted_above |]. cbn. lia.
  - destruct IH as (l1 & l2 & -> & -> & ? & ?); [by destruct Hl as (_ & _ & ?) |].
    exists (p :: l1), l2. split_and!; [done .. | by constructor | done].
Qed.

Lemma touch_ok b s p p' :
  range_ok (Range b s) → range_ok p → touch b s p = Some p' →
  range_ok p' ∧ base p' ≤ base p ∧ ∀ a, inside a p' ↔ inside a p ∨ b ≤ a < b + s.
Proof.
  unfold touch, range_ok, inside. cbn. intros. destruct (Z.eqb_spec (base p) (b + s)); simplify_eq/=.
  { split_and!; [lia .. |]. intros. lia. }
  destruct (Z.eqb_spec b (base p + size p)); simplify_eq/=. split_and!; [lia .. |]. intros. lia.
Qed.

(** The three ways through [lmb_add_region] on the non-empty table [l]. *)
Section add_cases.
Context (b s : Z) (Hbs : range_ok (Range b s)) (tot : Z).

Lemma add_region_insert l rest :
  l ≠ [] → sorted l → length (l ++ rest) = 9%nat → (length l ≤ 8)%nat → Forall (passed b s) l →
  wp (lmb_add_region b s)
    (λ r t, r = (if (8 <=? length l)%nat then -1 else 0) ∧
      table t (if (8 <=? length l)%nat then l else insert_range b s l))
    (LmbRegion (Z.of_nat (length l)) tot (l ++ rest)).
Proof using Hbs.
  intros Hne Hl H9 H8 Hpass. pose proof (sorted_ok l Hl) as Hok.
  assert (0 < length l)%nat by (destruct l; [done | cbn; lia]). apply add_region_enter; [done .. |].
  rewrite <- (Nat.add_0_r (length l)) at 1. apply (coalesce_skip b s Hbs l [] rest); [done .. |]. cbn [coalesce_loop].
  apply wp_ret, wp_bind. unfold coalesce_next. count. rewrite u32_small by lia. cbn [app].
  destruct (Z.ltb_spec (Z.of_nat (length l)) (Z.of_nat (length l) - 1)); [lia |].
  apply wp_ret. cbn [Z.add Z.eqb negb]. count. unfold MAX_LMB_REGIONS.
  destruct (Z.leb_spec 8 (Z.of_nat (length l))), (Nat.leb_spec 8 (length l)); try lia.
  { apply wp_ret. split; [done |]. by apply (table_intro _ _ rest). }
  rewrite (u32_small (_ - 1)), s32_small, Z.sub_add, Nat2Z.id by lia.
  destruct rest as [|x rest]; [rewrite app_nil_r in H9; lia |].
  destruct (insert_range_split b s l Hl) as (l1 & l2 & -> & -> & Hl1 & Hl2). rewrite <- app_assoc.
  apply wp_bind, insert_loop_spec; [done | |].
  { destruct (last l1) as [p|] eqn:E; [|done]. apply last_Some in E as [l0 ->].
    apply Forall_app in Hl1 as [_ Hp]. by apply Forall_cons in Hp as [? _]. }
  intros y Hy. apply insert_finish; [done .. | | lia |].
  { destruct Hy as [?|[-> ->]]; [by left | right]. by destruct l2. }
  split; [done |]. rewrite ?length_app in *; cbn in *.
  apply (table_intro _ _ rest); cbn [region cnt]; rewrite <- ?app_assoc, ?length_app; cbn; rewrite ?length_app;
    [by destruct l1 | done | lia ..].
Qed.

Lemma add_region_same l1 l2 rest :
  let l := l1 ++ Range b s :: l2 in
  Forall range_ok l → Forall (passed b s) l1 →
  wp (lmb_add_region b s) (λ r t, r = 0 ∧ t = LmbRegion (Z.of_nat (length l)) tot (l ++ rest))
    (LmbRegion (Z.of_nat (length l)) tot (l ++ rest)).
Proof using Hbs.
  intros l Hok Hpass. apply add_region_enter; [by destruct l1 | done |].
  assert (l ++ rest = l1 ++ Range b s :: l2 ++ rest) as Hreg by (unfold l; by rewrite <- app_assoc).
  assert (length l = (length l1 + S (length l2))%nat) as Hlen by apply length_app.
  rewrite Hlen at 1. apply (coalesce_skip b s Hbs l1 [] (Range b s :: l2 ++ rest)); [done | done |].
  rewrite Hreg. cbn [coalesce_loop app]. get_at l1 (Range b s) (l2 ++ rest).
  cbn [base size]. rewrite !Z.eqb_refl. by apply wp_ret, wp_ret.
Qed.

Lemma add_region_extend l1 p p' l2 rest :
  let l := l1 ++ p :: l2 in
  sorted l → length (l ++ rest) = 9%nat → (length l ≤ 8)%nat → Forall (passed b s) l1 →
  (base p =? b) && (size p =? s) = false → touch b s p = Some p' →
  wp (lmb_add_region b s)
    (λ r t, r = 1 + (merge_next p' l2).1 ∧ table t (l1 ++ (merge_next p' l2).2))
    (LmbRegion (Z.of_nat (length l)) tot (l ++ rest)).
Proof using Hbs.
  intros l Hl H9 H8 Hpass Hne Htouch. pose proof (sorted_ok l Hl) as Hok.
  apply add_region_enter; [by destruct l1 | done |].
  apply Forall_app in Hok as [_ [Hp Hl2]%Forall_cons]. destruct (touch_ok b s p p' Hbs Hp Htouch) as (Hp' & Hle & _).
  assert (length l = (length l1 + S (length l2))%nat) as Hlen by apply length_app.
  assert (l ++ rest = l1 ++ p :: l2 ++ rest) as Hreg by (unfold l; by rewrite <- app_assoc).
  rewrite Hlen at 1. apply (coalesce_skip b s Hbs l1 [] (p :: l2 ++ rest)); [done | done |]. cbn [app].
  apply (coalesce_hit b s Hbs _ l1 p p' (l2 ++ rest)); [done .. |]. cbn [cnt total region]. apply wp_bind.
  replace (length l) with (length (l1 ++ p' :: l2)) by (unfold l; by rewrite !length_app).
  replace (l1 ++ p' :: l2 ++ rest) with ((l1 ++ p' :: l2) ++ rest) by by rewrite <- app_assoc.
  eapply wp_mono; [apply coalesce_next_spec |].
  - done.
  - done.
  - destruct l2 as [|q l2]; [done |]. apply sorted_app_r in Hl as (_ & ? & _).
    apply Forall_cons in Hl2 as [(? & ? & _) _]. lia.
  - revert H8. unfold l. by rewrite !length_app.
  - revert H9. unfold l. by rewrite !length_app.
  - cbn beta. intros r t [-> Ht].
    destruct (Z.eqb_spec (1 + (merge_next p' l2).1) 0) as [E|]; [|by apply wp_ret].
    destruct l2 as [|q l2]; cbn in E; [done |]. by case_match.
Qed.
End add_cases.

(** The code on arrays computes [add_range]. *)
Lemma lmb_add_region_refines b s t l :
  range_ok (Range b s) → sorted l → table t l →
  wp (lmb_add_region b s) (λ r t', r = (add_range b s l).1 ∧ table t' (add_range b s l).2) t.
Proof.
  intros Hbs Hl Ht. destruct (decide (l = [])) as [->|Hne].
  { destruct t as [c tot reg], Ht as (H9 & _ & Hc & rest & Hr). cbn in *. subst. unfold lmb_add_region. count.
    get_at (@nil lmb_property) (Range 0 0) rest. cbn [Z.eqb andb size Pos.eqb].
    apply wp_bind. put_at (@nil lmb_property) (Range 0 0) rest. apply wp_ret. split; [done |].
    apply (table_intro _ _ rest); [done .. | cbn; lia]. }
  destruct (table_elim t l Hne Ht) as (rest & -> & H9 & H8). pose proof (sorted_ok l Hl) as Hok.
  unfold add_range. destruct (extend_range_cases b s l Hok) as [[Hpass ->]|(l1 & p & l2 & -> & Hpass & Hext)].
  - eapply wp_mono; [by apply add_region_insert |]. cbn beta. intros r t' [-> ?]. by destruct (8 <=? length l)%nat.
  - destruct Hext as [[-> ->]|(p' & Hp & Htouch & ->)].
    + eapply wp_mono; [by apply add_region_same |]. cbn. intros r t' [-> ->]. split; [done |].
      by apply (table_intro _ _ rest).
    + by apply add_region_extend with (p := p).
Qed.

(** ** The sets of addresses *)

Lemma covered_app l1 l2 a : covered (l1 ++ l2) a ↔ covered l1 a ∨ covered l2 a.
Proof. apply Exists_app. Qed.

Lemma covered_cons p l a : covered (p :: l) a ↔ inside a p ∨ covered l a.
Proof. apply Exists_cons. Qed.

Lemma covered_nil a : covered [] a ↔ False.
Proof. apply Exists_nil. Qed.

Lemma merge_next_covered p l a :
  range_ok p → Forall range_ok l → covered (merge_next p l).2 a ↔ inside a p ∨ covered l a.
Proof.
  intros Hp Hl. destruct l as [|q l]; cbn; [apply covered_cons |].
  destruct (Z.eqb_spec (base q) (base p + size p)); cbn; rewrite !covered_cons; [|done].
  apply Forall_cons in Hl as [Hq _]. unfold inside, range_ok in *. cbn. intuition lia.
Qed.

Lemma extend_range_covered b s l r l' :
  range_ok (Range b s) → Forall range_ok l → extend_range b s l = Some (r, l') →
  0 ≤ r ≤ 2 ∧ ∀ a, covered l' a ↔ covered l a ∨ b ≤ a < b + s.
Proof.
  intros Hbs Hl. revert r l'. induction Hl as [|p l Hp Hl IH]; intros r l'; [done |]. cbn.
  destruct ((base p =? b) && (size p =? s)) eqn:E.
  { intros [= <- <-]. apply andb_prop in E as [Eb%Z.eqb_eq Es%Z.eqb_eq]. split; [lia |].
    intros a. rewrite covered_cons. unfold inside. intuition lia. }
  destruct (touch b s p) as [p'|] eqn:Ht.
  - destruct (touch_ok b s p p' Hbs Hp Ht) as (Hp' & _ & Hin). destruct (merge_next p' l) as [m l''] eqn:Hm.
    intros [= <- <-]. split.
    { destruct l as [|q l]; cbn in Hm; [by simplify_eq | case_match; simplify_eq; lia]. }
    intros a. pose proof (merge_next_covered p' l a Hp' Hl) as H. rewrite Hm in H. cbn in H.
    rewrite H, covered_cons, Hin. tauto.
  - destruct (extend_range b s l) as [[m l'']|]; [|done]. intros [= <- <-].
    destruct (IH _ _ eq_refl) as [? H]. split; [done |]. intros a. rewrite !covered_cons, H. tauto.
Qed.

Lemma insert_range_covered b s l a : covered (insert_range b s l) a ↔ covered l a ∨ b ≤ a < b + s.
Proof.
  induction l as [|p l IH]; cbn; [|case_match]; rewrite !covered_cons, ?covered_nil, ?IH; unfold inside; cbn; tauto.
Qed.

(** Ranges above [lo], in order and with gaps, that end below 2^32. *)
Fixpoint separated (lo : Z) (l : list lmb_property) : Prop :=
  match l with
  | [] => lo < 4294967296
  | p :: l' => lo < base p ∧ 0 < size p ∧ separated (base p + size p) l'
  end.

Lemma separated_lower lo lo' l : separated lo l → lo' ≤ lo → separated lo' l.
Proof. destruct l as [|p l]; cbn; [lia |]. intros (? & ? & ?) ?. split; [lia | done]. Qed.

Lemma separated_below lo l : separated lo l → lo < 4294967296.
Proof. revert lo. induction l as [|p l IH]; intros lo; cbn; [done |]. intros (? & ? & H%IH). lia. Qed.

Lemma separated_sorted lo l : -1 ≤ lo → separated lo l → sorted l.
Proof.
  revert lo. induction l as [|p l IH]; intros lo Hlo; cbn; [done |]. intros (? & ? & H).
  pose proof (separated_below _ _ H). split; [unfold range_ok; lia |]. split; [|apply (IH (base p + size p)); [lia | done]].
  destruct l as [|q l]; cbn in H; [done | lia].
Qed.

Lemma separated_elem lo l p : separated lo l → p ∈ l → lo < base p ∧ 0 < size p.
Proof.
  revert lo. induction l as [|q l IH]; intros lo; [by intros _ ?%not_elem_of_nil |]. cbn.
  intros (? & ? & H) [->|Hp]%elem_of_cons; [done |]. apply IH in H; [lia | done].
Qed.

(** No address of the range is in [l]. *)
Definition disjoint_from (b s : Z) (l : list lmb_property) : Prop := ∀ a, b ≤ a < b + s → ¬ covered l a.

Lemma disjoint_from_cons b s p l :
  0 < s → 0 < size p → disjoint_from b s (p :: l) →
  (base p + size p ≤ b ∨ b + s ≤ base p) ∧ disjoint_from b s l.
Proof.
  intros Hs Hp H. split.
  - destruct (Z.le_gt_cases (base p + size p) b); [by left |]. destruct (Z.le_gt_cases (b + s) (base p)); [by right |].
    destruct (H (Z.max b (base p))); [lia |]. apply covered_cons. left. unfold inside. lia.
  - intros a Ha Hc. apply (H a Ha). apply covered_cons. by right.
Qed.

Lemma extend_range_above b s l : 0 < s → separated (b + s) l → extend_range b s l = None.
Proof.
  intros Hs. generalize (Z.le_refl (b + s)). generalize (b + s) at 2 3 as lo. induction l as [|p l IH]; intros lo Hlo; [done |]. cbn.
  intros (? & ? & H). unfold touch. destruct (Z.eqb_spec (base p) b); [lia |]. cbn.
  destruct (Z.eqb_spec (base p) (b + s)); [lia |]. destruct (Z.eqb_spec b (base p + size p)); [lia |].
  by rewrite (IH (base p + size p)) by (done || lia).
Qed.

Lemma extend_range_separated b s lo l r l' :
  0 < s → b + s < 4294967296 → lo < b → separated lo l → disjoint_from b s l →
  extend_range b s l = Some (r, l') → separated lo l'.
Proof.
  intros Hs Hbs. revert lo r l'. induction l as [|p l IH]; intros lo r l' Hlo Hl Hd; [done |]. cbn in *.
  destruct Hl as (Hp & Hps & Hl). pose proof (separated_below _ _ Hl).
  destruct (disjoint_from_cons b s p l Hs Hps Hd) as [Hdp Hdl].
  destruct (Z.eqb_spec (base p) b); [lia |]. cbn [andb]. unfold touch.
  destruct (Z.eqb_spec (base p) (b + s)); [|destruct (Z.eqb_spec b (base p + size p))].
  - assert (merge_next (Range b (size p + s)) l = (0, Range b (size p + s) :: l)) as ->.
    { destruct l as [|q l]; [done |]. cbn in *. destruct (Z.eqb_spec (base q) (b + (size p + s))); [lia | done]. }
    intros [= <- <-]. cbn. split_and!; [lia | lia |]. by replace (b + (size p + s)) with (base p + size p) by lia.
  - destruct l as [|q l]; cbn [merge_next base size].
    { intros [= <- <-]. cbn. lia. }
    cbn in Hl. destruct Hl as (? & ? & Hl). destruct (disjoint_from_cons b s q l Hs) as [? _]; [done | done |].
    destruct (Z.eqb_spec (base q) (base p + (size p + s))); intros [= <- <-]; cbn; split_and!; try lia; try done.
    by replace (base p + (size p + s + size q)) with (base q + size q) by lia.
  - destruct (extend_range b s l) as [[m l'']|] eqn:E; [|done]. intros [= <- <-]. cbn. split_and!; [done | done |].
    destruct Hdp; [eapply IH; [lia | done | done | done] |].
    rewrite extend_range_above in E; [done | done |]. eapply separated_lower; [done | lia].
Qed.

Lemma insert_range_separated b s lo l :
  0 < s → b + s < 4294967296 → lo < b → separated lo l → disjoint_from b s l →
  extend_range b s l = None → separated lo (insert_range b s l).
Proof.
  intros Hs Hbs. revert lo. induction l as [|p l IH]; intros lo Hlo Hl Hd He; cbn in *; [lia |].
  destruct Hl as (Hp & Hps & Hl). destruct (disjoint_from_cons b s p l Hs Hps Hd) as [Hdp Hdl].
  destruct (Z.eqb_spec (base p) b); [lia |]. cbn [andb] in He. unfold touch in He.
  destruct (Z.eqb_spec (base p) (b + s)); [by destruct (merge_next _ _) |].
  destruct (Z.eqb_spec b (base p + size p)); [by destruct (merge_next _ _) |].
  destruct (extend_range b s l) as [[??]|]; [done |]. destruct (Z.ltb_spec b (base p)); cbn.
  - split_and!; [done | done | lia | done | done].
  - split_and!; [done | done |]. apply IH; [lia | done ..].
Qed.

Lemma extend_range_same b s lo l :
  separated lo l → Range b s ∈ l → extend_range b s l = Some (0, l).
Proof.
  revert lo. induction l as [|p l IH]; intros lo; [by intros _ ?%not_elem_of_nil |]. cbn.
  intros (? & ? & Hl) [<-|Hin]%elem_of_cons; [by rewrite !Z.eqb_refl |].
  destruct (separated_elem _ _ _ Hl Hin) as [Hb Hs]. cbn in Hb, Hs. destruct (Z.eqb_spec (base p) b); [lia |]. cbn. unfold touch.
  destruct (Z.eqb_spec (base p) (b + s)); [lia |]. destruct (Z.eqb_spec b (base p + size p)); [lia |].
  by rewrite (IH _ Hl Hin).
Qed.

(** ** Adding and freeing *)

(** The result [r] of adding a range to [l], which becomes [l']. *)
Definition added (b s : Z) (l : list lmb_property) (r : Z) (l' : list lmb_property) : Prop :=
  (r = -1 ∧ l' = l ∧ length l = 8%nat) ∨
  (0 ≤ r ≤ 2 ∧ ∀ a, covered l' a ↔ covered l a ∨ b ≤ a < b + s).

Lemma add_range_added b s l :
  range_ok (Range b s) → Forall range_ok l → (length l ≤ 8)%nat →
  added b s l (add_range b s l).1 (add_range b s l).2.
Proof.
  intros Hbs Hl H8. unfold add_range, added. destruct (extend_range b s l) as [[r l']|] eqn:E.
  - right. by apply extend_range_covered.
  - destruct (Nat.leb_spec 8 (length l)); cbn; [left; split_and!; [done | done | lia] | right].
    split; [lia |]. intros a. apply insert_range_covered.
Qed.

Lemma add_range_separated b s l :
  range_ok (Range b s) → separated (-1) l → Range b s ∈ l ∨ disjoint_from b s l →
  separated (-1) (add_range b s l).2.
Proof.
  unfold range_ok. cbn. intros Hbs Hl [Hin|Hd]; unfold add_range.
  - by rewrite (extend_range_same _ _ _ _ Hl Hin).
  - destruct (extend_range b s l) as [[r l']|] eqn:E.
    + eapply extend_range_separated; [.. | done]; (done || lia).
    + case_match; [done |]. apply insert_range_separated; (done || lia).
Qed.

Lemma lmb_add_region_spec b s t l :
  range_ok (Range b s) → table t l → separated (-1) l →
  wp (lmb_add_region b s)
    (λ r t', ∃ l', table t' l' ∧ added b s l r l' ∧
      (Range b s ∈ l ∨ disjoint_from b s l → separated (-1) l')) t.
Proof.
  intros Hbs Ht Hl. assert (sorted l) as Hsort by by apply (separated_sorted (-1)).
  eapply wp_mono; [by apply lmb_add_region_refines |]. cbn. intros r t' [-> Ht'].
  exists (add_range b s l).2. split_and!; [done | | by apply add_range_separated].
  apply add_range_added; [done | by apply sorted_ok | by destruct Ht as (_ & ? & _)].
Qed.

Lemma find_loop_spec l pre rest b s t (Q : Z → lmb_region → Prop) :
  range_ok (Range b s) → Forall range_ok l → region t = pre ++ l ++ rest →
  (∀ l1 p l2, l = l1 ++ p :: l2 → base p ≤ b → b + s ≤ base p + size p →
    Q (Z.of_nat (length (pre ++ l1))) t) →
  (Forall (λ p, ¬ (base p ≤ b ∧ b + s ≤ base p + size p)) l → Q (Z.of_nat (length (pre ++ l))) t) →
  wp (find_loop (length l) (Z.of_nat (length pre)) b (b + s)) Q t.
Proof.
  intros Hbs Hl. revert pre. induction Hl as [|p l Hp Hl IH]; intros pre Ht Hfound Hnone; cbn [length find_loop].
  { rewrite app_nil_r in Hnone. by apply wp_ret, Hnone. }
  get_at pre p (l ++ rest). unfold range_ok in Hp. rewrite u32_small by lia.
  destruct (Z.leb_spec (base p) b), (Z.leb_spec (b + s) (base p + size p)); cbn [andb].
  1: { apply wp_ret. specialize (Hfound [] p l eq_refl). rewrite app_nil_r in Hfound. auto. }
  all: replace (Z.of_nat (length pre) + 1) with (Z.of_nat (length (pre ++ [p]))) by (rewrite length_app; cbn; lia).
  all: apply IH; [by rewrite <- app_assoc | |].
  all: try (intros l1 q l2 -> ? ?; rewrite <- app_assoc; by apply (Hfound (p :: l1) q l2)).
  all: intros Hall; rewrite <- app_assoc; apply Hnone; constructor; [lia | done].
Qed.

Lemma separated_app lo l1 p l2 :
  separated lo (l1 ++ p :: l2) ↔
  separated lo l1 ∧ lo < base p ∧ Forall (λ q, base q + size q < base p) l1 ∧
  0 < size p ∧ separated (base p + size p) l2.
Proof.
  revert lo. induction l1 as [|q l1 IH]; intros lo; cbn.
  - split; [|tauto]. intros (? & ? & H). pose proof (separated_below _ _ H). split_and!; [lia | done | constructor | done | done].
  - rewrite IH. rewrite Forall_cons. split; [|tauto]. intros (? & ? & ? & ? & ? & ? & ?). split_and!; auto; lia.
Qed.

(** The result [r] of freeing a range of [l], which becomes [l']: no range has
    it; it is gone; or there is no entry left for what is behind it, which is
    gone too. *)
Definition freed (b s : Z) (l : list lmb_property) (r : Z) (l' : list lmb_property) : Prop :=
  (r = -1 ∧ l' = l ∧ Forall (λ p, ¬ (base p ≤ b ∧ b + s ≤ base p + size p)) l) ∨
  (0 ≤ r ∧ ∀ a, covered l' a ↔ covered l a ∧ ¬ b ≤ a < b + s) ∨
  (r = -1 ∧ length l = 8%nat ∧ ∃ p, p ∈ l ∧ base p < b ∧ b + s < base p + size p ∧
    ∀ a, covered l' a ↔ covered l a ∧ ¬ b ≤ a < base p + size p).

Lemma separated_covered lo l a : separated lo l → covered l a → lo < a.
Proof.
  intros Hl (p & Hp & Ha)%Exists_exists. destruct (separated_elem lo l p Hl Hp). unfold inside in Ha. lia.
Qed.

Lemma separated_around lo l1 p l2 a :
  separated lo (l1 ++ p :: l2) →
  (covered l1 a → a < base p) ∧ (covered l2 a → base p + size p < a).
Proof.
  intros (_ & _ & H1 & _ & H2)%separated_app. split; [|by apply separated_covered].
  intros (q & Hq & Ha)%Exists_exists. rewrite Forall_forall in H1. specialize (H1 q Hq). unfold inside in Ha. lia.
Qed.

(** A range shrinks to a part of itself. *)
Lemma separated_shrink lo l1 p p' l2 :
  separated lo (l1 ++ p :: l2) → base p ≤ base p' → 0 < size p' → base p' + size p' ≤ base p + size p →
  separated lo (l1 ++ p' :: l2).
Proof.
  rewrite !separated_app. intros (? & ? & Hall & ? & ?) ? ? ?. split_and!; [done | lia | | lia |].
  - eapply Forall_impl; [done |]. cbn. lia.
  - by eapply separated_lower.
Qed.

(** The ranges [ps] in the place of [p] are [p] without the addresses [b..e). *)
Lemma covered_replace lo b e l1 p ps l2 a :
  separated lo (l1 ++ p :: l2) → base p ≤ b → e ≤ base p + size p →
  (covered ps a ↔ inside a p ∧ ¬ b ≤ a < e) →
  covered (l1 ++ ps ++ l2) a ↔ covered (l1 ++ p :: l2) a ∧ ¬ b ≤ a < e.
Proof.
  intros Hl Hb He Hps. destruct (separated_around _ _ _ _ a Hl) as [H1 H2].
  rewrite !covered_app, covered_cons, Hps. unfold inside. intuition lia.
Qed.

Lemma separated_remove lo l1 p l2 : separated lo (l1 ++ p :: l2) → separated lo (l1 ++ l2).
Proof.
  revert lo. induction l1 as [|q l1 IH]; intros lo; cbn.
  - intros (? & ? & ?). eapply separated_lower; [done | lia].
  - intros (? & ? & ?). auto.
Qed.

Section free.
Context (b s : Z) (Hbs : range_ok (Range b s)).
Context (l1 : list lmb_property) (p : lmb_property) (l2 rest : list lmb_property) (tot : Z).
Let l := l1 ++ p :: l2.
Context (Hl : separated (-1) l) (H8 : (length l ≤ 8)%nat) (H9 : length (l ++ rest) = 9%nat).
Context (Hb : base p ≤ b) (He : b + s ≤ base p + size p).

Lemma free_region_put p' (Q : unit → lmb_region → Prop) :
  (∀ t, table t (l1 ++ p' :: l2) → Q tt t) →
  wp (region_put (Z.of_nat (length l1)) p') Q (LmbRegion (Z.of_nat (length l)) tot (l ++ rest)).
Proof using Hl H8 H9.
  intros HQ. apply (wp_region_put _ _ p _ l1 (l2 ++ rest)); [unfold l; by rewrite <- app_assoc | done |]. apply HQ.
  unfold l in H8, H9 |- *. rewrite !length_app in H9. rewrite !length_app in H8. rewrite ?length_app. cbn in H8, H9 |- *.
  apply (table_intro _ _ rest); cbn [region cnt]; rewrite <- ?app_assoc, ?length_app; cbn; rewrite ?length_app;
    [by destruct l1 | done | lia ..].
Qed.

Lemma free_region_remove (Q : unit → lmb_region → Prop) :
  l1 ++ l2 ≠ [] → (∀ t, table t (l1 ++ l2) → Q tt t) →
  wp (lmb_remove_region (Z.of_nat (length l1))) Q (LmbRegion (Z.of_nat (length l)) tot (l ++ rest)).
Proof using H8 H9.
  intros Hne HQ. unfold l in H8, H9 |- *. rewrite <- app_assoc. cbn [app].
  apply lmb_remove_region_spec; [by rewrite length_app | lia |]. intros q. apply HQ.
  rewrite !length_app in H9. rewrite !length_app in H8. rewrite ?length_app. cbn in H8, H9 |- *.
  apply (table_intro _ _ (q :: rest)); cbn [region cnt]; rewrite <- ?app_assoc, ?length_app; cbn; rewrite ?length_app;
    [done | done | cbn; lia ..].
Qed.

(** What is left of [p] is [p']. *)
Lemma free_region_part p' t :
  range_ok p' → base p ≤ base p' → base p' + size p' ≤ base p + size p →
  (∀ a, inside a p' ↔ inside a p ∧ ¬ b ≤ a < b + s) → table t (l1 ++ p' :: l2) →
  ∃ l', table t l' ∧ separated (-1) l' ∧ freed b s l 0 l'.
Proof using Hl Hb He.
  intros Hp' ? ? Hin Ht. exists (l1 ++ p' :: l2). split_and!; [done | |].
  - eapply separated_shrink; [done | done | by destruct Hp' as (_ & ? & _) | done].
  - right. left. split; [done |]. intros a. apply (covered_replace (-1) b (b + s) l1 p [p']); [done .. |].
    rewrite covered_cons, covered_nil, Hin. tauto.
Qed.

(** The hole is inside [p]: what is behind it is added again. *)
Lemma free_region_hole t :
  base p < b → b + s < base p + size p → table t (l1 ++ Range (base p) (b - base p) :: l2) →
  wp (lmb_add_region (b + s) (base p + size p - (b + s)))
    (λ r t', ∃ l', table t' l' ∧ separated (-1) l' ∧ freed b s l r l') t.
Proof using Hl Hbs.
  clear H8 H9 Hb He. intros Hlt1 Hlt2 Ht. set (p1 := Range (base p) (b - base p)) in *.
  pose proof (proj1 (separated_app _ _ _ _) Hl) as (_ & ? & _ & ? & Hl2). pose proof (separated_below _ _ Hl2).
  unfold range_ok in Hbs. cbn in Hbs.
  assert (∀ a, covered (l1 ++ p1 :: l2) a ↔ covered l a ∧ ¬ b ≤ a < base p + size p) as Hcov.
  { intros a. apply (covered_replace (-1) b (base p + size p) l1 p [p1]); [done | lia | lia |].
    rewrite covered_cons, covered_nil. unfold inside. cbn. lia. }
  assert (∀ a, b ≤ a < base p + size p → covered l a) as Hall.
  { intros a Ha. unfold l. rewrite covered_app, covered_cons. right. left. unfold inside. lia. }
  assert (separated (-1) (l1 ++ p1 :: l2)) as Hsep by (eapply separated_shrink; [exact Hl | cbn; lia ..]).
  eapply wp_mono; [apply lmb_add_region_spec; [unfold range_ok; cbn; lia | done | done] |].
  cbn. intros r t' (l' & Ht' & Hadd & Hl'). exists l'. split; [done |]. split.
  - apply Hl'. right. intros a Ha. rewrite Hcov. lia.
  - destruct Hadd as [(-> & -> & Hlen)|(Hr & Hadd)].
    + right. right. split; [done |]. split; [revert Hlen; unfold l; by rewrite !length_app |].
      exists p. split; [apply elem_of_app; right; left | done].
    + right. left. split; [lia |]. intros a. rewrite Hadd, Hcov. split.
      * intros [[? ?]|?]; (split; [first [done | apply Hall; lia] | lia]).
      * intros [? ?]. destruct (decide (b + s ≤ a < base p + size p)); [right; lia | left; split; [done | lia]].
Qed.
End free.

Lemma free_region_spec b s t l :
  range_ok (Range b s) → table t l → separated (-1) l → l ≠ [Range b s] →
  wp (free_region b s) (λ r t', ∃ l', table t' l' ∧ separated (-1) l' ∧ freed b s l r l') t.
Proof.
  intros Hbs Ht Hl Hone. unfold free_region. count. destruct (decide (l = [])) as [->|Hne].
  { destruct t as [c tot reg], Ht as (H9 & H8 & Hc & rest & Hr). cbn in *. subst.
    unfold range_ok in Hbs. cbn in Hbs. rewrite u32_small by lia.
    apply wp_bind. cbn [Z.to_nat Pos.to_nat Pos.iter_op find_loop Init.Nat.add].
    get_at (@nil lmb_property) (Range 0 0) rest. cbn [base size]. change (0 +u 0) with 0.
    destruct (Z.leb_spec 0 b), (Z.leb_spec (b + s) 0); try lia. cbn [andb]. do 2 apply wp_ret. exists [].
    split_and!; [| done | left; by split_and!; [done | done | constructor]].
    split_and!; [done | done | done | eauto]. }
  destruct (table_elim t l Hne Ht) as (rest & E & H9 & H8). rewrite E. cbn [cnt]. rewrite Nat2Z.id.
  pose proof (separated_sorted (-1) l ltac:(lia) Hl) as Hok%sorted_ok. pose proof Hbs as Hbs'. unfold range_ok in Hbs'. cbn in Hbs'.
  rewrite (u32_small (b + s)) by lia.
  apply wp_bind, (find_loop_spec l [] rest); [done .. | |].
  2: { intros Hall. cbn [app]. rewrite Z.eqb_refl. apply wp_ret. exists l. split_and!; [by rewrite <- E | done |]. by left. }
  intros l1 p l2 -> Hb He. cbn [app].
  destruct (Z.eqb_spec (Z.of_nat (length l1)) (Z.of_nat (length (l1 ++ p :: l2)))) as [Eq|_].
  { rewrite length_app in Eq. cbn in Eq. lia. }
  pose proof (proj1 (separated_app _ _ _ _) Hl) as (Hl1 & ? & _ & ? & Hl2). pose proof (separated_below _ _ Hl2).
  apply wp_bind, (wp_region_get _ _ p l1 (l2 ++ rest)); [cbn; by rewrite <- app_assoc | done |].
  cbn zeta. rewrite (u32_small (base p + size p)) by lia.
  destruct (Z.eqb_spec (base p) b) as [Eb|], (Z.eqb_spec (base p + size p) (b + s)) as [Ee|]; cbn [andb].
  - apply wp_bind, free_region_remove; [done | done | |].
    { intros [-> ->]%app_eq_nil. apply Hone. cbn. f_equal. destruct p. cbn in *. f_equal; lia. }
    intros t' Ht'. apply wp_ret. exists (l1 ++ l2). split_and!; [done | by eapply separated_remove |].
    right. left. split; [done |]. intros a.
    apply (covered_replace (-1) b (b + s) l1 p []); [done .. |]. rewrite covered_nil. unfold inside. lia.
  - apply wp_bind, free_region_put; [done .. |]. intros t' Ht'. apply wp_ret. rewrite u32_small in Ht' by lia.
    eapply free_region_part; [done .. | | | | | done]; unfold range_ok, inside; cbn; lia.
  - apply wp_bind, free_region_put; [done .. |]. intros t' Ht'. apply wp_ret. rewrite u32_small in Ht' by lia.
    eapply free_region_part; [done .. | | | | | done]; unfold range_ok, inside; cbn; lia.
  - apply wp_bind, free_region_put; [done .. |]. intros t' Ht'. rewrite u32_small in Ht' by lia.
    rewrite u32_small by lia. apply free_region_hole; [done | done | lia | lia | done].
Qed.

(** ** Finding room *)

Lemma wp_on_reserved {A} (c : prog lmb_region A) (Q : A → lmb → Prop) L :
  wp c (λ a t, Q a (Lmb (memory L) t)) (reserved L) → wp (on_reserved c) Q L.
Proof. unfold wp, on_reserved. by destruct (c (reserved L)) as [[a t]|]. Qed.

Lemma wp_on_memory {A} (c : prog lmb_region A) (Q : A → lmb → Prop) L :
  wp c (λ a t, Q a (Lmb t (reserved L))) (memory L) → wp (on_memory c) Q L.
Proof. unfold wp, on_memory. by destruct (c (memory L)) as [[a t]|]. Qed.

Lemma overlaps_loop_spec l pre rest b s t (Q : Z → lmb_region → Prop) :
  range_ok (Range b s) → Forall range_ok l → region t = pre ++ l ++ rest →
  (∀ l1 p l2, l = l1 ++ p :: l2 → base p < b + s → b < base p + size p → Q (Z.of_nat (length (pre ++ l1))) t) →
  (disjoint_from b s l → Q (-1) t) →
  wp (overlaps_loop (length l) (Z.of_nat (length pre)) b s) Q t.
Proof.
  intros Hbs Hl. revert pre. induction Hl as [|p l Hp Hl IH]; intros pre Ht Hfound Hnone; cbn [length overlaps_loop].
  { apply wp_ret, Hnone. by intros a _ ?%covered_nil. }
  get_at pre p (l ++ rest). unfold range_ok in Hp, Hbs. cbn in Hbs. unfold lmb_addrs_overlap. rewrite !u32_small by lia.
  destruct (Z.ltb_spec b (base p + size p)), (Z.ltb_spec (base p) (b + s)); cbn [andb].
  1: { apply wp_ret. specialize (Hfound [] p l eq_refl). rewrite app_nil_r in Hfound. auto. }
  all: replace (Z.of_nat (length pre) + 1) with (Z.of_nat (length (pre ++ [p]))) by (rewrite length_app; cbn; lia).
  all: apply IH; [by rewrite <- app_assoc | |].
  all: try (intros l1 q l2 -> ? ?; rewrite <- app_assoc; by apply (Hfound (p :: l1) q l2)).
  all: intros Hall; apply Hnone; intros a Ha; rewrite covered_cons; intros [Hin|Hc]; [unfold inside in Hin; lia | by apply (Hall a)].
Qed.

Lemma lmb_overlaps_region_spec b s t l (Q : Z → lmb_region → Prop) :
  range_ok (Range b s) → Forall range_ok l → table t l →
  (∀ l1 p l2, l = l1 ++ p :: l2 → base p < b + s → b < base p + size p → Q (Z.of_nat (length l1)) t) →
  (disjoint_from b s l → Q (-1) t) →
  wp (lmb_overlaps_region b s) Q t.
Proof.
  intros Hbs Hl Ht Hfound Hnone. unfold lmb_overlaps_region. count. destruct (decide (l = [])) as [->|Hne].
  - destruct Ht as (_ & _ & -> & rest & Hr). cbn [Z.to_nat Pos.to_nat Pos.iter_op overlaps_loop Init.Nat.add].
    get_at (@nil lmb_property) (Range 0 0) rest. unfold range_ok in Hbs. cbn in Hbs.
    unfold lmb_addrs_overlap. cbn [base size]. change (0 +u 0) with 0. destruct (Z.ltb_spec b 0); [lia |]. cbn [andb].
    apply wp_ret, Hnone. by intros a _ ?%covered_nil.
  - destruct (table_elim t l Hne Ht) as (rest & E & _ & _). rewrite E at 1. cbn [cnt]. rewrite Nat2Z.id.
    apply (overlaps_loop_spec l [] rest); [done | done | by rewrite E | done | done].
Qed.

Lemma lmb_align_down_pow2 x k :
  in_u32 x → 0 ≤ k < 32 →
  let y := lmb_align_down x (2 ^ k) in
  0 ≤ y ≤ x ∧ y mod 2 ^ k = 0 ∧ ∀ c, c mod 2 ^ k = 0 → c ≤ x → c ≤ y.
Proof.
  intros Hx Hk. assert (0 < 2 ^ k) by (apply Z.pow_pos_nonneg; lia).
  assert (2 ^ k ≤ 2 ^ 32) by (apply Z.pow_le_mono_r; lia). unfold lmb_align_down. cbn zeta.
  rewrite u32_small, land_align by (unfold in_u32 in *; lia). unfold in_u32 in Hx.
  pose proof (Z.mod_pos_bound x (2 ^ k) ltac:(lia)). pose proof (Z.div_mod x (2 ^ k) ltac:(lia)).
  split; [|split].
  - split; [|lia]. assert (0 ≤ x / 2 ^ k) by (apply Z.div_pos; lia). nia.
  - replace (x - x mod 2 ^ k) with (x / 2 ^ k * 2 ^ k) by lia. by apply Z.mod_mul; lia.
  - intros c Hc Hle. pose proof (Z.div_mod c (2 ^ k) ltac:(lia)).
    assert (c / 2 ^ k ≤ x / 2 ^ k) by (apply Z.div_le_mono; lia). nia.
Qed.

Lemma lmb_align_up_pow2 x k :
  0 ≤ k < 32 → 0 ≤ x → x + 2 ^ k - 1 < 4294967296 →
  let y := lmb_align_up x (2 ^ k) in y mod 2 ^ k = 0 ∧ x ≤ y < x + 2 ^ k.
Proof.
  intros Hk Hx Hlt. assert (0 < 2 ^ k) by (apply Z.pow_pos_nonneg; lia). unfold lmb_align_up. cbn zeta.
  rewrite (u32_small (2 ^ k - 1)), u32_small by lia. rewrite Z.add_sub_assoc. by apply align_up_pow2; lia.
Qed.

(** The ranges that start below [x]. *)
Definition below (x : Z) (l : list lmb_property) : list lmb_property := filter (λ q, base q < x) l.

Lemma below_le x y (l : list lmb_property) :
  x ≤ y → (length (below x l) ≤ length (below y l))%nat.
Proof.
  intros Hxy. unfold below. induction l as [|q l IH]; [done |]. rewrite !filter_cons. repeat case_decide; cbn; lia.
Qed.

Lemma below_lt x y p (l : list lmb_property) :
  x ≤ y → p ∈ l → x ≤ base p < y →
  (length (below x l) < length (below y l))%nat.
Proof.
  intros Hxy Hp Hb. induction l as [|q l IH]; [by apply not_elem_of_nil in Hp |].
  pose proof (below_le x y l Hxy). unfold below in *. rewrite !filter_cons. apply elem_of_cons in Hp as [->|Hp].
  - rewrite decide_False, decide_True by lia. cbn. lia.
  - specialize (IH Hp). repeat case_decide; cbn; lia.
Qed.

Section alloc.
Context (s k : Z) (Hs : 0 < s) (Hk : 0 ≤ k < 32) (Hsk : s + 2 ^ k ≤ 4294967296).
Context (r : list lmb_property) (Hr : separated (-1) r).

(** An aligned address where [s] bytes are not reserved. *)
Definition room (c : Z) : Prop := c mod 2 ^ k = 0 ∧ 0 < c ∧ disjoint_from c s r.

(** The block at [a], rounded up to the alignment, is reserved. *)
Definition taken (a : Z) (L L' : lmb) : Prop :=
  let rounded := lmb_align_up s (2 ^ k) in
  memory L' = memory L ∧ ∃ r', table (reserved L') r' ∧
    (∀ x, covered r' x ↔ covered r x ∨ a ≤ x < a + rounded) ∧
    (disjoint_from a rounded r → separated (-1) r').

Definition full (L L' : lmb) : Prop := length r = 8%nat ∧ memory L' = memory L ∧ table (reserved L') r.

Lemma reserve_room a L :
  table (reserved L) r → room a → a + s ≤ 4294967296 - 2 ^ k →
  wp (let* r := on_reserved (lmb_add_region a (lmb_align_up s (2 ^ k))) in ret (Some (if r <? 0 then 0 else a)))
    (λ found L', match found with Some x => x = 0 ∧ full L L' ∨ x = a ∧ taken a L L' | None => False end) L.
Proof using Hs Hk Hsk Hr.
  intros Ht (Ha & Hpos & Hd) Hend. assert (0 < 2 ^ k) by (apply Z.pow_pos_nonneg; lia).
  destruct (lmb_align_up_pow2 s k) as [HS ?]; [done | lia | lia |].
  apply wp_bind, wp_on_reserved. eapply wp_mono.
  { apply (lmb_add_region_spec _ _ _ r); [|done | done]. unfold range_ok. cbn. lia. }
  cbn. intros x t (r' & Ht' & Hadd & Hsep). apply wp_ret. destruct Hadd as [(-> & -> & Hlen)|[Hx Hcov]].
  - left. split; [done |]. by split_and!.
  - right. destruct (Z.ltb_spec x 0); [lia |]. split; [done |]. split; [done |]. exists r'. split_and!; [done | done |].
    intros. apply Hsep. by right.
Qed.

Lemma alloc_loop_spec fuel lmbbase b L :
  table (reserved L) r → 0 ≤ b → b mod 2 ^ k = 0 → b + s ≤ 4294967296 - 2 ^ k →
  (length (below (b + s) r) < fuel)%nat →
  wp (alloc_loop fuel lmbbase b s (2 ^ k))
    (λ found L', match found with
     | Some a => a = 0 ∧ full L L' ∨
         lmbbase ≤ a ≤ b ∧ room a ∧ taken a L L' ∧ ∀ c, room c → lmbbase ≤ c ≤ b → c ≤ a
     | None => L' = L ∧ ∀ c, room c → lmbbase ≤ c ≤ b → False
     end) L.
Proof using Hs Hk Hsk Hr.
  intros Ht. assert (0 < 2 ^ k) by (apply Z.pow_pos_nonneg; lia).
  pose proof (sorted_ok _ (separated_sorted (-1) r ltac:(lia) Hr)) as Hok.
  revert b. induction fuel as [|fuel IH]; intros b Hb Hal Hend Hfuel; [lia |]. cbn [alloc_loop].
  destruct (Z.eqb_spec b 0), (Z.leb_spec lmbbase b); cbn [negb andb].
  1, 2, 4: apply wp_ret; split; [done |]; intros c (_ & ? & _) ?; lia.
  apply wp_bind, wp_on_reserved. apply (lmb_overlaps_region_spec b s _ r); [unfold range_ok; cbn; lia | done | done | |].
  - intros r1 p r2 E Hlo Hhi. destruct L as [m t]. cbn [memory reserved] in *.
    destruct (Z.ltb_spec (Z.of_nat (length r1)) 0); [lia |]. apply wp_bind, wp_on_reserved. cbn [memory reserved].
    destruct (table_elim t r) as (rest & Et & _); [rewrite E; by destruct r1 | done |].
    apply (wp_region_get _ _ p r1 (r2 ++ rest)); [rewrite Et, E; cbn; by rewrite <- app_assoc | done |].
    assert (p ∈ r) as Hin by (rewrite E; apply elem_of_app; right; left).
    rewrite Forall_forall in Hok. destruct (Hok p Hin) as (? & ? & ?).
    assert (∀ c, room c → c ≤ b → c + s ≤ base p) as Hbelow.
    { intros c (_ & ? & Hd) ?. destruct (Z.le_gt_cases (c + s) (base p)); [done |].
      destruct (Hd (Z.max c (base p))); [lia |]. apply Exists_exists. exists p. split; [done |]. unfold inside. lia. }
    destruct (Z.ltb_spec (base p) s).
    { apply wp_ret. split; [done |]. intros c Hc ?. pose proof (Hbelow c Hc). destruct Hc as (_ & ? & _). lia. }
    rewrite u32_small by lia. destruct (lmb_align_down_pow2 (base p - s) k) as (? & Hmod & Hmax); [unfold in_u32; lia | done |].
    eapply wp_mono; [apply IH; [lia | done | lia |] |].
    + eapply Nat.lt_le_trans; [|apply Nat.lt_succ_r, Hfuel]. eapply below_lt; [lia | exact Hin | lia].
    + assert (∀ c, room c → lmbbase ≤ c ≤ b → lmbbase ≤ c ≤ lmb_align_down (base p - s) (2 ^ k)) as Hdown.
      { intros c Hc ?. split; [lia |]. apply Hmax; [apply Hc |]. pose proof (Hbelow c Hc). lia. }
      cbn. intros [a|] L'; [intros [?|(? & ? & ? & Hhigh)]; [by left | right; split_and!; [lia.. | done | done |]] |].
      * intros c Hc Hb'. by apply (Hhigh c Hc), Hdown.
      * intros [-> Hno]. split; [done |]. intros c Hc Hb'. by apply (Hno c Hc), Hdown.
  - intros Hd. cbn [Z.ltb Z.compare]. eapply wp_mono; [apply reserve_room |].
    + by destruct L.
    + split_and!; [done | lia | done].
    + done.
    + cbn. intros [a|] L'; [|done]. intros [?|[-> ?]]; [by left | right].
      split; [lia |]. split; [|split; [done | lia]]. split_and!; [done | lia | done].
Qed.

(** The block at [c] lies in the memory range [p] and below [max_addr]. *)
Definition fits (max_addr : Z) (p : lmb_property) (c : Z) : Prop :=
  base p ≤ c ∧ c + s ≤ base p + size p ∧ (max_addr = LMB_ALLOC_ANYWHERE ∨ c + s ≤ max_addr).

(** Nothing in the memory ranges [m] has room, or the table is full; or [a] is
    the start of a block that was free and is now reserved: the highest one in
    the last of the memory ranges that has any. *)
Definition allocated (max_addr : Z) (m : list lmb_property) (L : lmb) (a : Z) (L' : lmb) : Prop :=
  (a = 0 ∧ (full L L' ∨ L' = L ∧ ∀ p c, p ∈ m → fits max_addr p c → room c → False)) ∨
  (∃ m1 p m2, m = m1 ++ p :: m2 ∧ fits max_addr p a ∧ room a ∧ taken a L L' ∧
     (∀ c, fits max_addr p c → room c → c ≤ a) ∧
     ∀ q c, q ∈ m2 → fits max_addr q c → room c → False).

Lemma elem_snoc (q p : lmb_property) m : q ∈ m ++ [p] → q ∈ m ∨ q = p.
Proof. set_solver. Qed.

Lemma allocated_more max_addr m p L a L' :
  (∀ c, fits max_addr p c → room c → False) →
  allocated max_addr m L a L' → allocated max_addr (m ++ [p]) L a L'.
Proof.
  intros Hno [[-> [?|[-> Hm]]]|(m1 & q & m2 & -> & ? & ? & ? & ? & Hlast)].
  - left. auto.
  - left. split; [done |]. right. split; [done |].
    intros q c [Hq| ->]%elem_snoc Hc Hroom; [by eapply Hm | by eapply Hno].
  - right. exists m1, q, (m2 ++ [p]). split; [by rewrite <- app_assoc |]. split_and!; try done.
    intros q' c [Hq| ->]%elem_snoc Hc Hroom; [by eapply Hlast | by eapply Hno].
Qed.

(** One range of memory, searched from [e] down, before the ranges [m]. *)
Lemma search_range max_addr m p e L (rest : prog lmb Z) fuel :
  table (reserved L) r → (length r < fuel)%nat → range_ok p → s ≤ e →
  e ≤ base p + size p ≤ 4294967296 - 2 ^ k →
  (∀ c, fits max_addr p c ↔ base p ≤ c ∧ c + s ≤ e) →
  wp rest (allocated max_addr m L) L →
  wp (let* found := alloc_loop fuel (base p) (lmb_align_down (e - s) (2 ^ k)) s (2 ^ k) in
      match found with Some a => ret a | None => rest end)
    (allocated max_addr (m ++ [p]) L) L.
Proof using Hs Hk Hsk Hr.
  intros Ht Hfuel Hp He Hend Hfits Hrest. assert (0 < 2 ^ k) by (apply Z.pow_pos_nonneg; lia).
  destruct (lmb_align_down_pow2 (e - s) k) as (? & Hmod & Hmax); [unfold in_u32; lia | done |].
  apply wp_bind. eapply wp_mono; [apply alloc_loop_spec |]; [done | lia | done | lia | |].
  { eapply Nat.le_lt_trans; [|exact Hfuel]. apply length_filter. }
  cbn. intros [a|] L'.
  - intros [[-> ?]|(? & Hroom & ? & Hhigh)]; apply wp_ret; [left; by auto | right]. exists m, p, [].
    split; [done |]. split; [apply Hfits; lia |]. split_and!; [done | done | | by intros q c ?%not_elem_of_nil].
    intros c Hc Hroom'. apply (Hhigh c Hroom'). apply Hfits in Hc. split; [lia |]. apply Hmax; [apply Hroom' | lia].
  - intros [-> Hno]. eapply wp_mono; [exact Hrest |]. intros a L'. apply allocated_more.
    intros c Hc Hroom. apply (Hno c Hroom). apply Hfits in Hc. split; [lia |]. apply Hmax; [apply Hroom | lia].
Qed.

Lemma alloc_regions_spec max_addr m rest tot tr :
  let L := Lmb (LmbRegion (Z.of_nat (length m)) tot (m ++ rest)) tr in
  table tr r → Forall (λ p, range_ok p ∧ base p + size p ≤ 4294967296 - 2 ^ k) m →
  max_addr = LMB_ALLOC_ANYWHERE ∨ s ≤ max_addr < 4294967296 →
  ∀ m1 m2, m = m1 ++ m2 →
  wp (alloc_regions (length m1) s (2 ^ k) max_addr) (allocated max_addr m1 L) L.
Proof using Hs Hk Hsk Hr.
  intros L Ht Hm Hmax m1. induction m1 as [|p m1 IH] using rev_ind; intros m2 E.
  { apply wp_ret. left. split; [done |]. right. split; [done |]. by intros p c ?%not_elem_of_nil. }
  rewrite length_app, Nat.add_comm. cbn [length Nat.add alloc_regions].
  assert (wp (alloc_regions (length m1) s (2 ^ k) max_addr) (allocated max_addr m1 L) L) as Hrest.
  { apply (IH ([p] ++ m2)). by rewrite app_assoc. }
  assert (range_ok p ∧ base p + size p ≤ 4294967296 - 2 ^ k) as [Hp Hpe].
  { rewrite Forall_forall in Hm. apply Hm. rewrite E. apply elem_of_app. left. apply elem_of_app. right. left. }
  assert (0 < 2 ^ k) by (apply Z.pow_pos_nonneg; lia).
  assert ((∀ c, fits max_addr p c → room c → False) →
    wp (alloc_regions (length m1) s (2 ^ k) max_addr) (allocated max_addr (m1 ++ [p]) L) L) as Hskip.
  { intros Hno. eapply wp_mono; [exact Hrest |]. intros a L'. by apply allocated_more. }
  apply wp_bind, wp_on_memory. apply (wp_region_get _ _ p m1 (m2 ++ rest)); [cbn; rewrite E; by rewrite <- !app_assoc | done |].
  change (Lmb (memory L) (reserved L)) with L. apply wp_bind, wp_on_reserved, wp_get_cnt. cbn [reserved memory L].
  change (Lmb (LmbRegion (Z.of_nat (length m)) tot (m ++ rest)) tr) with L.
  assert (length r < S (Z.to_nat (cnt tr)))%nat as Hfuel.
  { destruct Ht as (_ & _ & Ht). destruct r; destruct Ht as [-> _]; cbn; lia. }
  pose proof Hp as Hp'. unfold range_ok in Hp'. destruct (Z.ltb_spec (size p) s).
  { apply Hskip. unfold fits. lia. }
  unfold LMB_ALLOC_ANYWHERE in *. destruct (Z.eqb_spec max_addr 0) as [->|].
  - rewrite (u32_small (base p + size p)), u32_small by lia. apply search_range; try done; try lia.
    intros c. unfold fits, LMB_ALLOC_ANYWHERE. lia.
  - destruct (Z.ltb_spec (base p) max_addr).
    + rewrite (u32_small (base p + size p)), u32_small by lia. apply search_range; try done; try lia.
      intros c. unfold fits, LMB_ALLOC_ANYWHERE. lia.
    + apply Hskip. unfold fits, LMB_ALLOC_ANYWHERE. lia.
Qed.
End alloc.

Lemma lmb_alloc_base_spec s k max_addr m r L :
  0 < s → 0 ≤ k < 32 → s + 2 ^ k ≤ 4294967296 →
  table (memory L) m → Forall (λ p, range_ok p ∧ base p + size p ≤ 4294967296 - 2 ^ k) m →
  table (reserved L) r → separated (-1) r →
  max_addr = LMB_ALLOC_ANYWHERE ∨ s ≤ max_addr < 4294967296 →
  wp (lmb_alloc_base s (2 ^ k) max_addr) (allocated s k r max_addr m L) L.
Proof.
  intros Hs Hk Hsk Ht Hm Hr Hsep Hmax. unfold lmb_alloc_base, __lmb_alloc_base.
  apply wp_bind, wp_on_memory, wp_get_cnt. destruct (decide (m = [])) as [->|Hne].
  - destruct L as [t tr], Ht as (_ & _ & Hc & rest & Hreg). cbn in Hc, Hreg |- *. rewrite Hc.
    cbn [alloc_regions Z.to_nat Pos.to_nat Pos.iter_op Init.Nat.add].
    change (Z.to_nat (s32 (1 -u 1) + 1)) with 1%nat. cbn [alloc_regions].
    apply wp_bind, wp_on_memory, (wp_region_get _ _ (Range 0 0) [] rest); [done | done |].
    apply wp_bind, wp_on_reserved, wp_get_cnt. cbn [size memory reserved]. destruct (Z.ltb_spec 0 s); [|lia].
    apply wp_ret. left. split; [done |]. right. split; [done |]. by intros p c ?%not_elem_of_nil.
  - destruct (table_elim (memory L) m Hne Ht) as (rest & E & _ & H8). rewrite E. cbn [cnt].
    assert (0 < length m)%nat by (destruct m; [done | cbn; lia]).
    rewrite u32_small, s32_small, Z.sub_add, Nat2Z.id by lia. destruct L as [t tr]. cbn [memory reserved] in *. rewrite E.
    eapply alloc_regions_spec; [done .. | symmetry; apply app_nil_r].
Qed.

Lemma is_reserved_loop_spec l pre rest addr t :
  Forall range_ok l → region t = pre ++ l ++ rest →
  wp (is_reserved_loop (length l) (Z.of_nat (length pre)) addr)
    (λ x t', t' = t ∧ (x = 1 ∧ covered l addr ∨ x = 0 ∧ ¬ covered l addr)) t.
Proof.
  intros Hl. revert pre. induction Hl as [|p l Hp Hl IH]; intros pre Ht; cbn [length is_reserved_loop].
  { apply wp_ret. split; [done |]. right. split; [done |]. by intros ?%covered_nil. }
  get_at pre p (l ++ rest). unfold range_ok in Hp. rewrite (u32_small (base p + size p)), u32_small by lia.
  destruct (Z.leb_spec (base p) addr), (Z.leb_spec addr (base p + size p - 1)); cbn [andb].
  { apply wp_ret. split; [done |]. left. split; [done |]. apply covered_cons. left. unfold inside. lia. }
  all: replace (Z.of_nat (length pre) + 1) with (Z.of_nat (length (pre ++ [p]))) by (rewrite length_app; cbn; lia).
  all: eapply wp_mono; [apply IH; by rewrite <- app_assoc |]; cbn; intros x t' [-> H']; split; [done |];
    rewrite covered_cons; unfold inside; intuition lia.
Qed.

(** C22: A range is added to the reserved ranges, whether it overlaps them or not: unless the
    table is full and no range touches the new one, the reserved addresses are the old and the
    new ones; a range that overlaps no other leaves the table sorted, with gaps between all
    ranges. *)
Theorem lmb_reserve_correct b s L r :
  range_ok (Range b s) → table (reserved L) r → separated (-1) r →
  wp (lmb_reserve b s)
    (λ x L', memory L' = memory L ∧ ∃ r', table (reserved L') r' ∧ added b s r x r' ∧
      (Range b s ∈ r ∨ disjoint_from b s r → separated (-1) r')) L.
Proof.
  intros Hbs Ht Hr. apply wp_on_reserved. eapply wp_mono; [by apply lmb_add_region_spec |]. by split.
Qed.

(** C23: Freeing a range takes exactly its addresses from the reserved ones, whatever part of a
    reserved range it is; it fails without a change when no reserved range has all of it.  When
    the hole needs a ninth entry it fails and the addresses behind the hole are lost.  The table
    stays sorted, with gaps, unless the only range is freed. *)
Theorem lmb_free_correct b s L r :
  range_ok (Range b s) → table (reserved L) r → separated (-1) r → r ≠ [Range b s] →
  wp (lmb_free b s)
    (λ x L', memory L' = memory L ∧ ∃ r', table (reserved L') r' ∧ separated (-1) r' ∧ freed b s r x r') L.
Proof.
  intros Hbs Ht Hr Hone. apply wp_on_reserved. eapply wp_mono; [by apply free_region_spec |]. by split.
Qed.

(** C21: [lmb_alloc_base] terminates and finds room whenever there is any: it answers 0 only if the
    table is full or no aligned block of the size lies in a memory range, below the limit, and
    outside the reserved ranges; otherwise the block it answers is such a block, the highest one in
    the last memory range that has one, and exactly the block, rounded up to the alignment, is
    reserved. *)
Theorem lmb_alloc_base_correct s k max_addr m r L :
  0 < s → 0 ≤ k < 32 → s + 2 ^ k ≤ 4294967296 →
  table (memory L) m → Forall (λ p, range_ok p ∧ base p + size p ≤ 4294967296 - 2 ^ k) m →
  table (reserved L) r → separated (-1) r →
  max_addr = LMB_ALLOC_ANYWHERE ∨ s ≤ max_addr < 4294967296 →
  wp (lmb_alloc_base s (2 ^ k) max_addr) (allocated s k r max_addr m L) L.
Proof. apply lmb_alloc_base_spec. Qed.

(** [lmb_is_reserved] answers whether an address is in a reserved range, except for the table
    without ranges, for which it answers 1 for every address. *)
Theorem lmb_is_reserved_correct addr L r :
  in_u32 addr → table (reserved L) r → Forall range_ok r →
  wp (lmb_is_reserved addr) (λ x L', L' = L ∧ (x = 0 ∨ x = 1) ∧ (x = 1 ↔ r = [] ∨ covered r addr)) L.
Proof.
  intros Ha Ht Hr. apply wp_on_reserved. count. destruct (decide (r = [])) as [->|Hne].
  - destruct Ht as (_ & _ & -> & rest & Hreg). cbn [Z.to_nat Pos.to_nat Pos.iter_op is_reserved_loop Init.Nat.add].
    get_at (@nil lmb_property) (Range 0 0) rest. cbn [base size]. unfold in_u32 in Ha.
    change (0 +u 0 -u 1) with 4294967295. destruct (Z.leb_spec 0 addr), (Z.leb_spec addr 4294967295); try lia.
    apply wp_ret. split; [by destruct L |]. split; [lia |]. tauto.
  - destruct (table_elim (reserved L) r Hne Ht) as (rest & E & _ & _). rewrite E at 1. cbn [cnt]. rewrite Nat2Z.id.
    eapply wp_mono; [apply (is_reserved_loop_spec r [] rest); [done | by rewrite E] |].
    cbn. intros x t' [-> H']. split; [by destruct L |]. destruct H' as [[-> ?]|[-> ?]]; split; [lia | tauto | lia |].
    split; [done |]. by intros [?|?].
Qed.

(** ** A range that is lost *)

Definition zero_region : lmb_region := LmbRegion 0 0 (replicate 9 (Range 0 0)).
Definition zero_lmb : lmb := Lmb zero_region zero_region.

(** Freeing the only reserved range leaves a table of no entries, not the one of an empty
    table, and the next range to be reserved is not stored unless it starts below the old one:
    the call answers 0, and the freed range is reserved again instead of the new one. *)
Theorem lmb_free_last_lost b s b' s' :
  range_ok (Range b s) → 0 < b → b ≤ b' → range_ok (Range b' s') →
  wp (lmb_reserve b s ;; lmb_free b s ;; lmb_reserve b' s')
    (λ x L, x = 0 ∧ table (reserved L) [Range b s]) (lmb_init zero_lmb).
Proof.
  intros Hbs Hb Hle Hbs'. unfold range_ok in Hbs, Hbs'. cbn in Hbs, Hbs'.
  set (z := replicate 7 (Range 0 0)). set (r := Range b s).
  apply wp_bind, wp_on_reserved. unfold lmb_add_region at 1. count.
  get_at (@nil lmb_property) (Range 0 0) (Range 0 0 :: z). apply wp_bind. put_at (@nil lmb_property) (Range 0 0) (Range 0 0 :: z).
  apply wp_ret, wp_bind, wp_on_reserved. cbn [memory reserved app]. unfold free_region. count.
  rewrite (u32_small (b + s)) by lia. apply wp_bind. cbn [find_loop Z.to_nat Pos.to_nat Pos.iter_op Init.Nat.add].
  get_at (@nil lmb_property) r (Range 0 0 :: z). cbn [base size r]. rewrite (u32_small (b + s)), !Z.leb_refl by lia.
  apply wp_ret. get_at (@nil lmb_property) r (Range 0 0 :: z). cbn [base size r]. rewrite (u32_small (b + s)), !Z.eqb_refl by lia.
  apply wp_bind. unfold lmb_remove_region. cbn [remove_loop]. apply wp_bind. count.
  change (0 <? 1 -u 1) with false. apply wp_ret. count. apply wp_put_cnt. change (1 -u 1) with 0. apply wp_ret, wp_on_reserved.
  cbn [memory reserved total region]. unfold lmb_add_region. count. get_at (@nil lmb_property) r (Range 0 0 :: z).
  cbn [Z.eqb andb]. apply wp_bind. cbn [coalesce_loop Z.to_nat]. apply wp_ret, wp_bind. unfold coalesce_next. count.
  change (0 <? 0 -u 1) with true. cbn iota. unfold lmb_regions_adjacent. apply wp_bind.
  get_at (@nil lmb_property) r (Range 0 0 :: z). get_at [r] (Range 0 0) z. apply wp_ret. cbn [base size r].
  unfold lmb_addrs_adjacent. rewrite (u32_small (b + s)) by lia. change (0 +u 0) with 0.
  destruct (Z.eqb_spec 0 (b + s)); [lia |]. destruct (Z.eqb_spec b 0); [lia |]. apply wp_ret. cbn [Z.eqb negb Z.add].
  count. unfold MAX_LMB_REGIONS. cbn [Z.leb Z.compare]. change (Z.to_nat (s32 (0 -u 1) + 1)) with 0%nat.
  apply wp_bind, wp_ret. get_at (@nil lmb_property) r (Range 0 0 :: z). cbn [base r]. destruct (Z.ltb_spec b' b); [lia |].
  apply wp_bind, wp_ret. count. apply wp_bind, wp_put_cnt, wp_ret. split; [done |].
  apply (table_intro _ _ (Range 0 0 :: z)); [done .. | cbn; lia].
Qed.

(** ** The theorems at work *)

Definition example_lmb : lmb :=
  Lmb (LmbRegion 1 0 (Range 0x40000000 0x3ff00000 :: replicate 8 (Range 0 0)))
      (LmbRegion 2 0 (Range 0x40008000 0x400000 :: Range 0x7fe00000 0x100000 :: replicate 7 (Range 0 0))).

Definition example_memory : list lmb_property := [Range 0x40000000 0x3ff00000].
Definition example_reserved : list lmb_property := [Range 0x40008000 0x400000; Range 0x7fe00000 0x100000].

Lemma example_memory_ok : table (memory example_lmb) example_memory.
Proof. apply (table_intro _ _ (replicate 8 (Range 0 0))); [done .. | cbn; lia]. Qed.

Lemma example_reserved_ok : table (reserved example_lmb) example_reserved ∧ separated (-1) example_reserved.
Proof. split; [|cbn; lia]. apply (table_intro _ _ (replicate 7 (Range 0 0))); [done .. | cbn; lia]. Qed.

Lemma lmb_reserve_witness :
  wp (lmb_reserve 0x41000000 0x100000)
    (λ x L', memory L' = memory example_lmb ∧ ∃ r', table (reserved L') r' ∧
      added 0x41000000 0x100000 example_reserved x r' ∧
      (Range 0x41000000 0x100000 ∈ example_reserved ∨ disjoint_from 0x41000000 0x100000 example_reserved →
       separated (-1) r')) example_lmb.
Proof.
  apply lmb_reserve_correct; [unfold range_ok; cbn; lia | apply example_reserved_ok | apply example_reserved_ok].
Defined.

Lemma lmb_free_witness :
  wp (lmb_free 0x40108000 0x100000)
    (λ x L', memory L' = memory example_lmb ∧ ∃ r', table (reserved L') r' ∧ separated (-1) r' ∧
      freed 0x40108000 0x100000 example_reserved x r') example_lmb.
Proof.
  apply lmb_free_correct; [unfold range_ok; cbn; lia | apply example_reserved_ok | apply example_reserved_ok | done].
Defined.

Lemma lmb_alloc_base_witness :
  wp (lmb_alloc_base 0x123456 (2 ^ 12) 0x50000000)
    (allocated 0x123456 12 example_reserved 0x50000000 example_memory example_lmb) example_lmb.
Proof.
  apply lmb_alloc_base_correct; [lia | lia | lia | apply example_memory_ok | | apply example_reserved_ok | apply example_reserved_ok | lia].
  repeat constructor; cbn; lia.
Defined.

Lemma lmb_is_reserved_witness :
  wp (lmb_is_reserved 0x40008000)
    (λ x L', L' = example_lmb ∧ (x = 0 ∨ x = 1) ∧ (x = 1 ↔ example_reserved = [] ∨ covered example_reserved 0x40008000)) example_lmb.
Proof.
  apply lmb_is_reserved_correct; [unfold in_u32; lia | apply example_reserved_ok |].
  repeat constructor; cbn; lia.
Defined.

Lemma lmb_free_last_witness :
  wp (lmb_reserve 0x40008000 0x1000 ;; lmb_free 0x40008000 0x1000 ;; lmb_reserve 0x50000000 0x1000)
    (λ x L, x = 0 ∧ table (reserved L) [Range 0x40008000 0x1000]) (lmb_init zero_lmb).
Proof. apply lmb_free_last_lost; unfold range_ok; cbn; lia. Defined.

(** The block found above starts below the limit. *)
Example alloc_example :
  fst <$> lmb_alloc_base 0x123456 0x1000 0x50000000 example_lmb = Some 0x4fedc000.
Proof. vm_compute. reflexivity. Qed.

(** Stale entries that touch make the next call run off the table. *)
Example free_last_runs_off :
  (lmb_reserve 0x1000 0x1000 ;; lmb_reserve 0x3000 0x1000 ;; lmb_reserve 0x2000 0x1000 ;;
   lmb_free 0x3000 0x1000 ;; lmb_free 0x1000 0x2000 ;; lmb_reserve 0x8000 0x1000) (lmb_init zero_lmb) = None.
Proof. vm_compute. reflexivity. Qed.

(** A limit below the size makes the subtraction wrap: the block is outside the memory. *)
Example alloc_below_size :
  fst <$> lmb_alloc_base 0x8000 0x1000 0x2000
    (Lmb (LmbRegion 1 0 (Range 0x1000 0x100000 :: replicate 8 (Range 0 0))) (reserved (lmb_init zero_lmb))) =
  Some 0xffffa000.
Proof. vm_compute. reflexivity. Qed.

(** The callers that ask for the alignment 0xf get an odd address. *)
Example align_15 : lmb_align_down 0x4fffffff 0xf = 0x4ffffff1.
Proof. vm_compute. reflexivity. Qed.
