(* ===== verification/Circbuf.v ===== *)
(** * Circular buffers: [lib/circbuf.c], [include/circbuf.h]

    A ring of bytes behind serial and USB devices.  The pointers [top], [tail]
    and [end] of the structure point into [data]; they are offsets from [data]
    here, and an access outside the allocated bytes is a fault.  The buffer is
    shown to be a queue that keeps the last [totalsize] bytes pushed. *)

From stdpp Require Import prelude list.
From Stdlib Require Import ZArith Lia.
From S2P Require Import Prelude Prog.

Local Open Scope Z_scope.
Local Open Scope word_scope.

(** ** The code *)

Record circbuf := Circbuf {
  size : Z;
  totalsize : Z;
  top : Z;
  tail : Z;
  end_ : Z;
  data : list Z
}.

Definition set_size v b := Circbuf v (totalsize b) (top b) (tail b) (end_ b) (data b).
Definition set_top v b := Circbuf (size b) (totalsize b) v (tail b) (end_ b) (data b).
Definition set_tail v b := Circbuf (size b) (totalsize b) (top b) v (end_ b) (data b).
Definition set_data v b := Circbuf (size b) (totalsize b) (top b) (tail b) (end_ b) v.

Definition modify (f : circbuf → circbuf) : prog circbuf unit := λ b, Some (tt, f b).

Definition load (p : Z) : prog circbuf Z := λ b,
  if p <? 0 then None else match data b !! Z.to_nat p with Some v => Some (v, b) | None => None end.

Definition store (p v : Z) : prog circbuf unit := λ b,
  if p <? 0 then None else
  match data b !! Z.to_nat p with
  | Some _ => Some (tt, set_data (<[Z.to_nat p := u8 v]> (data b)) b)
  | None => None
  end.

(** [malloc] gives [bytes], as many as it is asked for. *)
Definition buf_init (bytes : Z → list Z) (n : Z) : circbuf := Circbuf 0 n 0 0 n (bytes n).

(** The bytes go back to [malloc] and the structure is cleared. *)
Definition buf_free (b : circbuf) : circbuf := Circbuf 0 0 0 0 0 [].

(** The loop of [buf_pop]: the bytes copied to [dest], and the last [p]. *)
Fixpoint pop_loop (len : nat) (p : Z) : prog circbuf (list Z * Z) :=
  match len with
  | O => ret ([], p)
  | S len' =>
      let* v := load p in
      let* b := get_state in
      let p := if p + 1 =? end_ b then 0 else p + 1 in
      let* (l, p) := pop_loop len' p in ret (v :: l, p)
  end.

Definition buf_pop (len : Z) : prog circbuf (list Z) :=
  let* b := get_state in
  let len := if size b <? len then size b else len in
  let* (dest, p) := pop_loop (Z.to_nat len) (top b) in
  modify (set_top p) ;;
  modify (set_size (size b -u len)) ;;
  ret dest.

(** One round of the loop of [buf_push]. *)
Definition push_byte (v p : Z) : prog circbuf Z :=
  store p v ;;
  let* b := get_state in
  let p := if p + 1 =? end_ b then 0 else p + 1 in
  (if size b <? totalsize b then modify (set_size (size b +u 1))
   else modify (set_top (if top b + 1 =? end_ b then 0 else top b + 1))) ;;
  ret p.

Fixpoint push_loop (src : list Z) (p : Z) : prog circbuf Z :=
  match src with
  | [] => ret p
  | v :: src' => let* p := push_byte v p in push_loop src' p
  end.

(** [src] is the list of the bytes to push. *)
Definition buf_push (src : list Z) : prog circbuf Z :=
  let* b := get_state in
  let* p := push_loop src (tail b) in
  modify (set_tail p) ;;
  ret (Z.of_nat (length src)).

(** ** The queue *)

(** [n] bytes from the offset [p] on, around the end. *)
Definition ring (d : list Z) (p n : nat) : list Z :=
  (λ i, nth ((p + i) mod length d) d 0) <$> seq 0 n.

(** The buffer holds the queue [q], with the place [p] for the next byte. *)
Definition holds_at (b : circbuf) (q : list Z) (p : Z) : Prop :=
  let N := length (data b) in
  0 < totalsize b < 4294967296 ∧ totalsize b = Z.of_nat N ∧ end_ b = totalsize b ∧ (length q ≤ N)%nat ∧
  size b = Z.of_nat (length q) ∧
  ∃ t, (t < N)%nat ∧ top b = Z.of_nat t ∧ p = Z.of_nat ((t + length q) mod N) ∧ ring (data b) t (length q) = q.

Definition holds (b : circbuf) (q : list Z) : Prop := holds_at b q (tail b).

(** The last [n] elements. *)
Definition last_n (n : nat) (q : list Z) : list Z := drop (length q - n) q.

Lemma length_ring d p n : length (ring d p n) = n.
Proof. unfold ring. by rewrite length_fmap, length_seq. Qed.

Lemma ring_S d p n : ring d p (S n) = nth (p mod length d) d 0 :: ring d (p + 1) n.
Proof.
  unfold ring. cbn. rewrite Nat.add_0_r. f_equal. rewrite <- seq_shift, <- list_fmap_compose.
  apply list_fmap_ext. intros i x _. cbn. by rewrite <- Nat.add_assoc.
Qed.

Lemma ring_snoc d p n : ring d p (S n) = ring d p n ++ [nth ((p + n) mod length d) d 0].
Proof. unfold ring. by rewrite seq_S, fmap_app. Qed.

Lemma ring_app d p n m : ring d p (n + m) = ring d p n ++ ring d (p + n) m.
Proof.
  revert p. induction n as [|n IH]; intros p; [cbn; by rewrite Nat.add_0_r |].
  cbn [Nat.add]. rewrite !ring_S, IH. cbn. by rewrite <- Nat.add_assoc.
Qed.

Lemma ring_mod d p n : (0 < length d)%nat → ring d (p mod length d) n = ring d p n.
Proof.
  intros H. unfold ring. apply list_fmap_ext. intros i x _. by rewrite Nat.Div0.add_mod_idemp_l.
Qed.

Lemma mod_distinct a b n : (a < b < a + n)%nat → (a mod n)%nat ≠ (b mod n)%nat.
Proof.
  intros H E. pose proof (Nat.div_mod_eq a n). pose proof (Nat.div_mod_eq b n).
  destruct (Nat.le_gt_cases (b / n) (a / n)); nia.
Qed.

(** A byte outside the [n] bytes from [p] on is not seen there. *)
Lemma ring_insert d p n k v :
  (p + n ≤ k < p + length d)%nat → ring (<[(k mod length d)%nat := v]> d) p n = ring d p n.
Proof.
  intros Hk. unfold ring. rewrite length_insert. apply list_fmap_ext. intros i x [-> Hi]%lookup_seq.
  rewrite !nth_lookup, list_lookup_insert_ne; [done |]. symmetry. apply mod_distinct. lia.
Qed.

(** Moving on by one byte, around the end. *)
Lemma next_offset a N :
  (0 < N)%nat → (if Z.of_nat (a mod N) + 1 =? Z.of_nat N then 0 else Z.of_nat (a mod N) + 1) = Z.of_nat ((a + 1) mod N).
Proof.
  intros HN. pose proof (Nat.mod_upper_bound a N ltac:(lia)). rewrite <- Nat.Div0.add_mod_idemp_l.
  destruct (Z.eqb_spec (Z.of_nat (a mod N) + 1) (Z.of_nat N)) as [E|E].
  - replace (a mod N + 1)%nat with N by lia. by rewrite Nat.Div0.mod_same.
  - rewrite (Nat.mod_small (a mod N + 1)); lia.
Qed.

Lemma wp_load p b v (Q : Z → circbuf → Prop) :
  data b !! p = Some v → Q v b → wp (load (Z.of_nat p)) Q b.
Proof.
  intros E HQ. unfold wp, load. destruct (Z.ltb_spec (Z.of_nat p) 0); [lia |]. by rewrite Nat2Z.id, E.
Qed.

Lemma wp_store p v b (Q : unit → circbuf → Prop) :
  (p < length (data b))%nat → Q tt (set_data (<[p := u8 v]> (data b)) b) → wp (store (Z.of_nat p) v) Q b.
Proof.
  intros Hp HQ. unfold wp, store. destruct (Z.ltb_spec (Z.of_nat p) 0); [lia |]. rewrite Nat2Z.id.
  by destruct (lookup_lt_is_Some_2 (data b) p Hp) as [x ->].
Qed.

Lemma wp_modify f b (Q : unit → circbuf → Prop) : Q tt (f b) → wp (modify f) Q b.
Proof. done. Qed.

Lemma wp_get_state {S} (s : S) (Q : S → S → Prop) : Q s s → wp get_state Q s.
Proof. done. Qed.

Lemma pop_loop_spec n t b :
  (0 < length (data b))%nat → end_ b = Z.of_nat (length (data b)) →
  wp (pop_loop n (Z.of_nat (t mod length (data b))))
    (λ '(l, p) b', b' = b ∧ l = ring (data b) t n ∧ p = Z.of_nat ((t + n) mod length (data b))) b.
Proof.
  intros HN He. revert t. induction n as [|n IH]; intros t.
  { apply wp_ret. by rewrite Nat.add_0_r. }
  cbn [pop_loop]. pose proof (Nat.mod_upper_bound t (length (data b)) ltac:(lia)) as Hlt.
  apply wp_bind. apply (wp_load _ _ (nth (t mod length (data b)) (data b) 0)).
  { rewrite nth_lookup. by destruct (lookup_lt_is_Some_2 _ _ Hlt) as [x ->]. }
  apply wp_bind, wp_get_state. rewrite He, next_offset by done. apply wp_bind.
  eapply wp_mono; [apply IH |]. intros [l p] b' (-> & -> & ->). apply wp_ret. split_and!; [done | by rewrite ring_S |].
  do 2 f_equal. lia.
Qed.

(** Evaluates fields of updated buffers. *)
Ltac fields := cbn [set_data set_size set_top set_tail data size totalsize top tail end_].

(** One byte: the queue grows, or loses its first byte. *)
Lemma push_byte_spec v b q p :
  holds_at b q p → in_u8 v →
  wp (push_byte v p)
    (λ p' b', holds_at b' (last_n (length (data b)) (q ++ [v])) p' ∧ totalsize b' = totalsize b ∧
      length (data b') = length (data b)) b.
Proof.
  intros (Ht & HN & He & Hq & Hs & t & Htop & Etop & -> & Hring) Hv. destruct b as [sz tot tp tl en d]. cbn in *.
  pose proof (Nat.mod_upper_bound (t + length q) (length d) ltac:(lia)) as Hlt.
  unfold push_byte. apply wp_bind, wp_store; [done |]. rewrite u8_small by done. fields.
  set (d' := <[((t + length q) mod length d)%nat := v]> d).
  assert (length d' = length d) as Hd' by apply length_insert.
  assert (nth ((t + length q) mod length d) d' 0 = v) as Hnth.
  { rewrite nth_lookup. unfold d'. by rewrite list_lookup_insert_eq. }
  apply wp_bind, wp_get_state. fields. subst en sz tp. rewrite HN.
  rewrite !next_offset by lia. unfold last_n. rewrite length_app. cbn [length].
  destruct (Z.ltb_spec (Z.of_nat (length q)) (Z.of_nat (length d))) as [Hfit|Hfull]; apply wp_bind, wp_modify, wp_ret.
  - replace (length q + 1 - length d)%nat with 0%nat by lia. rewrite drop_0.
    split; [|done]. unfold holds_at. fields. rewrite Hd', length_app. cbn [length]. rewrite u32_small by lia.
    split_and!; [lia .. | exists t]. split_and!; [done | done | f_equal; f_equal; lia |].
    replace (length q + 1)%nat with (S (length q)) by lia. rewrite ring_snoc, Hd', Hnth. f_equal.
    rewrite <- Hring at 2. apply ring_insert. lia.
  - assert (length q = length d) as Elen by lia. replace (length q + 1 - length d)%nat with 1%nat by lia.
    pose proof (next_offset t (length d) ltac:(lia)) as Hnext. rewrite (Nat.mod_small t) in Hnext by done. rewrite Hnext.
    split; [|done]. unfold holds_at. fields. rewrite Hd', length_drop, length_app. cbn [length].
    replace (length q + 1 - 1)%nat with (length q) by lia.
    split_and!; [lia .. | exists ((t + 1) mod length d)%nat]. split_and!; [apply Nat.mod_upper_bound; lia | done | |].
    { rewrite Nat.Div0.add_mod_idemp_l. do 2 f_equal. lia. }
    rewrite <- Hd' at 1. rewrite ring_mod by lia. destruct q as [|x q]; [cbn in Elen; lia |]. cbn [length app] in *.
    rewrite skipn_cons, drop_0, ring_snoc, Hd'. rewrite ring_S in Hring. injection Hring as _ Hring.
    replace (t + 1 + length q)%nat with (t + S (length q))%nat by lia. rewrite Hnth. f_equal. rewrite <- Hring at 2.
    apply ring_insert. lia.
Qed.

Lemma last_n_app n q l : last_n n (last_n n q ++ l) = last_n n (q ++ l).
Proof.
  unfold last_n. rewrite <- drop_app_le by lia. rewrite drop_drop. f_equal.
  rewrite length_drop, !length_app. lia.
Qed.

Lemma length_last_n n q : length (last_n n q) = Nat.min n (length q).
Proof. unfold last_n. rewrite length_drop. lia. Qed.

Lemma push_loop_spec src b q p :
  holds_at b q p → Forall in_u8 src →
  wp (push_loop src p)
    (λ p' b', holds_at b' (last_n (length (data b)) (q ++ src)) p' ∧ length (data b') = length (data b)) b.
Proof.
  intros H Hsrc. revert b q p H. induction Hsrc as [|v src Hv Hsrc IH]; intros b q p H; cbn [push_loop].
  - apply wp_ret. split; [|done]. rewrite app_nil_r. unfold last_n.
    replace (length q - length (data b))%nat with 0%nat by (destruct H as (_ & _ & _ & ? & _); lia). by rewrite drop_0.
  - apply wp_bind. eapply wp_mono; [by apply push_byte_spec |]. cbn. intros p' b' (H' & _ & Hlen).
    eapply wp_mono; [by apply IH |]. cbn. intros p'' b'' [H'' Hlen']. rewrite Hlen, last_n_app, <- app_assoc in H''.
    split; [done | congruence].
Qed.

Lemma buf_push_spec src b q :
  holds b q → Forall in_u8 src →
  wp (buf_push src)
    (λ r b', r = Z.of_nat (length src) ∧ holds b' (last_n (length (data b)) (q ++ src)) ∧
      length (data b') = length (data b)) b.
Proof.
  intros H Hsrc. apply wp_bind, wp_get_state, wp_bind. eapply wp_mono; [by apply push_loop_spec |].
  cbn beta. intros p b' [H' Hlen]. apply wp_bind, wp_modify, wp_ret. split_and!; [done | | done].
  unfold holds, holds_at in *. by fields.
Qed.

Lemma buf_pop_spec len b q :
  holds b q → 0 ≤ len →
  wp (buf_pop len)
    (λ dest b', dest = take (Z.to_nat len) q ∧ holds b' (drop (Z.to_nat len) q) ∧ data b' = data b) b.
Proof.
  intros (Ht & HN & He & Hq & Hs & t & Htop & Etop & Htail & Hring) Hlen. apply wp_bind, wp_get_state.
  set (n := Z.to_nat (if size b <? len then size b else len)).
  assert (n = Nat.min (Z.to_nat len) (length q)) as Hn by (unfold n; destruct (Z.ltb_spec (size b) len); lia).
  apply wp_bind. rewrite Etop. rewrite <- (Nat.mod_small t (length (data b))) at 1 by done.
  eapply wp_mono; [apply pop_loop_spec; lia |]. intros [l p] b' (-> & -> & ->).
  apply wp_bind, wp_modify, wp_bind, wp_modify, wp_ret.
  assert (q = ring (data b) t n ++ ring (data b) (t + n) (length q - n)) as Eq.
  { rewrite <- ring_app. by replace (n + (length q - n))%nat with (length q) by lia. }
  assert (take (Z.to_nat len) q = ring (data b) t n ∧ drop (Z.to_nat len) q = ring (data b) (t + n) (length q - n)) as [Htake Hdrop].
  { destruct (Nat.le_gt_cases (Z.to_nat len) (length q)).
    - replace (Z.to_nat len) with n by lia. set (r := ring (data b) (t + n) _) in *.
      split; rewrite Eq at 1; [apply take_app_length' | apply drop_app_length']; by rewrite length_ring.
    - rewrite take_ge, drop_ge by lia. replace (length q - n)%nat with 0%nat by lia.
      split; [|done]. by replace n with (length q) by lia. }
  split_and!; [done | | done]. rewrite Hdrop. unfold holds, holds_at. fields. rewrite length_ring.
  assert (n = Z.to_nat (if size b <? len then size b else len)) as Hn' by done.
  split_and!; [lia .. | destruct (Z.ltb_spec (size b) len); rewrite u32_small; lia | exists ((t + n) mod length (data b))%nat].
  split_and!; [apply Nat.mod_upper_bound; lia | done | | by rewrite ring_mod by lia].
  rewrite Htail, Nat.Div0.add_mod_idemp_l. do 2 f_equal. lia.
Qed.

(** ** Sequences of operations *)

Inductive op := Push (src : list Z) | Pop (len : Z).

Definition op_ok (o : op) : Prop :=
  match o with Push src => Forall in_u8 src | Pop len => 0 ≤ len end.

(** What the operations return, one list each: the bytes popped. *)
Fixpoint run_buf (ops : list op) : prog circbuf (list (list Z)) :=
  match ops with
  | [] => ret []
  | Push src :: ops' => buf_push src ;; let* outs := run_buf ops' in ret ([] :: outs)
  | Pop len :: ops' => let* dest := buf_pop len in let* outs := run_buf ops' in ret (dest :: outs)
  end.

(** A queue that forgets its oldest bytes when it has more than [n]. *)
Fixpoint run_queue (n : nat) (ops : list op) (q : list Z) : list (list Z) :=
  match ops with
  | [] => []
  | Push src :: ops' => [] :: run_queue n ops' (last_n n (q ++ src))
  | Pop len :: ops' => take (Z.to_nat len) q :: run_queue n ops' (drop (Z.to_nat len) q)
  end.

Lemma run_buf_refines ops b q :
  holds b q → Forall op_ok ops →
  wp (run_buf ops) (λ outs b', outs = run_queue (length (data b)) ops q ∧ ∃ q', holds b' q') b.
Proof.
  intros H Hops. revert b q H. induction Hops as [|o ops Ho Hops IH]; intros b q H.
  { apply wp_ret. eauto. }
  destruct o as [src|len]; cbn [run_buf run_queue].
  - apply wp_bind. eapply wp_mono; [by apply buf_push_spec |]. cbn beta. intros _ b' (_ & H' & Hlen).
    apply wp_bind. eapply wp_mono; [by apply IH |]. cbn beta. intros outs b'' [-> ?]. apply wp_ret. by rewrite Hlen.
  - apply wp_bind. eapply wp_mono; [by apply buf_pop_spec |]. cbn beta. intros dest b' (-> & H' & Hd).
    apply wp_bind. eapply wp_mono; [by apply IH |]. cbn beta. intros outs b'' [-> ?]. apply wp_ret. by rewrite Hd.
Qed.

Lemma buf_init_holds bytes n :
  0 < n < 4294967296 → length (bytes n) = Z.to_nat n → holds (buf_init bytes n) [].
Proof.
  intros Hn Hlen. unfold holds, holds_at, buf_init. cbn. rewrite Hlen. split_and!; [lia .. | exists 0%nat].
  split_and!; [lia | done | by rewrite Nat.Div0.mod_0_l | done].
Qed.

(** C26: However pushes and pops follow each other on a new buffer, and however often they go around
    its end, no access leaves the buffer and every pop gives the bytes a queue gives that keeps
    the last [totalsize] bytes pushed, in order. *)
Theorem circbuf_queue bytes n ops :
  0 < n < 4294967296 → length (bytes n) = Z.to_nat n → Forall op_ok ops →
  ∃ b, run_buf ops (buf_init bytes n) = Some (run_queue (Z.to_nat n) ops [], b).
Proof.
  intros Hn Hlen Hops.
  destruct (wp_elim _ _ _ (run_buf_refines ops _ [] (buf_init_holds bytes n Hn Hlen) Hops)) as (outs & b & E & -> & _).
  exists b. rewrite E. cbn [buf_init data]. by rewrite Hlen.
Qed.

Lemma circbuf_queue_witness :
  ∃ b, run_buf [Push [1; 2; 3]; Pop 2; Push [4; 5; 6; 7]; Pop 9] (buf_init (λ n, replicate (Z.to_nat n) 0) 4) =
    Some ([[]; [1; 2]; []; [4; 5; 6; 7]], b).
Proof. apply (circbuf_queue (λ n, replicate (Z.to_nat n) 0) 4); [lia | done | repeat constructor; cbn; lia]. Defined.
