(* ===== verification/Sort.v ===== *)
(** * Sorting: [lib/qsort.c]

    [qsort] is a Shell sort: it sorts with gaps 1, 4, 13, ... from the largest
    down, exchanging elements of [width] bytes byte by byte.  The array is the
    list of its bytes; the comparison function, which gets pointers to two
    elements in C, gets the bytes of the elements.  The theorem is for a
    comparison that is a total preorder, as the C standard asks for. *)

From stdpp Require Import prelude list sorting.
From Stdlib Require Import ZArith Lia.
From S2P Require Import Prelude Prog.

Local Open Scope Z_scope.
Local Open Scope word_scope.

(** ** The code *)

Definition array_get (i : Z) : prog (list Z) Z := λ a,
  if i <? 0 then None else match a !! Z.to_nat i with Some v => Some (v, a) | None => None end.

Definition array_put (i v : Z) : prog (list Z) unit := λ a,
  if i <? 0 then None else
  match a !! Z.to_nat i with Some _ => Some (tt, <[Z.to_nat i := v]> a) | None => None end.

(** The [width] bytes at [off]. *)
Definition element (width off : Z) : prog (list Z) (list Z) := λ a,
  if (off <? 0) || (Z.of_nat (length a) <? off + width) then None
  else Some (take (Z.to_nat width) (drop (Z.to_nat off) a), a).

(** [do { tmp = *a; *a++ = *b; *b++ = tmp; } while (--k);] *)
Fixpoint swap_loop (k : nat) (a b : Z) : prog (list Z) unit :=
  match k with
  | O => ret tt
  | S k' =>
      let* tmp := array_get a in
      let* v := array_get b in
      array_put a v ;;
      array_put b tmp ;;
      swap_loop k' (a +u 1) (b +u 1)
  end.

Section qsort_code.
Context (comp : list Z → list Z → Z).

(** [do { j -= wgap; ... } while (j >= wgap);]; [j] gets smaller by [wgap] and
    stops below it, so that [j] rounds are enough. *)
Fixpoint sift_loop (fuel : nat) (width wgap j : Z) : prog (list Z) unit :=
  match fuel with
  | O => fault
  | S fuel' =>
      let j := j -u wgap in
      let* a := element width j in
      let* b := element width (j +u wgap) in
      if comp a b <=? 0 then ret tt
      else
        swap_loop (Z.to_nat width) j (j +u wgap) ;;
        if wgap <=? j then sift_loop fuel' width wgap j else ret tt
  end.

(** [do { ...; i += width; } while (i < nel);] *)
Fixpoint gap_loop (fuel : nat) (width wgap nel i : Z) : prog (list Z) unit :=
  match fuel with
  | O => fault
  | S fuel' =>
      sift_loop (Z.to_nat i) width wgap i ;;
      let i := i +u width in
      if i <? nel then gap_loop fuel' width wgap nel i else ret tt
  end.

(** [do { i = wgap; ...; wgap = (wgap - width)/3; } while (wgap);] *)
Fixpoint shell_loop (fuel : nat) (width nel wgap : Z) : prog (list Z) unit :=
  match fuel with
  | O => fault
  | S fuel' =>
      gap_loop (Z.to_nat nel) width wgap nel wgap ;;
      let wgap := (wgap -u width) / 3 in
      if wgap =? 0 then ret tt else shell_loop fuel' width nel wgap
  end.

(** [do { wgap = 3 * wgap + 1; } while (wgap < (nel-1)/3);] *)
Fixpoint first_gap (fuel : nat) (nel wgap : Z) : option Z :=
  match fuel with
  | O => None
  | S fuel' =>
      let wgap := 3 *u wgap +u 1 in
      if wgap <? (nel -u 1) / 3 then first_gap fuel' nel wgap else Some wgap
  end.

(** Gaps more than double: there are not more than 32 of them. *)
Definition qsort (nel width : Z) : prog (list Z) unit :=
  if (1 <? nel) && (0 <? width) then
    match first_gap 32 nel 0 with
    | Some wgap => shell_loop 32 width (nel *u width) (wgap *u width)
    | None => fault
    end
  else ret tt.
End qsort_code.

(** ** Arrays of elements *)

Lemma wp_array_get a i pre x post (Q : Z → list Z → Prop) :
  a = pre ++ x :: post → i = Z.of_nat (length pre) → Q x a → wp (array_get i) Q a.
Proof.
  intros E -> HQ. unfold wp, array_get. destruct (Z.ltb_spec (Z.of_nat (length pre)) 0); [lia |].
  subst a. by rewrite Nat2Z.id, list_lookup_middle.
Qed.

Lemma wp_array_put a i pre x y post (Q : unit → list Z → Prop) :
  a = pre ++ x :: post → i = Z.of_nat (length pre) → Q tt (pre ++ y :: post) → wp (array_put i y) Q a.
Proof.
  intros E -> HQ. unfold wp, array_put. destruct (Z.ltb_spec (Z.of_nat (length pre)) 0); [lia |].
  subst a. rewrite Nat2Z.id, list_lookup_middle by done. by rewrite insert_app_r_alt, Nat.sub_diag by done.
Qed.

Lemma wp_element a width off pre x post (Q : list Z → list Z → Prop) :
  a = pre ++ x ++ post → off = Z.of_nat (length pre) → width = Z.of_nat (length x) → Q x a →
  wp (element width off) Q a.
Proof.
  intros E -> -> HQ. unfold wp, element. destruct (Z.ltb_spec (Z.of_nat (length pre)) 0); [lia |].
  subst a. rewrite !length_app. destruct (Z.ltb_spec (Z.of_nat (length pre + (length x + length post)))
    (Z.of_nat (length pre) + Z.of_nat (length x))); [lia |]. cbn. rewrite !Nat2Z.id, drop_app_length, take_app_length. done.
Qed.

(** Equality of lists up to the association of appends. *)
Ltac assoc := repeat first [rewrite <- app_assoc | rewrite <- app_comm_cons | progress cbn [app]]; done.
(** Lengths of appended lists. *)
Ltac lens := repeat first [rewrite length_app | progress cbn [length]].

(** The byte loop exchanges two blocks of one length. *)
Lemma swap_loop_spec xs ys pre mid post (Q : unit → list Z → Prop) :
  length xs = length ys → Z.of_nat (length (pre ++ xs ++ mid ++ ys ++ post)) < 4294967296 →
  Q tt (pre ++ ys ++ mid ++ xs ++ post) →
  wp (swap_loop (length xs) (Z.of_nat (length pre)) (Z.of_nat (length (pre ++ xs ++ mid)))) Q
    (pre ++ xs ++ mid ++ ys ++ post).
Proof.
  revert ys pre mid. induction xs as [|x xs IH]; intros [|y ys] pre mid Hlen Hlt HQ; try done.
  injection Hlen as Hlen. cbn [length swap_loop]. revert Hlt. lens. intros Hlt.
  apply wp_bind, (wp_array_get _ _ pre x (xs ++ mid ++ y :: ys ++ post)); [assoc | done |].
  apply wp_bind, (wp_array_get _ _ (pre ++ x :: xs ++ mid) y (ys ++ post)); [assoc | lens; lia |].
  apply wp_bind, (wp_array_put _ _ pre x y (xs ++ mid ++ y :: ys ++ post)); [assoc | done |].
  apply wp_bind, (wp_array_put _ _ (pre ++ y :: xs ++ mid) y x (ys ++ post)); [assoc | lens; lia |].
  rewrite !u32_small by lia.
  replace ((pre ++ y :: xs ++ mid) ++ x :: ys ++ post) with ((pre ++ [y]) ++ xs ++ (mid ++ [x]) ++ ys ++ post) by assoc.
  replace (Z.of_nat (length pre) + 1) with (Z.of_nat (length (pre ++ [y]))) by (lens; lia).
  replace (_ + 1) with (Z.of_nat (length ((pre ++ [y]) ++ xs ++ mid ++ [x]))) by (lens; lia).
  apply IH; [done | lens; lia |].
  by replace ((pre ++ [y]) ++ ys ++ (mid ++ [x]) ++ xs ++ post) with (pre ++ (y :: ys) ++ mid ++ (x :: xs) ++ post) by assoc.
Qed.

(** The gaps 1, 4, 13, ... with their number. *)
Inductive gap : nat → nat → Prop :=
  | gap_1 : gap 1 1
  | gap_S g k : gap g k → gap (3 * g + 1) (S k).

Lemma gap_pos g k : gap g k → (0 < g)%nat.
Proof. induction 1; lia. Qed.

Lemma gap_bound g k : gap g k → (2 ^ k ≤ g + 1)%nat.
Proof. induction 1; cbn in *; lia. Qed.

Section elements.
Context (comp : list Z → list Z → Z) (w : nat) (Hw : (0 < w)%nat).
Implicit Types (es l : list (list Z)) (x y z : list Z).

(** An array of elements of [w] bytes that fits into memory. *)
Definition elements es : Prop :=
  Forall (λ x, length x = w) es ∧ Z.of_nat (length es * w) < 4294967296.

Lemma elements_perm es es' : elements es → es' ≡ₚ es → elements es'.
Proof. intros [H Hlt] E. split; [by rewrite E | by rewrite E]. Qed.

Lemma length_concat es : Forall (λ x, length x = w) es → length (concat es) = (length es * w)%nat.
Proof. induction 1 as [|x es Hx Hes IH]; [done |]. cbn. rewrite length_app, IH, Hx. lia. Qed.

(** One comparison, of the elements [g] apart that end at index [|l1| + g]. *)
Lemma sift_step fuel l1 x l2 y l3 (Q : unit → list Z → Prop) :
  let es := l1 ++ x :: l2 ++ y :: l3 in
  let es' := l1 ++ y :: l2 ++ x :: l3 in
  let g := S (length l2) in
  elements es →
  (comp x y ≤ 0 → Q tt (concat es)) →
  (0 < comp x y →
    if (g <=? length l1)%nat then wp (sift_loop comp fuel (Z.of_nat w) (Z.of_nat (g * w)) (Z.of_nat (length l1 * w))) Q (concat es')
    else Q tt (concat es')) →
  wp (sift_loop comp (S fuel) (Z.of_nat w) (Z.of_nat (g * w)) (Z.of_nat ((length l1 + g) * w))) Q (concat es).
Proof using Hw.
  intros es es' g [Hes Hlt] Hle Hgt. unfold es in Hlt. revert Hlt. lens. intros Hlt.
  pose proof Hes as Hes0. apply Forall_app in Hes0 as [H1 [Hx [H2 [Hy H3]%Forall_cons]%Forall_app]%Forall_cons].
  pose proof (length_concat l1 H1) as L1. pose proof (length_concat l2 H2) as L2.
  assert (concat es = concat l1 ++ x ++ concat l2 ++ y ++ concat l3) as Ea.
  { unfold es. rewrite !concat_app. cbn. by rewrite concat_app. }
  assert (concat es' = concat l1 ++ y ++ concat l2 ++ x ++ concat l3) as Ea'.
  { unfold es'. rewrite !concat_app. cbn. by rewrite concat_app. }
  cbn [sift_loop]. rewrite (u32_small (_ - _)) by (subst g; nia).
  replace (Z.of_nat ((length l1 + g) * w) - Z.of_nat (g * w)) with (Z.of_nat (length (concat l1))) by (rewrite L1; nia).
  replace (Z.of_nat (length (concat l1)) +u Z.of_nat (g * w)) with (Z.of_nat (length (concat l1 ++ x ++ concat l2))).
  2: { lens. rewrite L1, L2, Hx, u32_small; subst g; nia. }
  rewrite Ea. apply wp_bind, (wp_element _ _ _ (concat l1) x (concat l2 ++ y ++ concat l3)); [done | done | by rewrite Hx |].
  apply wp_bind, (wp_element _ _ _ (concat l1 ++ x ++ concat l2) y (concat l3)); [by rewrite <- !app_assoc | done | by rewrite Hy |].
  destruct (Z.leb_spec (comp x y) 0) as [Hc|Hc]; [apply wp_ret; rewrite <- Ea; auto |]. specialize (Hgt Hc).
  rewrite Nat2Z.id. apply wp_bind. rewrite <- Hx at 1.
  apply (swap_loop_spec x y (concat l1) (concat l2) (concat l3)); [congruence | |].
  { lens. rewrite L1, L2, (length_concat l3 H3), Hx, Hy. lia. }
  rewrite <- Ea', L1. destruct (Z.leb_spec (Z.of_nat (g * w)) (Z.of_nat (length l1 * w))), (Nat.leb_spec g (length l1));
    [done | nia | nia | by apply wp_ret].
Qed.

(** Two elements of an array [g] apart. *)
Lemma split_pair (es : list (list Z)) g i :
  (0 < g ≤ i)%nat → (i < length es)%nat →
  ∃ l1 x l2 y l3, es = l1 ++ x :: l2 ++ y :: l3 ∧ length l1 = (i - g)%nat ∧ g = S (length l2).
Proof.
  intros Hg Hi. destruct (lookup_lt_is_Some_2 es i Hi) as [y Hy]. apply list_elem_of_split_length in Hy as (l & l3 & -> & Hl).
  destruct (lookup_lt_is_Some_2 l (i - g)) as [x Hx]; [lia |].
  apply list_elem_of_split_length in Hx as (l1 & l2 & -> & Hl1). rewrite length_app in Hl. cbn in Hl.
  exists l1, x, l2, y, l3. split_and!; [assoc | done | lia].
Qed.

Lemma swap_perm (l1 l2 l3 : list (list Z)) x y : l1 ++ y :: l2 ++ x :: l3 ≡ₚ l1 ++ x :: l2 ++ y :: l3.
Proof. apply Permutation_app_head. rewrite <- !Permutation_middle. constructor. Qed.

(** Sifting with any gap exchanges elements. *)
Lemma sift_loop_perm fuel g i es :
  elements es → (0 < g ≤ i)%nat → (i < length es)%nat → (i ≤ fuel)%nat →
  wp (sift_loop comp fuel (Z.of_nat w) (Z.of_nat (g * w)) (Z.of_nat (i * w)))
    (λ _ a, ∃ es', a = concat es' ∧ es' ≡ₚ es) (concat es).
Proof using Hw.
  revert g i es. induction fuel as [|fuel IH]; intros g i es Hes Hg Hi Hf; [lia |].
  destruct (split_pair es g i Hg Hi) as (l1 & x & l2 & y & l3 & -> & L1 & ->).
  replace i with (length l1 + S (length l2))%nat by lia.
  apply sift_step; [done | intros _; eauto |]. intros _. pose proof (swap_perm l1 l2 l3 x y) as Hswap.
  destruct (Nat.leb_spec (S (length l2)) (length l1)); [|eauto].
  eapply wp_mono; [apply IH |].
  - by eapply elements_perm.
  - lia.
  - lens. lia.
  - lia.
  - cbn. intros _ a (es' & -> & Hp). exists es'. split; [done |]. by rewrite Hp.
Qed.

(** ** The pass with gap 1 *)

Definition le_comp x y : Prop := comp x y ≤ 0.
Context (Htotal : ∀ x y, 0 < comp x y → comp y x ≤ 0).
Context (Htrans : ∀ x y z, comp x y ≤ 0 → comp y z ≤ 0 → comp x z ≤ 0).

Lemma sorted_insert l1 y l2 :
  StronglySorted le_comp (l1 ++ l2) →
  match last l1 with Some x => comp x y ≤ 0 | None => True end → Forall (λ z, comp y z ≤ 0) l2 →
  StronglySorted le_comp (l1 ++ y :: l2).
Proof using Htrans.
  intros Hs Hx Hl2. apply StronglySorted_app in Hs as (H12 & H1 & H2). apply StronglySorted_app. split_and!; [| done | by constructor].
  assert (∀ a, a ∈ l1 → comp a y ≤ 0) as Hy.
  { destruct l1 as [|x l1 _] using rev_ind; [by intros a ?%not_elem_of_nil |]. rewrite last_snoc in Hx.
    apply StronglySorted_app in H1 as (H1 & _ & _). intros a [Ha|Ha]%elem_of_app.
    - eapply Htrans; [|done]. apply (H1 a x Ha). by left.
    - apply list_elem_of_singleton in Ha as ->. done. }
  intros a b Ha [->|Hb]%elem_of_cons; [by apply Hy | by apply H12].
Qed.

(** The element behind the sorted elements [s1 ++ x :: s2] goes to its place;
    it has passed [s2]. *)
Lemma sift_loop_insert fuel s1 x y s2 rest :
  elements (s1 ++ x :: y :: s2 ++ rest) → (length s1 < fuel)%nat →
  StronglySorted le_comp (s1 ++ x :: s2) → Forall (λ z, comp y z ≤ 0) s2 →
  wp (sift_loop comp fuel (Z.of_nat w) (Z.of_nat (1 * w)) (Z.of_nat ((length s1 + 1) * w)))
    (λ _ a, ∃ s, a = concat (s ++ rest) ∧ s ≡ₚ s1 ++ x :: y :: s2 ∧ StronglySorted le_comp s)
    (concat (s1 ++ x :: y :: s2 ++ rest)).
Proof using Hw Htotal Htrans.
  revert fuel x s2. induction s1 as [|z s1 IH] using rev_ind; intros fuel x s2 Hes Hf Hs Hy;
    (destruct fuel as [|fuel]; [lia |]);
    [apply (sift_step fuel [] x [] y (s2 ++ rest)) | apply (sift_step fuel (s1 ++ [z]) x [] y (s2 ++ rest))]; try done.
  - intros Hc. exists (x :: y :: s2). split_and!; [done | done |]. by apply (sorted_insert [x] y s2).
  - intros Hc. cbn [length Nat.leb app]. exists (y :: x :: s2). split_and!; [done | constructor |].
    apply (sorted_insert [] y (x :: s2)); [done | done |]. constructor; [by apply Htotal | done].
  - intros Hc. exists ((s1 ++ [z]) ++ x :: y :: s2). split_and!; [assoc | done |].
    replace ((s1 ++ [z]) ++ x :: y :: s2) with (((s1 ++ [z]) ++ [x]) ++ y :: s2) by assoc.
    apply sorted_insert; [|by rewrite last_snoc | done]. by replace (((s1 ++ [z]) ++ [x]) ++ s2) with ((s1 ++ [z]) ++ x :: s2) by assoc.
  - intros Hc. destruct (Nat.leb_spec (S (length (@nil (list Z)))) (length (s1 ++ [z]))) as [_|Hn]; [|rewrite length_app in Hn; cbn in Hn; lia].
    cbn [app length]. replace (length (s1 ++ [z])) with (length s1 + 1)%nat by (lens; lia).
    replace ((s1 ++ [z]) ++ y :: x :: s2 ++ rest) with (s1 ++ z :: y :: (x :: s2) ++ rest) by assoc.
    eapply wp_mono; [apply IH |].
    + eapply elements_perm; [exact Hes |]. replace ((s1 ++ [z]) ++ x :: y :: s2 ++ rest) with (s1 ++ z :: x :: y :: s2 ++ rest) by assoc.
      apply Permutation_app_head. constructor. constructor.
    + rewrite length_app in Hf. cbn in Hf. lia.
    + by replace (s1 ++ z :: x :: s2) with ((s1 ++ [z]) ++ x :: s2) by assoc.
    + constructor; [by apply Htotal | done].
    + cbn. intros _ a (s & -> & Hp & Hsorted). exists s. split_and!; [done | | done]. rewrite Hp.
      replace ((s1 ++ [z]) ++ x :: y :: s2) with (s1 ++ z :: x :: y :: s2) by assoc.
      apply Permutation_app_head. constructor. constructor.
Qed.
(** ** The passes *)

Lemma gap_loop_perm fuel g i es :
  elements es → (0 < g ≤ i)%nat → (i < length es)%nat → (length es - i ≤ fuel)%nat →
  wp (gap_loop comp fuel (Z.of_nat w) (Z.of_nat (g * w)) (Z.of_nat (length es * w)) (Z.of_nat (i * w)))
    (λ _ a, ∃ es', a = concat es' ∧ es' ≡ₚ es) (concat es).
Proof using Hw.
  revert i es. induction fuel as [|fuel IH]; intros i es Hes Hg Hi Hf; [lia |]. cbn [gap_loop].
  apply wp_bind. eapply wp_mono; [apply sift_loop_perm; [done | done | done | rewrite Nat2Z.id; nia] |].
  cbn beta. intros _ a (es' & -> & Hp). pose proof Hes as [_ Hlt].
  rewrite u32_small by nia. replace (Z.of_nat (i * w) + Z.of_nat w) with (Z.of_nat ((i + 1) * w)) by nia.
  rewrite <- (Permutation_length Hp) in *.
  destruct (Z.ltb_spec (Z.of_nat ((i + 1) * w)) (Z.of_nat (length es' * w))); [|apply wp_ret; eauto].
  eapply wp_mono; [apply IH; [by eapply elements_perm | lia | nia | lia] |].
  cbn beta. intros _ a (es'' & -> & Hp'). exists es''. split; [done |]. by rewrite Hp'.
Qed.

Lemma gap_loop_sorts fuel s rest :
  elements (s ++ rest) → s ≠ [] → rest ≠ [] → StronglySorted le_comp s → (length rest ≤ fuel)%nat →
  wp (gap_loop comp fuel (Z.of_nat w) (Z.of_nat (1 * w)) (Z.of_nat (length (s ++ rest) * w)) (Z.of_nat (length s * w)))
    (λ _ a, ∃ es', a = concat es' ∧ es' ≡ₚ s ++ rest ∧ StronglySorted le_comp es') (concat (s ++ rest)).
Proof using Hw Htotal Htrans.
  revert fuel s. induction rest as [|y rest IH]; intros fuel s Hes Hs Hr Hsort Hf; [done |]. cbn in Hf.
  destruct fuel as [|fuel]; [lia |]. cbn [gap_loop]. destruct s as [|x s _] using rev_ind; [done |].
  apply wp_bind. rewrite Nat2Z.id. replace (length (s ++ [x])) with (length s + 1)%nat by (lens; lia).
  replace ((s ++ [x]) ++ y :: rest) with (s ++ x :: y :: [] ++ rest) in * by assoc.
  eapply wp_mono; [apply sift_loop_insert; [done | nia | done | done] |].
  cbn beta. intros _ a (s' & -> & Hp & Hsort'). assert (length s' = length s + 2)%nat as Ls by (rewrite Hp; lens; lia).
  assert (s' ++ rest ≡ₚ s ++ x :: y :: [] ++ rest) as Hp' by (rewrite Hp; replace ((s ++ [x; y]) ++ rest) with (s ++ x :: y :: [] ++ rest) by assoc; done).
  pose proof Hes as [_ Hlt]. revert Hlt. lens. intros Hlt. rewrite u32_small by nia.
  replace (Z.of_nat ((length s + 1) * w) + Z.of_nat w) with (Z.of_nat (length s' * w)) by nia.
  destruct (Z.ltb_spec (Z.of_nat (length s' * w)) (Z.of_nat ((length s + S (S (0 + length rest))) * w))) as [Hlt'|Hge].
  - replace (length s + S (S (0 + length rest)))%nat with (length (s' ++ rest)) by (lens; lia).
    eapply wp_mono; [apply IH; [by eapply elements_perm | intros ->; cbn in Ls; lia | intros ->; cbn in Hlt'; nia | done | lia] |].
    cbn beta. intros _ a (es' & -> & Hp'' & ?). exists es'. split_and!; [done | by rewrite Hp'' | done].
  - destruct rest; [|cbn in Hge; nia]. apply wp_ret. exists s'. rewrite app_nil_r. split_and!; [done | | done].
    by rewrite Hp.
Qed.

Lemma shell_loop_sorts fuel g k es :
  elements es → gap g k → (k ≤ fuel)%nat → (g < length es)%nat →
  wp (shell_loop comp fuel (Z.of_nat w) (Z.of_nat (length es * w)) (Z.of_nat (g * w)))
    (λ _ a, ∃ es', a = concat es' ∧ es' ≡ₚ es ∧ StronglySorted le_comp es') (concat es).
Proof using Hw Htotal Htrans.
  intros Hes Hg. revert fuel es Hes. induction Hg as [|g k Hg IH]; intros fuel es Hes Hf Hlt;
    (destruct fuel as [|fuel]; [lia |]); cbn [shell_loop]; apply wp_bind; rewrite Nat2Z.id.
  - destruct es as [|x es]; [cbn in Hlt; lia |]. cbn in Hlt.
    eapply wp_mono; [apply (gap_loop_sorts _ [x] es); [done | done | intros ->; cbn in Hlt; lia | repeat constructor | cbn; nia] |].
    cbn beta. intros _ a Ha. replace (Z.of_nat (1 * w) -u Z.of_nat w) with 0; [by apply wp_ret |].
    rewrite Nat.mul_1_l, Z.sub_diag. done.
  - pose proof (gap_pos g k Hg). eapply wp_mono; [apply gap_loop_perm; [done | lia | done | nia] |].
    cbn beta. intros _ a (es' & -> & Hp). pose proof Hes as [_ Hb].
    replace ((Z.of_nat ((3 * g + 1) * w) -u Z.of_nat w) / 3) with (Z.of_nat (g * w)).
    2: { rewrite u32_small by nia. replace (_ - _) with (Z.of_nat (g * w) * 3) by nia. by rewrite Z.div_mul. }
    destruct (Z.eqb_spec (Z.of_nat (g * w)) 0); [nia |]. rewrite <- (Permutation_length Hp) in *.
    eapply wp_mono; [apply IH; [by eapply elements_perm | lia | lia] |].
    cbn beta. intros _ a (es'' & -> & Hp' & ?). exists es''. split_and!; [done | by rewrite Hp' | done].
Qed.
End elements.

Lemma first_gap_spec fuel nel v k :
  (1 < nel)%nat → Z.of_nat nel < 4294967296 →
  v = 0%nat ∧ k = 0%nat ∨ gap v k ∧ Z.of_nat v < (Z.of_nat nel - 1) / 3 → (k + fuel = 32)%nat →
  ∃ g k', first_gap fuel (Z.of_nat nel) (Z.of_nat v) = Some (Z.of_nat g) ∧ gap g k' ∧ (k' ≤ 32)%nat ∧ (g < nel)%nat.
Proof.
  intros Hn Hlt. revert v k. induction fuel as [|fuel IH]; intros v k Hv Hf.
  - destruct Hv as [[-> ->]|[Hg Hlt']]; [lia |]. apply gap_bound, Nat2Z.inj_le in Hg.
    rewrite Nat2Z.inj_pow, Nat2Z.inj_add in Hg. replace (Z.of_nat k) with 32 in Hg by lia. change (Z.of_nat 2 ^ 32) with 4294967296 in Hg.
    Z.to_euclidean_division_equations. lia.
  - assert (gap (3 * v + 1) (S k)) as Hg.
    { destruct Hv as [[-> ->]|[Hg _]]; [constructor | by constructor]. }
    assert (3 * v + 1 < nel)%nat as Hb.
    { destruct Hv as [[-> ->]|[_ Hv]]; [lia |]. Z.to_euclidean_division_equations. lia. }
    cbn [first_gap]. rewrite (u32_small (Z.of_nat nel - 1)) by lia.
    replace (3 *u Z.of_nat v +u 1) with (Z.of_nat (3 * v + 1)) by (rewrite (u32_small (3 * _)), u32_small; lia).
    destruct (Z.ltb_spec (Z.of_nat (3 * v + 1)) ((Z.of_nat nel - 1) / 3)).
    + eapply (IH _ (S k)); [by right | lia].
    + exists (3 * v + 1)%nat, (S k). split_and!; [done | done | lia | done].
Qed.

(** For a total preorder [qsort] sorts. *)
Lemma qsort_sorts comp w es :
  (0 < w)%nat → Forall (λ x, length x = w) es → Z.of_nat (length es * w) < 4294967296 →
  (∀ x y, 0 < comp x y → comp y x ≤ 0) → (∀ x y z, comp x y ≤ 0 → comp y z ≤ 0 → comp x z ≤ 0) →
  wp (qsort comp (Z.of_nat (length es)) (Z.of_nat w))
    (λ _ a, ∃ es', a = concat es' ∧ es' ≡ₚ es ∧ StronglySorted (λ x y, comp x y ≤ 0) es') (concat es).
Proof.
  intros Hw Hes Hlt Htotal Htrans. unfold qsort. destruct (Z.ltb_spec 0 (Z.of_nat w)); [|lia].
  destruct (Z.ltb_spec 1 (Z.of_nat (length es))); cbn [andb].
  - destruct (first_gap_spec 32 (length es) 0 0) as (g & k & E & Hg & Hk & Hb); [lia | nia | by left | done |].
    change (Z.of_nat 0) with 0 in E. rewrite E. rewrite !u32_small by nia. rewrite <- !Nat2Z.inj_mul.
    by eapply shell_loop_sorts.
  - apply wp_ret. exists es. split_and!; [done | done |]. destruct es as [|x [|y es]]; [constructor | repeat constructor | cbn in *; lia].
Qed.

(** C27: [qsort] terminates with the elements in order: for a comparison that is a total preorder,
    any number of elements of any width that fit into memory is rearranged so that each element
    is not greater than the ones behind it. *)
Theorem qsort_correct comp w es :
  (0 < w)%nat → Forall (λ x, length x = w) es → Z.of_nat (length es * w) < 4294967296 →
  (∀ x y, 0 < comp x y → comp y x ≤ 0) → (∀ x y z, comp x y ≤ 0 → comp y z ≤ 0 → comp x z ≤ 0) →
  wp (qsort comp (Z.of_nat (length es)) (Z.of_nat w))
    (λ _ a, ∃ es', a = concat es' ∧ es' ≡ₚ es ∧ StronglySorted (λ x y, comp x y ≤ 0) es') (concat es).
Proof. apply qsort_sorts. Qed.

(** Two-byte elements in the order of their little-endian values. *)
Definition example_comp (x y : list Z) : Z :=
  let v l := match l with [a; b] => a + 256 * b | _ => 0 end in v x - v y.

Lemma qsort_witness :
  wp (qsort example_comp 3 2)
    (λ _ a, ∃ es', a = concat es' ∧ es' ≡ₚ [[5; 1]; [9; 0]; [7; 0]] ∧ StronglySorted (λ x y, example_comp x y ≤ 0) es')
    [5; 1; 9; 0; 7; 0].
Proof.
  apply (qsort_correct example_comp 2 [[5; 1]; [9; 0]; [7; 0]]); [lia | repeat constructor | cbn; lia | |]; unfold example_comp; lia.
Defined.

Example qsort_example : qsort example_comp 5 2 [5; 1; 9; 0; 7; 0; 0; 2; 1; 1] = Some (tt, [7; 0; 9; 0; 1; 1; 5; 1; 0; 2]).
Proof. vm_compute. reflexivity. Qed.
