(* ===== verification/Env.v ===== *)
(** * The environment: [lib/hashtable.c] and [getenv]

    The variables of the boot loader live in a hash table with open addressing
    and double hashing.  This file holds the code: the table with search,
    insertion and deletion, and its conversion to and from text.  Strings are
    values: the copies that [strdup] makes and [free] discards are not told
    apart from what they copy, but every allocation can fail. *)

From stdpp Require Import prelude list strings.
From Stdlib Require Import ZArith Lia Ascii.
From S2P Require Import Prelude Prog Memory CString Sort.

Local Open Scope Z_scope.
Local Open Scope word_scope.

(** ** Data *)

Inductive ACTION := FIND | ENTER.

(** [_ENTRY] with the [ENTRY] in it; a null pointer is [None]. *)
Record ENTRY := Entry { used : Z; e_key : option string; e_data : option string }.

Record hsearch_data := Htab { table : option (list ENTRY); hsize : Z; filled : Z }.

(** The table and the number of allocations so far. *)
Record env_state := Env { htab : hsearch_data; calls : nat }.

Section code.
(** Whether the [n]th allocation succeeds. *)
Context (malloc_ok : nat → bool).

Definition malloc : prog env_state bool := λ s, Some (malloc_ok (calls s), Env (htab s) (S (calls s))).

Definition strdup (s : option string) : prog env_state (option string) :=
  match s with
  | None => ret None
  | Some s => let* ok := malloc in ret (if ok : bool then Some s else None)
  end.

Definition put_htab (h : hsearch_data) : prog env_state unit := λ s, Some (tt, Env h (calls s)).

(** [htab->table[idx]], read and written. *)
Definition get_slot (idx : Z) : prog env_state ENTRY := λ s,
  match table (htab s) with
  | None => None
  | Some t =>
      if idx <? 0 then None else match t !! Z.to_nat idx with Some e => Some (e, s) | None => None end
  end.

Definition put_slot (idx : Z) (e : ENTRY) : prog env_state unit := λ s,
  match table (htab s) with
  | None => None
  | Some t =>
      if idx <? 0 then None
      else match t !! Z.to_nat idx with
      | Some _ =>
          Some (tt, Env (Htab (Some (<[Z.to_nat idx := e]> t)) (hsize (htab s)) (filled (htab s))) (calls s))
      | None => None
      end
  end.

Definition set_filled (n : Z) : prog env_state unit := λ s,
  Some (tt, Env (Htab (table (htab s)) (hsize (htab s)) n) (calls s)).

(** ** Creation *)

(** [div] grows by two, so that [number] rounds are enough for the loop to get
    to a divisor. *)
Fixpoint isprime_loop (fuel : nat) (div number : Z) : option bool :=
  match fuel with
  | O => None
  | S fuel =>
      if (div *u div <? number) && negb (number mod div =? 0) then isprime_loop fuel (div +u 2) number
      else Some (negb (number mod div =? 0))
  end.

Definition isprime (number : Z) : option bool := isprime_loop (Z.to_nat number) 3 number.

(** [while (!isprime(nel)) nel += 2;] *)
Fixpoint next_prime (fuel : nat) (nel : Z) : option Z :=
  match fuel with
  | O => None
  | S fuel =>
      match isprime nel with
      | None => None
      | Some true => Some nel
      | Some false => next_prime fuel (nel +u 2)
      end
  end.

(** A prime is found before twice the number. *)
Definition hcreate_r (nel : Z) : prog env_state Z :=
  let* s := get_state in
  match table (htab s) with
  | Some _ => ret 0
  | None =>
      let nel := Z.lor nel 1 in
      match next_prime (Z.to_nat nel + 2) nel with
      | None => fault
      | Some nel =>
          let* ok := malloc in
          if ok : bool then
            put_htab (Htab (Some (replicate (Z.to_nat (nel + 1)) (Entry 0 None None))) nel 0) ;; ret 1
          else put_htab (Htab None nel 0) ;; ret 0
      end
  end.

(** The strings of the used entries are freed. *)
Definition hdestroy_r : prog env_state unit :=
  let* s := get_state in
  for_do (hsize (htab s)) (λ i, let* _ := get_slot (i + 1) in ret tt) ;;
  put_htab (Htab None (hsize (htab s)) (filled (htab s))).

(** ** Search *)

(** The loop runs from the last character to the first. *)
Fixpoint hash_chars (key : string) (hval : Z) : Z :=
  match key with
  | EmptyString => hval
  | String c key => Z.shiftl (hash_chars key hval) 4 +u char_val c
  end.

Definition first_hash (key : string) (size : Z) : Z :=
  let hval := hash_chars key (strlen key) mod size in
  if hval =? 0 then hval + 1 else hval.

Definition second_hash (hval size : Z) : Z := 1 + hval mod (size -u 2).

(** [(htab->table[idx].used == hval) && strcmp(item.key, htab->table[idx].entry.key) == 0] *)
Definition is_entry (key : string) (hval : Z) (e : ENTRY) : prog env_state bool :=
  if used e =? hval then
    match e_key e with None => fault | Some k => ret (strcmp key k =? 0) end
  else ret false.

(** The result of a search: the value returned and [*retval], as an index. *)
Definition found (idx : Z) (data : option string) (action : ACTION) : prog env_state (Z * option Z) :=
  match action, data with
  | ENTER, Some _ =>
      let* e := get_slot idx in
      let* d := strdup data in
      put_slot idx (Entry (used e) (e_key e) d) ;;
      ret (match d with None => (0, None) | Some _ => (idx, Some idx) end)
  | _, _ => ret (idx, Some idx)
  end.

(** The [do] loop: where it ends, and whether the entry was found there.  The
    table has [size] places to visit. *)
Fixpoint probe_loop (fuel : nat) (key : string) (hval hval2 idx : Z) : prog env_state (Z * bool) :=
  match fuel with
  | O => fault
  | S fuel =>
      let* s := get_state in
      let idx := if idx <=? hval2 then hsize (htab s) +u idx -u hval2 else idx -u hval2 in
      if idx =? hval then ret (idx, false)
      else
        let* e := get_slot idx in
        let* hit := is_entry key hval e in
        if hit : bool then ret (idx, true)
        else if used e =? 0 then ret (idx, false)
        else probe_loop fuel key hval hval2 idx
  end.

(** The part behind the loops, for the place they ended at. *)
Definition enter_new (key : string) (data : option string) (action : ACTION) (hval idx : Z) :
    prog env_state (Z * option Z) :=
  match action with
  | FIND => ret (0, None)
  | ENTER =>
      let* s := get_state in
      if filled (htab s) =? hsize (htab s) then ret (0, None)
      else
        let* k := strdup (Some key) in
        let* d := strdup data in
        put_slot idx (Entry hval k d) ;;
        match k, d with
        | Some _, Some _ => set_filled (filled (htab s) +u 1) ;; ret (1, Some idx)
        | _, _ => ret (0, None)
        end
  end.

Definition hsearch_r (key : string) (data : option string) (action : ACTION) : prog env_state (Z * option Z) :=
  let* s := get_state in
  let size := hsize (htab s) in
  if size =? 0 then fault
  else
    let hval := first_hash key size in
    let* e := get_slot hval in
    if used e =? 0 then enter_new key data action hval hval
    else
      let* hit := is_entry key hval e in
      if hit : bool then found hval data action
      else
        let hval2 := second_hash hval size in
        let* r := probe_loop (Z.to_nat size) key hval hval2 hval in
        let '(idx, hit) := r in
        if hit : bool then found idx data action else enter_new key data action hval idx.

Definition hdelete_r (key : string) : prog env_state Z :=
  let* r := hsearch_r key None FIND in
  let '(idx, _) := r in
  if idx =? 0 then ret 0
  else
    let* e := get_slot idx in
    put_slot idx (Entry 0 (e_key e) (e_data e)) ;;
    let* s := get_state in
    set_filled (filled (htab s) -u 1) ;;
    ret 1.

(** [getenv] once the environment is in the table. *)
Definition getenv (name : string) : prog env_state (option string) :=
  let* r := hsearch_r name None FIND in
  let '(_, ep) := r in
  match ep with
  | None => ret None
  | Some idx => let* e := get_slot idx in ret (e_data e)
  end.

(** ** Text *)

(** The values with the characters that a separator needs escaped. *)
Fixpoint escape (sep : ascii) (s : string) : string :=
  match s with
  | EmptyString => EmptyString
  | String c s =>
      if bool_decide (c = sep) || bool_decide (c = "\"%char) then String "\" (String c (escape sep s))
      else String c (escape sep s)
  end.

(** Pass 1: the used entries and the room they take. *)
Fixpoint collect (sep : ascii) (i : Z) (t : list ENTRY) : option (list Z * Z) :=
  match t with
  | [] => Some ([], 0)
  | e :: t =>
      rest ← collect sep (i + 1) t;
      if used e =? 0 then Some rest
      else
        k ← e_key e;
        d ← e_data e;
        let n := if bool_decide (sep = "000"%char) then strlen d else strlen (escape sep d) in
        Some (i :: rest.1, strlen k +u 2 +u n +u 2 +u rest.2)
  end.

(** A pointer to an entry, as the four bytes of its index. *)
Definition entry_of (t : list ENTRY) (p : list Z) : string :=
  match t !! Z.to_nat (le_val p) with Some e => default EmptyString (e_key e) | None => EmptyString end.

Definition cmpkey (t : list ENTRY) (p1 p2 : list Z) : Z := strcmp (entry_of t p1) (entry_of t p2).

(** One round of pass 2. *)
Definition export_entry (sep : ascii) (e : ENTRY) : option string :=
  k ← e_key e; d ← e_data e; Some (k +:+ "=" +:+ escape sep d +:+ String sep EmptyString).

Fixpoint export_all (sep : ascii) (es : list ENTRY) : option string :=
  match es with
  | [] => Some EmptyString
  | e :: es => x ← export_entry sep e; y ← export_all sep es; Some (x +:+ y)
  end.

Fixpoint zero_bytes (n : nat) : string := match n with O => EmptyString | S n => String "000" (zero_bytes n) end.

(** The four bytes at a time of an array of pointers. *)
Fixpoint pointers (n : nat) (a : list Z) : list (list Z) :=
  match n with O => [] | S n => take 4 a :: pointers n (drop 4 a) end.

(** [buf] is the number of bytes of a buffer of the caller.  The result is the
    value returned and the bytes of the buffer that were written or cleared;
    writing past the end of the buffer is a fault. *)
Definition hexport_r (sep : ascii) (buf : option Z) (size : Z) : prog env_state (Z * option string) :=
  let* s := get_state in
  match table (htab s) with
  | None => fault
  | Some t =>
      match collect sep 1 (tail t) with
      | None => fault
      | Some (list, totlen) =>
          match qsort (cmpkey t) (Z.of_nat (length list)) 4 (concat (le_bytes 4 <$> list)) with
          | None => fault
          | Some (_, a) =>
              let sorted := Z.to_nat ∘ le_val <$> pointers (length list) a in
              if negb (size =? 0) && (size <? totlen +u 1) then ret (-1, None)
              else
                let size := if size =? 0 then totlen +u 1 else size in
                let* ok := match buf with Some _ => ret true | None => malloc end in
                if ok : bool then
                  let room := default size buf in
                  if room <? size then fault
                  else
                    match mapM (λ i, t !! i) sorted with
                    | None => fault
                    | Some es =>
                        match export_all sep es with
                        | None => fault
                        | Some text =>
                            if room <? strlen text + 1 then fault
                            else ret (size, Some (text +:+ zero_bytes (Z.to_nat (Z.max size (strlen text + 1) - strlen text))))
                        end
                    end
                else ret (-1, None)
          end
      end
  end.

(** [while (( *dp == ' ') || ( *dp == '\t')) ++dp;] on the text from [dp] on;
    reading past its end is a fault. *)
Fixpoint skip_white (dp : string) : option string :=
  match dp with
  | EmptyString => None
  | String c dp' => if bool_decide (c = " "%char) || bool_decide (c = "009"%char) then skip_white dp' else Some dp
  end.

(** The text up to the first zero or character [stop] and the text from there. *)
Fixpoint split_at (stop : ascii → bool) (dp : string) : option (string * string) :=
  match dp with
  | EmptyString => None
  | String c dp' =>
      if bool_decide (c = "000"%char) || stop c then Some (EmptyString, dp)
      else '(s, r) ← split_at stop dp'; Some (String c s, r)
  end.

(** The loop that reads a value and takes the escapes out. *)
Fixpoint parse_value (fuel : nat) (sep : ascii) (dp : string) : option (string * string) :=
  match fuel with
  | O => None
  | S fuel =>
      match dp with
      | EmptyString => None
      | String c dp' =>
          if bool_decide (c = "000"%char) || bool_decide (c = sep) then Some (EmptyString, dp)
          else
            '(c, dp') ←
              (if bool_decide (c = "\"%char) then
                 match dp' with
                 | EmptyString => None
                 | String c' dp'' => if bool_decide (c' = "000"%char) then Some (c, dp') else Some (c', dp'')
                 end
               else Some (c, dp'));
            '(v, r) ← parse_value fuel sep dp'; Some (String c v, r)
      end
  end.
Definition after (dp : string) : string := match dp with EmptyString => EmptyString | String _ dp => dp end.

(** One round of the loop on the text from [dp] on: the text behind the entry,
    or nothing if the entry could not be entered. *)
Definition import_entry (sep : ascii) (dp : string) : prog env_state (option string) :=
  match skip_white dp with
  | None => fault
  | Some dp =>
      if bool_decide (String.get 0 dp = Some "#"%char) then
        match split_at (λ c, bool_decide (c = sep)) dp with
        | None => fault
        | Some (_, r) => ret (Some (after r))
        end
      else
        match split_at (λ c, bool_decide (c = "="%char) || bool_decide (c = sep)) dp with
        | Some (name, String c r) =>
            if bool_decide (c = "000"%char) then hdelete_r name ;; ret (Some r)
            else
              match r with
              | EmptyString => fault
              | String next r' =>
                  if bool_decide (next = "000"%char) || bool_decide (c = sep) || bool_decide (next = sep) then
                    hdelete_r name ;; ret (Some (if bool_decide (c = "="%char) then r' else r))
                  else
                    match parse_value (S (String.length r)) sep r with
                    | None => fault
                    | Some (value, r) =>
                        let* x := hsearch_r name (Some value) ENTER in
                        ret (match x.2 with None => None | Some _ => Some (after r) end)
                    end
              end
        | _ => fault
        end
  end.

(** Every round takes at least one character. *)
Fixpoint import_loop (fuel : nat) (sep : ascii) (dp : string) : prog env_state Z :=
  match fuel with
  | O => fault
  | S fuel =>
      let* r := import_entry sep dp in
      match r with
      | None => ret 0
      | Some EmptyString => ret 1
      | Some (String c _ as dp) => if bool_decide (c = "000"%char) then ret 1 else import_loop fuel sep dp
      end
  end.

Definition CONFIG_ENV_MIN_ENTRIES : Z := 64.
Definition CONFIG_ENV_MAX_ENTRIES : Z := 512.

(** [env] is the text of [size] bytes; [noclear] is the bit of the flags. *)
Definition himport_r (env : string) (sep : ascii) (noclear : bool) : prog env_state Z :=
  let* ok := malloc in
  if ok : bool then
    let* s := get_state in
    (if negb noclear && bool_decide (is_Some (table (htab s))) then hdestroy_r else ret tt) ;;
    let* s := get_state in
    let* created :=
      match table (htab s) with
      | Some _ => ret 1
      | None =>
          hcreate_r (Z.min (CONFIG_ENV_MIN_ENTRIES + strlen env / 8) CONFIG_ENV_MAX_ENTRIES)
      end in
    if created =? 0 then ret 0 else import_loop (S (String.length env)) sep env
  else ret 0.
End code.
