(* ===== verification/EnvTable.v ===== *)
(** * The hash table as a finite map

    Double hashing with a prime table size visits every place of the table; with
    that, search and insertion of [Env] implement a finite map of bounded size.
    Deletion takes an entry out, and with it the way to entries behind it. *)

From stdpp Require Import prelude list strings gmap.
From Stdlib Require Import ZArith Znumtheory Lia Ascii.
From S2P Require Import Prelude Prog CString Env.

Local Open Scope Z_scope.
Local Open Scope word_scope.

(** ** Selection from lists *)

Section select.
Context {A B : Type} (f : A → option B).

Lemma omap_insert_new l i a b x :
  l !! i = Some a → f a = None → f b = Some x → omap f (<[i := b]> l) ≡ₚ x :: omap f l.
Proof.
  intros Hi Ha Hb. rewrite <- (take_drop_middle l i a Hi) at 2.
  rewrite insert_take_drop by (by eapply lookup_lt_Some).
  rewrite !omap_app. cbn [omap list_omap]. rewrite Ha, Hb. symmetry. apply Permutation_middle.
Qed.

Lemma omap_insert_change l i a b x y :
  l !! i = Some a → f a = Some x → f b = Some y →
  ∃ rest, omap f l ≡ₚ x :: rest ∧ omap f (<[i := b]> l) ≡ₚ y :: rest.
Proof.
  intros Hi Ha Hb. exists (omap f (take i l) ++ omap f (drop (S i) l)).
  rewrite <- (take_drop_middle l i a Hi) at 1. rewrite insert_take_drop by (by eapply lookup_lt_Some).
  rewrite !omap_app. cbn [omap list_omap]. rewrite Ha, Hb. split; symmetry; apply Permutation_middle.
Qed.

Lemma omap_insert_drop l i a b x :
  l !! i = Some a → f a = Some x → f b = None → omap f l ≡ₚ x :: omap f (<[i := b]> l).
Proof.
  intros Hi Ha Hb. rewrite <- (take_drop_middle l i a Hi) at 1.
  rewrite insert_take_drop by (by eapply lookup_lt_Some).
  rewrite !omap_app. cbn [omap list_omap]. rewrite Ha, Hb. symmetry. apply Permutation_middle.
Qed.

Lemma omap_length_le l : (length (omap f l) ≤ length l)%nat.
Proof. induction l as [| a l IH]; [done |]. cbn. destruct (f a); cbn; lia. Qed.

Lemma omap_length_lt l i a : l !! i = Some a → f a = None → (length (omap f l) < length l)%nat.
Proof.
  intros Hi Ha. rewrite <- (take_drop_middle l i a Hi). rewrite omap_app, !length_app. cbn [omap list_omap length].
  rewrite Ha. pose proof (omap_length_le (take i l)). pose proof (omap_length_le (drop (S i) l)). lia.
Qed.

Lemma omap_length_full l : (∀ i a, l !! i = Some a → is_Some (f a)) → length (omap f l) = length l.
Proof.
  induction l as [| a l IH]; intros H; [done |]. cbn.
  destruct (H 0%nat a eq_refl) as [x ->]. cbn. f_equal. apply IH. intros i. apply (H (S i)).
Qed.
End select.

(** An element occurs at one place only if its image under a selection with
    distinct keys does. *)
Lemma omap_NoDup_inj {A K V} (f : A → option (K * V)) l i i' a a' k v v' :
  NoDup (omap f l).*1 → l !! i = Some a → l !! i' = Some a' → f a = Some (k, v) → f a' = Some (k, v') → i = i'.
Proof.
  assert (∀ i a v l, l !! i = Some a → f a = Some (k, v) → k ∈ (omap f l).*1) as Hin.
  { intros j b w l' Hb Hf. apply list_elem_of_fmap. exists (k, w). split; [done |].
    apply list_elem_of_omap. exists b. split; [by eapply list_elem_of_lookup_2 | done]. }
  revert i i'. induction l as [| b l IH]; intros [| i] [| i'] Hd Hi Hi' Ha Ha'; try done; cbn in *.
  - simplify_eq. rewrite Ha in Hd. cbn in Hd. apply NoDup_cons in Hd as [Hd _]. destruct Hd. by eapply Hin.
  - simplify_eq. rewrite Ha' in Hd. cbn in Hd. apply NoDup_cons in Hd as [Hd _]. destruct Hd. by eapply Hin.
  - f_equal. apply IH; try done. destruct (f b) as [[]|]; [| done]. by apply NoDup_cons in Hd as [_ Hd].
Qed.

(** ** Probing *)

(** The places that are tried, in order. *)
Definition path (n hval hval2 j : Z) : Z := (hval - 1 - j * hval2) mod n + 1.

Lemma path_range n hval hval2 j : 0 < n → 1 ≤ path n hval hval2 j ≤ n.
Proof. intros. unfold path. pose proof (Z.mod_pos_bound (hval - 1 - j * hval2) n). lia. Qed.

Lemma path_0 n hval hval2 : 1 ≤ hval ≤ n → path n hval hval2 0 = hval.
Proof. intros. unfold path. rewrite Z.mul_0_l, Z.sub_0_r, Z.mod_small by lia. lia. Qed.

Lemma path_next n hval hval2 j :
  0 < hval2 < n →
  (if path n hval hval2 j <=? hval2 then n + path n hval hval2 j - hval2 else path n hval hval2 j - hval2) =
  path n hval hval2 (j + 1).
Proof.
  intros H. unfold path. set (x := hval - 1 - j * hval2). replace (hval - 1 - (j + 1) * hval2) with (x - hval2) by lia.
  pose proof (Z.mod_pos_bound x n ltac:(lia)). pose proof (Z.div_mod x n ltac:(lia)).
  destruct (Z.leb_spec (x mod n + 1) hval2).
  - rewrite <- (Z.mod_unique_pos (x - hval2) n (x / n - 1) (n + x mod n - hval2)); lia.
  - rewrite <- (Z.mod_unique_pos (x - hval2) n (x / n) (x mod n - hval2)); lia.
Qed.

Lemma path_inj n hval hval2 j j' :
  prime n → 0 < hval2 < n → 0 ≤ j < n → 0 ≤ j' < n → path n hval hval2 j = path n hval hval2 j' → j = j'.
Proof.
  intros Hp H2 Hj Hj' E. unfold path in E. pose proof (prime_ge_2 n Hp).
  assert (n | (j' - j) * hval2) as Hd.
  { apply Z.mod_divide; [lia |].
    replace ((j' - j) * hval2) with ((hval - 1 - j * hval2) - (hval - 1 - j' * hval2)) by lia.
    rewrite Zminus_mod. replace ((hval - 1 - j * hval2) mod n) with ((hval - 1 - j' * hval2) mod n) by lia.
    by rewrite Z.sub_diag, Z.mod_0_l by lia. }
  apply prime_mult in Hd as [Hd | Hd]; [| | done].
  - destruct Hd as [q Hq]. assert (q = 0) as -> by nia. lia.
  - apply Z.divide_pos_le in Hd; lia.
Qed.

Lemma path_surj n hval hval2 i :
  prime n → 0 < hval2 < n → 1 ≤ i ≤ n → ∃ j, 0 ≤ j < n ∧ path n hval hval2 j = i.
Proof.
  intros Hp H2 Hi. pose proof (prime_ge_2 n Hp).
  assert (rel_prime hval2 n) as Hr.
  { apply rel_prime_sym, prime_rel_prime; [done |]. intros Hd. apply Z.divide_pos_le in Hd; lia. }
  destruct (rel_prime_bezout _ _ Hr) as [u v Huv]. exists (((hval - i) * u) mod n).
  split; [apply Z.mod_pos_bound; lia |]. unfold path.
  replace (hval - 1 - ((hval - i) * u) mod n * hval2)
    with (i - 1 + (((hval - i) * u / n) * hval2 + (hval - i) * v) * n).
  - rewrite Z.mod_add, Z.mod_small by lia. lia.
  - assert ((hval - i) * u * hval2 = (hval - i) * (1 - v * n)) as E by (rewrite <- Huv; ring).
    rewrite Z.mod_eq by lia. generalize ((hval - i) * u / n) as q. intros q.
    replace (((hval - i) * u - n * q) * hval2) with ((hval - i) * u * hval2 - n * q * hval2) by ring.
    rewrite E. ring.
Qed.

Lemma first_hash_range k n : 2 ≤ n → 1 ≤ first_hash k n < n.
Proof.
  intros Hn. unfold first_hash. pose proof (Z.mod_pos_bound (hash_chars k (strlen k)) n ltac:(lia)).
  destruct (Z.eqb_spec (hash_chars k (strlen k) mod n) 0); lia.
Qed.

Lemma second_hash_range hval n : 3 ≤ n < 4294967296 → 0 < second_hash hval n < n.
Proof.
  intros Hn. unfold second_hash. rewrite u32_small by lia.
  pose proof (Z.mod_pos_bound hval (n - 2) ltac:(lia)). lia.
Qed.

(** ** Tables *)

(** The variable in a place. *)
Definition content (e : ENTRY) : option (string * string) :=
  if used e =? 0 then None
  else match e_key e, e_data e with Some k, Some d => Some (k, d) | _, _ => None end.

(** The variables of a table; place 0 is not used. *)
Definition entries (t : list ENTRY) : list (string * string) := omap content (tail t).

Definition variables (t : list ENTRY) : gmap string string := list_to_map (entries t).

Definition route (n : Z) (k : string) (j : Z) : Z :=
  path n (first_hash k n) (second_hash (first_hash k n) n) j.

Definition in_use (t : list ENTRY) (i : Z) : Prop := ∃ e, t !! Z.to_nat i = Some e ∧ used e ≠ 0.

(** A place can be found: all places that are tried before it are used. *)
Definition reached (n : Z) (t : list ENTRY) (k : string) (i : Z) : Prop :=
  ∃ j, 0 ≤ j < n ∧ i = route n k j ∧ ∀ j', 0 ≤ j' < j → in_use t (route n k j').

(** The invariant that all operations keep. *)
Record table_ok (h : hsearch_data) (t : list ENTRY) : Prop := {
  ok_table : table h = Some t;
  ok_prime : prime (hsize h);
  ok_size : 3 ≤ hsize h < 2147483648;
  ok_length : Z.of_nat (length t) = hsize h + 1;
  ok_used i e : t !! i = Some e → used e ≠ 0 →
    ∃ k d, content e = Some (k, d) ∧ c_string k = true ∧ used e = first_hash k (hsize h);
  ok_unused e : t !! 0%nat = Some e → used e = 0;
  ok_distinct : NoDup (entries t).*1;
  ok_filled : filled h = Z.of_nat (length (entries t));
}.

(** All variables can be found. *)
Definition all_reached (h : hsearch_data) (t : list ENTRY) : Prop :=
  ∀ i e k d, t !! i = Some e → content e = Some (k, d) → reached (hsize h) t k (Z.of_nat i).

Lemma content_key e k d : content e = Some (k, d) → used e ≠ 0 ∧ e_key e = Some k ∧ e_data e = Some d.
Proof.
  unfold content. destruct (Z.eqb_spec (used e) 0); [done |].
  destruct (e_key e), (e_data e); by intros [= -> ->].
Qed.

Lemma tail_lookup {A} (t : list A) i : (0 < i)%nat → tail t !! (i - 1)%nat = t !! i.
Proof. intros. destruct t, i; try done; try lia. cbn. by rewrite Nat.sub_0_r. Qed.

Lemma tail_insert {A} (t : list A) i e : (0 < i)%nat → tail (<[i := e]> t) = <[(i - 1)%nat := e]> (tail t).
Proof. intros. destruct t, i; try done; try lia. cbn. by rewrite Nat.sub_0_r. Qed.

Lemma length_tail {A} (t : list A) : length (tail t) = (length t - 1)%nat.
Proof. destruct t; cbn; lia. Qed.

Section table.
Context (h : hsearch_data) (t : list ENTRY) (Hok : table_ok h t).

Notation n := (hsize h).

Lemma ok_place i : 1 ≤ i ≤ n → ∃ e, t !! Z.to_nat i = Some e.
Proof using Hok. intros. apply lookup_lt_is_Some_2. pose proof (ok_length _ _ Hok). lia. Qed.

Lemma variables_lookup k d :
  variables t !! k = Some d ↔ ∃ i e, t !! i = Some e ∧ content e = Some (k, d).
Proof using Hok.
  unfold variables. rewrite <- elem_of_list_to_map by apply Hok. unfold entries. rewrite list_elem_of_omap. split.
  - intros (e & He & Hc). apply list_elem_of_lookup in He as [i Hi]. exists (S i), e. split; [| done].
    by destruct t.
  - intros (i & e & Hi & Hc). exists e. split; [| done]. pose proof (content_key _ _ _ Hc) as [Hu _].
    destruct i as [| i]; [by pose proof (ok_unused _ _ Hok _ Hi) |].
    apply list_elem_of_lookup. exists i. by destruct t.
Qed.

Lemma content_unique i i' e e' k d d' :
  t !! i = Some e → t !! i' = Some e' → content e = Some (k, d) → content e' = Some (k, d') → i = i'.
Proof using Hok.
  intros Hi Hi' Hc Hc'.
  assert (∀ i e k d, t !! i = Some e → content e = Some (k, d) → (0 < i)%nat) as Hpos.
  { intros [| j] ? ? ? Hj Hcj; [| lia]. apply content_key in Hcj as [Hu _]. by pose proof (ok_unused _ _ Hok _ Hj). }
  pose proof (Hpos _ _ _ _ Hi Hc). pose proof (Hpos _ _ _ _ Hi' Hc').
  rewrite <- tail_lookup in Hi, Hi' by done.
  pose proof (omap_NoDup_inj content _ _ _ _ _ _ _ _ (ok_distinct _ _ Hok) Hi Hi' Hc Hc'). lia.
Qed.

Lemma filled_full : (∀ i, 1 ≤ i ≤ n → in_use t i) → filled h = n.
Proof using Hok.
  intros H. rewrite (ok_filled _ _ Hok). unfold entries. rewrite omap_length_full.
  - pose proof (ok_size _ _ Hok). pose proof (ok_length _ _ Hok). rewrite length_tail. lia.
  - intros i e Hi. apply lookup_lt_Some in Hi as Hlt.
    assert (t !! S i = Some e) as Hi' by (by destruct t).
    destruct (H (Z.of_nat (S i))) as (e' & He' & Hu).
    { pose proof (ok_size _ _ Hok). pose proof (ok_length _ _ Hok). rewrite length_tail in Hlt. lia. }
    rewrite Nat2Z.id in He'. simplify_eq. destruct (ok_used _ _ Hok _ _ Hi' Hu) as (k & d & -> & _). done.
Qed.

Lemma filled_room i e : 1 ≤ i ≤ n → t !! Z.to_nat i = Some e → used e = 0 → filled h < n.
Proof using Hok.
  intros Hi He Hu. rewrite (ok_filled _ _ Hok). unfold entries. rewrite <- tail_lookup in He by lia.
  assert (content e = None) as Hc by (unfold content; by rewrite Hu).
  pose proof (omap_length_lt content _ _ _ He Hc). pose proof (ok_size _ _ Hok).
  pose proof (ok_length _ _ Hok). rewrite length_tail in *. lia.
Qed.

(** ** Search *)

Context (malloc_ok : nat → bool) (k : string) (Hk : c_string k = true).

Notation place := (route n k).

(** The place is used for another variable. *)
Definition busy (j : Z) : Prop := ∃ e, t !! Z.to_nat (place j) = Some e ∧ used e ≠ 0 ∧ e_key e ≠ Some k.

(** Where a search ends, and whether the variable is there. *)
Inductive ends : Z → bool → Prop :=
  | ends_hit j e : 0 ≤ j < n → (∀ j', 0 ≤ j' < j → busy j') →
      t !! Z.to_nat (place j) = Some e → used e ≠ 0 → e_key e = Some k → ends (place j) true
  | ends_free j e : 0 ≤ j < n → (∀ j', 0 ≤ j' < j → busy j') →
      t !! Z.to_nat (place j) = Some e → used e = 0 → ends (place j) false
  | ends_full : (∀ j', 0 ≤ j' < n → busy j') → ends (place 0) false.

Lemma place_range j : 1 ≤ place j ≤ n.
Proof using Hok. apply path_range. pose proof (ok_size _ _ Hok). lia. Qed.

Lemma wp_get_slot i e (Q : ENTRY → env_state → Prop) c :
  1 ≤ i → t !! Z.to_nat i = Some e → Q e (Env h c) → wp (get_slot i) Q (Env h c).
Proof using Hok.
  intros Hi He HQ. unfold wp, get_slot. cbn [htab]. rewrite (ok_table _ _ Hok).
  rewrite (proj2 (Z.ltb_ge i 0)) by lia. by rewrite He.
Qed.

Lemma wp_is_entry i e (Q : bool → env_state → Prop) s :
  t !! i = Some e →
  (used e ≠ 0 → e_key e = Some k → Q true s) → (used e = 0 ∨ e_key e ≠ Some k → Q false s) →
  wp (is_entry k (first_hash k n) e) Q s.
Proof using Hok Hk.
  intros Hi HT HF. unfold is_entry. pose proof (first_hash_range k n) as Hr. pose proof (ok_size _ _ Hok).
  destruct (Z.eqb_spec (used e) (first_hash k n)) as [Eu | Eu].
  - destruct (ok_used _ _ Hok _ _ Hi) as (k' & d & Hc & Hc' & _); [lia |].
    apply content_key in Hc as (Hu & Hke & _). rewrite Hke. apply wp_ret.
    destruct (Z.eqb_spec (strcmp k k') 0) as [E | E].
    + apply strcmp_zero in E as ->; [| done..]. auto.
    + apply HF. right. intros Hke2. destruct E. apply strcmp_zero; [done | done |]. congruence.
  - apply wp_ret, HF. destruct (decide (used e = 0)); [by left | right]. intros Hke.
    destruct (ok_used _ _ Hok _ _ Hi) as (k' & d & Hc & _ & Hu); [done |].
    apply content_key in Hc as (_ & Hke' & _). congruence.
Qed.

Lemma probe_loop_spec fuel j c :
  0 ≤ j < n → (∀ j', 0 ≤ j' ≤ j → busy j') → n - j ≤ Z.of_nat fuel →
  wp (probe_loop fuel k (first_hash k n) (second_hash (first_hash k n) n) (place j))
    (λ r s, s = Env h c ∧ ends r.1 r.2) (Env h c).
Proof using Hok Hk.
  pose proof (ok_size _ _ Hok) as Hn. pose proof (first_hash_range k n ltac:(lia)) as H1.
  pose proof (second_hash_range (first_hash k n) n ltac:(lia)) as H2. pose proof (ok_prime _ _ Hok) as Hp.
  revert j. induction fuel as [| fuel IH]; intros j Hj Hb Hf; [lia |]. cbn [probe_loop].
  apply wp_bind. unfold wp at 1, get_state. cbn [htab]. pose proof (place_range j) as Hr.
  assert ((if place j <=? second_hash (first_hash k n) n
           then n +u place j -u second_hash (first_hash k n) n
           else place j -u second_hash (first_hash k n) n) = place (j + 1)) as E.
  { unfold route. rewrite <- path_next by lia. fold (place j). destruct (Z.leb_spec (place j) (second_hash (first_hash k n) n)).
    - rewrite (u32_small (n + place j)), u32_small by lia. done.
    - rewrite u32_small by lia. done. }
  rewrite E. clear E. assert (place 0 = first_hash k n) as H0 by (apply path_0; lia).
  destruct (Z.eqb_spec (place (j + 1)) (first_hash k n)) as [E | E].
  - apply wp_ret. split; [done |]. cbn [fst snd]. rewrite E, <- H0. apply ends_full.
    assert (j + 1 = n) as Ej.
    { destruct (decide (j + 1 = n)); [done | exfalso]. rewrite <- H0 in E. unfold route in E.
      apply path_inj in E; [lia | done | lia | lia | lia]. }
    intros j' Hj'. apply Hb. lia.
  - pose proof (place_range (j + 1)) as Hr'. destruct (ok_place (place (j + 1)) Hr') as [e He].
    assert (j + 1 < n) as Hlt.
    { destruct (decide (j + 1 = n)) as [Ej |]; [exfalso; apply E | lia].
      unfold route, path. rewrite Ej. set (h2 := second_hash _ _) in *.
      replace (first_hash k n - 1 - n * h2) with (first_hash k n - 1 + (- h2) * n) by ring.
      rewrite Z.mod_add, Z.mod_small by lia. lia. }
    apply wp_bind. eapply wp_get_slot; [lia | exact He |].
    apply wp_bind. eapply wp_is_entry; [exact He | |].
    + intros Hu Hke. apply wp_ret. split; [done |]. eapply ends_hit; [lia | | exact He | done | done].
      intros j' Hj'. apply Hb. lia.
    + intros Hor. destruct (Z.eqb_spec (used e) 0).
      * apply wp_ret. split; [done |]. eapply ends_free; [lia | | exact He | done]. intros j' Hj'. apply Hb. lia.
      * apply IH; [lia | | lia]. intros j' Hj'. destruct (decide (j' = j + 1)) as [-> |]; [| apply Hb; lia].
        exists e. destruct Hor; [done |]. by split_and!.
Qed.

(** A search ends in one of the three ways and goes on from there. *)
Lemma hsearch_r_ends data action (Q : Z * option Z → env_state → Prop) c :
  (∀ idx hit, ends idx hit →
    wp (if hit : bool then found malloc_ok idx data action
        else enter_new malloc_ok k data action (first_hash k n) idx) Q (Env h c)) →
  wp (hsearch_r malloc_ok k data action) Q (Env h c).
Proof using Hok Hk.
  intros HQ. pose proof (ok_size _ _ Hok) as Hn. pose proof (first_hash_range k n ltac:(lia)) as H1.
  assert (place 0 = first_hash k n) as H0 by (apply path_0; lia).
  unfold hsearch_r. apply wp_bind. unfold wp at 1, get_state. cbn [htab].
  rewrite (proj2 (Z.eqb_neq n 0)) by lia. destruct (ok_place (first_hash k n)) as [e He]; [lia |].
  apply wp_bind. eapply wp_get_slot; [lia | exact He |].
  destruct (Z.eqb_spec (used e) 0) as [Hu | Hu].
  { apply (HQ _ false). rewrite <- H0. eapply ends_free; [lia | lia | by rewrite H0 | done]. }
  apply wp_bind. eapply wp_is_entry; [exact He | |].
  - intros _ Hke. apply (HQ _ true). rewrite <- H0. eapply ends_hit; [lia | lia | by rewrite H0 | done | done].
  - intros [|Hne]; [done |]. apply wp_bind. rewrite <- H0 at 3.
    eapply wp_mono; [apply probe_loop_spec; [lia | | lia] |].
    + intros j' Hj'. replace j' with 0 by lia. exists e. rewrite H0. by split_and!.
    + intros [idx hit] s [-> He']. by apply HQ.
Qed.

Lemma ends_hit_inv idx : ends idx true → 1 ≤ idx ≤ n ∧ ∃ e d, t !! Z.to_nat idx = Some e ∧ content e = Some (k, d).
Proof using Hok.
  intros H. inversion H as [j e Hj _ He Hu Hke | |]; subst. split; [apply place_range |]. exists e.
  destruct (ok_used _ _ Hok _ _ He Hu) as (k' & d & Hc & _). exists d. split; [done |].
  apply content_key in Hc as Hc'. destruct Hc' as (_ & Hke' & _). rewrite Hc. congruence.
Qed.

(** What can be found is found. *)
Lemma ends_reached idx hit i e d :
  ends idx hit → t !! i = Some e → content e = Some (k, d) → reached n t k (Z.of_nat i) →
  hit = true ∧ idx = Z.of_nat i.
Proof using Hok.
  intros He Hi Hc (j0 & Hj0 & Ei & Hall). apply content_key in Hc as Hc'. destruct Hc' as (Hu & Hke & _).
  assert (t !! Z.to_nat (place j0) = Some e) as Hi0 by (rewrite <- Ei, Nat2Z.id; done).
  assert (¬ busy j0) as Hnb by (intros (e' & He' & _ & Hne); simplify_eq).
  destruct He as [j e' Hj Hbs He' Hu' Hke' | j e' Hj Hbs He' Hu' | Hbs].
  - split; [done |]. destruct (ends_hit_inv (place j)) as (Hr & e2 & d2 & He2 & Hc2); [by eapply ends_hit |].
    pose proof (content_unique _ _ _ _ _ _ _ He2 Hi Hc2 Hc). lia.
  - exfalso. destruct (Z.lt_trichotomy j j0) as [Hlt | [-> | Hgt]].
    + destruct (Hall j ltac:(lia)) as (e2 & He2 & Hu2). simplify_eq.
    + simplify_eq.
    + apply Hnb, Hbs. lia.
  - exfalso. apply Hnb, Hbs. lia.
Qed.
End table.

(** ** Changes of a place *)

Lemma variables_perm t t' :
  NoDup (entries t).*1 → entries t ≡ₚ entries t' → variables t = variables t'.
Proof. intros. by apply list_to_map_proper. Qed.

Lemma size_variables h t : table_ok h t → Z.of_nat (size (variables t)) = filled h.
Proof.
  intros Hok. rewrite (ok_filled _ _ Hok). unfold variables. by rewrite map_size_list_to_map by apply Hok.
Qed.

(** A place gets the variable [k] with the value [d]. *)
Section change.
Context (h : hsearch_data) (t : list ENTRY) (Hok : table_ok h t) (i : nat) (e : ENTRY) (k d : string).
Context (Hi : t !! i = Some e) (Hpos : (0 < i)%nat) (Hk : c_string k = true).

Local Notation e' := (Entry (first_hash k (hsize h)) (Some k) (Some d)).
Local Notation t' := (<[i := e']> t).

Lemma changed_used : used e' ≠ 0.
Proof using All. pose proof (first_hash_range k (hsize h)). pose proof (ok_size _ _ Hok). cbn. lia. Qed.

Lemma changed_content : content e' = Some (k, d).
Proof using All.
  unfold content. rewrite (proj2 (Z.eqb_neq _ _)) by apply changed_used. done.
Qed.

Lemma changed_in_use j : in_use t j → in_use t' j.
Proof using All.
  intros (x & Hx & Hu). destruct (decide (Z.to_nat j = i)) as [E | E].
  - exists e'. split; [| apply changed_used]. rewrite E. apply list_lookup_insert_eq.
    apply lookup_lt_Some in Hx. by rewrite E in Hx.
  - exists x. split; [| done]. by rewrite list_lookup_insert_ne.
Qed.

(** The invariant after a change that keeps the names apart. *)
Lemma changed_ok n' :
  NoDup (entries t').*1 → n' = Z.of_nat (length (entries t')) →
  table_ok (Htab (Some t') (hsize h) n') t'.
Proof using All.
  intros Hd Hn. pose proof Hok as [H1 H2 H3 H4 H5 H6 H7 H8]. split; cbn [table hsize filled]; try done.
  - by rewrite length_insert.
  - intros j x Hx Hu. destruct (decide (j = i)) as [-> |].
    + rewrite list_lookup_insert_eq in Hx by (apply lookup_lt_Some in Hx; by rewrite length_insert in Hx).
      simplify_eq. exists k, d. split_and!; [apply changed_content | done | done].
    + rewrite list_lookup_insert_ne in Hx by done. by eapply H5.
  - intros x Hx. rewrite list_lookup_insert_ne in Hx by lia. by apply H6.
Qed.

Lemma changed_reached n' :
  all_reached h t → reached (hsize h) t k (Z.of_nat i) → all_reached (Htab (Some t') (hsize h) n') t'.
Proof using All.
  intros Hall Hr j x k' d' Hx Hc. cbn [hsize].
  assert (reached (hsize h) t k' (Z.of_nat j)) as (jj & Hjj & Ej & Hb).
  { destruct (decide (j = i)) as [-> |].
    - rewrite list_lookup_insert_eq in Hx by (apply lookup_lt_Some in Hx; by rewrite length_insert in Hx).
      simplify_eq. rewrite changed_content in Hc. by simplify_eq.
    - rewrite list_lookup_insert_ne in Hx by done. by eapply Hall. }
  exists jj. split_and!; [lia | lia | done |]. intros j' Hj'. apply changed_in_use. by apply Hb.
Qed.

Lemma changed_entries_new :
  used e = 0 → entries t' ≡ₚ (k, d) :: entries t.
Proof using All.
  intros Hu. unfold entries. rewrite tail_insert by done.
  pose proof Hi as Hi'. rewrite <- tail_lookup in Hi' by done.
  apply (omap_insert_new _ _ _ e); [done | unfold content; by rewrite Hu | apply changed_content].
Qed.

Lemma changed_entries_old d0 :
  content e = Some (k, d0) →
  ∃ rest, entries t ≡ₚ (k, d0) :: rest ∧ entries t' ≡ₚ (k, d) :: rest.
Proof using All.
  intros Hc. unfold entries. rewrite tail_insert by done.
  pose proof Hi as Hi'. rewrite <- tail_lookup in Hi' by done. apply (omap_insert_change _ _ _ e); [done | done | apply changed_content].
Qed.

Lemma changed_new :
  used e = 0 → variables t !! k = None →
  table_ok (Htab (Some t') (hsize h) (filled h + 1)) t' ∧ variables t' = <[k := d]> (variables t).
Proof using All.
  intros Hu Hv. pose proof (changed_entries_new Hu) as HP.
  assert (NoDup (entries t').*1) as Hd.
  { rewrite HP. cbn. apply NoDup_cons. split; [| apply Hok]. by apply not_elem_of_list_to_map. }
  split.
  - apply changed_ok; [done |]. rewrite HP. cbn [length]. rewrite (ok_filled _ _ Hok). lia.
  - unfold variables. by rewrite (list_to_map_proper _ _ Hd HP).
Qed.

Lemma changed_old d0 :
  content e = Some (k, d0) →
  table_ok (Htab (Some t') (hsize h) (filled h)) t' ∧ variables t' = <[k := d]> (variables t).
Proof using All.
  intros Hc. destruct (changed_entries_old d0 Hc) as (rest & HP & HP').
  pose proof (ok_distinct _ _ Hok) as Hd. assert (NoDup (entries t').*1) as Hd' by (rewrite HP'; rewrite HP in Hd; done).
  split.
  - apply changed_ok; [done |]. rewrite HP', (ok_filled _ _ Hok), HP. done.
  - unfold variables. rewrite (list_to_map_proper _ _ Hd' HP'), (list_to_map_proper _ _ Hd HP).
    cbn. by rewrite insert_insert_eq.
Qed.
End change.

(** A place is given up. *)
Section remove.
Context (h : hsearch_data) (t : list ENTRY) (Hok : table_ok h t) (i : nat) (e : ENTRY) (k d : string).
Context (Hi : t !! i = Some e) (Hc : content e = Some (k, d)).

Local Notation e' := (Entry 0 (e_key e) (e_data e)).
Local Notation t' := (<[i := e']> t).

Lemma removed_pos : (0 < i)%nat.
Proof using All.
  destruct i; [| lia]. apply content_key in Hc as [Hu _]. by pose proof (ok_unused _ _ Hok _ Hi).
Qed.

Lemma removed_entries : entries t ≡ₚ (k, d) :: entries t'.
Proof using All.
  unfold entries. rewrite tail_insert by apply removed_pos. pose proof Hi as Hi'.
  rewrite <- tail_lookup in Hi' by apply removed_pos. by apply (omap_insert_drop _ _ _ e).
Qed.

Lemma removed_ok :
  table_ok (Htab (Some t') (hsize h) (filled h - 1)) t' ∧ variables t' = delete k (variables t) ∧ 0 < filled h.
Proof using All.
  pose proof removed_entries as HP. pose proof (ok_distinct _ _ Hok) as Hd.
  pose proof (ok_filled _ _ Hok) as Hf. rewrite HP in Hf. cbn [length] in Hf.
  pose proof Hd as Hd'. rewrite HP in Hd'. cbn in Hd'. apply NoDup_cons in Hd' as [Hni Hd'].
  pose proof removed_pos. pose proof Hok as [H1 H2 H3 H4 H5 H6 H7 H8]. split_and!; [| | lia].
  - split; cbn [table hsize filled]; try done.
    + by rewrite length_insert.
    + intros j x Hx Hu. destruct (decide (j = i)) as [-> |].
      * rewrite list_lookup_insert_eq in Hx by (by eapply lookup_lt_Some). by simplify_eq.
      * rewrite list_lookup_insert_ne in Hx by done. by eapply H5.
    + intros x Hx. rewrite list_lookup_insert_ne in Hx by lia. by apply H6.
    + lia.
  - unfold variables. rewrite (list_to_map_proper _ _ Hd HP). cbn. rewrite delete_insert_id; [done |].
    by apply not_elem_of_list_to_map_1.
Qed.

(** Other variables can still be found if the place is not on the way to them. *)
Lemma removed_reached k' i' :
  reached (hsize h) t k' i' →
  (∀ j, 0 ≤ j → route (hsize h) k' j = Z.of_nat i → ∃ j', 0 ≤ j' ≤ j ∧ i' = route (hsize h) k' j') →
  reached (hsize h) t' k' i'.
Proof using All.
  intros (j & Hj & -> & Hb) Hoff. exists j. split_and!; [lia | lia | done |]. intros j' Hj'.
  destruct (Hb j' Hj') as (x & Hx & Hu). exists x. split; [| done].
  destruct (decide (Z.to_nat (route (hsize h) k' j') = i)) as [E |]; [exfalso | by rewrite list_lookup_insert_ne].
  pose proof (ok_size _ _ Hok). pose proof (path_range (hsize h) (first_hash k' (hsize h))
    (second_hash (first_hash k' (hsize h)) (hsize h)) j' ltac:(lia)) as Hr. fold (route (hsize h) k' j') in Hr.
  destruct (Hoff j' ltac:(lia)) as (j2 & Hj2 & E2); [lia |].
  apply path_inj in E2; [lia | apply Hok | apply second_hash_range; lia | lia | lia].
Qed.
End remove.

(** ** Operations *)

Section operations.
Context (malloc_ok : nat → bool).

Lemma wp_put_slot h t i e x (Q : unit → env_state → Prop) c :
  table h = Some t → 1 ≤ i → t !! Z.to_nat i = Some e →
  Q tt (Env (Htab (Some (<[Z.to_nat i := x]> t)) (hsize h) (filled h)) c) → wp (put_slot i x) Q (Env h c).
Proof.
  intros Ht Hi He HQ. unfold wp, put_slot. cbn [htab calls]. rewrite Ht.
  rewrite (proj2 (Z.ltb_ge i 0)) by lia. by rewrite He.
Qed.

(** A search that does not enter anything changes nothing, and finds what can be found. *)
Lemma getenv_spec h t k c :
  table_ok h t → c_string k = true →
  (∀ i e d, t !! i = Some e → content e = Some (k, d) → reached (hsize h) t k (Z.of_nat i)) →
  wp (getenv malloc_ok k) (λ r s, s = Env h c ∧ r = variables t !! k) (Env h c).
Proof.
  intros Hok Hk Hr. unfold getenv. apply wp_bind. eapply hsearch_r_ends; [done | done |].
  intros idx hit He. destruct hit.
  - destruct (ends_hit_inv _ _ Hok _ _ He) as (Hi & e & d & Hx & Hc). unfold found. apply wp_ret. cbn.
    apply wp_bind. eapply wp_get_slot; [done | lia | exact Hx |]. apply wp_ret. split; [done |].
    destruct (content_key _ _ _ Hc) as (_ & _ & ->). symmetry. apply (variables_lookup h); [done | by eauto].
  - unfold enter_new. apply wp_ret. cbn. apply wp_ret. split; [done |].
    destruct (variables t !! k) as [d |] eqn:E; [exfalso | done].
    apply (variables_lookup h) in E as (i & e & Hi & Hc); [| done].
    destruct (ends_reached _ _ Hok _ _ _ _ _ _ He Hi Hc (Hr _ _ _ Hi Hc)). done.
Qed.

(** Whether a variable can be entered. *)
Definition room (h : hsearch_data) (t : list ENTRY) (k : string) : Prop :=
  is_Some (variables t !! k) ∨ Z.of_nat (size (variables t)) < hsize h.

Lemma wp_strdup s (Q : option string → env_state → Prop) h c :
  (∀ n, malloc_ok n = true) → Q (Some s) (Env h (S c)) → wp (strdup malloc_ok (Some s)) Q (Env h c).
Proof. intros Hm HQ. unfold strdup, wp, bind, malloc, ret. cbn. by rewrite Hm. Qed.

Lemma hsearch_enter_spec h t k d c :
  table_ok h t → all_reached h t → c_string k = true → (∀ n, malloc_ok n = true) →
  wp (hsearch_r malloc_ok k (Some d) ENTER) (λ r s,
    (room h t k → is_Some r.2 ∧ r.1 ≠ 0 ∧ hsize (htab s) = hsize h ∧ ∃ t', table_ok (htab s) t' ∧
       all_reached (htab s) t' ∧ variables t' = <[k := d]> (variables t)) ∧
    (¬ room h t k → r = (0, None) ∧ htab s = h)) (Env h c).
Proof.
  intros Hok Hall Hk Hm. eapply hsearch_r_ends; [done | done |]. intros idx hit He. destruct hit.
  - destruct (ends_hit_inv _ _ Hok _ _ He) as (Hi & e & d0 & Hx & Hc). unfold found.
    apply wp_bind. eapply wp_get_slot; [done | lia | exact Hx |]. apply wp_bind, wp_strdup; [done |].
    apply wp_bind. eapply wp_put_slot; [apply Hok | lia | exact Hx |]. apply wp_ret.
    assert (used e = first_hash k (hsize h) ∧ e_key e = Some k) as [-> ->].
    { destruct (content_key _ _ _ Hc) as (Hu & Hke & _). destruct (ok_used _ _ Hok _ _ Hx Hu) as (k2 & d2 & Hc2 & _ & Hu2).
      rewrite Hc in Hc2. by simplify_eq. }
    destruct (changed_old _ _ Hok _ _ k d Hx ltac:(lia) Hk _ Hc) as [Hok' Hv].
    split; [| intros Hno; destruct Hno; left].
    + intros _. cbn. split_and!; [done | lia | done |]. eexists. split_and!; [exact Hok' | | exact Hv].
      eapply changed_reached; [done | exact Hx | lia | done | done |]. by eapply Hall.
    + exists d0. apply (variables_lookup h); [done | by eauto].
  - assert (variables t !! k = None) as Hv.
    { destruct (variables t !! k) as [d0 |] eqn:E; [exfalso | done].
      apply (variables_lookup h) in E as (i & e & Hi & Hc); [| done].
      destruct (ends_reached _ _ Hok _ _ _ _ _ _ He Hi Hc (Hall _ _ _ _ Hi Hc)). done. }
    pose proof (size_variables _ _ Hok) as Hsz. unfold enter_new. apply wp_bind. unfold wp at 1, get_state. cbn [htab].
    inversion He as [| j e Hj Hb Hx Hu |Hb]; subst.
    + pose proof (place_range _ _ Hok k j) as Hr. pose proof (filled_room _ _ Hok _ _ Hr Hx Hu) as Hlt.
      rewrite (proj2 (Z.eqb_neq _ _)) by lia.
      apply wp_bind, wp_strdup; [done |]. apply wp_bind, wp_strdup; [done |].
      apply wp_bind. eapply wp_put_slot; [apply Hok | lia | exact Hx |]. apply wp_bind. unfold wp at 1, set_filled. cbn.
      apply wp_ret. destruct (changed_new _ _ Hok _ _ k d Hx ltac:(lia) Hk Hu Hv) as [Hok' Hv'].
      pose proof (ok_size _ _ Hok). rewrite u32_small by lia. split; [| intros Hno; destruct Hno; right; lia].
      intros _. cbn. split_and!; [done | lia | done |]. eexists. split_and!; [exact Hok' | | exact Hv'].
      eapply changed_reached; [done | exact Hx | lia | done | done |]. exists j. split_and!; [lia | lia | lia |].
      intros j' Hj'. destruct (Hb j' Hj') as (e2 & He2 & Hu2 & _). by exists e2.
    + assert (filled h = hsize h) as Hfull.
      { apply (filled_full _ _ Hok). intros i Hi. pose proof (ok_size _ _ Hok).
        destruct (path_surj (hsize h) (first_hash k (hsize h)) (second_hash (first_hash k (hsize h)) (hsize h)) i)
          as (j & Hj & <-); [apply Hok | apply second_hash_range; lia | done |].
        destruct (Hb j Hj) as (e2 & He2 & Hu2 & _). by exists e2. }
      rewrite (proj2 (Z.eqb_eq _ _)) by done. apply wp_ret. split; [| done].
      intros [[? Hs] | Hs]; [by rewrite Hv in Hs | lia].
Qed.
End operations.

(** Deletion frees the place of the variable. *)
Lemma hdelete_place malloc_ok h t k c :
  table_ok h t → c_string k = true →
  (∀ i e d, t !! i = Some e → content e = Some (k, d) → reached (hsize h) t k (Z.of_nat i)) →
  wp (hdelete_r malloc_ok k) (λ r s,
    (variables t !! k = None → r = 0 ∧ s = Env h c) ∧
    (is_Some (variables t !! k) → r = 1 ∧ ∃ i e d, t !! i = Some e ∧ content e = Some (k, d) ∧
       htab s = Htab (Some (<[i := Entry 0 (e_key e) (e_data e)]> t)) (hsize h) (filled h - 1))) (Env h c).
Proof.
  intros Hok Hk Hr. unfold hdelete_r. apply wp_bind. eapply hsearch_r_ends; [done | done |].
  intros idx hit He. destruct hit.
  - destruct (ends_hit_inv _ _ Hok _ _ He) as (Hi & e & d & Hx & Hc). unfold found. apply wp_ret.
    rewrite (proj2 (Z.eqb_neq idx 0)) by lia. apply wp_bind. eapply wp_get_slot; [done | lia | exact Hx |].
    apply wp_bind. eapply wp_put_slot; [apply Hok | lia | exact Hx |]. apply wp_bind. unfold wp at 1, get_state.
    apply wp_bind. unfold wp at 1, set_filled. cbn [htab calls table hsize filled]. apply wp_ret.
    destruct (removed_ok _ _ Hok _ _ _ _ Hx Hc) as (_ & _ & Hpos). pose proof (ok_size _ _ Hok).
    assert (filled h < 4294967296) as Hb.
    { rewrite (ok_filled _ _ Hok). unfold entries. pose proof (omap_length_le content (tail t)).
      pose proof (ok_length _ _ Hok). rewrite length_tail in *. lia. }
    rewrite u32_small by lia. split.
    + intros Hn. assert (variables t !! k = Some d); [| congruence]. apply (variables_lookup h); [done | by eauto].
    + intros _. split; [done |]. by exists (Z.to_nat idx), e, d.
  - unfold enter_new. apply wp_ret. cbn. apply wp_ret. split; [done |]. intros [d E].
    apply (variables_lookup h) in E as (i & e & Hi & Hc); [| done].
    destruct (ends_reached _ _ Hok _ _ _ _ _ _ He Hi Hc (Hr _ _ _ Hi Hc)). done.
Qed.

(** Deletion takes the variable out of the table; what was found through the
    freed place is not found any more. *)
Lemma hdelete_spec malloc_ok h t k c :
  table_ok h t → c_string k = true →
  (∀ i e d, t !! i = Some e → content e = Some (k, d) → reached (hsize h) t k (Z.of_nat i)) →
  wp (hdelete_r malloc_ok k) (λ r s,
    (variables t !! k = None → r = 0 ∧ s = Env h c) ∧
    (is_Some (variables t !! k) → r = 1 ∧ ∃ t' i, table_ok (htab s) t' ∧ variables t' = delete k (variables t) ∧
       ∀ k' i', reached (hsize h) t k' i' →
         (∀ j, 0 ≤ j → route (hsize h) k' j = Z.of_nat i → ∃ j', 0 ≤ j' ≤ j ∧ i' = route (hsize h) k' j') →
         reached (hsize h) t' k' i')) (Env h c).
Proof.
  intros Hok Hk Hr. eapply wp_mono; [by apply hdelete_place |]. intros r s [Hno Hyes]. split; [done |].
  intros Hs. destruct (Hyes Hs) as (-> & i & e & d & Hx & Hc & ->). split; [done |].
  destruct (removed_ok _ _ Hok _ _ _ _ Hx Hc) as (Hok' & Hv & _). eexists _, i. split_and!; [exact Hok' | exact Hv |].
  intros k' i'. by eapply removed_reached.
Qed.

(** The place of [k] is tried before that of [k'] when [k'] is searched for. *)
Definition passes (h : hsearch_data) (t : list ENTRY) (k' k : string) : Prop :=
  ∃ j j' e e' d d', 0 ≤ j < j' ∧ j' < hsize h ∧
    t !! Z.to_nat (route (hsize h) k' j) = Some e ∧ content e = Some (k, d) ∧
    t !! Z.to_nat (route (hsize h) k' j') = Some e' ∧ content e' = Some (k', d').

Section hole.
Context (malloc_ok : nat → bool) (h : hsearch_data) (t : list ENTRY) (Hok : table_ok h t) (Hall : all_reached h t).
Context (i : nat) (e : ENTRY) (k d k' : string) (c : nat).
Context (Hi : t !! i = Some e) (Hc : content e = Some (k, d)) (Hne : k' ≠ k) (Hk' : c_string k' = true).

Local Notation t' := (<[i := Entry 0 (e_key e) (e_data e)]> t).
Local Notation h' := (Htab (Some t') (hsize h) (filled h - 1)).

Lemma hole_ok : table_ok h' t'.
Proof using Hok Hi Hc. by destruct (removed_ok _ _ Hok _ _ _ _ Hi Hc) as (? & _). Qed.

Lemma hole_lookup i1 e1 : t' !! i1 = Some e1 → used e1 ≠ 0 → t !! i1 = Some e1 ∧ i1 ≠ i.
Proof using Hi.
  intros H1 Hu. destruct (decide (i1 = i)) as [E |]; [| by rewrite list_lookup_insert_ne in H1].
  rewrite E, list_lookup_insert_eq in H1 by exact (lookup_lt_Some _ _ _ Hi). by injection H1 as <-.
Qed.

(** A search that passes the freed place ends there. *)
Lemma hole_hides : passes h t k' k → wp (getenv malloc_ok k') (λ v s, s = Env h' c ∧ v = None) (Env h' c).
Proof using Hok Hi Hc Hk' Hne.
  intros (j & j' & e1 & e2 & d1 & d2 & Hj & Hj' & H1 & Hc1 & H2 & Hc2). pose proof (ok_size _ _ Hok) as Hn.
  assert (Z.to_nat (route (hsize h) k' j) = i) as Ei by (by eapply (content_unique _ _ Hok)).
  assert (Z.to_nat (route (hsize h) k' j') ≠ i) as Ei'.
  { intros E. rewrite E in H2. simplify_eq. }
  unfold getenv. apply wp_bind. eapply (hsearch_r_ends _ _ hole_ok); [done |]. cbn [hsize].
  intros idx hit He. destruct hit; [exfalso | by unfold enter_new; apply wp_ret; cbn; apply wp_ret].
  inversion He as [j2 e3 Hj2 Hb He3 Hu3 Hke3 Eidx | |]. clear Eidx. cbn [hsize] in *.
  destruct (hole_lookup _ _ He3 Hu3) as [Ht3 _].
  destruct (ok_used _ _ Hok _ _ Ht3 Hu3) as (k3 & d3 & Hc3 & _).
  pose proof (content_key _ _ _ Hc3) as (_ & Hke3' & _). rewrite Hke3 in Hke3'. injection Hke3' as Ek. rewrite <- Ek in Hc3.
  pose proof (content_unique _ _ Hok _ _ _ _ _ _ _ Ht3 H2 Hc3 Hc2) as E.
  pose proof (place_range _ _ Hok k' j2). pose proof (place_range _ _ Hok k' j').
  assert (route (hsize h) k' j2 = route (hsize h) k' j') as E' by lia.
  apply path_inj in E'; [subst j2 | apply Hok | apply second_hash_range; lia | lia | lia].
  destruct (Hb j ltac:(lia)) as (e4 & He4 & Hu4 & _). cbn [hsize] in He4.
  by destruct (hole_lookup _ _ He4 Hu4) as [_ ?].
Qed.

(** Every other search goes as before. *)
Lemma hole_missed :
  ¬ passes h t k' k → wp (getenv malloc_ok k') (λ v s, s = Env h' c ∧ v = variables t !! k') (Env h' c).
Proof using Hok Hall Hi Hc Hk' Hne.
  intros Hno. eapply wp_mono; [apply (getenv_spec malloc_ok h' t'); [apply hole_ok | done |] |].
  - cbn [hsize]. intros i1 e1 d1 H1 Hc1. pose proof (content_key _ _ _ Hc1) as (Hu1 & _).
    destruct (hole_lookup _ _ H1 Hu1) as [Ht1 Hi1]. pose proof (Hall _ _ _ _ Ht1 Hc1) as Hr.
    eapply removed_reached; [done | done | done | done |]. intros j Hj Ej. destruct Hr as (jr & Hjr & Er & Hb).
    destruct (decide (jr ≤ j)); [exists jr; split; [lia | done] | exfalso]. apply Hno.
    exists j, jr, e, e1, d, d1. split_and!; try lia; try done; [by rewrite Ej, Nat2Z.id | by rewrite <- Er, Nat2Z.id].
  - intros v s [-> ->]. split; [done |]. destruct (removed_ok _ _ Hok _ _ _ _ Hi Hc) as (_ & -> & _).
    by rewrite lookup_delete_ne.
Qed.
End hole.

(** ** Creation *)

Lemma isprime_loop_prime fuel div n :
  3 ≤ div → Z.odd div = true → Z.odd n = true → 3 ≤ n < 2147483648 → div * div < 4294967296 →
  (∀ m, 3 ≤ m < div → Z.odd m = true → ¬ (m | n)) → isprime_loop fuel div n = Some true → prime n.
Proof.
  revert div. induction fuel as [| fuel IH]; intros div Hd Hdo Hno Hn Hdd Hnd; [done |]. cbn [isprime_loop].
  rewrite (u32_small (div * div)) by nia.
  destruct (Z.ltb_spec (div * div) n); cbn [andb];
    [destruct (Z.eqb_spec (n mod div) 0) as [E | E]; cbn [negb andb]; [done |] |].
  - assert (div < 65536) by nia. rewrite u32_small by lia. apply IH; [lia | | done | done | nia |].
    + rewrite Z.odd_add. by rewrite Hdo.
    + intros m Hm Hmo. destruct (decide (m = div)) as [-> |].
      { intros Hdiv. apply Z.mod_divide in Hdiv; lia. }
      destruct (decide (m = div + 1)) as [-> |]; [| apply Hnd; [lia | done]].
      rewrite Z.odd_add, Hdo in Hmo. done.
  - intros [= E]. apply negb_true_iff, Z.eqb_neq in E. apply prime_intro; [lia |]. intros m Hm.
    apply Zgcd_1_rel_prime. destruct (decide (Z.gcd m n = 1)); [done | exfalso].
    pose proof (Z.gcd_divide_l m n) as Hgm. pose proof (Z.gcd_divide_r m n) as [q Hq].
    pose proof (Z.gcd_nonneg m n). set (g := Z.gcd m n) in *.
    assert (2 ≤ g ≤ m) by (split; [destruct (decide (g = 0)); [subst g; rewrite e in Hq; lia | lia] |
      apply Z.divide_pos_le; [lia | done]]).
    assert (2 ≤ q) by nia.
    assert (∀ x, 2 ≤ x → (x | n) → x ≤ div → False) as Hno2.
    { intros x Hx Hxd Hxle. destruct (Z.odd x) eqn:Hxo.
      - assert (x ≠ 2) by (intros ->; done). destruct (decide (x = div)) as [-> |].
        + apply Z.mod_divide in Hxd; lia.
        + by apply (Hnd x); [lia | |].
      - destruct Hxd as [y Hy]. rewrite Hy, Z.odd_mul, Hxo, andb_false_r in Hno. done. }
    destruct (decide (g ≤ div)) as [Hle | Hle].
    + apply (Hno2 g); [lia | by exists q | done].
    + apply (Hno2 q); [lia | exists g; lia | nia].
Qed.

Lemma next_prime_spec fuel n p :
  Z.odd n = true → 3 ≤ n → n + 2 * Z.of_nat fuel < 2147483648 → next_prime fuel n = Some p →
  prime p ∧ n ≤ p ≤ n + 2 * Z.of_nat fuel.
Proof.
  revert n. induction fuel as [| fuel IH]; intros n Ho Hn Hb E; [done |]. cbn [next_prime] in E.
  destruct (isprime n) as [[] |] eqn:Ep; [| | done].
  - simplify_eq. split; [| lia]. eapply isprime_loop_prime; [| | exact Ho | | | | exact Ep]; try done; lia.
  - rewrite u32_small in E by lia. apply IH in E as [Hp Hr]; [split; [done | lia] | | lia | lia].
    rewrite Z.odd_add. by rewrite Ho.
Qed.

(** For the sizes that occur the search for a prime succeeds. *)
Lemma next_prime_total nel :
  2 ≤ nel ≤ 1000 → is_Some (next_prime (Z.to_nat (Z.lor nel 1) + 2) (Z.lor nel 1)).
Proof.
  intros H. assert (Forall (λ nel, is_Some (next_prime (Z.to_nat (Z.lor nel 1) + 2) (Z.lor nel 1))) (seqZ 2 999)) as HF.
  { apply (bool_decide_unpack _). by vm_compute. }
  rewrite Forall_forall in HF. apply HF, elem_of_seqZ. lia.
Qed.

Lemma lor_1 n : 0 ≤ n → n ≤ Z.lor n 1 ≤ n + 1 ∧ Z.odd (Z.lor n 1) = true ∧ (2 ≤ n → 3 ≤ Z.lor n 1).
Proof. destruct n as [| [p | p |] | p]; unfold Z.lor, Pos.lor; intros ?; (split; [lia | split; [done | lia]]) || lia. Qed.

Definition no_table (h : hsearch_data) : Prop := table h = None.

Lemma entries_empty n : entries (replicate n (Entry 0 None None)) = [].
Proof.
  unfold entries. destruct n as [| n]; [done |]. cbn [replicate tail].
  induction n as [| n IH]; [done |]. cbn. by rewrite IH.
Qed.

Lemma hcreate_spec malloc_ok h nel c :
  no_table h → 2 ≤ nel ≤ 1000 → (∀ n, malloc_ok n = true) →
  ∃ n, nel ≤ n ∧ prime n ∧
    wp (hcreate_r malloc_ok nel) (λ r s, r = 1 ∧ hsize (htab s) = n ∧ calls s = S c ∧
      ∃ t, table_ok (htab s) t ∧ all_reached (htab s) t ∧ variables t = ∅) (Env h c).
Proof.
  intros Hnt Hnel Hm. destruct (next_prime_total nel Hnel) as [p Ep].
  destruct (lor_1 nel ltac:(lia)) as (Hlor & Hodd & H3).
  assert (prime p ∧ Z.lor nel 1 ≤ p ≤ Z.lor nel 1 + 2 * Z.of_nat (Z.to_nat (Z.lor nel 1) + 2)) as [Hp Hr].
  { apply next_prime_spec; [done | lia | lia | done]. }
  exists p. split_and!; [lia | done |]. unfold hcreate_r. apply wp_bind. unfold wp at 1, get_state. cbn [htab].
  rewrite Hnt, Ep. apply wp_bind. unfold wp at 1, malloc. cbn [calls]. rewrite Hm. apply wp_bind.
  unfold wp at 1, put_htab. cbn [htab]. apply wp_ret. split_and!; [done | done | done |].
  exists (replicate (Z.to_nat (p + 1)) (Entry 0 None None)). split_and!.
  - split; cbn [htab table hsize filled]; try done.
    + lia.
    + rewrite length_replicate. lia.
    + intros i e Hi. apply lookup_replicate in Hi as [-> _]. done.
    + intros e Hi. apply lookup_replicate in Hi as [-> _]. done.
    + rewrite entries_empty. constructor.
    + by rewrite entries_empty.
  - intros i e k d Hi Hc. apply lookup_replicate in Hi as [-> _]. done.
  - unfold variables. by rewrite entries_empty.
Qed.

(** ** The table as a finite map *)

(** What a client does with the environment, and what it sees. *)
Inductive request := Setenv (k d : string) | Getenv (k : string).
Inductive answer := Stored (ok : bool) | Value (d : option string).

Definition serve (malloc_ok : nat → bool) (q : request) : prog env_state answer :=
  match q with
  | Setenv k d => let* r := hsearch_r malloc_ok k (Some d) ENTER in ret (Stored (bool_decide (is_Some r.2)))
  | Getenv k => let* v := getenv malloc_ok k in ret (Value v)
  end.

Fixpoint serve_all (malloc_ok : nat → bool) (qs : list request) : prog env_state (list answer) :=
  match qs with
  | [] => ret []
  | q :: qs => let* a := serve malloc_ok q in let* l := serve_all malloc_ok qs in ret (a :: l)
  end.

(** The contract: a finite map of at most [n] variables. *)
Definition map_serve (n : Z) (q : request) (m : gmap string string) : answer * gmap string string :=
  match q with
  | Setenv k d =>
      if bool_decide (is_Some (m !! k) ∨ Z.of_nat (size m) < n) then (Stored true, <[k := d]> m) else (Stored false, m)
  | Getenv k => (Value (m !! k), m)
  end.

Fixpoint map_serve_all (n : Z) (qs : list request) (m : gmap string string) : list answer :=
  match qs with
  | [] => []
  | q :: qs => let '(a, m) := map_serve n q m in a :: map_serve_all n qs m
  end.

Definition request_key (q : request) : string := match q with Setenv k _ => k | Getenv k => k end.

Section serving.
Context (malloc_ok : nat → bool) (Hm : ∀ n, malloc_ok n = true).

Definition represents (n : Z) (m : gmap string string) (s : env_state) : Prop :=
  hsize (htab s) = n ∧ ∃ t, table_ok (htab s) t ∧ all_reached (htab s) t ∧ variables t = m.

Lemma serve_spec n m q s :
  represents n m s → c_string (request_key q) = true →
  wp (serve malloc_ok q) (λ a s', a = (map_serve n q m).1 ∧ represents n (map_serve n q m).2 s') s.
Proof using Hm.
  intros (Hn & t & Hok & Hr & Hv) Hk. destruct s as [h c]. cbn [htab] in *. destruct q as [k d | k]; cbn [serve map_serve].
  - apply wp_bind. eapply wp_mono; [by eapply hsearch_enter_spec |]. intros [r p] s' [H1 H2]. apply wp_ret. cbn [fst snd] in *.
    assert (room h t k ↔ is_Some (m !! k) ∨ Z.of_nat (size m) < n) as Hroom by (unfold room; rewrite Hv, Hn; done).
    destruct (bool_decide_reflect (is_Some (m !! k) ∨ Z.of_nat (size m) < n)) as [E | E].
    + destruct H1 as (Hp & _ & Hs & t' & Hok' & Hr' & Hv'); [by apply Hroom |]. rewrite bool_decide_true by done.
      split; [done |]. split; [by rewrite Hs |]. exists t'. by rewrite Hv', Hv.
    + destruct H2 as [[= -> ->] Hs]; [by rewrite Hroom |]. split; [done |]. unfold represents. rewrite Hs. eauto.
  - apply wp_bind. eapply wp_mono; [eapply getenv_spec; [done | done | by intros; eapply Hr] |]. intros v s' H. apply wp_ret. cbn [fst snd].
    destruct H as [-> ->]. rewrite Hv. split; [done |]. split; [done |]. eauto.
Qed.

Lemma serve_all_spec n qs m s :
  represents n m s → Forall (λ q, c_string (request_key q) = true) qs →
  wp (serve_all malloc_ok qs) (λ l _, l = map_serve_all n qs m) s.
Proof using Hm.
  revert m s. induction qs as [| q qs IH]; intros m s Hs HF; cbn [serve_all map_serve_all]; [by apply wp_ret |].
  apply Forall_cons in HF as [Hq HF]. apply wp_bind. eapply wp_mono; [by apply (serve_spec n m) |].
  intros a s' [-> Hs']. destruct (map_serve n q m) as [a m']. cbn [fst snd] in *. apply wp_bind.
  eapply wp_mono; [by apply (IH m') |]. intros l s'' ->. by apply wp_ret.
Qed.
End serving.

(** C18: a new environment table, created for [nel] variables, behaves under
    every sequence of [setenv]s and [getenv]s as a finite map that holds up to
    [n] variables, [n] being the prime from [nel] on that the code picks: no variable
    that was set is ever missed by the double hashing, setting replaces the
    value, every place of the table gets used, and only a new name in a full
    table is refused. *)
Theorem environment_refines_map nel qs c :
  2 ≤ nel ≤ 1000 → Forall (λ q, c_string (request_key q) = true) qs →
  ∃ n, nel ≤ n ∧ prime n ∧
    wp (hcreate_r (λ _, true) nel ;; serve_all (λ _, true) qs) (λ l _, l = map_serve_all n qs ∅)
      (Env (Htab None 0 0) c).
Proof.
  intros Hnel HF. destruct (hcreate_spec (λ _, true) (Htab None 0 0) nel c) as (n & Hle & Hp & Hw); [done | done | done |].
  exists n. split_and!; [done | done |]. apply wp_bind. eapply wp_mono; [exact Hw |].
  intros r s (_ & Hs & _ & t & Hok & Hr & Hv). apply serve_all_spec; [done | | done]. split; [done |]. by exists t.
Qed.

Lemma environment_refines_map_witness :
  ∃ n, 512 ≤ n ∧ prime n ∧
    wp (hcreate_r (λ _, true) 512 ;;
        serve_all (λ _, true) [Setenv "ipaddr" "192.168.1.66"; Setenv "gatewayip" "192.168.1.1";
          Getenv "gatewayip"; Setenv "ipaddr" "10.0.0.2"; Getenv "ipaddr"; Getenv "netmask"])
      (λ l _, l = [Stored true; Stored true; Value (Some "192.168.1.1"); Stored true; Value (Some "10.0.0.2"); Value None])
      (Env (Htab None 0 0) 0).
Proof.
  destruct (environment_refines_map 512 [Setenv "ipaddr" "192.168.1.66"; Setenv "gatewayip" "192.168.1.1";
    Getenv "gatewayip"; Setenv "ipaddr" "10.0.0.2"; Getenv "ipaddr"; Getenv "netmask"] 0) as (n & Hle & Hp & Hw).
  { lia. }
  { apply (bool_decide_unpack _). by vm_compute. }
  exists n. split; [done | split; [done |]]. eapply wp_mono; [exact Hw |]. intros l s ->.
  cbn [map_serve_all map_serve]. rewrite !bool_decide_true; [reflexivity | ..].
  all: first [left; eexists; reflexivity | right; refine (Z.le_lt_trans _ 2 _ _ _); [vm_compute; discriminate | lia]].
Defined.

(** C20: in every valid table of which all variables can be found, deleting a
    variable takes exactly it out of the table, and deleting a name that is not
    in it changes nothing.  After a deletion another variable is found with
    its value as before, unless the freed place is one that the search for it
    tries before its own: then it is still in the table, but [getenv] does not
    find it. *)
Theorem delete_hides_variables malloc_ok h t k c :
  table_ok h t → all_reached h t → c_string k = true →
  wp (hdelete_r malloc_ok k) (λ r s,
    (variables t !! k = None → r = 0 ∧ s = Env h c) ∧
    (is_Some (variables t !! k) → r = 1 ∧ ∃ t', table_ok (htab s) t' ∧ variables t' = delete k (variables t) ∧
       ∀ k', c_string k' = true → k' ≠ k →
         (passes h t k' k → is_Some (variables t' !! k') ∧
            wp (getenv malloc_ok k') (λ v s', s' = s ∧ v = None) s) ∧
         (¬ passes h t k' k → wp (getenv malloc_ok k') (λ v s', s' = s ∧ v = variables t !! k') s))) (Env h c).
Proof.
  intros Hok Hall Hk. eapply wp_mono; [apply hdelete_place; [done | done | by intros; eapply Hall] |].
  intros r [h1 c1] [Hno Hyes]. split; [done |]. intros Hs.
  destruct (Hyes Hs) as (-> & i & e & d & Hi & Hc & Eh). cbn [htab] in *. subst h1. split; [done |].
  destruct (removed_ok _ _ Hok _ _ _ _ Hi Hc) as (Hok' & Hv & _). eexists. split_and!; [exact Hok' | exact Hv |].
  intros k' Hk' Hne. split.
  - intros Hp. split; [| by eapply hole_hides]. rewrite Hv, lookup_delete_ne by done.
    destruct Hp as (j & j' & e1 & e2 & d1 & d2 & _ & _ & _ & _ & H2 & Hc2). exists d2.
    apply (variables_lookup h); [done | by eauto].
  - intros Hp. by eapply hole_missed.
Qed.

(** The board's table with two variables of which the second is found through
    the place of the first. *)
Definition example_env : env_state :=
  match (hcreate_r (λ _, true) 512 ;; serve (λ _, true) (Setenv "ipaddr" "192.168.1.66") ;;
         serve (λ _, true) (Setenv "gatewayip" "192.168.1.1")) (Env (Htab None 0 0) 0) with
  | Some (_, s) => s
  | None => Env (Htab None 0 0) 0
  end.

Lemma example_env_ok :
  ∃ t, table_ok (htab example_env) t ∧ all_reached (htab example_env) t ∧ is_Some (variables t !! "ipaddr").
Proof.
  destruct (hcreate_spec (λ _, true) (Htab None 0 0) 512 0) as (n & Hle & _ & Hw); [done | lia | done |].
  assert (wp (hcreate_r (λ _, true) 512 ;; serve (λ _, true) (Setenv "ipaddr" "192.168.1.66") ;;
              serve (λ _, true) (Setenv "gatewayip" "192.168.1.1"))
    (λ _ s, represents n (<["gatewayip" := "192.168.1.1"]> (<["ipaddr" := "192.168.1.66"]> ∅)) s) (Env (Htab None 0 0) 0)) as Hrun.
  { apply wp_bind. eapply wp_mono; [exact Hw |]. intros r s (_ & Hs & _ & t & Hok & Hr & Hv).
    assert (∀ k (m : gmap string string), Z.of_nat (size m) < 512 →
      bool_decide (is_Some (m !! k) ∨ Z.of_nat (size m) < n) = true) as Hroom.
    { intros k m Hm. apply bool_decide_true. right. lia. }
    apply wp_bind. eapply wp_mono.
    { apply (serve_spec (λ _, true) ltac:(done) n ∅ (Setenv "ipaddr" "192.168.1.66")); [| done]. split; [done |]. by exists t. }
    intros a s' [_ Hs']. cbn [map_serve] in Hs'. rewrite Hroom in Hs' by by vm_compute. cbn [snd] in Hs'.
    eapply wp_mono; [apply (serve_spec (λ _, true) ltac:(done) n (<["ipaddr" := "192.168.1.66"]> ∅)
      (Setenv "gatewayip" "192.168.1.1")); [exact Hs' | done] |].
    intros b s'' [_ Hs'']. cbn [map_serve] in Hs''. rewrite Hroom in Hs'' by by vm_compute. exact Hs''. }
  destruct (wp_elim _ _ _ Hrun) as (a & s & E & _ & t & Hok & Hr & Hv). exists t.
  unfold example_env. rewrite E. split_and!; [done | done |]. rewrite Hv. by eexists.
Qed.

Lemma delete_hides_variables_witness :
  wp (hdelete_r (λ _, true) "ipaddr") (λ r s, r = 1 ∧
    wp (getenv (λ _, true) "gatewayip") (λ v _, v = None) s) example_env.
Proof.
  destruct example_env_ok as (t & Hok & Hall & Hs).
  assert (t = default [] (table (htab example_env))) as Et by (rewrite (ok_table _ _ Hok); reflexivity).
  assert (passes (htab example_env) t "gatewayip" "ipaddr") as Hp.
  { exists 0, 1, (Entry 503 (Some "ipaddr") (Some "192.168.1.66")), (Entry 503 (Some "gatewayip") (Some "192.168.1.1")),
      "192.168.1.66", "192.168.1.1". rewrite Et.
    split; [lia |]. split; [vm_compute; reflexivity |].
    split; [vm_compute; reflexivity |]. split; [reflexivity |]. split; [vm_compute; reflexivity | reflexivity]. }
  change example_env with (Env (htab example_env) (calls example_env)) at 1.
  eapply wp_mono; [exact (delete_hides_variables (λ _, true) (htab example_env) t "ipaddr" (calls example_env) Hok Hall eq_refl) |].
  intros r s [_ Hyes]. destruct (Hyes Hs) as (Hr & t' & _ & _ & Hother). split; [exact Hr |].
  destruct (Hother "gatewayip" eq_refl ltac:(discriminate)) as [Hhid _]. destruct (Hhid Hp) as [_ Hw].
  eapply wp_mono; [exact Hw |]. intros v s' [_ Hv]. exact Hv.
Defined.

(** In the table of 521 places that the board's environment is read
    into, [ipaddr] and [gatewayip] collide: once [ipaddr] is deleted,
    [gatewayip] is not found any more; when it is set again the table holds it
    twice, and after deleting it the value that was lost first comes back. *)
Example delete_hides_gatewayip :
  ∃ s, (hcreate_r (λ _, true) 512 ;;
        serve_all (λ _, true) [Setenv "ipaddr" "192.168.1.66"; Setenv "gatewayip" "192.168.1.1"] ;;
        let* x := hdelete_r (λ _, true) "ipaddr" in
        let* lost := getenv (λ _, true) "gatewayip" in
        serve_all (λ _, true) [Setenv "gatewayip" "10.0.0.1"] ;;
        let* s := get_state in
        let* y := hdelete_r (λ _, true) "gatewayip" in
        serve_all (λ _, true) [Setenv "ipaddr" "10.0.0.2"] ;;
        let* back := getenv (λ _, true) "gatewayip" in
        ret (x, lost, default [] (entries <$> table (htab s)), y, back)) (Env (Htab None 0 0) 0) =
    Some ((1, None, [("gatewayip", "10.0.0.1"); ("gatewayip", "192.168.1.1")], 1, Some "192.168.1.1"), s).
Proof. eexists. vm_compute. reflexivity. Qed.

(** When the copy of the name cannot be allocated, the entry stays marked as
    used without a name and without being counted: the next search for the name
    compares with a null pointer. *)
Example out_of_memory_leaves_entry :
  ∃ s, hsearch_r (λ n, negb (n =? 0)%nat) "ipaddr" (Some "10.0.0.2") ENTER
         (Env (Htab (Some (replicate 6 (Entry 0 None None))) 5 0) 0) = Some ((0, None), s) ∧
    filled (htab s) = 0 ∧ getenv (λ n, negb (n =? 0)%nat) "ipaddr" s = None.
Proof. eexists. split; [vm_compute; reflexivity |]. split; [reflexivity |]. vm_compute. reflexivity. Qed.
