(* ===== verification/EnvText.v ===== *)
(** * The environment as text

    [hexport_r] writes the variables in the order of their names, [himport_r]
    reads them back: a table that went through text holds the same variables,
    and finds all of them. *)

From stdpp Require Import prelude list sorting strings gmap.
From Stdlib Require Import ZArith Lia Ascii.
From S2P Require Import Prelude Prog Memory CString Sort Env EnvTable.

Local Open Scope Z_scope.
Local Open Scope word_scope.

(** ** Strings *)

Lemma append_cons c (s t : string) : String c s +:+ t = String c (s +:+ t).
Proof. done. Qed.

Lemma append_empty (t : string) : EmptyString +:+ t = t.
Proof. done. Qed.

Lemma strlen_app s t : strlen (s +:+ t) = strlen s + strlen t.
Proof. induction s as [| c s IH]; [done |]. rewrite append_cons. cbn [strlen]. rewrite IH. lia. Qed.

Lemma append_assoc (s t u : string) : (s +:+ t) +:+ u = s +:+ (t +:+ u).
Proof. induction s as [| c s IH]; [done |]. by rewrite !append_cons, IH. Qed.

Lemma append_nil (s : string) : s +:+ EmptyString = s.
Proof. induction s as [| c s IH]; [done |]. by rewrite !append_cons, IH. Qed.

Lemma strlen_nonneg s : 0 ≤ strlen s.
Proof. induction s; cbn [strlen]; lia. Qed.

Lemma strlen_length s : strlen s = Z.of_nat (String.length s).
Proof. induction s as [| c s IH]; cbn [strlen String.length]; [done |]. rewrite IH. lia. Qed.

Lemma strlen_zero_bytes n : strlen (zero_bytes n) = Z.of_nat n.
Proof. induction n as [| n IH]; cbn [zero_bytes strlen]; [done |]. rewrite IH. lia. Qed.

Lemma strlen_escape sep s : strlen s ≤ strlen (escape sep s) ≤ 2 * strlen s.
Proof.
  induction s as [| c s IH]; cbn [escape strlen]; [done |].
  destruct (bool_decide (c = sep) || bool_decide (c = "\"%char)); cbn [strlen]; lia.
Qed.

(** Characters below 128: their differences fit into a [signed char], and
    [strcmp] is the lexicographic order. *)
Fixpoint ascii_string (s : string) : bool :=
  match s with
  | EmptyString => true
  | String c s => (0 <? char_val c) && (char_val c <? 128) && ascii_string s
  end.

Lemma ascii_string_cons c s :
  ascii_string (String c s) = true ↔ 0 < char_val c < 128 ∧ ascii_string s = true.
Proof. cbn [ascii_string]. rewrite !andb_true_iff, !Z.ltb_lt. tauto. Qed.

(** The value a string has at its first character. *)
Definition head_val (s : string) : Z := match s with EmptyString => 0 | String c _ => char_val c end.

Definition behind (s : string) : string := match s with EmptyString => EmptyString | String _ s => s end.

Lemma strcmp_unfold s t :
  ascii_string s = true → ascii_string t = true →
  strcmp s t = if head_val s =? head_val t then strcmp (behind s) (behind t) else head_val s - head_val t.
Proof.
  assert (∀ z, -128 ≤ z < 128 → s8 z = z) as Hs8 by (intros z Hz; unfold s8; rewrite Z.mod_small by lia; lia).
  destruct s as [| a s], t as [| b t]; [done | ..]; rewrite !ascii_string_cons; intros; cbn [strcmp head_val behind];
    rewrite Hs8 by lia; repeat case_match; lia.
Qed.

Lemma head_val_range s : ascii_string s = true → 0 ≤ head_val s ∧ ascii_string (behind s) = true.
Proof. destruct s as [| c s]; [done |]. rewrite ascii_string_cons. cbn. intros. split; [lia | tauto]. Qed.

Lemma strcmp_total s t :
  ascii_string s = true → ascii_string t = true → 0 < strcmp s t → strcmp t s ≤ 0.
Proof.
  revert t. induction s as [| a s IH]; intros t Hs Ht; rewrite (strcmp_unfold _ t), (strcmp_unfold t) by done;
    pose proof (head_val_range t Ht); cbn [head_val behind].
  - destruct (Z.eqb_spec 0 (head_val t)), (Z.eqb_spec (head_val t) 0); try lia.
    destruct t as [| b t]; [done |]. apply ascii_string_cons in Ht. cbn in *. lia.
  - apply ascii_string_cons in Hs. destruct (Z.eqb_spec (char_val a) (head_val t)), (Z.eqb_spec (head_val t) (char_val a));
      try lia. apply IH; tauto.
Qed.

Lemma strcmp_trans s t u :
  ascii_string s = true → ascii_string t = true → ascii_string u = true →
  strcmp s t ≤ 0 → strcmp t u ≤ 0 → strcmp s u ≤ 0.
Proof.
  revert t u. induction s as [| a s IH]; intros t u Hs Ht Hu.
  - rewrite (strcmp_unfold EmptyString u) by done. pose proof (head_val_range u Hu). cbn [head_val behind].
    destruct (Z.eqb_spec 0 (head_val u)); [| lia]. destruct u as [| b u]; [done |].
    apply ascii_string_cons in Hu. cbn in *. lia.
  - rewrite (strcmp_unfold (String a s) t), (strcmp_unfold t u), (strcmp_unfold (String a s) u) by done.
    pose proof (head_val_range t Ht). pose proof (head_val_range u Hu). apply ascii_string_cons in Hs.
    cbn [head_val behind]. destruct (Z.eqb_spec (char_val a) (head_val t)), (Z.eqb_spec (head_val t) (head_val u)),
      (Z.eqb_spec (char_val a) (head_val u)); try lia. apply IH; tauto.
Qed.

(** ** Export *)

(** The text of a list of variables. *)
Fixpoint text (sep : ascii) (l : list (string * string)) : string :=
  match l with
  | [] => EmptyString
  | (k, d) :: l => k +:+ String "=" (escape sep d +:+ String sep (text sep l))
  end.

(** The room that the first pass of the export asks for, but for the final zero. *)
Fixpoint text_room (sep : ascii) (l : list (string * string)) : Z :=
  match l with [] => 0 | (k, d) :: l => strlen k + strlen (escape sep d) + 4 + text_room sep l end.

Lemma text_room_perm sep l l' : l ≡ₚ l' → text_room sep l = text_room sep l'.
Proof. induction 1 as [| [] | [] [] |]; cbn [text_room]; lia. Qed.

Lemma strlen_text sep l : strlen (text sep l) + 2 * Z.of_nat (length l) = text_room sep l.
Proof.
  induction l as [| [k d] l IH]; [done |]. cbn [text text_room length].
  rewrite strlen_app. cbn [strlen]. rewrite strlen_app. cbn [strlen]. lia.
Qed.

Lemma text_room_nonneg sep l : 0 ≤ text_room sep l.
Proof. rewrite <- strlen_text. pose proof (strlen_nonneg (text sep l)). lia. Qed.

Definition no_entry : ENTRY := Entry 0 None None.
Definition entry_at (t : list ENTRY) (i : Z) : ENTRY := default no_entry (t !! Z.to_nat i).

(** What the first pass finds: [f] gives the entries of the table by index. *)
Lemma collect_spec sep t i (f : Z → ENTRY) :
  (∀ j e, t !! j = Some e → f (i + Z.of_nat j) = e) →
  (∀ j e, t !! j = Some e → used e ≠ 0 → is_Some (content e)) →
  text_room sep (omap content t) < 4294967296 →
  ∃ l n, collect sep i t = Some (l, n) ∧ omap content (f <$> l) = omap content t ∧
    length l = length (omap content t) ∧ 0 ≤ n ≤ text_room sep (omap content t) ∧
    Forall (λ x, i ≤ x < i + Z.of_nat (length t) ∧ is_Some (content (f x))) l.
Proof.
  revert i. induction t as [| e t IH]; intros i Hf Hu Hb; [by exists [], 0 |].
  assert (f i = e) as He by (rewrite <- (Hf 0%nat e eq_refl); f_equal; lia).
  assert (text_room sep (omap content t) ≤ text_room sep (omap content (e :: t))) as Hle.
  { cbn [omap list_omap]. destruct (content e) as [[k d] |]; [| done]. cbn [text_room].
    pose proof (strlen_nonneg k). pose proof (strlen_nonneg (escape sep d)). lia. }
  destruct (IH (i + 1)) as (l & n & E & Ho & Hl & Hn & Hr); [| | lia |].
  { intros j x Hx. rewrite <- (Hf (S j) x Hx). f_equal. lia. }
  { intros j x Hx. by apply (Hu (S j)). }
  assert (Forall (λ x, i ≤ x < i + Z.of_nat (length (e :: t)) ∧ is_Some (content (f x))) l) as Hr'.
  { eapply Forall_impl; [exact Hr |]. cbn. intros x [? ?]. split; [lia | done]. }
  cbn [collect]. rewrite E. cbn [mbind option_bind]. destruct (Z.eqb_spec (used e) 0) as [Hz | Hz].
  - assert (content e = None) as Hc by (unfold content; by rewrite Hz). cbn [omap list_omap]. rewrite Hc. by exists l, n.
  - destruct (Hu 0%nat e eq_refl Hz) as [[k d] Hc]. destruct (content_key _ _ _ Hc) as (_ & Hk & Hd).
    rewrite Hk, Hd. cbn [mbind option_bind]. cbn [omap list_omap] in Hb |- *. rewrite Hc in *. cbn [text_room] in *.
    pose proof (strlen_nonneg k). pose proof (strlen_escape sep d). pose proof (strlen_nonneg d).
    pose proof (text_room_nonneg sep (omap content t)).
    set (m := if bool_decide (sep = "000"%char) then strlen d else strlen (escape sep d)).
    assert (strlen d ≤ m ≤ strlen (escape sep d)) as Hm by (subst m; case_bool_decide; lia).
    exists (i :: l), (strlen k + 2 + m + 2 + n). split_and!; [| | | lia | lia |].
    + cbn [fst snd]. rewrite (u32_small (strlen k + 2)), (u32_small (strlen k + 2 + m)), (u32_small (strlen k + 2 + m + 2)),
        u32_small by lia. done.
    + cbn. by rewrite He, Hc, Ho.
    + cbn. by rewrite Hl.
    + constructor; [cbn [length]; split; [lia | by rewrite He, Hc] | done].
Qed.

Lemma pointers_concat l :
  Forall (λ x, 0 ≤ x < 4294967296) l → le_val <$> pointers (length l) (concat (le_bytes 4 <$> l)) = l.
Proof.
  induction 1 as [| x l Hx Hl IH]; [done |]. cbn [length pointers fmap list_fmap concat].
  rewrite take_app_length', drop_app_length' by (by rewrite length_le_bytes).
  rewrite IH, le_val_bytes. f_equal. by rewrite Z.mod_small.
Qed.

Lemma export_all_spec sep es :
  Forall (λ e, is_Some (content e)) es → export_all sep es = Some (text sep (omap content es)).
Proof.
  induction 1 as [| e es [[k d] Hc] Hes IH]; [done |]. cbn [export_all]. unfold export_entry.
  destruct (content_key _ _ _ Hc) as (_ & Hk & Hd). rewrite Hk, Hd, IH. cbn [mbind option_bind omap list_omap].
  rewrite Hc. cbn [text]. f_equal. by rewrite !append_assoc, !append_cons, !append_empty.
Qed.

(** The names of a table are in ASCII, those of the deleted variables as well. *)
Definition ascii_names (t : list ENTRY) : Prop :=
  ∀ i e k, t !! i = Some e → e_key e = Some k → ascii_string k = true.

Lemma entry_of_ascii t p : ascii_names t → ascii_string (entry_of t p) = true.
Proof.
  intros H. unfold entry_of. destruct (t !! Z.to_nat (le_val p)) as [e |] eqn:E; [| done].
  destruct (e_key e) as [k |] eqn:Ek; [| done]. by eapply H.
Qed.

Definition by_name (x y : string * string) : Prop := strcmp x.1 y.1 ≤ 0.

Lemma sorted_entries t l :
  Forall (λ x, 0 ≤ x < 4294967296 ∧ is_Some (content (entry_at t x))) l →
  StronglySorted (λ x y, cmpkey t x y ≤ 0) (le_bytes 4 <$> l) →
  StronglySorted by_name (omap content (entry_at t <$> l)).
Proof.
  assert (∀ x k d, 0 ≤ x < 4294967296 → content (entry_at t x) = Some (k, d) → entry_of t (le_bytes 4 x) = k) as Hkey.
  { intros x k d Hx Hc. apply content_key in Hc as (_ & Hk & _). unfold entry_of. rewrite le_val_bytes.
    change (2 ^ (8 * Z.of_nat 4)) with 4294967296. rewrite Z.mod_small by done. unfold entry_at in Hk.
    destruct (t !! Z.to_nat x); [| done]. cbn in Hk. by rewrite Hk. }
  induction 1 as [| x l [Hx [[k d] Hc]] Hl IH]; intros Hs; [constructor |]. cbn [fmap list_fmap] in Hs |- *.
  apply StronglySorted_inv in Hs as [Hs Hall]. cbn [omap list_omap]. rewrite Hc. constructor; [by apply IH |].
  apply Forall_forall. intros [k' d'] Hin. apply list_elem_of_omap in Hin as (e & He & Hce).
  apply list_elem_of_fmap in He as (y & -> & Hy). rewrite Forall_fmap, Forall_forall in Hall.
  specialize (Hall y Hy). rewrite Forall_forall in Hl. destruct (Hl y Hy) as [Hy' _]. unfold by_name. cbn [fst].
  change (strcmp (entry_of t (le_bytes 4 x)) (entry_of t (le_bytes 4 y)) ≤ 0) in Hall. by rewrite (Hkey x k d), (Hkey y k' d') in Hall.
Qed.

Lemma entry_at_tail t j e : tail t !! j = Some e → entry_at t (1 + Z.of_nat j) = e.
Proof.
  intros Hj. unfold entry_at. rewrite <- tail_lookup by lia.
  replace (Z.to_nat (1 + Z.of_nat j) - 1)%nat with j by lia. by rewrite Hj.
Qed.

Lemma sort_pointers t l :
  ascii_names t → Z.of_nat (length l * 4) < 4294967296 → Forall (λ x, 0 ≤ x < 4294967296) l →
  ∃ l', qsort (cmpkey t) (Z.of_nat (length l)) 4 (concat (le_bytes 4 <$> l)) = Some (tt, concat (le_bytes 4 <$> l')) ∧
    l' ≡ₚ l ∧ StronglySorted (λ x y, cmpkey t x y ≤ 0) (le_bytes 4 <$> l').
Proof.
  intros Ha Hlt Hl.
  assert (wp (qsort (cmpkey t) (Z.of_nat (length l)) 4)
    (λ _ a, ∃ es', a = concat es' ∧ es' ≡ₚ le_bytes 4 <$> l ∧ StronglySorted (λ x y, cmpkey t x y ≤ 0) es')
    (concat (le_bytes 4 <$> l))) as Hw.
  { rewrite <- (length_fmap (le_bytes 4) l) at 1. change 4 with (Z.of_nat 4) at 1. apply qsort_sorts.
    - lia.
    - apply Forall_fmap, Forall_true. intros x. apply length_le_bytes.
    - by rewrite length_fmap.
    - intros x y. unfold cmpkey. by apply strcmp_total; apply entry_of_ascii.
    - intros x y z. unfold cmpkey. by apply strcmp_trans; apply entry_of_ascii. }
  apply wp_elim in Hw as ([] & a & E & es' & -> & Hp & Hs).
  apply Permutation_map_inv in Hp as (l' & -> & Hp). exists l'. split_and!; [done | by symmetry | done].
Qed.

Lemma mapM_entry_at t l :
  Forall (λ x, 0 ≤ x < Z.of_nat (length t)) l →
  mapM (λ i, t !! i) (Z.to_nat <$> l) = Some (entry_at t <$> l).
Proof.
  induction 1 as [| x l Hx Hl IH]; [done |]. rewrite !fmap_cons. cbn [mapM]. unfold entry_at at 1.
  destruct (lookup_lt_is_Some_2 t (Z.to_nat x)) as [e He]; [lia |]. rewrite He. cbn [mbind option_bind].
  by rewrite IH.
Qed.

Lemma omap_perm {A B} (f : A → option B) l l' : l ≡ₚ l' → omap f l ≡ₚ omap f l'.
Proof.
  induction 1; cbn [omap list_omap].
  - done.
  - case_match; [by constructor | done].
  - repeat case_match; first [apply Permutation_swap | done].
  - by etransitivity.
Qed.

Lemma hexport_spec malloc_ok h t c sep size :
  table_ok h t → ascii_names t → (∀ n, malloc_ok n = true) → hsize h < 1073741823 →
  text_room sep (entries t) < size < 4294967296 →
  wp (hexport_r malloc_ok sep None size) (λ r s, htab s = h ∧ ∃ l, l ≡ₚ entries t ∧ StronglySorted by_name l ∧
    r = (size, Some (text sep l +:+ zero_bytes (Z.to_nat (size - strlen (text sep l)))))) (Env h c).
Proof.
  intros Hok Ha Hm Hh Hsize. pose proof (ok_length _ _ Hok) as Hlen. pose proof (text_room_nonneg sep (entries t)).
  destruct (collect_spec sep (tail t) 1 (entry_at t)) as (l & n & E & Ho & Hl & Hn & Hr).
  { intros j e. apply entry_at_tail. }
  { intros j e Hj Hu. destruct (ok_used _ _ Hok (S j) e) as (k & d & -> & _); [| done | done]. by destruct t. }
  { fold (entries t). lia. }
  fold (entries t) in *. rewrite length_tail in Hr.
  assert (length l ≤ length (tail t))%nat as Hll by (rewrite Hl; apply omap_length_le). rewrite length_tail in Hll.
  destruct (sort_pointers t l) as (l' & Eq & Hp & Hs); [done | lia | |].
  { eapply Forall_impl; [exact Hr |]. cbn. intros x [? ?]. lia. }
  assert (Forall (λ x, 1 ≤ x < Z.of_nat (length t) ∧ is_Some (content (entry_at t x))) l') as Hr'.
  { rewrite Hp. eapply Forall_impl; [exact Hr |]. cbn. intros x [? ?]. split; [lia | done]. }
  assert (omap content (entry_at t <$> l') ≡ₚ entries t) as Hperm.
  { rewrite <- Ho. apply omap_perm. by rewrite Hp. }
  unfold hexport_r. apply wp_bind. unfold wp at 1, get_state. cbn [htab]. rewrite (ok_table _ _ Hok), E, Eq.
  rewrite (proj2 (Z.eqb_neq size 0)) by lia. cbn [negb andb]. rewrite u32_small by lia.
  destruct (Z.ltb_spec size (n + 1)); [lia |]. apply wp_bind. unfold wp at 1, malloc. cbn [calls]. rewrite Hm.
  cbn [default]. rewrite Z.ltb_irrefl. rewrite <- (Permutation_length Hp).
  rewrite list_fmap_compose, pointers_concat, mapM_entry_at.
  2: { eapply Forall_impl; [exact Hr' |]. cbn. intros x [? ?]. lia. }
  2: { eapply Forall_impl; [exact Hr' |]. cbn. intros x [? ?]. lia. }
  rewrite export_all_spec.
  2: { apply Forall_fmap. eapply Forall_impl; [exact Hr' |]. cbn. by intros x [? ?]. }
  set (l2 := omap content (entry_at t <$> l')) in *. pose proof (strlen_text sep l2) as Ht.
  rewrite (text_room_perm _ _ _ Hperm) in Ht.
  destruct (Z.ltb_spec size (strlen (text sep l2) + 1)); [lia |]. apply wp_ret. cbn [htab]. split; [done |].
  exists l2. split_and!; [done | | by rewrite Z.max_l by lia].
  apply sorted_entries; [| done]. eapply Forall_impl; [exact Hr' |]. cbn. intros x [? ?]. split; [lia | done].
Qed.

(** ** Import *)

Fixpoint all_chars (p : ascii → bool) (s : string) : bool :=
  match s with EmptyString => true | String c s => p c && all_chars p s end.

Definition is_char (c x : ascii) : bool := bool_decide (x = c).

(** Names that can be read back: no equals sign and no separator in them, and
    not taken for white space or a comment. *)
Definition plain_name (sep : ascii) (k : string) : bool :=
  c_string k && all_chars (λ c, negb (is_char "=" c || is_char sep c)) k &&
  match k with
  | EmptyString => true
  | String c _ => negb (is_char " " c || is_char "009" c || is_char "#" c)
  end.

Definition plain_variable (sep : ascii) (x : string * string) : bool :=
  plain_name sep x.1 && c_string x.2 && negb (bool_decide (x.2 = EmptyString)).

Lemma char_val_zero c : char_val c = 0 ↔ c = "000"%char.
Proof. split; [| by intros ->]. intros H. by apply char_val_inj. Qed.

Lemma c_string_cons c s : c_string (String c s) = true → c ≠ "000"%char ∧ c_string s = true.
Proof.
  cbn [c_string]. rewrite andb_true_iff, negb_true_iff, Z.eqb_neq. intros [H ?]. split; [| done].
  by rewrite <- char_val_zero.
Qed.

Lemma skip_white_name sep k r :
  plain_name sep k = true → skip_white (k +:+ String "=" r) = Some (k +:+ String "=" r) ∧
  String.get 0 (k +:+ String "=" r) ≠ Some "#"%char.
Proof.
  unfold plain_name, is_char. destruct k as [| c k]; [done |].
  rewrite !andb_true_iff, negb_true_iff, !orb_false_iff. intros [_ [[H1 H2] H3]].
  rewrite append_cons. cbn [skip_white String.get]. rewrite H1, H2. split; [done |]. apply bool_decide_eq_false in H3. congruence.
Qed.

Lemma split_name sep k r :
  c_string k = true → all_chars (λ c, negb (is_char "=" c || is_char sep c)) k = true →
  split_at (λ c, bool_decide (c = "="%char) || bool_decide (c = sep)) (k +:+ String "=" r) = Some (k, String "=" r).
Proof.
  induction k as [| c k IH]; [done |]. intros [Hc Hk]%c_string_cons. cbn [all_chars].
  rewrite andb_true_iff, negb_true_iff. intros [Hn Ha]. rewrite append_cons. cbn [split_at].
  rewrite bool_decide_false by done. unfold is_char in Hn. rewrite Hn. cbn [orb]. by rewrite IH.
Qed.

Lemma parse_escape fuel sep d r :
  sep ≠ "\"%char → c_string d = true → (String.length (escape sep d) < fuel)%nat →
  parse_value fuel sep (escape sep d +:+ String sep r) = Some (d, String sep r).
Proof.
  intros Hsep. revert fuel. induction d as [| c d IH]; intros fuel Hd Hf.
  - destruct fuel; [lia |]. cbn [escape]. rewrite append_empty. cbn [parse_value].
    by rewrite (bool_decide_true (sep = sep)), orb_true_r.
  - apply c_string_cons in Hd as [Hc Hd]. destruct fuel as [| fuel]; [lia |]. cbn [escape] in *.
    destruct (bool_decide_reflect (c = sep)) as [Es | Es], (bool_decide_reflect (c = "\"%char)) as [Eb | Eb];
      cbn [orb String.length] in *; rewrite !append_cons; cbn [parse_value].
    4: { rewrite !bool_decide_false by done. cbn [orb mbind option_bind]. by rewrite IH by (done || lia). }
    all: rewrite (bool_decide_false ("\"%char = "000"%char)), (bool_decide_false ("\"%char = sep)) by done;
      cbn [orb]; rewrite bool_decide_true, bool_decide_false by done; cbn [mbind option_bind];
      by rewrite IH by (done || lia).
Qed.

Lemma escape_head sep d r :
  sep ≠ "\"%char → c_string d = true → d ≠ EmptyString →
  ∃ c s, escape sep d +:+ String sep r = String c s ∧ c ≠ "000"%char ∧ c ≠ sep.
Proof.
  intros Hsep Hd Hne. destruct d as [| c d]; [done |]. apply c_string_cons in Hd as [Hc Hd]. cbn [escape].
  destruct (bool_decide_reflect (c = sep)) as [Es | Es], (bool_decide_reflect (c = "\"%char)) as [Eb | Eb];
    cbn [orb]; rewrite append_cons; eexists _, _; (split; [reflexivity |]); done.
Qed.

Section import.
Context (malloc_ok : nat → bool) (Hm : ∀ n, malloc_ok n = true) (sep : ascii).
Context (Hback : sep ≠ "\"%char) (Hequal : sep ≠ "="%char).

Lemma wp_enter n m k d s :
  represents n m s → c_string k = true → Z.of_nat (size m) < n →
  wp (hsearch_r malloc_ok k (Some d) ENTER) (λ r s', is_Some r.2 ∧ represents n (<[k := d]> m) s') s.
Proof using Hm.
  intros (Hn & t & Hok & Hr & Hv) Hk Hlt. destruct s as [h c]. cbn [htab] in *.
  eapply wp_mono; [by eapply hsearch_enter_spec |]. intros r s' [H _]. destruct H as (Hp & _ & Hs & t' & Hok' & Hr' & Hv').
  { right. by rewrite Hv, Hn. }
  split; [done |]. split; [by rewrite Hs |]. exists t'. by rewrite Hv', Hv.
Qed.

Lemma import_entry_spec n m k d r s :
  represents n m s → plain_variable sep (k, d) = true → Z.of_nat (size m) < n →
  wp (import_entry malloc_ok sep (k +:+ String "=" (escape sep d +:+ String sep r)))
    (λ x s', x = Some r ∧ represents n (<[k := d]> m) s') s.
Proof using Hm Hback Hequal.
  unfold plain_variable. cbn [fst snd]. rewrite !andb_true_iff, negb_true_iff, bool_decide_eq_false.
  intros Hs [[Hk Hd] Hne] Hlt. pose proof Hk as Hk'. unfold plain_name in Hk'. rewrite !andb_true_iff in Hk'.
  destruct Hk' as [[Hck Hak] _]. unfold import_entry.
  destruct (skip_white_name sep k (escape sep d +:+ String sep r) Hk) as [-> Hnc].
  rewrite bool_decide_false by done. rewrite split_name by done. rewrite bool_decide_false by done.
  destruct (escape_head sep d r) as (c & t & Et & Hc0 & Hcs); [done | done | done |].
  pose proof (parse_escape (S (String.length (escape sep d +:+ String sep r))) sep d r Hback Hd) as Hpe.
  rewrite Et in *. rewrite !bool_decide_false by done. cbn [orb]. rewrite Hpe.
  2: { rewrite <- Et. pose proof (strlen_app (escape sep d) (String sep r)) as E. rewrite !strlen_length in E. lia. }
  apply wp_bind. eapply wp_mono; [by apply (wp_enter n m) |]. intros x s' [[y ->] Hs']. apply wp_ret. done.
Qed.

(** The text that follows a list of variables starts with a zero. *)
Lemma text_head l r : Forall (λ x, plain_variable sep x = true) l → l ≠ [] →
  ∃ c s, text sep l +:+ r = String c s ∧ c ≠ "000"%char.
Proof.
  intros [|[k d] l' Hk _] Hne; [done |]. cbn [text]. unfold plain_variable, plain_name in Hk. cbn [fst snd] in Hk.
  rewrite !andb_true_iff in Hk. destruct Hk as [[[[Hk _] _] _] _]. destruct k as [| c k].
  - rewrite append_empty, append_cons. eauto.
  - apply c_string_cons in Hk as [Hc _]. rewrite !append_cons. eauto.
Qed.

Lemma import_loop_spec fuel n l m r s :
  represents n m s → Forall (λ x, plain_variable sep x = true) l → l ≠ [] → NoDup l.*1 →
  Z.of_nat (size m + length l) ≤ n → (length l ≤ fuel)%nat →
  wp (import_loop malloc_ok fuel sep (text sep l +:+ String "000" r))
    (λ x s', x = 1 ∧ represents n (list_to_map l ∪ m) s') s.
Proof using Hm Hback Hequal.
  revert fuel m s. induction l as [| [k d] l IH]; intros fuel m s Hs Hl Hne Hnd Hn Hf; [done |].
  apply Forall_cons in Hl as [Hkd Hl]. cbn in Hnd. apply NoDup_cons in Hnd as [Hni Hnd]. cbn [length] in *.
  destruct fuel as [| fuel]; [lia |]. cbn [import_loop text]. apply wp_bind.
  rewrite append_assoc, append_cons, append_assoc, append_cons.
  eapply wp_mono; [apply (import_entry_spec n m); [done | done | lia] |]. intros x s' [-> Hs'].
  assert (list_to_map ((k, d) :: l) ∪ m = list_to_map l ∪ <[k := d]> m) as ->.
  { cbn [list_to_map foldr]. rewrite <- insert_union_l, insert_union_r; [done |].
    by apply not_elem_of_list_to_map_1. }
  destruct (decide (l = [])) as [-> | Hnl].
  - cbn [text]. rewrite append_empty. rewrite bool_decide_true by done. apply wp_ret. split; [done |].
    cbn. by rewrite (left_id_L ∅ (∪)).
  - destruct (text_head l (String "000" r) Hl Hnl) as (c & t & E & Hc).
    pose proof (IH fuel (<[k := d]> m) s' Hs' Hl Hnl Hnd) as IH'. rewrite E in *. rewrite bool_decide_false by done.
    apply IH'; [| lia]. rewrite map_size_insert. destruct (m !! k); cbn; lia.
Qed.
End import.

Lemma text_length sep l : Z.of_nat (length l) ≤ strlen (text sep l).
Proof.
  induction l as [| [k d] l IH]; [done |]. cbn [text length]. rewrite strlen_app. cbn [strlen]. rewrite strlen_app.
  cbn [strlen]. pose proof (strlen_nonneg k). pose proof (strlen_nonneg (escape sep d)). lia.
Qed.

Lemma hdestroy_spec h t c :
  table_ok h t → wp hdestroy_r (λ _ s, s = Env (Htab None (hsize h) (filled h)) c) (Env h c).
Proof.
  intros Hok. pose proof (ok_size _ _ Hok). unfold hdestroy_r. apply wp_bind. unfold wp at 1, get_state. cbn [htab].
  apply wp_bind. apply (wp_for_do _ _ _ (λ _ s, s = Env h c)); [lia | done | |].
  - intros i s Hi ->. destruct (ok_place h t Hok (i + 1)) as [e He]; [lia |]. apply wp_bind.
    eapply wp_get_slot; [done | lia | exact He |]. by apply wp_ret.
  - intros s ->. done.
Qed.

Lemma c_string_empty : c_string EmptyString = true.
Proof. done. Qed.

(** Text without a variable asks for the deletion of the nameless one. *)
Lemma import_nothing malloc_ok fuel sep n r s :
  represents n ∅ s →
  wp (import_loop malloc_ok (S fuel) sep (String "000" (zero_bytes r))) (λ x s', x = 1 ∧ represents n ∅ s') s.
Proof.
  intros (Hn & t & Hok & Hr & Hv). destruct s as [h c]. cbn [htab] in *. cbn [import_loop]. apply wp_bind.
  unfold import_entry. cbn [skip_white]. rewrite !bool_decide_false by done. cbn [orb split_at].
  rewrite !(bool_decide_true ("000"%char = "000"%char)) by done. cbn [orb]. apply wp_bind.
  eapply wp_mono; [apply (hdelete_spec malloc_ok h t); [done | done | by intros; eapply Hr] |].
  intros x s' [H _]. destruct H as [_ ->]; [by rewrite Hv |]. apply wp_ret.
  destruct r; cbn [zero_bytes]; [| rewrite bool_decide_true by done]; apply wp_ret; (split; [done |]); split; eauto.
Qed.

Lemma himport_spec malloc_ok h t c sep l r :
  table_ok h t → (∀ n, malloc_ok n = true) → sep ≠ "\"%char → sep ≠ "="%char →
  Forall (λ x, plain_variable sep x = true) l → NoDup l.*1 →
  let env := text sep l +:+ String "000" (zero_bytes r) in
  Z.of_nat (length l) ≤ Z.min (CONFIG_ENV_MIN_ENTRIES + strlen env / 8) CONFIG_ENV_MAX_ENTRIES →
  wp (himport_r malloc_ok env sep false) (λ x s, x = 1 ∧ ∃ n, represents n (list_to_map l) s) (Env h c).
Proof.
  intros Hok Hm Hb He Hl Hnd env Hlen. set (nel := Z.min _ _) in Hlen.
  assert (2 ≤ nel ≤ 1000) as Hnel.
  { subst nel. unfold CONFIG_ENV_MIN_ENTRIES, CONFIG_ENV_MAX_ENTRIES. pose proof (strlen_nonneg env).
    pose proof (Z.div_pos (strlen env) 8). lia. }
  unfold himport_r. apply wp_bind. unfold wp at 1, malloc. cbn [calls]. rewrite Hm. apply wp_bind.
  unfold wp at 1, get_state. cbn [htab]. rewrite (ok_table _ _ Hok). rewrite bool_decide_true by done. cbn [negb andb].
  apply wp_bind. eapply wp_mono; [by eapply hdestroy_spec |]. intros _ s ->. apply wp_bind. unfold wp at 1, get_state.
  cbn [htab table]. apply wp_bind. fold nel.
  destruct (hcreate_spec malloc_ok (Htab None (hsize h) (filled h)) nel (S c)) as (n & Hle & _ & Hw); [done | done | done |].
  eapply wp_mono; [exact Hw |]. intros x s (-> & Hn & _ & t' & Hok' & Hr' & Hv'). cbn [Z.eqb].
  assert (represents n ∅ s) as Hs by (split; [done | by exists t']).
  destruct (decide (l = [])) as [-> | Hne].
  - eapply wp_mono; [apply (import_nothing malloc_ok _ sep n r); exact Hs |]. intros x s' [-> Hs']. split; [done |]. by exists n.
  - eapply wp_mono; [apply (import_loop_spec malloc_ok Hm sep Hb He _ n l ∅) |]; try done.
    + rewrite map_size_empty. lia.
    + pose proof (strlen_length env) as E. subst env. rewrite strlen_app in E. pose proof (text_length sep l).
      pose proof (strlen_nonneg (String "000" (zero_bytes r))). lia.
    + intros x s' [-> Hs']. split; [done |]. exists n. by rewrite (right_id_L ∅ (∪)) in Hs'.
Qed.

(** C19: the environment survives its text form.  If the variables have names
    that the parser accepts, values that are not empty, and the text fits the
    size given, [hexport_r] writes them, and [himport_r] of what it wrote
    replaces the table by a new one with exactly the same variables, all of
    which are found again, whatever deletions had hidden before. *)
Theorem environment_roundtrip h t c sep size :
  table_ok h t → ascii_names t → hsize h < 1073741823 → sep ≠ "\"%char → sep ≠ "="%char →
  Forall (λ x, plain_variable sep x = true) (entries t) →
  text_room sep (entries t) < size < 4294967296 →
  Z.of_nat (length (entries t)) ≤ Z.min (CONFIG_ENV_MIN_ENTRIES + size / 8) CONFIG_ENV_MAX_ENTRIES →
  wp (let* r := hexport_r (λ _, true) sep None size in
      match r.2 with None => ret (-1) | Some env => himport_r (λ _, true) env sep false end)
    (λ r s, r = 1 ∧ ∃ t', table_ok (htab s) t' ∧ all_reached (htab s) t' ∧ variables t' = variables t) (Env h c).
Proof.
  intros Hok Ha Hh Hb He Hp Hsize Hlen. apply wp_bind.
  eapply wp_mono; [by apply (hexport_spec (λ _, true) h t) |]. intros r [h' c'] (E & l & Hl & _ & ->).
  cbn [htab fst snd] in *. subst h'. pose proof (strlen_text sep l) as Ht. rewrite (text_room_perm _ _ _ Hl) in Ht.
  pose proof (ok_distinct _ _ Hok) as Hnd. rewrite <- Hl in Hnd.
  assert (∃ n, Z.to_nat (size - strlen (text sep l)) = S n) as [n En].
  { exists (Z.to_nat (size - strlen (text sep l) - 1)). lia. }
  rewrite En. cbn [zero_bytes]. eapply wp_mono; [apply (himport_spec (λ _, true) h t) |]; try done.
  - by rewrite Hl.
  - rewrite (Permutation_length Hl), strlen_app. cbn [strlen]. rewrite strlen_zero_bytes.
    replace (strlen (text sep l) + (1 + Z.of_nat n)) with size by lia. done.
  - intros x s (-> & m & _ & t' & Hok' & Hr' & Hv'). split; [done |]. exists t'. split_and!; [done | done |].
    rewrite Hv'. unfold variables. by apply list_to_map_proper.
Qed.

(** A table of 67 places with two variables, one with separators and a
    backslash in its value. *)
Definition example_table : list ENTRY :=
  <[Z.to_nat (first_hash "bootcmd" 67) := Entry (first_hash "bootcmd" 67) (Some "bootcmd") (Some "run a;b\c")]>
  (<[Z.to_nat (first_hash "baudrate" 67) := Entry (first_hash "baudrate" 67) (Some "baudrate") (Some "115200")]>
  (replicate 68 no_entry)).

Definition slot_ok (e : ENTRY) : bool :=
  (used e =? 0) ||
  match content e with Some (k, _) => c_string k && ascii_string k && (used e =? first_hash k 67) | None => false end.

Lemma example_slots i e : example_table !! i = Some e → used e = 0 ∧ e = no_entry ∨ slot_ok e = true ∧ used e ≠ 0.
Proof.
  assert (Forall (λ e, used e = 0 ∧ (e_key e = None ∧ e_data e = None) ∨ slot_ok e = true ∧ used e ≠ 0) example_table) as H.
  { apply (bool_decide_unpack _). by vm_compute. }
  intros He. apply (Forall_lookup_1 _ _ _ _ H) in He as [(H1 & H2 & H3) | ?]; [left | by right].
  split; [done |]. destruct e; cbn in *. by subst.
Qed.

Lemma example_ok : table_ok (Htab (Some example_table) 67 2) example_table.
Proof.
  split; cbn [table hsize filled]; [done | | lia | done | | | | done].
  - apply (isprime_loop_prime 67 3); [lia | done | done | lia | lia | lia | done].
  - intros i e He Hu. destruct (example_slots i e He) as [[? _] | [Hs _]]; [done |]. unfold slot_ok in Hs.
    rewrite (proj2 (Z.eqb_neq _ _) Hu) in Hs. cbn [orb] in Hs. destruct (content e) as [[k d] |]; [| done].
    rewrite !andb_true_iff, Z.eqb_eq in Hs. exists k, d. tauto.
  - intros e He. by injection He as <-.
  - apply (bool_decide_unpack _). by vm_compute.
Qed.

Lemma example_ascii : ascii_names example_table.
Proof.
  intros i e k He Hk. destruct (example_slots i e He) as [[_ ->] | [Hs Hu]]; [done |]. unfold slot_ok, content in Hs.
  rewrite (proj2 (Z.eqb_neq _ _) Hu), Hk in Hs. destruct (e_data e); [| done]. cbn [orb] in Hs. rewrite !andb_true_iff in Hs. tauto.
Qed.

Lemma environment_roundtrip_witness :
  wp (let* r := hexport_r (λ _, true) ";" None 100 in
      match r.2 with None => ret (-1) | Some env => himport_r (λ _, true) env ";" false end)
    (λ r s, r = 1 ∧ ∃ t', table_ok (htab s) t' ∧ all_reached (htab s) t' ∧
      variables t' = <["baudrate" := "115200"]> {["bootcmd" := "run a;b\c"]})
    (Env (Htab (Some example_table) 67 2) 0).
Proof.
  eapply wp_mono; [apply (environment_roundtrip (Htab (Some example_table) 67 2) example_table 0 ";" 100) |].
  - exact example_ok.
  - exact example_ascii.
  - cbn. lia.
  - discriminate.
  - discriminate.
  - apply (bool_decide_unpack _). by vm_compute.
  - vm_compute. split; [discriminate | reflexivity] || (split; reflexivity).
  - vm_compute. discriminate.
  - intros r s (-> & t' & H1 & H2 & H3). split; [done |]. exists t'. split_and!; [done | done |]. rewrite H3.
    by vm_compute.
Defined.

(** The text of the example: sorted by name, separators and backslashes escaped,
    padded with zeros to the size asked for. *)
Example export_example :
  ∃ s, hexport_r (λ _, true) ";" None 46 (Env (Htab (Some example_table) 67 2) 0) =
    Some ((46, Some ("baudrate=115200;bootcmd=run a\;b\\c;" +:+ zero_bytes 10)), s).
Proof. eexists. vm_compute. reflexivity. Qed.

(** With a zero as separator the first pass of [hexport_r] counts no
    escapes, but the second pass writes them.  For a variable with five
    backslashes the size of eleven bytes is found to be enough, and fourteen
    bytes are written: a buffer of eleven bytes is overrun. *)
Example export_overruns_buffer :
  let s := Env (Htab (Some [no_entry; Entry 1 (Some "a") (Some "\\\\\"); no_entry; no_entry]) 3 1) 0 in
  hexport_r (λ _, true) "000" (Some 14) 11 s =
    Some ((11, Some ("a=\\\\\\\\\\" +:+ zero_bytes 2)), s) ∧
  hexport_r (λ _, true) "000" (Some 11) 11 s = None ∧
  hexport_r (λ _, true) "000" None 0 s = None.
Proof. split_and!; vm_compute; reflexivity. Qed.
