(* ===== verification/Rect.v ===== *)
(** * Rectangles: [board/samsung/x4412/rect.c]

    Points and rectangles of signed 32-bit coordinates, their intersection and
    union, the bounding box of a set of points, the Cohen-Sutherland clipping
    of a line to a rectangle, and alignment.  Additions wrap at 32 bits as the
    compiled code's do; the theorems bound the coordinates so that they do
    not. *)

From stdpp Require Import prelude.
From Stdlib Require Import ZArith Lia.
From S2P Require Import Prelude.

Local Open Scope Z_scope.
Local Open Scope word_scope.

Record point_t := Point { px : Z; py : Z }.
Record rect_t := Rect { rx : Z; ry : Z; rw : Z; rh : Z }.

Inductive align_t :=
  | ALIGN_LEFT | ALIGN_TOP | ALIGN_RIGHT | ALIGN_BOTTOM
  | ALIGN_LEFT_TOP | ALIGN_RIGHT_TOP | ALIGN_LEFT_BOTTOM | ALIGN_RIGHT_BOTTOM
  | ALIGN_LEFT_CENTER | ALIGN_TOP_CENTER | ALIGN_RIGHT_CENTER | ALIGN_BOTTOM_CENTER
  | ALIGN_CENTER_HORIZONTAL | ALIGN_CENTER_VERTICAL | ALIGN_CENTER.

#[export] Instance point_t_eq_dec : EqDecision point_t.
Proof. solve_decision. Defined.
#[export] Instance rect_t_eq_dec : EqDecision rect_t.
Proof. solve_decision. Defined.
#[export] Instance align_t_eq_dec : EqDecision align_t.
Proof. solve_decision. Defined.

(** ** Operations *)

Definition rect_is_empty (r : rect_t) : bool := (rw r <=? 0) || (rh r <=? 0).

Definition rect_is_equal (a b : rect_t) : bool :=
  (rx a =? rx b) && (ry a =? ry b) && (rw a =? rw b) && (rh a =? rh b).

Definition rect_has_intersection (a b : rect_t) : bool :=
  (* Horizontal intersection *)
  let a_min := rx a in
  let a_max := a_min +s rw a in
  let b_min := rx b in
  let b_max := b_min +s rw b in
  let a_min := if b_min >? a_min then b_min else a_min in
  let a_max := if b_max <? a_max then b_max else a_max in
  if a_max <=? a_min then false else
  (* Vertical intersection *)
  let a_min := ry a in
  let a_max := a_min +s rh a in
  let b_min := ry b in
  let b_max := b_min +s rh b in
  let a_min := if b_min >? a_min then b_min else a_min in
  let a_max := if b_max <? a_max then b_max else a_max in
  if a_max <=? a_min then false else true.

(** The result parameter [r] is the second component. *)
Definition rect_intersect (a b : rect_t) : bool * rect_t :=
  (* Horizontal intersection *)
  let a_min := rx a in
  let a_max := a_min +s rw a in
  let b_min := rx b in
  let b_max := b_min +s rw b in
  let a_min := if b_min >? a_min then b_min else a_min in
  let r_x := a_min in
  let a_max := if b_max <? a_max then b_max else a_max in
  let r_w := a_max -s a_min in
  (* Vertical intersection *)
  let a_min := ry a in
  let a_max := a_min +s rh a in
  let b_min := ry b in
  let b_max := b_min +s rh b in
  let a_min := if b_min >? a_min then b_min else a_min in
  let r_y := a_min in
  let a_max := if b_max <? a_max then b_max else a_max in
  let r_h := a_max -s a_min in
  let r := Rect r_x r_y r_w r_h in
  (negb (rect_is_empty r), r).

Definition rect_union (a b : rect_t) : rect_t :=
  (* Horizontal union *)
  let a_min := rx a in
  let a_max := a_min +s rw a in
  let b_min := rx b in
  let b_max := b_min +s rw b in
  let a_min := if b_min <? a_min then b_min else a_min in
  let r_x := a_min in
  let a_max := if b_max >? a_max then b_max else a_max in
  let r_w := a_max -s a_min in
  (* Vertical union *)
  let a_min := ry a in
  let a_max := a_min +s rh a in
  let b_min := ry b in
  let b_max := b_min +s rh b in
  let a_min := if b_min <? a_min then b_min else a_min in
  let r_y := a_min in
  let a_max := if b_max >? a_max then b_max else a_max in
  let r_h := a_max -s a_min in
  Rect r_x r_y r_w r_h.

(** The running bounding box [minx, miny, maxx, maxy]. *)
Record bbox := BBox { minx : Z; miny : Z; maxx : Z; maxy : Z }.

(** The chain of comparisons both loops of [rect_enclose_points] end with. *)
Definition bbox_add (bb : bbox) (x y : Z) : bbox :=
  let '(BBox minx miny maxx maxy) := bb in
  let '(minx, maxx) := if x <? minx then (x, maxx) else if x >? maxx then (minx, x) else (minx, maxx) in
  let '(miny, maxy) := if y <? miny then (y, maxy) else if y >? maxy then (miny, y) else (miny, maxy) in
  BBox minx miny maxx maxy.

(** The loop with a clip rectangle; [None] while no point was added. *)
Fixpoint enclose_clipped (cminx cminy cmaxx cmaxy : Z) (p : list point_t) (added : option bbox)
  : option bbox :=
  match p with
  | [] => added
  | Point x y :: p' =>
      enclose_clipped cminx cminy cmaxx cmaxy p'
        (if (x <? cminx) || (x >? cmaxx) || (y <? cminy) || (y >? cmaxy) then added
         else match added with
              | None => Some (BBox x y x y)
              | Some bb => Some (bbox_add bb x y)
              end)
  end.

(** The loop without clipping. *)
Fixpoint enclose_all (p : list point_t) (bb : bbox) : bbox :=
  match p with
  | [] => bb
  | Point x y :: p' => enclose_all p' (bbox_add bb x y)
  end.

Definition bbox_rect (bb : bbox) : rect_t :=
  Rect (minx bb) (miny bb) (maxx bb -s minx bb +s 1) (maxy bb -s miny bb +s 1).

(** [p] holds the [cnt] points the caller passes; the result is the return
    value and the rectangle stored through [r], left alone on [FALSE]. *)
Definition rect_enclose_points (p : list point_t) (cnt : Z) (clip : option rect_t) : option rect_t :=
  if cnt <? 1 then None else
  match clip with
  | Some c =>
      let clip_minx := rx c in
      let clip_miny := ry c in
      let clip_maxx := rx c +s rw c -s 1 in
      let clip_maxy := ry c +s rh c -s 1 in
      bbox_rect <$> enclose_clipped clip_minx clip_miny clip_maxx clip_maxy
                      (take (Z.to_nat cnt) p) None
  | None =>
      match take (Z.to_nat cnt) p with
      | [] => None
      | Point x y :: p' => Some (bbox_rect (enclose_all p' (BBox x y x y)))
      end
  end.

Inductive outcode_bit := CODE_BOTTOM | CODE_TOP | CODE_LEFT | CODE_RIGHT.

Definition outcode_value (c : outcode_bit) : Z :=
  match c with CODE_BOTTOM => 1 | CODE_TOP => 2 | CODE_LEFT => 4 | CODE_RIGHT => 8 end.

Coercion outcode_value : outcode_bit >-> Z.

Definition compute_outcode (r : rect_t) (x y : Z) : Z :=
  let code := 0 in
  let code := if y <? 0 then Z.lor code CODE_TOP
              else if y >=? ry r +s rh r then Z.lor code CODE_BOTTOM else code in
  if x <? 0 then Z.lor code CODE_LEFT
  else if x >=? rx r +s rw r then Z.lor code CODE_RIGHT else code.

(** What a call of [rect_intersect_with_line] ends in: a verdict with the four
    coordinates behind its pointers, a division by zero, or no end within the
    iterations given. *)
Inductive line_result :=
  | LineDone (hit : bool) (x1 y1 x2 y2 : Z)
  | LineDivZero
  | LineRunning.

(** [x1 + ((x2 - x1) * (y - y1)) / (y2 - y1)], [None] on a zero divisor. *)
Definition line_at (x1 x2 y y1 y2 : Z) : option Z :=
  let d := y2 -s y1 in
  if d =? 0 then None
  else Some (x1 +s s32 (Z.quot ((x2 -s x1) *s (y -s y1)) d)).

(** The new position of an end point with a non-zero [outcode]: the chain of
    [if]s both arms of the loop have.  [x] and [y] are the loop's locals, which
    keep their value when no bit is set. *)
Definition clip_end (r : rect_t) (outcode x y x1 y1 x2 y2 : Z) : option (Z * Z) :=
  let rectx1 := rx r in
  let recty1 := ry r in
  let rectx2 := rx r +s rw r -s 1 in
  let recty2 := ry r +s rh r -s 1 in
  if negb (Z.land outcode CODE_TOP =? 0) then
    x ← line_at x1 x2 recty1 y1 y2; Some (x, recty1)
  else if negb (Z.land outcode CODE_BOTTOM =? 0) then
    x ← line_at x1 x2 recty2 y1 y2; Some (x, recty2)
  else if negb (Z.land outcode CODE_LEFT =? 0) then
    y ← line_at y1 y2 rectx1 x1 x2; Some (rectx1, y)
  else if negb (Z.land outcode CODE_RIGHT =? 0) then
    y ← line_at y1 y2 rectx2 x1 x2; Some (rectx2, y)
  else Some (x, y).

(** [while (outcode1 || outcode2) { ... }]; [ox1 .. oy2] are the values behind
    the pointers, which the loop does not write. *)
Fixpoint clip_loop (fuel : nat) (r : rect_t) (o : Z * Z * Z * Z)
    (x y x1 y1 x2 y2 outcode1 outcode2 : Z) : line_result :=
  match fuel with
  | O => LineRunning
  | S fuel' =>
      if (outcode1 =? 0) && (outcode2 =? 0) then LineDone true x1 y1 x2 y2
      else if negb (Z.land outcode1 outcode2 =? 0) then
        let '(ox1, oy1, ox2, oy2) := o in LineDone false ox1 oy1 ox2 oy2
      else if negb (outcode1 =? 0) then
        match clip_end r outcode1 x y x1 y1 x2 y2 with
        | None => LineDivZero
        | Some (x, y) => clip_loop fuel' r o x y x y x2 y2 (compute_outcode r x y) outcode2
        end
      else
        match clip_end r outcode2 x y x1 y1 x2 y2 with
        | None => LineDivZero
        | Some (x, y) => clip_loop fuel' r o x y x1 y1 x y outcode1 (compute_outcode r x y)
        end
  end.

(** Clamp one coordinate of a horizontal or vertical line. *)
Definition clamp_coord (lo hi v : Z) : Z := if v <? lo then lo else if v >? hi then hi else v.

Definition rect_intersect_with_line (fuel : nat) (r : rect_t) (x1 y1 x2 y2 : Z) : line_result :=
  let rectx1 := rx r in
  let recty1 := ry r in
  let rectx2 := rx r +s rw r -s 1 in
  let recty2 := ry r +s rh r -s 1 in
  (* Check to see if entire line is inside rect *)
  if (x1 >=? rectx1) && (x1 <=? rectx2) && (x2 >=? rectx1) && (x2 <=? rectx2) &&
     (y1 >=? recty1) && (y1 <=? recty2) && (y2 >=? recty1) && (y2 <=? recty2)
  then LineDone true x1 y1 x2 y2
  (* Check to see if entire line is to one side of rect *)
  else if ((x1 <? rectx1) && (x2 <? rectx1)) || ((x1 >? rectx2) && (x2 >? rectx2)) ||
          ((y1 <? recty1) && (y2 <? recty1)) || ((y1 >? recty2) && (y2 >? recty2))
  then LineDone false x1 y1 x2 y2
  else if y1 =? y2 then
    LineDone true (clamp_coord rectx1 rectx2 x1) y1 (clamp_coord rectx1 rectx2 x2) y2
  else if x1 =? x2 then
    LineDone true x1 (clamp_coord recty1 recty2 y1) x2 (clamp_coord recty1 recty2 y2)
  else
    clip_loop fuel r (x1, y1, x2, y2) 0 0 x1 y1 x2 y2
      (compute_outcode r x1 y1) (compute_outcode r x2 y2).

(** The result parameter [r] is what the value holds; [None] is [FALSE]. *)
Definition rect_align (a b : option rect_t) (align : align_t) : option rect_t :=
  a ← a; b ← b;
  let dx1 := rx a -s rx b in
  let dy1 := ry a -s ry b in
  let dx2 := (rx a +s rw a) -s (rx b +s rw b) in
  let dy2 := (ry a +s rh a) -s (ry b +s rh b) in
  let dw := rw a -s rw b in
  let dh := rh a -s rh b in
  Some match align with
  | ALIGN_LEFT => Rect (rx b +s dx1) (ry b) (rw b) (rh b)
  | ALIGN_TOP => Rect (rx b) (ry b +s dy1) (rw b) (rh b)
  | ALIGN_RIGHT => Rect (rx b +s dx2) (ry b) (rw b) (rh b)
  | ALIGN_BOTTOM => Rect (rx b) (ry b +s dy2) (rw b) (rh b)
  | ALIGN_LEFT_TOP => Rect (rx b +s dx1) (ry b +s dy1) (rw b) (rh b)
  | ALIGN_RIGHT_TOP => Rect (rx b +s dx2) (ry b +s dy1) (rw b) (rh b)
  | ALIGN_LEFT_BOTTOM => Rect (rx b +s dx1) (ry b +s dy2) (rw b) (rh b)
  | ALIGN_RIGHT_BOTTOM => Rect (rx b +s dx2) (ry b +s dy2) (rw b) (rh b)
  | ALIGN_LEFT_CENTER => Rect (rx b +s dx1) (ry b +s dy1 +s Z.shiftr dh 1) (rw b) (rh b)
  | ALIGN_TOP_CENTER => Rect (rx b +s dx1 +s Z.shiftr dw 1) (ry b +s dy1) (rw b) (rh b)
  | ALIGN_RIGHT_CENTER => Rect (rx b +s dx2) (ry b +s dy1 +s Z.shiftr dh 1) (rw b) (rh b)
  | ALIGN_BOTTOM_CENTER => Rect (rx b +s dx1 +s Z.shiftr dw 1) (ry b +s dy2) (rw b) (rh b)
  | ALIGN_CENTER_HORIZONTAL => Rect (rx b +s dx1 +s Z.shiftr dw 1) (ry b) (rw b) (rh b)
  | ALIGN_CENTER_VERTICAL => Rect (rx b) (ry b +s dy1 +s Z.shiftr dh 1) (rw b) (rh b)
  | ALIGN_CENTER =>
      Rect (rx b +s dx1 +s Z.shiftr dw 1) (ry b +s dy1 +s Z.shiftr dh 1) (rw b) (rh b)
  end.

(** ** Geometry *)

Definition in_rect (r : rect_t) (x y : Z) : Prop :=
  rx r ≤ x < rx r + rw r ∧ ry r ≤ y < ry r + rh r.

(** Coordinates and sizes whose sums and differences fit in 32 bits. *)
Definition rect_small (r : rect_t) : Prop :=
  -536870912 ≤ rx r < 536870912 ∧ -536870912 ≤ ry r < 536870912 ∧
  -536870912 ≤ rw r < 536870912 ∧ -536870912 ≤ rh r < 536870912.

Definition rect_included (a b : rect_t) : Prop := ∀ x y, in_rect a x y → in_rect b x y.

#[export] Instance rect_included_preorder : PreOrder rect_included.
Proof. split; [by intros a x y | intros a b c H1 H2 x y H; by apply H2, H1]. Qed.

Ltac rect_unfold := unfold in_rect, rect_small in *; cbn [rx ry rw rh px py] in *.

Lemma rect_is_empty_spec r : rect_is_empty r = true ↔ ∀ x y, ¬ in_rect r x y.
Proof.
  unfold rect_is_empty, in_rect. split.
  - intros. lia.
  - intros H. specialize (H (rx r) (ry r)). lia.
Qed.

(** The intersection in closed form. *)
Lemma rect_intersect_eq a b :
  rect_small a → rect_small b →
  let r := Rect (Z.max (rx a) (rx b)) (Z.max (ry a) (ry b))
             (Z.min (rx a + rw a) (rx b + rw b) - Z.max (rx a) (rx b))
             (Z.min (ry a + rh a) (ry b + rh b) - Z.max (ry a) (ry b)) in
  rect_intersect a b = (negb (rect_is_empty r), r).
Proof.
  intros Ha Hb r. rect_unfold.
  assert (Hr : snd (rect_intersect a b) = r).
  { unfold rect_intersect, r. cbn [snd]. s32_simp.
    f_equal; repeat case_match; s32_simp; lia. }
  rewrite <- Hr at 2. by rewrite <- Hr.
Qed.

Lemma rect_intersect_in a b x y :
  rect_small a → rect_small b →
  in_rect (rect_intersect a b).2 x y ↔ in_rect a x y ∧ in_rect b x y.
Proof.
  intros Ha Hb. rewrite rect_intersect_eq by done. rect_unfold. cbn. lia.
Qed.

Lemma rect_intersect_nonempty a b :
  (rect_intersect a b).1 = true →
  0 < rw (rect_intersect a b).2 ∧ 0 < rh (rect_intersect a b).2.
Proof.
  unfold rect_intersect. cbn [fst snd]. unfold rect_is_empty. cbn [rw rh]. lia.
Qed.

Lemma rect_intersect_hit a b :
  rect_small a → rect_small b →
  (rect_intersect a b).1 = true ↔ ∃ x y, in_rect a x y ∧ in_rect b x y.
Proof.
  intros Ha Hb. rewrite rect_intersect_eq by done. cbn [fst].
  set (r := Rect _ _ _ _). split.
  - unfold rect_is_empty. intros He. exists (rx r), (ry r).
    unfold r in *. rect_unfold. lia.
  - intros (x & y & H1 & H2). unfold rect_is_empty, r. rect_unfold. lia.
Qed.

Lemma rect_has_intersection_eq a b :
  rect_small a → rect_small b → rect_has_intersection a b = (rect_intersect a b).1.
Proof.
  intros Ha Hb. rewrite rect_intersect_eq by done. unfold rect_has_intersection, rect_is_empty.
  rect_unfold. cbn [fst]. s32_simp. repeat case_match; lia.
Qed.

(** The union in closed form. *)
Lemma rect_union_eq a b :
  rect_small a → rect_small b →
  rect_union a b =
    Rect (Z.min (rx a) (rx b)) (Z.min (ry a) (ry b))
      (Z.max (rx a + rw a) (rx b + rw b) - Z.min (rx a) (rx b))
      (Z.max (ry a + rh a) (ry b + rh b) - Z.min (ry a) (ry b)).
Proof.
  intros Ha Hb. rect_unfold. unfold rect_union. s32_simp.
  f_equal; repeat case_match; s32_simp; lia.
Qed.

(** ** The bounding box *)

Definition bbox_wf (bb : bbox) : Prop := minx bb ≤ maxx bb ∧ miny bb ≤ maxy bb.

Definition in_bbox (bb : bbox) (x y : Z) : Prop :=
  minx bb ≤ x ≤ maxx bb ∧ miny bb ≤ y ≤ maxy bb.

(** [bb] is the least box that holds the points [P]. *)
Definition least_bbox (P : Z → Z → Prop) (bb : bbox) : Prop :=
  (∀ x y, P x y → in_bbox bb x y) ∧
  (∃ y, P (minx bb) y) ∧ (∃ y, P (maxx bb) y) ∧
  (∃ x, P x (miny bb)) ∧ (∃ x, P x (maxy bb)).

Lemma bbox_add_eq bb x y :
  bbox_wf bb →
  bbox_add bb x y = BBox (Z.min (minx bb) x) (Z.min (miny bb) y)
                         (Z.max (maxx bb) x) (Z.max (maxy bb) y).
Proof.
  intros [Hx Hy]. destruct bb as [x0 y0 x1 y1]. cbn in *. unfold bbox_add.
  repeat case_match; simplify_eq; f_equal; lia.
Qed.

Lemma bbox_add_least P bb x y :
  bbox_wf bb → least_bbox P bb →
  bbox_wf (bbox_add bb x y) ∧ least_bbox (λ x' y', P x' y' ∨ (x' = x ∧ y' = y)) (bbox_add bb x y).
Proof.
  intros Hwf (Hin & H1 & H2 & H3 & H4). rewrite bbox_add_eq by done.
  destruct bb as [x0 y0 x1 y1]. unfold bbox_wf, in_bbox in *. cbn in *.
  split; [lia |]. split_and!.
  - unfold in_bbox. cbn. intros x' y' [HP | [-> ->]]; [apply Hin in HP; cbn in HP; lia | lia].
  - cbn. destruct (Z.min_spec x0 x) as [[_ ->] | [_ ->]]; naive_solver.
  - cbn. destruct (Z.max_spec x1 x) as [[_ ->] | [_ ->]]; naive_solver.
  - cbn. destruct (Z.min_spec y0 y) as [[_ ->] | [_ ->]]; naive_solver.
  - cbn. destruct (Z.max_spec y1 y) as [[_ ->] | [_ ->]]; naive_solver.
Qed.

Lemma least_bbox_iff P P' bb :
  (∀ x y, P x y ↔ P' x y) → least_bbox P bb → least_bbox P' bb.
Proof. intros H (H1 & H2 & H3 & H4 & H5). unfold least_bbox. naive_solver. Qed.

Lemma bbox_point x y : bbox_wf (BBox x y x y) ∧ least_bbox (λ x' y', x' = x ∧ y' = y) (BBox x y x y).
Proof. unfold bbox_wf, least_bbox, in_bbox. cbn. naive_solver lia. Qed.

Lemma enclose_all_least p P bb :
  bbox_wf bb → least_bbox P bb →
  bbox_wf (enclose_all p bb) ∧
  least_bbox (λ x y, P x y ∨ Point x y ∈ p) (enclose_all p bb).
Proof.
  revert P bb. induction p as [|[x y] p IH]; intros P bb Hwf Hl; cbn.
  - split; [done |]. eapply least_bbox_iff; [|done]. set_solver.
  - destruct (bbox_add_least P bb x y Hwf Hl) as [Hwf' Hl'].
    destruct (IH _ _ Hwf' Hl') as [Hwf'' Hl'']. split; [done |].
    eapply least_bbox_iff; [|done]. intros x' y'. cbn. rewrite elem_of_cons.
    naive_solver.
Qed.

(** What the clipped loop has found so far. *)
Definition found (P : Z → Z → Prop) (added : option bbox) : Prop :=
  match added with
  | None => ∀ x y, ¬ P x y
  | Some bb => bbox_wf bb ∧ least_bbox P bb
  end.

Lemma enclose_clipped_found x0 y0 x1 y1 p P added :
  found P added →
  found (λ x y, P x y ∨ (Point x y ∈ p ∧ x0 ≤ x ≤ x1 ∧ y0 ≤ y ≤ y1))
    (enclose_clipped x0 y0 x1 y1 p added).
Proof.
  revert P added. induction p as [|[x y] p IH]; intros P added HP; cbn [enclose_clipped].
  - destruct added as [bb|]; cbn in *.
    + destruct HP as [? HP]. split; [done |]. eapply least_bbox_iff; [|done]. set_solver.
    + set_solver.
  - assert (Hext : ∀ A B, (∀ x y, A x y ↔ B x y) → ∀ o, found A o → found B o).
    { intros A B H [bb|]; cbn; [|naive_solver]. intros [? ?]. split; [done |].
      by eapply least_bbox_iff. }
    destruct (_ || _) eqn:Hc.
    + eapply Hext; [|apply IH, HP]. intros x' y'. cbn. rewrite elem_of_cons.
      split; [naive_solver |]. intros [?|[[?|?] ?]]; [naive_solver | simplify_eq; lia | naive_solver].
    + eapply (Hext (λ x' y', (P x' y' ∨ x' = x ∧ y' = y) ∨ (Point x' y' ∈ p ∧ x0 ≤ x' ≤ x1 ∧ y0 ≤ y' ≤ y1))).
      { intros x' y'. rewrite elem_of_cons.
        split; [|intros [?|[[?|?] ?]]; simplify_eq; naive_solver].
        intros [[?|[-> ->]]|?]; [naive_solver | right; split; [by left | lia] | naive_solver]. }
      apply IH. destruct added as [bb|]; cbn in HP |- *.
      * destruct HP. by apply bbox_add_least.
      * destruct (bbox_point x y) as [? Hp]. split; [done |].
        eapply least_bbox_iff; [|done]. cbn. naive_solver.
Qed.

(** [bb] as the rectangle that is stored, for coordinates that do not
    overflow. *)
Lemma bbox_rect_in bb x y :
  bbox_wf bb → -536870912 ≤ minx bb → maxx bb < 536870912 →
  -536870912 ≤ miny bb → maxy bb < 536870912 →
  in_rect (bbox_rect bb) x y ↔ in_bbox bb x y.
Proof.
  intros [] H1 H2 H3 H4. unfold bbox_rect, in_rect, in_bbox. cbn [rx ry rw rh].
  s32_simp. lia.
Qed.

(** ** Line clipping *)

Lemma quot_between e t d :
  0 ≤ t ≤ d ∨ d ≤ t ≤ 0 → d ≠ 0 → Z.min 0 e ≤ Z.quot (e * t) d ≤ Z.max 0 e.
Proof.
  assert (Hpos : ∀ e t d, 0 ≤ t ≤ d → 0 < d → Z.min 0 e ≤ Z.quot (e * t) d ≤ Z.max 0 e).
  { clear. intros e t d Ht Hd.
    assert (Hnn : ∀ e, 0 ≤ e → 0 ≤ Z.quot (e * t) d ≤ e).
    { intros e' He. rewrite Z.quot_div_nonneg by nia. split.
      - apply Z.div_pos; nia.
      - apply Z.div_le_upper_bound; nia. }
    destruct (Z.le_ge_cases 0 e).
    - specialize (Hnn e). lia.
    - specialize (Hnn (- e)). replace (- e * t) with (- (e * t)) in Hnn by lia.
      rewrite Z.quot_opp_l in Hnn by lia. lia. }
  intros [Ht | Ht] Hd; [apply Hpos; lia |].
  rewrite <- Z.quot_opp_opp by lia. rewrite <- Z.mul_opp_r. apply Hpos; lia.
Qed.

(** The size of coordinates for which the products of the loop do not
    overflow. *)
Definition coord_ok (z : Z) : Prop := -16384 ≤ z < 16384.

Definition between (a b z : Z) : Prop := Z.min a b ≤ z ≤ Z.max a b.

Lemma between_ok a b z : coord_ok a → coord_ok b → between a b z → coord_ok z.
Proof. unfold coord_ok, between. lia. Qed.

(** Where the line from [(x1, y1)] to [(x2, y2)] crosses row [y], rounded
    towards [x1]. *)
Definition cut (x1 x2 y y1 y2 : Z) : Z := x1 + Z.quot ((x2 - x1) * (y - y1)) (y2 - y1).

Lemma line_at_cut x1 x2 y y1 y2 :
  coord_ok x1 → coord_ok x2 → coord_ok y1 → coord_ok y2 → y1 ≠ y2 → between y1 y2 y →
  line_at x1 x2 y y1 y2 = Some (cut x1 x2 y y1 y2).
Proof.
  unfold coord_ok, between, line_at, cut. intros Hx1 Hx2 Hy1 Hy2 Hne Hy. s32_simp.
  destruct (Z.eqb_spec (y2 - y1) 0); [lia |].
  pose proof (quot_between (x2 - x1) (y - y1) (y2 - y1)) as Hq.
  rewrite (s32_small ((x2 - x1) * (y - y1))) by nia.
  f_equal. s32_simp. reflexivity.
Qed.

Lemma cut_between x1 x2 y y1 y2 :
  y1 ≠ y2 → between y1 y2 y → between x1 x2 (cut x1 x2 y y1 y2).
Proof.
  unfold between, cut. intros Hne Hy.
  pose proof (quot_between (x2 - x1) (y - y1) (y2 - y1)). lia.
Qed.

(** The remainder of the division. *)
Lemma cut_rem x1 x2 y y1 y2 :
  y1 ≠ y2 →
  ∃ ρ, (cut x1 x2 y y1 y2 - x1) * (y2 - y1) + ρ = (x2 - x1) * (y - y1) ∧
       Z.abs ρ < Z.abs (y2 - y1).
Proof.
  intros Hne. exists (Z.rem ((x2 - x1) * (y - y1)) (y2 - y1)). unfold cut. split.
  - pose proof (Z.quot_rem' ((x2 - x1) * (y - y1)) (y2 - y1)). lia.
  - apply Z.rem_bound_abs. lia.
Qed.

(** [m] times the coordinate of the point [n/m] of the way from [a] to [b]. *)
Definition along (n m a b : Z) : Z := m * a + n * (b - a).

(** A cut on the way to the point [n/m] is rounded to this side of it. *)
Lemma cut_before n m x1 x2 y y1 y2 :
  0 < m → 0 ≤ n ≤ m → y1 ≠ y2 →
  between (m * y1) (along n m y1 y2) (m * y) →
  between (m * x1) (along n m x1 x2) (m * cut x1 x2 y y1 y2).
Proof.
  assert (Hpos : ∀ e t d, 0 ≤ t → 0 < d → m * t ≤ n * d → 0 < m → 0 ≤ e →
    0 ≤ m * Z.quot (e * t) d ≤ n * e).
  { intros e t d Ht Hd Hle Hm He. rewrite Z.quot_div_nonneg by nia.
    pose proof (Z.mul_div_le (e * t) d Hd). assert (0 ≤ e * t / d) by (apply Z.div_pos; nia).
    split; [nia |]. apply (Z.mul_le_mono_pos_r _ _ d Hd). nia. }
  assert (Hup : ∀ e t d, 0 ≤ t → 0 < d → m * t ≤ n * d → 0 < m →
    Z.min 0 (n * e) ≤ m * Z.quot (e * t) d ≤ Z.max 0 (n * e)).
  { intros e t d Ht Hd Hle Hm. destruct (Z.le_ge_cases 0 e) as [He|He].
    - specialize (Hpos e t d). lia.
    - specialize (Hpos (- e) t d). replace (- e * t) with (- (e * t)) in Hpos by lia.
      rewrite Z.quot_opp_l in Hpos by lia. lia. }
  clear Hpos. unfold between, along, cut. intros Hm Hn Hne Hy.
  destruct (Z.lt_ge_cases y1 y2).
  - specialize (Hup (x2 - x1) (y - y1) (y2 - y1)). nia.
  - specialize (Hup (x2 - x1) (y1 - y) (y1 - y2)).
    rewrite <- Z.quot_opp_opp by lia. rewrite <- Z.mul_opp_r.
    replace (- (y - y1)) with (y1 - y) by lia. replace (- (y2 - y1)) with (y1 - y2) by lia. nia.
Qed.

(** The line from the cut to the far end still passes every row beyond the cut,
    less than a pixel from where the whole line does. *)
Lemma cut_after n m x1 x2 y y1 y2 :
  0 < m → 0 ≤ n ≤ m → y1 ≠ y2 →
  (m * y1 ≤ m * y < along n m y1 y2 ∨ along n m y1 y2 < m * y ≤ m * y1) →
  ∃ n' m' k, 0 < m' ∧ 0 ≤ n' ≤ m' ∧ 0 < k ∧ m' = m * k ∧
    along n' m' y y2 = k * along n m y1 y2 ∧
    Z.abs (along n' m' (cut x1 x2 y y1 y2) x2 - k * along n m x1 x2) ≤ m'.
Proof.
  intros Hm Hn Hne Hy. destruct (cut_rem x1 x2 y y1 y2 Hne) as (ρ & Hρ & Hb).
  set (x := cut x1 x2 y y1 y2) in *. clearbody x. unfold along in *.
  destruct Hy as [Hy|Hy].
  - exists (m * (y1 - y) + n * (y2 - y1)), (m * (y2 - y)), (y2 - y).
    assert (0 < y2 - y) by nia. split_and!; [nia|nia|nia|lia|reflexivity|ring|].
    replace (m * (y2 - y) * x + (m * (y1 - y) + n * (y2 - y1)) * (x2 - x) -
             (y2 - y) * (m * x1 + n * (x2 - x1))) with (- ρ * (m - n)) by nia.
    rewrite Z.abs_mul, Z.abs_opp. nia.
  - exists (- (m * (y1 - y) + n * (y2 - y1))), (m * (y - y2)), (y - y2).
    assert (0 < y - y2) by nia. split_and!; [nia|nia|nia|lia|reflexivity|ring|].
    replace (m * (y - y2) * x + - (m * (y1 - y) + n * (y2 - y1)) * (x2 - x) -
             (y - y2) * (m * x1 + n * (x2 - x1))) with (ρ * (m - n)) by nia.
    rewrite Z.abs_mul. nia.
Qed.

(** How far a point is from a line: the cross product with its direction. *)
Definition cross (X1 Y1 X2 Y2 x y : Z) : Z := (X2 - X1) * (y - Y1) - (Y2 - Y1) * (x - X1).

Lemma cut_cross X1 Y1 X2 Y2 x1 x2 y y1 y2 e :
  y1 ≠ y2 → between y1 y2 y →
  Z.abs (cross X1 Y1 X2 Y2 x1 y1) ≤ e → Z.abs (cross X1 Y1 X2 Y2 x2 y2) ≤ e →
  Z.abs (cross X1 Y1 X2 Y2 (cut x1 x2 y y1 y2) y) ≤ e + Z.abs (Y2 - Y1).
Proof.
  intros Hne Hy C1 C2. destruct (cut_rem x1 x2 y y1 y2 Hne) as (ρ & Hρ & Hb).
  set (x := cut x1 x2 y y1 y2) in *. clearbody x.
  assert (Hc : cross X1 Y1 X2 Y2 x y * (y2 - y1) =
    cross X1 Y1 X2 Y2 x1 y1 * (y2 - y) + cross X1 Y1 X2 Y2 x2 y2 * (y - y1) + (Y2 - Y1) * ρ).
  { unfold cross. nia. }
  set (c := cross X1 Y1 X2 Y2 x y) in *. set (c1 := cross X1 Y1 X2 Y2 x1 y1) in *.
  set (c2 := cross X1 Y1 X2 Y2 x2 y2) in *. clearbody c c1 c2. unfold between in Hy.
  apply (Z.mul_le_mono_pos_r _ _ (Z.abs (y2 - y1))); [lia |]. rewrite <- Z.abs_mul, Hc.
  assert (Hm : ∀ a b c, Z.abs a ≤ b → Z.abs (a * c) ≤ b * Z.abs c).
  { intros a b d Ha. rewrite Z.abs_mul. apply Z.mul_le_mono_nonneg_r; lia. }
  pose proof (Hm c1 e (y2 - y) C1) as H1. pose proof (Hm c2 e (y - y1) C2) as H2.
  assert (H3 : Z.abs ((Y2 - Y1) * ρ) ≤ Z.abs (Y2 - Y1) * Z.abs (y2 - y1)).
  { rewrite Z.abs_mul. apply Z.mul_le_mono_nonneg_l; lia. }
  assert (Hd : e * Z.abs (y2 - y1) = e * Z.abs (y2 - y) + e * Z.abs (y - y1))
    by (rewrite <- Z.mul_add_distr_l; f_equal; lia).
  rewrite Z.mul_add_distr_r, Hd. lia.
Qed.

(** The same with rows and columns exchanged. *)
Lemma cross_swap X1 Y1 X2 Y2 x y : cross Y1 X1 Y2 X2 y x = - cross X1 Y1 X2 Y2 x y.
Proof. unfold cross. lia. Qed.

Section line_clipping.
(** A clip rectangle anchored at the origin, as every surface's is. *)
Variables w h : Z.
Hypothesis Hw : 1 ≤ w < 16384.
Hypothesis Hh : 1 ≤ h < 16384.
Let r := Rect 0 0 w h.

Definition code_v (y : Z) : Z := if y <? 0 then 2 else if h <=? y then 1 else 0.
Definition code_h (x : Z) : Z := if x <? 0 then 4 else if w <=? x then 8 else 0.

Lemma compute_outcode_eq x y : compute_outcode r x y = code_v y + code_h x.
Proof using Hw Hh.
  unfold compute_outcode, code_v, code_h, r. cbn [rx ry rw rh]. s32_simp.
  rewrite !Z.add_0_l, !Z.geb_leb. repeat case_match; reflexivity.
Qed.

Lemma code_v_cases y :
  (y < 0 ∧ code_v y = 2) ∨ (h ≤ y ∧ code_v y = 1) ∨ (0 ≤ y < h ∧ code_v y = 0).
Proof using Hh. unfold code_v. repeat case_match; lia. Qed.

Lemma code_h_cases x :
  (x < 0 ∧ code_h x = 4) ∨ (w ≤ x ∧ code_h x = 8) ∨ (0 ≤ x < w ∧ code_h x = 0).
Proof using Hw. unfold code_h. repeat case_match; lia. Qed.

Definition pt_ok (x y : Z) : Prop := coord_ok x ∧ coord_ok y.

(** Moving an end that is above or below: it lands on a horizontal edge. *)
Lemma clip_end_v x y x1 y1 x2 y2 xe ye c :
  pt_ok x1 y1 → pt_ok x2 y2 → y1 ≠ y2 → between y1 y2 c →
  (ye < 0 ∧ c = 0) ∨ (h ≤ ye ∧ c = h - 1) →
  clip_end r (compute_outcode r xe ye) x y x1 y1 x2 y2 = Some (cut x1 x2 c y1 y2, c).
Proof using Hw Hh.
  intros [Hx1 Hy1] [Hx2 Hy2] Hne B Hye. rewrite compute_outcode_eq.
  unfold clip_end, r. cbn [rx ry rw rh]. s32_simp. rewrite !Z.add_0_l.
  pose proof (line_at_cut x1 x2 c y1 y2 Hx1 Hx2 Hy1 Hy2 Hne B) as E.
  destruct Hye as [[Hy ->] | [Hy ->]]; rewrite E.
  - destruct (code_v_cases ye) as [[_ ->]|[[? _]|[? _]]]; [|lia|lia].
    destruct (code_h_cases xe) as [[_ ->]|[[_ ->]|[_ ->]]]; reflexivity.
  - destruct (code_v_cases ye) as [[? _]|[[_ ->]|[? _]]]; [lia| |lia].
    destruct (code_h_cases xe) as [[_ ->]|[[_ ->]|[_ ->]]]; reflexivity.
Qed.

(** Moving an end that is only left or right: it lands on a vertical edge. *)
Lemma clip_end_h x y x1 y1 x2 y2 xe ye c :
  pt_ok x1 y1 → pt_ok x2 y2 → x1 ≠ x2 → 0 ≤ ye < h → between x1 x2 c →
  (xe < 0 ∧ c = 0) ∨ (w ≤ xe ∧ c = w - 1) →
  clip_end r (compute_outcode r xe ye) x y x1 y1 x2 y2 = Some (c, cut y1 y2 c x1 x2).
Proof using Hw Hh.
  intros [Hx1 Hy1] [Hx2 Hy2] Hne Hye B Hxe. rewrite compute_outcode_eq.
  unfold clip_end, r. cbn [rx ry rw rh]. s32_simp. rewrite !Z.add_0_l.
  pose proof (line_at_cut y1 y2 c x1 x2 Hy1 Hy2 Hx1 Hx2 Hne B) as E.
  destruct (code_v_cases ye) as [[? _]|[[? _]|[_ ->]]]; [lia|lia|].
  destruct Hxe as [[Hx ->] | [Hx ->]]; rewrite E.
  - destruct (code_h_cases xe) as [[_ ->]|[[? _]|[? _]]]; [reflexivity|lia|lia].
  - destruct (code_h_cases xe) as [[? _]|[[_ ->]|[? _]]]; [lia|reflexivity|lia].
Qed.

(** Some point of the line from [(x1, y1)] to [(x2, y2)], with the position
    [n/m] between the ends, lies in the rectangle [mx] pixels away from its
    left and right edges and [my] pixels from the others. *)
Definition reaches (mx my x1 y1 x2 y2 : Z) : Prop :=
  ∃ n m, 0 < m ∧ 0 ≤ n ≤ m ∧
    m * mx ≤ along n m x1 x2 ≤ m * (w - 1 - mx) ∧
    m * my ≤ along n m y1 y2 ≤ m * (h - 1 - my).

(** What an end [(x, y)] the call returns is, for the end [(X, Y)] it was
    given: a point of the bounding box of the line from [(X1, Y1)] to
    [(X2, Y2)], as far from that line as [e] allows, and the given end itself
    when that one is inside. *)
Definition end_good (X1 Y1 X2 Y2 e X Y x y : Z) : Prop :=
  between X1 X2 x ∧ between Y1 Y2 y ∧
  Z.abs (cross X1 Y1 X2 Y2 x y) ≤ e ∧
  (in_rect r X Y → x = X ∧ y = Y).

(** What a finished call may answer. *)
Definition line_good (X1 Y1 X2 Y2 : Z) (res : line_result) : Prop :=
  let e := 2 * (Z.abs (X2 - X1) + Z.abs (Y2 - Y1)) in
  match res with
  | LineDone true x1 y1 x2 y2 =>
      in_rect r x1 y1 ∧ in_rect r x2 y2 ∧
      end_good X1 Y1 X2 Y2 e X1 Y1 x1 y1 ∧ end_good X1 Y1 X2 Y2 e X2 Y2 x2 y2
  | LineDone false x1 y1 x2 y2 =>
      (x1, y1, x2, y2) = (X1, Y1, X2, Y2) ∧ ¬ reaches 1 1 X1 Y1 X2 Y2
  | _ => False
  end.

Definition loop_from (fuel : nat) o x y x1 y1 x2 y2 : line_result :=
  clip_loop fuel r o x y x1 y1 x2 y2 (compute_outcode r x1 y1) (compute_outcode r x2 y2).

Definition v_in (y : Z) : Prop := 0 ≤ y < h.
Definition h_in (x : Z) : Prop := 0 ≤ x < w.

(** Both ends on the same outer side. *)
Definition one_side (x1 y1 x2 y2 : Z) : Prop :=
  (y1 < 0 ∧ y2 < 0) ∨ (h ≤ y1 ∧ h ≤ y2) ∨ (x1 < 0 ∧ x2 < 0) ∨ (w ≤ x1 ∧ w ≤ x2).

(** Such a line does not reach the rectangle. *)
Lemma one_side_misses mx my x1 y1 x2 y2 :
  0 ≤ mx → 0 ≤ my → one_side x1 y1 x2 y2 → ¬ reaches mx my x1 y1 x2 y2.
Proof using Hw Hh.
  unfold one_side, reaches, along. intros Hx Hy Hs (n & m & Hm & Hn & Rx & Ry).
  assert (Hc : ∀ a b, m * a + n * (b - a) = (m - n) * a + n * b) by (intros; ring).
  rewrite !Hc in *. clear Hc.
  destruct Hs as [[]|[[]|[[]|[]]]]; nia.
Qed.

(** It is rejected. *)
Lemma loop_reject fuel X1 Y1 X2 Y2 x y x1 y1 x2 y2 :
  one_side x1 y1 x2 y2 → ¬ reaches 1 1 X1 Y1 X2 Y2 →
  line_good X1 Y1 X2 Y2 (loop_from (S fuel) (X1, Y1, X2, Y2) x y x1 y1 x2 y2).
Proof using Hw Hh.
  unfold one_side. intros Hs Hm. unfold loop_from. rewrite !compute_outcode_eq. cbn [clip_loop].
  destruct (code_v_cases y1) as [[? ->]|[[? ->]|[? ->]]];
  destruct (code_v_cases y2) as [[? ->]|[[? ->]|[? ->]]];
  destruct (code_h_cases x1) as [[? ->]|[[? ->]|[? ->]]];
  destruct (code_h_cases x2) as [[? ->]|[[? ->]|[? ->]]];
  first [exfalso; lia | split; [reflexivity | exact Hm]].
Qed.

(** One iteration that moves the first end, then one that moves the second. *)
Lemma loop_step1 fuel o x y x1 y1 x2 y2 :
  ¬ (v_in y1 ∧ h_in x1) → ¬ one_side x1 y1 x2 y2 →
  loop_from (S fuel) o x y x1 y1 x2 y2 =
    match clip_end r (compute_outcode r x1 y1) x y x1 y1 x2 y2 with
    | None => LineDivZero
    | Some (x', y') => loop_from fuel o x' y' x' y' x2 y2
    end.
Proof using Hw Hh.
  unfold v_in, h_in, one_side. intros Hin Hs. unfold loop_from. cbn [clip_loop].
  rewrite !(compute_outcode_eq x1 y1), !(compute_outcode_eq x2 y2).
  destruct (code_v_cases y1) as [[? ->]|[[? ->]|[? ->]]];
  destruct (code_v_cases y2) as [[? ->]|[[? ->]|[? ->]]];
  destruct (code_h_cases x1) as [[? ->]|[[? ->]|[? ->]]];
  destruct (code_h_cases x2) as [[? ->]|[[? ->]|[? ->]]];
  first [exfalso; lia | reflexivity].
Qed.

Lemma loop_step2 fuel o x y x1 y1 x2 y2 :
  v_in y1 → h_in x1 → ¬ (v_in y2 ∧ h_in x2) →
  loop_from (S fuel) o x y x1 y1 x2 y2 =
    match clip_end r (compute_outcode r x2 y2) x y x1 y1 x2 y2 with
    | None => LineDivZero
    | Some (x', y') => loop_from fuel o x' y' x1 y1 x' y'
    end.
Proof using Hw Hh.
  unfold v_in, h_in. intros Hv Hh1 Hin. unfold loop_from. cbn [clip_loop].
  rewrite !(compute_outcode_eq x1 y1), !(compute_outcode_eq x2 y2).
  destruct (code_v_cases y1) as [[? ->]|[[? ->]|[? ->]]]; try (exfalso; lia).
  destruct (code_h_cases x1) as [[? ->]|[[? ->]|[? ->]]]; try (exfalso; lia).
  destruct (code_v_cases y2) as [[? ->]|[[? ->]|[? ->]]];
  destruct (code_h_cases x2) as [[? ->]|[[? ->]|[? ->]]];
  first [exfalso; lia | reflexivity].
Qed.

(** Moving the first end to a row the line still has to pass leaves a line
    that goes where the whole one did, up to a pixel in the row. *)
Lemma reaches_cut_v x1 y1 x2 y2 c :
  y1 ≠ y2 → (y1 < 0 ∧ c = 0) ∨ (h ≤ y1 ∧ c = h - 1) →
  reaches 1 1 x1 y1 x2 y2 → reaches 0 1 (cut x1 x2 c y1 y2) c x2 y2.
Proof using Hw Hh.
  intros Hne Hc (n & m & Hm & Hn & Rx & Ry).
  assert (Hy : m * y1 ≤ m * c < along n m y1 y2 ∨ along n m y1 y2 < m * c ≤ m * y1) by nia.
  destruct (cut_after n m x1 x2 c y1 y2) as (n' & m' & k & Hm' & Hn' & Hk & E & Ey & Ex);
    [done..|].
  exists n', m'. rewrite Ey, E in *. split_and!; nia.
Qed.

(** Moving it to a column leaves it in the rows of the rectangle. *)
Lemma reaches_cut_h x1 y1 x2 y2 c :
  x1 ≠ x2 → v_in y1 → (x1 < 0 ∧ c = 0) ∨ (w ≤ x1 ∧ c = w - 1) →
  reaches 0 0 x1 y1 x2 y2 → v_in (cut y1 y2 c x1 x2).
Proof using Hw Hh.
  unfold v_in. intros Hne Hv Hc (n & m & Hm & Hn & Rx & Ry).
  pose proof (cut_before n m y1 y2 c x1 x2 Hm Hn Hne) as Hb. unfold between in Hb. nia.
Qed.

Lemma reaches_weaken mx my x1 y1 x2 y2 :
  0 ≤ mx → 0 ≤ my → reaches mx my x1 y1 x2 y2 → reaches 0 0 x1 y1 x2 y2.
Proof using Hw Hh. intros Hx Hy (n & m & Hm & Hn & Rx & Ry). exists n, m. split_and!; nia. Qed.

Section segment.
Variables X1 Y1 X2 Y2 : Z.
Hypothesis HP1 : pt_ok X1 Y1.
Hypothesis HP2 : pt_ok X2 Y2.

Notation dx := (Z.abs (X2 - X1)).
Notation dy := (Z.abs (Y2 - Y1)).
Notation e1 e := (end_good X1 Y1 X2 Y2 e X1 Y1).
Notation e2 e := (end_good X1 Y1 X2 Y2 e X2 Y2).

Lemma end_ok e X Y x y : end_good X1 Y1 X2 Y2 e X Y x y → pt_ok x y.
Proof using HP1 HP2.
  intros (Bx & By & _). destruct HP1 as [A1 A2], HP2 as [A3 A4].
  split; [by apply (between_ok X1 X2) | by apply (between_ok Y1 Y2)].
Qed.

Lemma end_weaken e e' X Y x y :
  e ≤ e' → end_good X1 Y1 X2 Y2 e X Y x y → end_good X1 Y1 X2 Y2 e' X Y x y.
Proof using. intros He (? & ? & ? & ?). unfold end_good. split_and!; try done. lia. Qed.

(** An end outside the rectangle is moved to a row or to a column. *)
Lemma end_cut_v e X Y XA YA XB YB x y xa ya xb yb c :
  ¬ in_rect r x y → end_good X1 Y1 X2 Y2 e X Y x y →
  end_good X1 Y1 X2 Y2 e XA YA xa ya → end_good X1 Y1 X2 Y2 e XB YB xb yb →
  ya ≠ yb → between ya yb c →
  end_good X1 Y1 X2 Y2 (e + dy) X Y (cut xa xb c ya yb) c.
Proof using.
  intros Hout (_ & _ & _ & K) (Bx & By & C & _) (Bx' & By' & C' & _) Hne B.
  pose proof (cut_between xa xb c ya yb Hne B). split_and!.
  - unfold between in *. lia.
  - unfold between in *. lia.
  - by apply cut_cross.
  - intros Hin. destruct (K Hin) as [-> ->]. done.
Qed.

Lemma end_cut_h e X Y XA YA XB YB x y xa ya xb yb c :
  ¬ in_rect r x y → end_good X1 Y1 X2 Y2 e X Y x y →
  end_good X1 Y1 X2 Y2 e XA YA xa ya → end_good X1 Y1 X2 Y2 e XB YB xb yb →
  xa ≠ xb → between xa xb c →
  end_good X1 Y1 X2 Y2 (e + dx) X Y c (cut ya yb c xa xb).
Proof using.
  intros Hout (_ & _ & _ & K) (Bx & By & C & _) (Bx' & By' & C' & _) Hne B.
  pose proof (cut_between ya yb c xa xb Hne B). split_and!.
  - unfold between in *. lia.
  - unfold between in *. lia.
  - pose proof (cross_swap X1 Y1 X2 Y2 xa ya). pose proof (cross_swap X1 Y1 X2 Y2 xb yb).
    pose proof (cross_swap X1 Y1 X2 Y2 c (cut ya yb c xa xb)).
    pose proof (cut_cross Y1 X1 Y2 X2 ya yb c xa xb e Hne B). lia.
  - intros Hin. destruct (K Hin) as [-> ->]. done.
Qed.

Lemma in_iff x y : in_rect r x y ↔ v_in y ∧ h_in x.
Proof using. unfold in_rect, v_in, h_in, r. cbn [rx ry rw rh]. lia. Qed.

Notation good := (line_good X1 Y1 X2 Y2).
Notation from fuel := (loop_from fuel (X1, Y1, X2, Y2)).

Ltac ends := first [eassumption | eapply end_ok; eassumption].

(** Both ends inside. *)
Lemma loop_inside fuel x y x1 y1 x2 y2 :
  e1 (2 * (dx + dy)) x1 y1 → e2 (2 * (dx + dy)) x2 y2 → in_rect r x1 y1 → in_rect r x2 y2 →
  good (from (S fuel) x y x1 y1 x2 y2).
Proof using Hw Hh.
  intros E1 E2 I1 I2. pose proof (proj1 (in_iff _ _) I1) as [V1 H1].
  pose proof (proj1 (in_iff _ _) I2) as [V2 H2]. unfold v_in, h_in in *.
  unfold loop_from. cbn [clip_loop]. rewrite !compute_outcode_eq.
  destruct (code_v_cases y1) as [[? ->]|[[? ->]|[? ->]]]; try (exfalso; lia).
  destruct (code_h_cases x1) as [[? ->]|[[? ->]|[? ->]]]; try (exfalso; lia).
  destruct (code_v_cases y2) as [[? ->]|[[? ->]|[? ->]]]; try (exfalso; lia).
  destruct (code_h_cases x2) as [[? ->]|[[? ->]|[? ->]]]; try (exfalso; lia).
  exact (conj I1 (conj I2 (conj E1 E2))).
Qed.

(** The first end inside, the second in the same rows. *)
Lemma loop_second_h fuel x y x1 y1 x2 y2 :
  e1 (dx + 2 * dy) x1 y1 → e2 (dx + 2 * dy) x2 y2 → in_rect r x1 y1 → v_in y2 →
  good (from (S (S fuel)) x y x1 y1 x2 y2).
Proof using Hw Hh HP1 HP2.
  intros E1 E2 I1 V2. pose proof (proj1 (in_iff _ _) I1) as [V1 H1].
  destruct (decide (h_in x2)) as [H2|H2].
  { apply loop_inside; [eapply end_weaken; [|done]; lia.. | done | by apply in_iff]. }
  rewrite loop_step2 by (done || tauto).
  set (c := if x2 <? 0 then 0 else w - 1).
  assert (Hc : ((x2 < 0 ∧ c = 0) ∨ (w ≤ x2 ∧ c = w - 1)) ∧ between x1 x2 c ∧ h_in c)
    by (unfold c, between, h_in in *; case_match; lia).
  destruct Hc as (Hc & B & Hi). clearbody c.
  assert (Hne : x1 ≠ x2) by (unfold h_in in *; lia).
  rewrite (clip_end_h x y x1 y1 x2 y2 x2 y2 c); try done; [| ends | ends].
  pose proof (cut_between y1 y2 c x1 x2 Hne B).
  apply loop_inside; [eapply end_weaken; [|done]; lia | | done | apply in_iff].
  - eapply end_weaken; [|eapply (end_cut_h (dx + 2 * dy)); try done]; [lia |].
    rewrite in_iff. tauto.
  - split; [unfold v_in, between in *; lia | done].
Qed.

(** The first end inside. *)
Lemma loop_second fuel x y x1 y1 x2 y2 :
  e1 (dx + dy) x1 y1 → e2 (dx + dy) x2 y2 → in_rect r x1 y1 →
  good (from (S (S (S fuel))) x y x1 y1 x2 y2).
Proof using Hw Hh HP1 HP2.
  intros E1 E2 I1. pose proof (proj1 (in_iff _ _) I1) as [V1 H1].
  destruct (decide (v_in y2)) as [V2|V2].
  { apply loop_second_h; try done; (eapply end_weaken; [|done]; lia). }
  rewrite loop_step2 by (done || tauto).
  set (c := if y2 <? 0 then 0 else h - 1).
  assert (Hc : ((y2 < 0 ∧ c = 0) ∨ (h ≤ y2 ∧ c = h - 1)) ∧ between y1 y2 c ∧ v_in c)
    by (unfold c, between, v_in in *; case_match; lia).
  destruct Hc as (Hc & B & Hi). clearbody c.
  assert (Hne : y1 ≠ y2) by (unfold v_in in *; lia).
  rewrite (clip_end_v x y x1 y1 x2 y2 x2 y2 c); try done; [| ends | ends].
  apply loop_second_h; try done; [eapply end_weaken; [|done]; lia |].
  eapply end_weaken; [|eapply (end_cut_v (dx + dy)); try done]; [lia |].
  rewrite in_iff. tauto.
Qed.

(** The first end in the rows of the rectangle. *)
Lemma loop_first_h fuel x y x1 y1 x2 y2 :
  e1 dy x1 y1 → e2 dy x2 y2 → v_in y1 →
  (reaches 1 1 X1 Y1 X2 Y2 → reaches 0 0 x1 y1 x2 y2) →
  good (from (S (S (S (S fuel)))) x y x1 y1 x2 y2).
Proof using Hw Hh HP1 HP2.
  intros E1 E2 V1 HR. destruct (decide (h_in x1)) as [H1|H1].
  { apply loop_second; [eapply end_weaken; [|done]; lia.. | by apply in_iff]. }
  assert (one_side x1 y1 x2 y2 ∨ ¬ one_side x1 y1 x2 y2) as [Hs|Hs] by (unfold one_side; lia).
  { apply loop_reject; [done |]. intros R. by apply (one_side_misses 0 0) in Hs; auto. }
  rewrite loop_step1 by tauto.
  set (c := if x1 <? 0 then 0 else w - 1).
  assert (Hc : ((x1 < 0 ∧ c = 0) ∨ (w ≤ x1 ∧ c = w - 1)) ∧ between x1 x2 c ∧ h_in c ∧ x1 ≠ x2)
    by (unfold c, between, h_in, one_side in *; case_match; lia).
  destruct Hc as (Hc & B & Hi & Hne). clearbody c.
  rewrite (clip_end_h x y x1 y1 x2 y2 x1 y1 c); try done; [| ends | ends].
  pose proof (cut_between y1 y2 c x1 x2 Hne B) as By.
  destruct (decide (v_in (cut y1 y2 c x1 x2))) as [V'|V'].
  - apply loop_second; [| eapply end_weaken; [|done]; lia | by apply in_iff].
    eapply end_weaken; [|eapply (end_cut_h dy); try done]; [lia |]. rewrite in_iff. tauto.
  - apply loop_reject.
    + unfold v_in, between, one_side in *. lia.
    + intros R. apply V'. apply reaches_cut_h; auto.
Qed.

(** Any line: at most four end point moves. *)
Lemma loop_any fuel x y :
  good (from (S (S (S (S (S fuel))))) x y X1 Y1 X2 Y2).
Proof using Hw Hh HP1 HP2.
  assert (E1 : e1 0 X1 Y1) by (unfold end_good, between, cross; lia).
  assert (E2 : e2 0 X2 Y2) by (unfold end_good, between, cross; lia).
  destruct (decide (v_in Y1)) as [V1|V1].
  { apply loop_first_h; [eapply end_weaken; [|done]; lia.. | done |]. by apply reaches_weaken. }
  assert (one_side X1 Y1 X2 Y2 ∨ ¬ one_side X1 Y1 X2 Y2) as [Hs|Hs] by (unfold one_side; lia).
  { apply loop_reject; [done |]. by apply one_side_misses. }
  rewrite loop_step1 by tauto.
  set (c := if Y1 <? 0 then 0 else h - 1).
  assert (Hc : ((Y1 < 0 ∧ c = 0) ∨ (h ≤ Y1 ∧ c = h - 1)) ∧ between Y1 Y2 c ∧ v_in c ∧ Y1 ≠ Y2)
    by (unfold c, between, v_in, one_side in *; case_match; lia).
  destruct Hc as (Hc & B & Hi & Hne). clearbody c.
  rewrite (clip_end_v x y X1 Y1 X2 Y2 X1 Y1 c); try done.
  apply loop_first_h; [| eapply end_weaken; [|done]; lia | done |].
  - eapply end_weaken; [|eapply (end_cut_v 0); try done]; [lia |]. rewrite in_iff. tauto.
  - intros R. apply (reaches_weaken 0 1); [done..|]. by apply reaches_cut_v.
Qed.

(** The answers that need no loop. *)
Lemma line_good_flat x1 y1 x2 y2 :
  in_rect r x1 y1 → in_rect r x2 y2 → between X1 X2 x1 ∧ between X1 X2 x2 →
  between Y1 Y2 y1 ∧ between Y1 Y2 y2 →
  (X1 = X2 ∨ Y1 = Y2 ∨ x1 = X1 ∧ y1 = Y1 ∧ x2 = X2 ∧ y2 = Y2) →
  (in_rect r X1 Y1 → x1 = X1 ∧ y1 = Y1) → (in_rect r X2 Y2 → x2 = X2 ∧ y2 = Y2) →
  good (LineDone true x1 y1 x2 y2).
Proof using Hw Hh.
  intros I1 I2 [B1 B2] [B3 B4] Hf K1 K2. unfold line_good, end_good.
  split_and!; try done; unfold cross, between in *; destruct Hf as [Hf|[Hf|Hf]]; nia.
Qed.
End segment.
End line_clipping.

(** ** Properties *)

(** [rect_intersect] computes the set intersection of its arguments; its
    return value, which [rect_has_intersection] agrees with, says whether the
    two have a point in common. *)
Theorem rect_intersect_correct a b :
  rect_small a → rect_small b →
  let '(hit, r) := rect_intersect a b in
  (∀ x y, in_rect r x y ↔ in_rect a x y ∧ in_rect b x y) ∧
  (hit = true ↔ ∃ x y, in_rect a x y ∧ in_rect b x y) ∧
  rect_has_intersection a b = hit.
Proof.
  intros Ha Hb. rewrite rect_has_intersection_eq by done.
  pose proof (rect_intersect_in a b) as Hin. pose proof (rect_intersect_hit a b) as Hhit.
  destruct (rect_intersect a b) as [hit r]. cbn in *. auto.
Qed.

Lemma rect_intersect_correct_witness :
  rect_intersect (Rect (-5) 0 20 10) (Rect 3 4 100 100) = (true, Rect 3 4 12 6) ∧
  (∀ x y, in_rect (Rect 3 4 12 6) x y ↔
     in_rect (Rect (-5) 0 20 10) x y ∧ in_rect (Rect 3 4 100 100) x y).
Proof.
  split; [reflexivity |].
  apply (rect_intersect_correct (Rect (-5) 0 20 10) (Rect 3 4 100 100));
    unfold rect_small; cbn; lia.
Defined.

(** [rect_union] of two rectangles with an area contains both, and is
    contained in every rectangle that does. *)
Theorem rect_union_least a b :
  rect_small a → rect_small b → rect_is_empty a = false → rect_is_empty b = false →
  rect_included a (rect_union a b) ∧ rect_included b (rect_union a b) ∧
  ∀ c, rect_included a c → rect_included b c → rect_included (rect_union a b) c.
Proof.
  intros Ha Hb Ea Eb. rewrite rect_union_eq by done.
  unfold rect_is_empty in *. split_and!.
  - intros x y H. rect_unfold. lia.
  - intros x y H. rect_unfold. lia.
  - intros c Hac Hbc x y H.
    pose proof (Hac (rx a) (ry a)). pose proof (Hac (rx a + rw a - 1) (ry a + rh a - 1)).
    pose proof (Hbc (rx b) (ry b)). pose proof (Hbc (rx b + rw b - 1) (ry b + rh b - 1)).
    rect_unfold. lia.
Qed.

Lemma rect_union_least_witness :
  rect_included (Rect 0 0 5 5) (rect_union (Rect 0 0 5 5) (Rect 20 (-3) 1 4)) ∧
  rect_union (Rect 0 0 5 5) (Rect 20 (-3) 1 4) = Rect 0 (-3) 21 8.
Proof.
  split; [|reflexivity].
  apply (rect_union_least (Rect 0 0 5 5) (Rect 20 (-3) 1 4)); [unfold rect_small; cbn; lia .. | reflexivity | reflexivity].
Defined.

Definition point_small (p : point_t) : Prop :=
  -536870912 ≤ px p < 536870912 ∧ -536870912 ≤ py p < 536870912.

Lemma least_bbox_small P bb :
  (∀ x y, P x y → point_small (Point x y)) → least_bbox P bb →
  -536870912 ≤ minx bb ∧ maxx bb < 536870912 ∧ -536870912 ≤ miny bb ∧ maxy bb < 536870912.
Proof.
  intros Hs (_ & [? H1] & [? H2] & [? H3] & [? H4]).
  apply Hs in H1, H2, H3, H4. unfold point_small in *. cbn in *. lia.
Qed.

(** Points of [p] that count: all of them, or those inside the clip. *)
Definition selected (p : list point_t) (clip : option rect_t) (x y : Z) : Prop :=
  Point x y ∈ p ∧ match clip with Some c => in_rect c x y | None => True end.

Lemma rect_enclose_found p clip :
  Forall point_small p → match clip with Some c => rect_small c | None => True end →
  (0 < length p)%nat →
  ∃ added, rect_enclose_points p (Z.of_nat (length p)) clip = bbox_rect <$> added ∧
           found (selected p clip) added.
Proof.
  intros Hp Hc Hlen. unfold rect_enclose_points, selected.
  destruct (Z.ltb_spec (Z.of_nat (length p)) 1); [lia |].
  rewrite Nat2Z.id, take_ge by lia. destruct clip as [c|].
  - rect_unfold. s32_simp. eexists. split; [done |].
    pose proof (enclose_clipped_found (rx c) (ry c) (rx c + rw c - 1) (ry c + rh c - 1)
      p (λ _ _, False) None (λ _ _ H, H)) as Hf.
    destruct (enclose_clipped _ _ _ _ p None) as [bb|]; cbn in *.
    + destruct Hf as [? Hl]. split; [done |].
      eapply least_bbox_iff; [|done]. intros. cbn. unfold in_rect. intuition lia.
    + intros x y [H1 H2]. apply (Hf x y). right. split; [done |].
      unfold in_rect in H2. lia.
  - destruct p as [|[x y] p]; [cbn in *; lia |].
    exists (Some (enclose_all p (BBox x y x y))). split; [done |].
    destruct (bbox_point x y) as [Hwf Hl].
    destruct (enclose_all_least p _ _ Hwf Hl) as [Hwf' Hl']. split; [done |].
    eapply least_bbox_iff; [|done]. intros x' y'. cbn. rewrite elem_of_cons.
    naive_solver.
Qed.

(** [rect_enclose_points] answers [FALSE] when no point is inside the clip
    rectangle, and else stores the least rectangle around those that are. *)
Theorem rect_enclose_points_correct p clip :
  Forall point_small p → match clip with Some c => rect_small c | None => True end →
  (0 < length p)%nat →
  match rect_enclose_points p (Z.of_nat (length p)) clip with
  | None => ∀ x y, ¬ selected p clip x y
  | Some r => (∀ x y, selected p clip x y → in_rect r x y) ∧
              ∀ c, (∀ x y, selected p clip x y → in_rect c x y) → rect_included r c
  end.
Proof.
  intros Hp Hc Hlen. destruct (rect_enclose_found p clip Hp Hc Hlen) as (added & -> & Hf).
  destruct added as [bb|]; [|done]. cbn. destruct Hf as [Hwf Hl].
  assert (Hs : ∀ x y, selected p clip x y → point_small (Point x y)).
  { intros x y [Hxy _]. rewrite Forall_forall in Hp. by apply Hp. }
  destruct (least_bbox_small _ _ Hs Hl) as (B1 & B2 & B3 & B4).
  destruct Hl as (Hin & [y1 E1] & [y2 E2] & [x3 E3] & [x4 E4]). split.
  - intros x y Hxy. rewrite bbox_rect_in by done. by apply Hin.
  - intros c Hall x y Hxy. rewrite bbox_rect_in in Hxy by done.
    apply Hall in E1, E2, E3, E4. unfold in_rect, in_bbox in *. lia.
Qed.

Lemma rect_enclose_points_correct_witness :
  rect_enclose_points [Point 1 2; Point 50 50; Point 4 (-3)] 3 (Some (Rect 0 (-10) 20 20)) =
    Some (Rect 1 (-3) 4 6) ∧
  rect_included (Rect 1 (-3) 4 6) (Rect 0 (-10) 20 20).
Proof.
  split; [reflexivity |].
  refine (proj2 (rect_enclose_points_correct [Point 1 2; Point 50 50; Point 4 (-3)]
    (Some (Rect 0 (-10) 20 20)) _ _ _) _ _).
  - repeat constructor; cbn; lia.
  - unfold rect_small; cbn; lia.
  - cbn. lia.
  - intros x y [_ H]. exact H.
Defined.

(** C17: Clipping a line to a rectangle at the origin, for coordinates below
    16384 in size, ends within five tests of the loop condition and never
    divides by zero.  On [TRUE] both ends it returns are inside the rectangle
    and inside the bounding box of the line; they lie on the line up to
    rounding, which is no more than two pixels in either direction; and an end
    that was inside is returned unchanged.  On [FALSE] the coordinates are left
    alone, and no point of the line lies a pixel or more inside the edges of
    the rectangle. *)
Theorem rect_intersect_with_line_correct w h x1 y1 x2 y2 fuel :
  1 ≤ w < 16384 → 1 ≤ h < 16384 → pt_ok x1 y1 → pt_ok x2 y2 → (5 ≤ fuel)%nat →
  line_good w h x1 y1 x2 y2
    (rect_intersect_with_line fuel (Rect 0 0 w h) x1 y1 x2 y2).
Proof.
  intros Hw Hh P1 P2 Hf. unfold rect_intersect_with_line. cbn [rx ry rw rh]. s32_simp.
  repeat case_match; try done.
  - apply line_good_flat; unfold in_rect, between; cbn; lia.
  - split; [done |]. apply one_side_misses; try done. unfold one_side. lia.
  - apply line_good_flat; unfold in_rect, between, clamp_coord; cbn; repeat case_match; lia.
  - apply line_good_flat; unfold in_rect, between, clamp_coord; cbn; repeat case_match; lia.
  - do 5 (destruct fuel as [|fuel]; [lia |]). by apply loop_any.
Qed.

Lemma rect_intersect_with_line_correct_witness :
  rect_intersect_with_line 5 (Rect 0 0 100 50) (-10) (-20) 200 90 = LineDone true 28 0 99 37 ∧
  line_good 100 50 (-10) (-20) 200 90 (LineDone true 28 0 99 37) ∧
  rect_intersect_with_line 5 (Rect 0 0 100 50) (-10) 40 20 90 = LineDone false (-10) 40 20 90 ∧
  ¬ reaches 100 50 1 1 (-10) 40 20 90.
Proof.
  split; [reflexivity |]. split.
  - change (LineDone true 28 0 99 37) with
      (rect_intersect_with_line 5 (Rect 0 0 100 50) (-10) (-20) 200 90).
    apply rect_intersect_with_line_correct; unfold pt_ok, coord_ok; lia.
  - split; [reflexivity |].
    assert (H : line_good 100 50 (-10) 40 20 90 (LineDone false (-10) 40 20 90)).
    { change (LineDone false (-10) 40 20 90) with
        (rect_intersect_with_line 5 (Rect 0 0 100 50) (-10) 40 20 90).
      apply rect_intersect_with_line_correct; unfold pt_ok, coord_ok; lia. }
    exact (proj2 H).
Defined.

(** The rounding can lose a line that crosses a corner of the rectangle. *)
Example rect_intersect_with_line_loses :
  rect_intersect_with_line 9 (Rect 0 0 3 3) 10 30 (-9) (-37) = LineDone false 10 30 (-9) (-37) ∧
  reaches 3 3 0 0 10 30 (-9) (-37).
Proof.
  split; [reflexivity |]. exists 19, 43. unfold along. lia.
Qed.

Lemma clip_loop_stuck fuel r o x y x1 y1 x2 y2 :
  rx r = 0 → 1 ≤ rw r < 16384 → -16384 ≤ ry r < 0 → 1 ≤ rh r < 16384 →
  pt_ok x1 y1 → pt_ok x2 y2 → 0 ≤ x1 < rw r → 0 ≤ x2 < rw r → y1 ≤ ry r → 0 ≤ y2 →
  clip_loop fuel r o x y x1 y1 x2 y2 CODE_TOP 0 = LineRunning.
Proof.
  intros Hx Hw Hy Hh. revert x y x1 y1.
  induction fuel as [|fuel IH]; intros x y x1 y1 [A1 A2] [A3 A4] B1 B2 B3 B4; [done |].
  cbn -[compute_outcode outcode_value]. unfold clip_end. cbn [negb].
  assert (Hne : y1 ≠ y2) by lia. assert (B : between y1 y2 (ry r)) by (unfold between; lia).
  pose proof (line_at_cut x1 x2 (ry r) y1 y2 A1 A3 A2 A4 Hne B) as E.
  pose proof (cut_between x1 x2 (ry r) y1 y2 Hne B) as Bx.
  set (x' := cut x1 x2 (ry r) y1 y2) in *. clearbody x'.
  change (Z.land CODE_TOP CODE_TOP =? 0) with false. cbn [negb]. rewrite E.
  cbn -[compute_outcode outcode_value].
  assert (Ho : compute_outcode r x' (ry r) = CODE_TOP).
  { unfold compute_outcode, between in *. s32_simp.
    rewrite Z.geb_leb. repeat case_match; try lia; reflexivity. }
  rewrite Ho. apply IH; try done; try lia; [|unfold between in *; lia].
  split; [|unfold coord_ok in *; lia]. by apply (between_ok x1 x2).
Qed.

(** [compute_outcode] tests the top and left edges against zero instead of
    the rectangle's origin.  With a rectangle that starts above row zero, a
    line that enters through its top edge keeps the loop running for ever. *)
Theorem rect_intersect_with_line_diverges r x1 y1 x2 y2 :
  rx r = 0 → 1 ≤ rw r < 16384 → -16384 ≤ ry r < 0 → 1 ≤ rh r < 16384 →
  pt_ok x1 y1 → pt_ok x2 y2 → 0 ≤ x1 < rw r → 0 ≤ x2 < rw r → x1 ≠ x2 →
  y1 < ry r → 0 ≤ y2 < ry r + rh r →
  ∀ fuel, rect_intersect_with_line fuel r x1 y1 x2 y2 = LineRunning.
Proof.
  intros Hx Hw Hy Hh P1 P2 B1 B2 Hne B3 B4 fuel. unfold rect_intersect_with_line. s32_simp.
  repeat (case_match; [exfalso; lia |]).
  assert (Ho1 : compute_outcode r x1 y1 = CODE_TOP).
  { unfold compute_outcode. s32_simp. rewrite Z.geb_leb.
    repeat case_match; try lia; reflexivity. }
  assert (Ho2 : compute_outcode r x2 y2 = 0).
  { unfold compute_outcode. s32_simp. rewrite !Z.geb_leb.
    repeat case_match; try lia; reflexivity. }
  rewrite Ho1, Ho2. apply clip_loop_stuck; done || lia.
Qed.

Lemma rect_intersect_with_line_diverges_witness :
  rect_intersect_with_line 1000 (Rect 0 (-10) 20 20) 2 (-15) 18 5 = LineRunning.
Proof.
  apply rect_intersect_with_line_diverges; unfold pt_ok, coord_ok; cbn; lia.
Defined.

(** With a rectangle that starts below row zero an end above it is kept. *)
Example rect_intersect_with_line_offset :
  rect_intersect_with_line 9 (Rect 0 10 20 10) 0 5 19 15 = LineDone true 0 5 19 15 ∧
  ¬ in_rect (Rect 0 10 20 10) 0 5.
Proof. split; [reflexivity | unfold in_rect; cbn; lia]. Qed.

(** [rect_align] with [ALIGN_CENTER] keeps the size, and puts a rectangle
    that fits inside the other with margins that differ by at most one. *)
Theorem rect_align_center a b :
  rect_small a → rect_small b → 0 ≤ rw b ≤ rw a → 0 ≤ rh b ≤ rh a →
  ∃ r, rect_align (Some a) (Some b) ALIGN_CENTER = Some r ∧
    rw r = rw b ∧ rh r = rh b ∧ rect_included r a ∧
    (let left := rx r - rx a in let right := rx a + rw a - (rx r + rw r) in
     left ≤ right ≤ left + 1) ∧
    (let top := ry r - ry a in let bottom := ry a + rh a - (ry r + rh r) in
     top ≤ bottom ≤ top + 1).
Proof.
  intros Ha Hb Hw Hh. rect_unfold. eexists. split; [done |].
  unfold rect_included, in_rect. cbn [rx ry rw rh]. s32_simp.
  rewrite !Z.shiftr_div_pow2 by lia. change (2 ^ 1) with 2.
  assert (Hd : ∀ d, 0 ≤ d → 0 ≤ d / 2 ∧ d - 1 ≤ 2 * (d / 2) ≤ d)
    by (intros; Z.to_euclidean_division_equations; lia).
  pose proof (Hd (rw a - rw b)). pose proof (Hd (rh a - rh b)). s32_simp.
  split_and!; try lia.
Qed.

Lemma rect_align_center_witness :
  ∃ r, rect_align (Some (Rect 10 10 101 60)) (Some (Rect 0 0 20 20)) ALIGN_CENTER = Some r ∧
    rw r = 20 ∧ rect_included r (Rect 10 10 101 60).
Proof.
  destruct (rect_align_center (Rect 10 10 101 60) (Rect 0 0 20 20)) as (r & E & Hw & _ & Hin & _);
    [unfold rect_small; cbn; lia | unfold rect_small; cbn; lia | cbn; lia | cbn; lia |].
  exists r. auto.
Defined.
