(* ===== verification/Pixel.v ===== *)
(** * Pixel formats: [board/samsung/x4412/pixel.c]

    The description of a pixel format, the ten formats the board knows, and
    the conversion between pixel values and colours. *)

From stdpp Require Import prelude.
From Stdlib Require Import ZArith Lia.
From S2P Require Import Prelude Color.

Local Open Scope Z_scope.

Inductive pixel_format :=
  | PIXEL_FORMAT_GENERIC
  | PIXEL_FORMAT_ABGR_8888
  | PIXEL_FORMAT_ARGB_8888
  | PIXEL_FORMAT_BGRA_8888
  | PIXEL_FORMAT_RGBA_8888
  | PIXEL_FORMAT_BGR_888
  | PIXEL_FORMAT_RGB_888
  | PIXEL_FORMAT_BGR_565
  | PIXEL_FORMAT_RGB_565
  | PIXEL_FORMAT_BGR_332
  | PIXEL_FORMAT_RGB_332.

#[export] Instance pixel_format_eq_dec : EqDecision pixel_format.
Proof. solve_decision. Defined.

Record pixel_info := PixelInfo {
  bits_per_pixel : Z;
  bytes_per_pixel : Z;
  red_mask_size : Z;
  red_field_pos : Z;
  green_mask_size : Z;
  green_field_pos : Z;
  blue_mask_size : Z;
  blue_field_pos : Z;
  alpha_mask_size : Z;
  alpha_field_pos : Z;
  fmt : pixel_format;
}.

(** The conjunction each branch of [get_pixel_format] tests. *)
Definition fields_are (info : pixel_info) (rm gm bm am rp gp bp ap : Z) : bool :=
  (red_mask_size info =? rm) && (green_mask_size info =? gm) &&
  (blue_mask_size info =? bm) && (alpha_mask_size info =? am) &&
  (red_field_pos info =? rp) && (green_field_pos info =? gp) &&
  (blue_field_pos info =? bp) && (alpha_field_pos info =? ap).

Definition get_pixel_format (info : pixel_info) : pixel_format :=
  if bits_per_pixel info =? 32 then
    if fields_are info 8 8 8 8 0 8 16 24 then PIXEL_FORMAT_ABGR_8888
    else if fields_are info 16 8 8 8 0 8 0 24 then PIXEL_FORMAT_ARGB_8888
    else if fields_are info 16 8 8 8 8 16 24 0 then PIXEL_FORMAT_BGRA_8888
    else if fields_are info 16 8 8 8 24 16 8 0 then PIXEL_FORMAT_RGBA_8888
    else PIXEL_FORMAT_GENERIC
  else if bits_per_pixel info =? 24 then
    if fields_are info 8 8 8 0 0 8 16 0 then PIXEL_FORMAT_BGR_888
    else if fields_are info 16 8 8 0 0 8 0 0 then PIXEL_FORMAT_RGB_888
    else PIXEL_FORMAT_GENERIC
  else if bits_per_pixel info =? 16 then
    if fields_are info 5 6 5 0 0 5 11 0 then PIXEL_FORMAT_BGR_565
    else if fields_are info 5 6 5 0 11 5 0 0 then PIXEL_FORMAT_RGB_565
    else PIXEL_FORMAT_GENERIC
  else if bits_per_pixel info =? 8 then
    if fields_are info 2 3 3 0 0 2 5 0 then PIXEL_FORMAT_BGR_332
    else if fields_are info 3 3 2 0 5 2 0 0 then PIXEL_FORMAT_RGB_332
    else PIXEL_FORMAT_GENERIC
  else PIXEL_FORMAT_GENERIC.

(** The fields of [info] keep their values for the generic format. *)
Definition set_pixel_info (info : pixel_info) (fmt : pixel_format) : pixel_info :=
  match fmt with
  | PIXEL_FORMAT_GENERIC =>
      PixelInfo (bits_per_pixel info) (bytes_per_pixel info)
        (red_mask_size info) (red_field_pos info) (green_mask_size info) (green_field_pos info)
        (blue_mask_size info) (blue_field_pos info) (alpha_mask_size info) (alpha_field_pos info)
        fmt
  | PIXEL_FORMAT_ABGR_8888 => PixelInfo 32 4 8 0 8 8 8 16 8 24 fmt
  | PIXEL_FORMAT_ARGB_8888 => PixelInfo 32 4 8 16 8 8 8 0 8 24 fmt
  | PIXEL_FORMAT_BGRA_8888 => PixelInfo 32 4 8 8 8 16 8 24 8 0 fmt
  | PIXEL_FORMAT_RGBA_8888 => PixelInfo 32 4 8 24 8 16 8 8 8 0 fmt
  | PIXEL_FORMAT_BGR_888 => PixelInfo 24 3 8 0 8 8 8 16 0 0 fmt
  | PIXEL_FORMAT_RGB_888 => PixelInfo 24 3 8 16 8 8 8 0 0 0 fmt
  | PIXEL_FORMAT_BGR_565 => PixelInfo 16 2 5 0 6 5 5 11 0 0 fmt
  | PIXEL_FORMAT_RGB_565 => PixelInfo 16 2 5 11 6 5 5 0 0 0 fmt
  | PIXEL_FORMAT_BGR_332 => PixelInfo 8 1 2 0 3 2 3 5 0 0 fmt
  | PIXEL_FORMAT_RGB_332 => PixelInfo 8 1 3 5 3 2 2 0 0 0 fmt
  end.

(** [r >>= 8 - mask] on a byte, then [r << pos] as an unsigned word. *)
Definition pack_channel (v mask pos : Z) : Z :=
  u32 (Z.shiftl (u8 (Z.shiftr v (8 - mask))) pos).

Definition map_pixel_color (info : pixel_info) (col : color_t) : Z :=
  let c := pack_channel (c_r col) (red_mask_size info) (red_field_pos info) in
  let c := Z.lor c (pack_channel (c_g col) (green_mask_size info) (green_field_pos info)) in
  let c := Z.lor c (pack_channel (c_b col) (blue_mask_size info) (blue_field_pos info)) in
  Z.lor c (pack_channel (c_a col) (alpha_mask_size info) (alpha_field_pos info)).

(** The four statements that compute [t] for one channel. *)
Definition unpack_channel (c mask pos : Z) : Z :=
  let t := Z.shiftr c pos in
  let t := Z.land t (u32 (Z.shiftl 1 mask - 1)) in
  let t := u32 (Z.shiftl t (8 - mask)) in
  Z.lor t (u32 (Z.shiftl 1 (8 - mask) - 1)).

Definition unmap_pixel_color (info : pixel_info) (c : Z) : color_t :=
  Color
    (Z.land (unpack_channel c (red_mask_size info) (red_field_pos info)) 255)
    (Z.land (unpack_channel c (green_mask_size info) (green_field_pos info)) 255)
    (Z.land (unpack_channel c (blue_mask_size info) (blue_field_pos info)) 255)
    (Z.land (if alpha_mask_size info >? 0
             then unpack_channel c (alpha_mask_size info) (alpha_field_pos info)
             else 255) 255).

(** ** Bits of packed and unpacked channels *)

Lemma u32_bit z i : 0 ≤ i → Z.testbit (u32 z) i = (i <? 32) && Z.testbit z i.
Proof.
  intros Hi. unfold u32. change 4294967296 with (2 ^ 32).
  destruct (Z.ltb_spec i 32).
  - by rewrite Z.mod_pow2_bits_low by lia.
  - by rewrite Z.mod_pow2_bits_high by lia.
Qed.

Lemma u8_bit z i : 0 ≤ i → Z.testbit (u8 z) i = (i <? 8) && Z.testbit z i.
Proof.
  intros Hi. unfold u8. change 256 with (2 ^ 8). destruct (Z.ltb_spec i 8).
  - by rewrite Z.mod_pow2_bits_low by lia.
  - by rewrite Z.mod_pow2_bits_high by lia.
Qed.

Lemma low_mask_bit k i :
  0 ≤ k ≤ 8 → 0 ≤ i → Z.testbit (u32 (Z.shiftl 1 k - 1)) i = (i <? k).
Proof.
  intros Hk Hi. rewrite Z.shiftl_1_l. rewrite u32_small.
  - rewrite Z.sub_1_r, <- Z.ones_equiv. destruct (Z.ltb_spec i k).
    + apply Z.ones_spec_low; lia.
    + apply Z.ones_spec_high; lia.
  - assert (2 ^ k ≤ 2 ^ 8) by (apply Z.pow_le_mono_r; lia).
    assert (0 < 2 ^ k) by (apply Z.pow_pos_nonneg; lia). lia.
Qed.

Lemma pack_channel_bit v mask pos i :
  in_u8 v → 0 ≤ mask ≤ 8 → 0 ≤ pos → pos + mask ≤ 32 → 0 ≤ i →
  Z.testbit (pack_channel v mask pos) i =
    (pos <=? i) && (i <? pos + mask) && Z.testbit v (i - pos + (8 - mask)).
Proof.
  intros Hv Hm Hp Hpm Hi. unfold pack_channel. rewrite u32_bit, Z.shiftl_spec by lia.
  destruct (Z.leb_spec pos i); cbn [andb].
  - rewrite u8_bit, Z.shiftr_spec by lia.
    destruct (Z.ltb_spec i (pos + mask)); cbn [andb].
    + destruct (Z.ltb_spec i 32), (Z.ltb_spec (i - pos) 8); try lia. done.
    + rewrite (testbit_above v 8) by (unfold in_u8 in *; lia). by rewrite !andb_false_r.
  - rewrite Z.testbit_neg_r by lia. by rewrite andb_false_r.
Qed.

Lemma unpack_channel_bit c mask pos i :
  0 ≤ mask ≤ 8 → 0 ≤ pos → 0 ≤ i →
  Z.testbit (Z.land (unpack_channel c mask pos) 255) i =
    (i <? 8) && ((i <? 8 - mask) || Z.testbit c (i - (8 - mask) + pos)).
Proof.
  intros Hm Hp Hi. rewrite land_255, u8_bit by lia.
  destruct (Z.ltb_spec i 8); cbn [andb]; [|done]. unfold unpack_channel.
  rewrite Z.lor_spec, low_mask_bit, u32_bit, Z.shiftl_spec by lia.
  destruct (Z.ltb_spec i (8 - mask)); cbn [orb]; [by rewrite orb_true_r |].
  rewrite orb_false_r, Z.land_spec, low_mask_bit, Z.shiftr_spec by lia.
  destruct (Z.ltb_spec i 32), (Z.ltb_spec (i - (8 - mask)) mask); try lia.
  by rewrite andb_true_r.
Qed.

Lemma byte_of_land z : in_u8 (Z.land z 255).
Proof. rewrite land_255. apply u8_range. Qed.

Lemma unmap_pixel_color_ok info c : color_ok (unmap_pixel_color info c).
Proof. unfold color_ok, unmap_pixel_color. cbn [c_r c_g c_b c_a]. auto using byte_of_land. Qed.

(** The description a surface of a known format has. *)
Definition format_info (f : pixel_format) : pixel_info :=
  set_pixel_info (PixelInfo 0 0 0 0 0 0 0 0 0 0 PIXEL_FORMAT_GENERIC) f.

Lemma set_pixel_info_known info f :
  f ≠ PIXEL_FORMAT_GENERIC → set_pixel_info info f = format_info f.
Proof. by destruct f. Qed.

(** Bit [i] of a mapped colour, field by field. *)
Lemma map_pixel_color_bit f col i :
  f ≠ PIXEL_FORMAT_GENERIC → color_ok col → 0 ≤ i →
  let field v mask pos := (pos <=? i) && (i <? pos + mask) && Z.testbit v (i - pos + (8 - mask)) in
  let info := format_info f in
  Z.testbit (map_pixel_color info col) i =
    field (c_r col) (red_mask_size info) (red_field_pos info) ||
    field (c_g col) (green_mask_size info) (green_field_pos info) ||
    field (c_b col) (blue_mask_size info) (blue_field_pos info) ||
    field (c_a col) (alpha_mask_size info) (alpha_field_pos info).
Proof.
  intros Hf (H1 & H2 & H3 & H4) Hi. unfold map_pixel_color. rewrite !Z.lor_spec.
  destruct f; try done; cbn [format_info set_pixel_info red_mask_size red_field_pos
    green_mask_size green_field_pos blue_mask_size blue_field_pos alpha_mask_size alpha_field_pos];
    rewrite !pack_channel_bit by (done || lia); reflexivity.
Qed.

(** A byte is determined by its eight bits. *)
Lemma byte_bits x y :
  in_u8 x → in_u8 y → (∀ i, 0 ≤ i < 8 → Z.testbit x i = Z.testbit y i) → x = y.
Proof.
  intros Hx Hy H. apply Z.bits_inj'. intros i Hi. destruct (Z.ltb_spec i 8); [auto |].
  by rewrite (testbit_above x 8), (testbit_above y 8) by (unfold in_u8 in *; lia).
Qed.

Lemma byte_lor x k : in_u8 x → 0 ≤ k ≤ 8 → in_u8 (Z.lor x (2 ^ k - 1)).
Proof.
  intros Hx Hk. unfold in_u8 in *.
  assert (2 ^ k ≤ 2 ^ 8) by (apply Z.pow_le_mono_r; lia).
  assert (0 < 2 ^ k) by (apply Z.pow_pos_nonneg; lia).
  split; [apply Z.lor_nonneg; lia |]. change 256 with (2 ^ 8).
  destruct (decide (Z.lor x (2 ^ k - 1) = 0)) as [->|]; [lia |].
  apply Z.log2_lt_pow2; [assert (0 ≤ Z.lor x (2 ^ k - 1)) by (apply Z.lor_nonneg; lia); lia |].
  rewrite Z.log2_lor by lia.
  apply Z.max_lub_lt.
  - destruct (decide (x = 0)) as [->|]; [done |]. apply Z.log2_lt_pow2; lia.
  - destruct (decide (2 ^ k - 1 = 0)) as [->|]; [done |]. apply Z.log2_lt_pow2; lia.
Qed.

(** ** Properties *)

(** What a channel of [mask] bits keeps of a byte: the low bits read as ones. *)
Definition quantise (mask v : Z) : Z := Z.lor v (2 ^ (8 - mask) - 1).

Ltac format_fields :=
  cbn [format_info set_pixel_info bits_per_pixel red_mask_size red_field_pos green_mask_size
       green_field_pos blue_mask_size blue_field_pos alpha_mask_size alpha_field_pos] in *.

(** Bits of one channel of [unmap_pixel_color]. *)
Lemma unmap_bits info c i :
  0 ≤ red_mask_size info ≤ 8 → 0 ≤ green_mask_size info ≤ 8 → 0 ≤ blue_mask_size info ≤ 8 →
  0 ≤ alpha_mask_size info ≤ 8 →
  0 ≤ red_field_pos info → 0 ≤ green_field_pos info → 0 ≤ blue_field_pos info →
  0 ≤ alpha_field_pos info → 0 ≤ i < 8 →
  let field mask pos := (i <? 8 - mask) || Z.testbit c (i - (8 - mask) + pos) in
  let col := unmap_pixel_color info c in
  Z.testbit (c_r col) i = field (red_mask_size info) (red_field_pos info) ∧
  Z.testbit (c_g col) i = field (green_mask_size info) (green_field_pos info) ∧
  Z.testbit (c_b col) i = field (blue_mask_size info) (blue_field_pos info) ∧
  Z.testbit (c_a col) i = field (alpha_mask_size info) (alpha_field_pos info).
Proof.
  intros. subst field col. unfold unmap_pixel_color. cbn [c_r c_g c_b c_a].
  assert (i <? 8 = true) as Hi by lia.
  split_and!; rewrite ?unpack_channel_bit by lia; rewrite ?Hi; try done.
  destruct (Z.gtb_spec (alpha_mask_size info) 0).
  - rewrite unpack_channel_bit by lia. by rewrite Hi.
  - assert (alpha_mask_size info = 0) as -> by lia. rewrite Z.sub_0_r, Hi. cbn [orb].
    change (Z.land 255 255) with (Z.ones 8). apply Z.ones_spec_low. lia.
Qed.

Lemma map_pixel_color_range f col :
  f ≠ PIXEL_FORMAT_GENERIC → color_ok col →
  0 ≤ map_pixel_color (format_info f) col < 2 ^ bits_per_pixel (format_info f).
Proof.
  intros Hf Hc.
  assert (H : map_pixel_color (format_info f) col =
    map_pixel_color (format_info f) col mod 2 ^ bits_per_pixel (format_info f)).
  { apply Z.bits_inj'. intros i Hi.
    destruct (Z.ltb_spec i (bits_per_pixel (format_info f))).
    - rewrite Z.mod_pow2_bits_low; [done |]. lia.
    - rewrite Z.mod_pow2_bits_high by (destruct f; try done; format_fields; lia).
      rewrite map_pixel_color_bit by done.
      destruct f; try done; format_fields;
        repeat match goal with |- context [i <? ?k] => destruct (Z.ltb_spec i k); [lia |] end;
        by rewrite !andb_false_r. }
  rewrite H. apply Z.mod_pos_bound. by destruct f.
Qed.

Lemma map_unmap f c :
  f ≠ PIXEL_FORMAT_GENERIC → 0 ≤ c < 2 ^ bits_per_pixel (format_info f) →
  map_pixel_color (format_info f) (unmap_pixel_color (format_info f) c) = c.
Proof.
  intros Hf Hc. apply Z.bits_inj'. intros i Hi.
  rewrite map_pixel_color_bit by (done || apply unmap_pixel_color_ok).
  assert (Hch : ∀ v mask pos,
    (∀ j, 0 ≤ j < 8 → Z.testbit v j = (j <? 8 - mask) || Z.testbit c (j - (8 - mask) + pos)) →
    0 ≤ mask ≤ 8 →
    (pos <=? i) && (i <? pos + mask) && Z.testbit v (i - pos + (8 - mask)) =
    (pos <=? i) && (i <? pos + mask) && Z.testbit c i).
  { intros v mask pos Hv Hm. destruct (Z.leb_spec pos i), (Z.ltb_spec i (pos + mask)); try done.
    cbn [andb]. rewrite Hv by lia.
    destruct (Z.ltb_spec (i - pos + (8 - mask)) (8 - mask)); [lia |]. cbn [orb].
    f_equal. lia. }
  assert (Hu : ∀ j, 0 ≤ j < 8 → _) by
    (intros j Hj; apply (unmap_bits (format_info f) c j); destruct f; try done; format_fields; lia).
  rewrite !Hch by
    (first [intros j Hj; specialize (Hu j Hj); cbv zeta in Hu; tauto
           | destruct f; try done; format_fields; lia]).
  clear Hch Hu.
  assert (Hhi : bits_per_pixel (format_info f) ≤ i → Z.testbit c i = false).
  { intros. apply (testbit_above c (bits_per_pixel (format_info f))); try lia.
    destruct f; try done; format_fields; lia. }
  destruct (Z.testbit c i); [|by rewrite !andb_false_r].
  destruct (decide (bits_per_pixel (format_info f) ≤ i)) as [Hle|Hle]; [by specialize (Hhi Hle) |].
  clear Hhi. rewrite !andb_true_r.
  destruct f; try done; format_fields; lia.
Qed.

(** Evaluate the range tests of the goal. *)
Ltac decide_ranges :=
  repeat match goal with
  | |- context [?a <=? ?b] =>
      first [replace (a <=? b) with true by lia | replace (a <=? b) with false by lia]
  | |- context [?a <? ?b] =>
      first [replace (a <? b) with true by lia | replace (a <? b) with false by lia]
  end.

Lemma unmap_map f col :
  f ≠ PIXEL_FORMAT_GENERIC → color_ok col →
  let info := format_info f in
  unmap_pixel_color info (map_pixel_color info col) =
    Color (quantise (red_mask_size info) (c_r col)) (quantise (green_mask_size info) (c_g col))
          (quantise (blue_mask_size info) (c_b col)) (quantise (alpha_mask_size info) (c_a col)).
Proof.
  intros Hf Hc info.
  pose proof (unmap_pixel_color_ok info (map_pixel_color info col)) as (K1 & K2 & K3 & K4).
  assert (Hu : ∀ j, 0 ≤ j < 8 → _) by
    (intros j Hj; apply (unmap_bits info (map_pixel_color info col) j);
     unfold info; destruct f; try done; format_fields; lia).
  cbv zeta in Hu.
  destruct (unmap_pixel_color info (map_pixel_color info col)) as [r g b a] eqn:E.
  cbn [c_r c_g c_b c_a] in *. destruct Hc as (C1 & C2 & C3 & C4).
  assert (Hq : ∀ v mask pos x, in_u8 v → in_u8 x → 0 ≤ mask ≤ 8 →
    (∀ j, 0 ≤ j < 8 → Z.testbit x j =
       (j <? 8 - mask) || Z.testbit (map_pixel_color info col) (j - (8 - mask) + pos)) →
    (∀ j, 8 - mask ≤ j < 8 →
       Z.testbit (map_pixel_color info col) (j - (8 - mask) + pos) = Z.testbit v j) →
    x = quantise mask v).
  { intros v mask pos x Hv Hx Hm H1 H2. unfold quantise.
    apply byte_bits; [done | apply byte_lor; [done | lia] |]. intros j Hj.
    rewrite H1, Z.lor_spec by done. rewrite Z.sub_1_r, <- Z.ones_equiv.
    destruct (Z.ltb_spec j (8 - mask)); cbn [orb].
    - rewrite Z.ones_spec_low by lia. by rewrite orb_true_r.
    - rewrite Z.ones_spec_high by lia. rewrite orb_false_r. apply H2. lia. }
  assert (Hm : ∀ k, 0 ≤ k → _) by
    (intros k Hk; apply (map_pixel_color_bit f col k Hf); [done | exact Hk]).
  cbv zeta in Hm. fold info in Hm.
  unfold info in *. clear info E.
  destruct f; try done; format_fields;
    f_equal; (eapply Hq; [done | done | lia | intros j Hj; apply (Hu j Hj) |]);
    intros j Hj; rewrite Hm by lia; decide_ranges; rewrite ?orb_false_r; cbn [andb orb];
    f_equal; lia.
Qed.

(** In every known format [map_pixel_color] undoes [unmap_pixel_color] on
    the values of the format, and [unmap_pixel_color] gives back a mapped
    colour up to the low bits its channels drop, which it reads as ones. *)
Theorem pixel_color_roundtrip f :
  f ≠ PIXEL_FORMAT_GENERIC →
  let info := format_info f in
  (∀ c, 0 ≤ c < 2 ^ bits_per_pixel info →
     map_pixel_color info (unmap_pixel_color info c) = c) ∧
  (∀ col, color_ok col →
     0 ≤ map_pixel_color info col < 2 ^ bits_per_pixel info ∧
     unmap_pixel_color info (map_pixel_color info col) =
       Color (quantise (red_mask_size info) (c_r col)) (quantise (green_mask_size info) (c_g col))
             (quantise (blue_mask_size info) (c_b col)) (quantise (alpha_mask_size info) (c_a col))).
Proof.
  intros Hf info. split.
  - intros c Hc. by apply map_unmap.
  - intros col Hcol. split; [by apply map_pixel_color_range | by apply unmap_map].
Qed.

Lemma pixel_color_roundtrip_witness :
  unmap_pixel_color (format_info PIXEL_FORMAT_RGB_565)
    (map_pixel_color (format_info PIXEL_FORMAT_RGB_565) (Color 200 100 50 128)) =
  Color 207 103 55 255.
Proof.
  refine (proj2 (proj2 (pixel_color_roundtrip PIXEL_FORMAT_RGB_565 _) (Color 200 100 50 128) _)).
  - discriminate.
  - unfold color_ok, in_u8. cbn. lia.
Defined.

(** The formats [get_pixel_format] recognises from their description. *)
Definition recognised (f : pixel_format) : bool :=
  match f with
  | PIXEL_FORMAT_ABGR_8888 | PIXEL_FORMAT_BGR_888 | PIXEL_FORMAT_BGR_565 | PIXEL_FORMAT_RGB_565
  | PIXEL_FORMAT_BGR_332 | PIXEL_FORMAT_RGB_332 => true
  | _ => false
  end.

(** [get_pixel_format] gives back the format [set_pixel_info] was called
    with for six of the ten formats; for the other four, whose tests compare
    the red mask size with 16, it answers the generic format. *)
Theorem get_pixel_format_set_pixel_info info f :
  f ≠ PIXEL_FORMAT_GENERIC →
  get_pixel_format (set_pixel_info info f) =
    if recognised f then f else PIXEL_FORMAT_GENERIC.
Proof. by destruct f. Qed.

Lemma get_pixel_format_set_pixel_info_witness :
  get_pixel_format (format_info PIXEL_FORMAT_ARGB_8888) = PIXEL_FORMAT_GENERIC.
Proof. by apply (get_pixel_format_set_pixel_info (format_info PIXEL_FORMAT_GENERIC) PIXEL_FORMAT_ARGB_8888). Defined.
