(* ===== verification/Layout.v ===== *)
(** * Pixels as bytes

    How the true colour formats lay a colour out in little-endian memory, and
    what the 16-bit formats keep of one.  The conversions of
    [sw_blit_replace.c] work on these bytes, while [map_pixel_color] and
    [unmap_pixel_color] of [pixel.c] work on the fields of a word; the lemmas
    relate the two views. *)

From stdpp Require Import prelude gmap.
From Stdlib Require Import ZArith Lia Btauto.
From S2P Require Import Prelude Prog Memory Color Pixel.

Local Open Scope Z_scope.

(** The formats with eight bits for each of red, green and blue. *)
Definition true_colour (f : pixel_format) : bool :=
  match f with
  | PIXEL_FORMAT_ABGR_8888 | PIXEL_FORMAT_ARGB_8888 | PIXEL_FORMAT_BGRA_8888
  | PIXEL_FORMAT_RGBA_8888 | PIXEL_FORMAT_BGR_888 | PIXEL_FORMAT_RGB_888 => true
  | _ => false
  end.

Definition high_colour (f : pixel_format) : bool :=
  match f with PIXEL_FORMAT_BGR_565 | PIXEL_FORMAT_RGB_565 => true | _ => false end.

(** The bytes of a true colour pixel in memory order. *)
Definition layout (f : pixel_format) (col : color_t) : list Z :=
  let '(Color r g b a) := col in
  match f with
  | PIXEL_FORMAT_ABGR_8888 => [r; g; b; a]
  | PIXEL_FORMAT_ARGB_8888 => [b; g; r; a]
  | PIXEL_FORMAT_BGRA_8888 => [a; r; g; b]
  | PIXEL_FORMAT_RGBA_8888 => [a; b; g; r]
  | PIXEL_FORMAT_BGR_888 => [r; g; b]
  | PIXEL_FORMAT_RGB_888 => [b; g; r]
  | _ => []
  end.

Lemma pack_channel_8 v pos : in_u8 v → 0 ≤ pos ≤ 24 → pack_channel v 8 pos = Z.shiftl v pos.
Proof.
  intros Hv Hp. unfold pack_channel. rewrite Z.shiftr_0_r, u8_small by apply Hv.
  apply u32_small. rewrite Z.shiftl_mul_pow2 by lia. unfold in_u8 in Hv.
  assert (2 ^ pos ≤ 2 ^ 24) by (apply Z.pow_le_mono_r; lia).
  assert (0 < 2 ^ pos) by (apply Z.pow_pos_nonneg; lia). nia.
Qed.

Lemma pack_channel_0 v pos : in_u8 v → pack_channel v 0 pos = 0.
Proof.
  intros Hv. unfold pack_channel. unfold in_u8 in Hv.
  replace (Z.shiftr v (8 - 0)) with 0; [by rewrite Z.shiftl_0_l |].
  rewrite Z.shiftr_div_pow2 by lia. symmetry. by apply Z.div_small.
Qed.

(** A mapped true colour is the little-endian value of its layout. *)
Lemma map_layout f col :
  true_colour f = true → color_ok col → map_pixel_color (format_info f) col = le_val (layout f col).
Proof.
  intros Hf (Hr & Hg & Hb & Ha). destruct col as [r g b a]. cbn [c_r c_g c_b c_a] in *.
  unfold map_pixel_color. destruct f; try done; format_fields; cbn [c_r c_g c_b c_a layout le_val];
    rewrite ?pack_channel_8, ?pack_channel_0 by (done || lia);
    rewrite ?Z.shiftl_lor, ?Z.shiftl_shiftl, ?Z.shiftl_0_l, ?Z.shiftl_0_r by lia;
    change (8 + (8 + 8)) with 24; change (8 + 8) with 16;
    apply Z.bits_inj'; intros i _; rewrite ?Z.lor_spec, ?Z.bits_0; btauto.
Qed.

Lemma layout_ok f col : color_ok col → Forall in_u8 (layout f col).
Proof. intros (Hr & Hg & Hb & Ha). destruct col, f; cbn in *; auto using Forall_nil_2, Forall_cons_2. Qed.

Lemma length_layout f col :
  true_colour f = true → length (layout f col) = Z.to_nat (bytes_per_pixel (format_info f)).
Proof. by destruct col, f. Qed.

Lemma le_bytes_map f col :
  true_colour f = true → color_ok col →
  le_bytes (Z.to_nat (bytes_per_pixel (format_info f))) (map_pixel_color (format_info f) col) =
  layout f col.
Proof.
  intros Hf Hc. rewrite map_layout, <- (length_layout f col) by done. by apply le_bytes_val, layout_ok.
Qed.

Lemma quantise_8 v : quantise 8 v = v.
Proof. unfold quantise. cbn. apply Z.lor_0_r. Qed.

Lemma quantise_0 v : in_u8 v → quantise 0 v = 255.
Proof.
  intros Hv. apply byte_bits; [by apply (byte_lor v 8) | done |]. intros i Hi. unfold quantise.
  rewrite Z.lor_spec. change (2 ^ (8 - 0) - 1) with 255. change 255 with (Z.ones 8).
  rewrite Z.ones_spec_low by lia. by rewrite orb_true_r.
Qed.

(** The colour of a true colour pixel; without an alpha channel it is opaque. *)
Lemma unmap_layout f col :
  true_colour f = true → color_ok col →
  unmap_pixel_color (format_info f) (le_val (layout f col)) =
  Color (c_r col) (c_g col) (c_b col)
    (if alpha_mask_size (format_info f) =? 8 then c_a col else 255).
Proof.
  intros Hf Hc. rewrite <- map_layout, unmap_map by (done || by destruct f).
  assert (in_u8 (c_a col)) by apply Hc.
  destruct f; try done; format_fields; rewrite !quantise_8, ?quantise_0 by done; done.
Qed.

(** [chop] clears the low bits that a narrow channel does not have, which
    [unmap_pixel_color] reads as ones. *)
Definition chop_channel (mask v : Z) : Z := Z.land v (256 - 2 ^ (8 - mask)).

Definition chop (info : pixel_info) (col : color_t) : color_t :=
  Color (chop_channel (red_mask_size info) (c_r col)) (chop_channel (green_mask_size info) (c_g col))
        (chop_channel (blue_mask_size info) (c_b col)) (c_a col).

Lemma chop_true_colour f col : true_colour f = true → color_ok col → chop (format_info f) col = col.
Proof.
  intros Hf (Hr & Hg & Hb & Ha). destruct col as [r g b a]. cbn in *.
  assert (∀ v, in_u8 v → chop_channel 8 v = v) as H.
  { intros v Hv. unfold chop_channel. cbn. rewrite land_255. by apply u8_small. }
  unfold chop. destruct f; try done; format_fields; cbn [c_r c_g c_b c_a]; by rewrite !H.
Qed.

(** The three fields of a 16-bit pixel, as the conversions extract them. *)
Lemma chop_565_channel v k pos :
  0 ≤ v < 65536 → 0 ≤ pos → 5 ≤ k ≤ 6 → pos + k ≤ 16 →
  chop_channel k (Z.land (unpack_channel v k pos) 255) =
  Z.shiftl (Z.land (Z.shiftr v pos) (Z.ones k)) (8 - k).
Proof.
  intros Hv Hp Hk Hpk. unfold chop_channel.
  assert (256 - 2 ^ (8 - k) = Z.shiftl (Z.ones k) (8 - k)) as ->
    by (assert (k = 5 ∨ k = 6) as [-> | ->] by lia; done).
  apply Z.bits_inj'. intros i Hi. rewrite Z.land_spec, unpack_channel_bit by lia.
  destruct (Z.ltb_spec i (8 - k)).
  { rewrite !Z.shiftl_spec_low by lia. by rewrite andb_false_r. }
  rewrite !Z.shiftl_spec, Z.land_spec, Z.shiftr_spec by lia. cbn [orb].
  destruct (Z.ltb_spec i 8); cbn [andb]; [done |]. by rewrite Z.ones_spec_high, andb_false_r by lia.
Qed.

(** Masking in place and shifting, as the code has it. *)
Lemma field_up v k pos n :
  0 ≤ pos → 0 ≤ k → 0 ≤ n → pos ≤ n →
  Z.shiftl (Z.land (Z.shiftr v pos) (Z.ones k)) n =
  Z.shiftl (Z.land v (Z.shiftl (Z.ones k) pos)) (n - pos).
Proof.
  intros. apply Z.bits_inj'. intros i Hi.
  destruct (Z.ltb_spec i n).
  - rewrite Z.shiftl_spec_low by lia. rewrite Z.shiftl_spec, Z.land_spec by lia.
    destruct (Z.ltb_spec (i - (n - pos)) 0); [by rewrite Z.testbit_neg_r by lia |].
    by rewrite Z.shiftl_spec_low, andb_false_r by lia.
  - rewrite !Z.shiftl_spec, !Z.land_spec, Z.shiftr_spec, Z.shiftl_spec by lia. do 2 f_equal; lia.
Qed.

Lemma field_down v k pos n :
  0 ≤ k → 0 ≤ n → n ≤ pos →
  Z.shiftl (Z.land (Z.shiftr v pos) (Z.ones k)) n =
  Z.shiftr (Z.land v (Z.shiftl (Z.ones k) pos)) (pos - n).
Proof.
  intros. apply Z.bits_inj'. intros i Hi. rewrite Z.shiftr_spec, Z.land_spec by lia.
  destruct (Z.ltb_spec i n).
  - by rewrite !Z.shiftl_spec_low, andb_false_r by lia.
  - rewrite !Z.shiftl_spec, !Z.land_spec, Z.shiftr_spec by lia. do 2 f_equal; lia.
Qed.

(** The colours the conversions read from a 16-bit pixel. *)
Lemma chop_565 f v :
  high_colour f = true → 0 ≤ v < 65536 →
  chop (format_info f) (unmap_pixel_color (format_info f) v) =
  let hi := Z.shiftr (Z.land v 63488) 8 in
  let mid := Z.shiftr (Z.land v 2016) 3 in
  let lo := Z.shiftl (Z.land v 31) 3 in
  match f with PIXEL_FORMAT_BGR_565 => Color lo mid hi 255 | _ => Color hi mid lo 255 end.
Proof.
  intros Hf Hv. unfold chop, unmap_pixel_color. destruct f; try done; format_fields;
    cbn [c_r c_g c_b c_a]; rewrite !chop_565_channel by lia;
    change (8 - 6) with 2; change (8 - 5) with 3;
    rewrite (field_down v 6 5 2), (field_down v 5 11 3), (field_up v 5 0 3) by lia; done.
Qed.

(** The conversion of a pixel from format [fs] to the true colour format [fd]. *)
Definition convert (fd fs : pixel_format) (l : list Z) : list Z :=
  layout fd (chop (format_info fs) (unmap_pixel_color (format_info fs) (le_val l))).

Lemma chop_ok info col : color_ok col → color_ok (chop info col).
Proof.
  assert (∀ mask v, in_u8 v → in_u8 (chop_channel mask v)) as H.
  { intros mask v Hv. unfold chop_channel. rewrite <- (u8_small v) by apply Hv.
    rewrite <- land_255, <- Z.land_assoc, (Z.land_comm 255), Z.land_assoc, land_255. apply u8_range. }
  intros (Hr & Hg & Hb & Ha). unfold chop, color_ok. cbn. auto.
Qed.

Lemma convert_ok fd fs l :
  true_colour fd = true →
  length (convert fd fs l) = Z.to_nat (bytes_per_pixel (format_info fd)) ∧ Forall in_u8 (convert fd fs l).
Proof.
  intros Hf. split; [by apply length_layout |]. apply layout_ok, chop_ok, unmap_pixel_color_ok.
Qed.

Lemma map_u8_layout f col : color_ok col → map u8 (layout f col) = layout f col.
Proof.
  intros (Hr & Hg & Hb & Ha). destruct col, f; cbn in *; by rewrite ?u8_small by (apply Hr || apply Hg || apply Hb || apply Ha).
Qed.

(** From true colour the channels are kept, and the result is opaque if the
    source has no alpha channel. *)
Lemma convert_true fd fs r g b a :
  true_colour fs = true → in_u8 r → in_u8 g → in_u8 b → in_u8 a →
  convert fd fs (layout fs (Color r g b a)) =
  map u8 (layout fd (Color r g b (if alpha_mask_size (format_info fs) =? 8 then a else 255))).
Proof.
  intros Hf Hr Hg Hb Ha. unfold convert. rewrite unmap_layout by done. cbn [c_r c_g c_b c_a].
  assert (color_ok (Color r g b (if alpha_mask_size (format_info fs) =? 8 then a else 255))) as Hc.
  { unfold color_ok. cbn [c_r c_g c_b c_a]. assert (in_u8 255) by (unfold in_u8; lia). case_match; auto. }
  by rewrite chop_true_colour, map_u8_layout.
Qed.

Lemma convert_high fd fs l :
  high_colour fs = true → length l = 2%nat → Forall in_u8 l →
  convert fd fs l =
  let v := le_val l in
  let hi := Z.shiftr (Z.land v 63488) 8 in
  let mid := Z.shiftr (Z.land v 2016) 3 in
  let lo := Z.shiftl (Z.land v 31) 3 in
  map u8 (layout fd (match fs with PIXEL_FORMAT_BGR_565 => Color lo mid hi 255 | _ => Color hi mid lo 255 end)).
Proof.
  intros Hf Hl Hu. pose proof (le_val_range l Hu) as Hv. rewrite Hl in Hv.
  unfold convert. rewrite <- map_u8_layout by apply chop_ok, unmap_pixel_color_ok.
  by rewrite chop_565.
Qed.

(** The formats of four bytes per pixel. *)
Definition word_format (f : pixel_format) : bool :=
  match f with
  | PIXEL_FORMAT_ABGR_8888 | PIXEL_FORMAT_ARGB_8888 | PIXEL_FORMAT_BGRA_8888
  | PIXEL_FORMAT_RGBA_8888 => true
  | _ => false
  end.

(** The bytes a conversion between true colour formats writes are the
    little-endian bytes of the converted value. *)
Lemma convert_le fd fs l :
  true_colour fd = true → true_colour fs = true →
  convert fd fs l =
  le_bytes (Z.to_nat (bytes_per_pixel (format_info fd)))
    (map_pixel_color (format_info fd) (unmap_pixel_color (format_info fs) (le_val l))).
Proof.
  intros Hd Hs. pose proof (unmap_pixel_color_ok (format_info fs) (le_val l)) as Hc.
  unfold convert. rewrite chop_true_colour, le_bytes_map by done. done.
Qed.
