(* ===== verification/Canvas.v ===== *)
(** * Pixel arrays in memory

    A canvas is [ch] rows of [cw] pixels of [ck] bytes, row [y] starting
    [y * cpitch] bytes after [cbase].  [painted] says which pixels a piece of
    code has written and that it has written nothing else; [wp_raster] reduces
    the nested loops of the drawing code, whatever pointers they run on, to
    one iteration of their body. *)

From stdpp Require Import prelude gmap.
From Stdlib Require Import ZArith Lia.
From S2P Require Import Prelude Prog Memory.

Local Open Scope Z_scope.

Record canvas := Canvas { cbase : Z; cpitch : Z; ck : Z; cw : Z; ch : Z }.

Definition px_addr (cv : canvas) (x y : Z) : Z := cbase cv + y * cpitch cv + x * ck cv.

Definition in_canvas (cv : canvas) (x y : Z) : Prop := 0 ≤ x < cw cv ∧ 0 ≤ y < ch cv.

(** Rows do not overlap and the array does not reach the end of the address
    space. *)
Definition canvas_wf (cv : canvas) : Prop :=
  0 < ck cv ∧ 0 ≤ cw cv ∧ 0 ≤ ch cv ∧ cw cv * ck cv ≤ cpitch cv ∧
  0 ≤ cbase cv ∧ cbase cv + ch cv * cpitch cv < 4294967296.

(** The bytes of pixel [(x, y)] in memory. *)
Definition px_bytes (m : mem) (cv : canvas) (x y : Z) (l : list Z) : Prop :=
  length l = Z.to_nat (ck cv) ∧ has_bytes m (px_addr cv x y) l.

(** Address [a] belongs to pixel [(x, y)]. *)
Definition in_px (cv : canvas) (x y a : Z) : Prop :=
  px_addr cv x y ≤ a < px_addr cv x y + ck cv.

Lemma px_addr_bounds cv x y :
  canvas_wf cv → in_canvas cv x y →
  cbase cv ≤ px_addr cv x y ∧ px_addr cv x y + ck cv ≤ cbase cv + ch cv * cpitch cv.
Proof. unfold canvas_wf, in_canvas, px_addr. nia. Qed.

Lemma px_addr_next cv x y : px_addr cv (x + 1) y = px_addr cv x y + ck cv.
Proof. unfold px_addr. lia. Qed.

(** Different pixels have no byte in common. *)
Lemma in_px_inj cv x y x' y' a :
  canvas_wf cv → in_canvas cv x y → in_canvas cv x' y' →
  in_px cv x y a → in_px cv x' y' a → x = x' ∧ y = y'.
Proof.
  unfold canvas_wf, in_canvas, in_px, px_addr. intros (Hk & Hw & Hh & Hp & _) [Hx Hy] [Hx' Hy'] Ha Ha'.
  assert (x * ck cv + ck cv ≤ cpitch cv) by nia.
  assert (x' * ck cv + ck cv ≤ cpitch cv) by nia.
  assert (y = y') as -> by nia. split; nia.
Qed.

(** The bytes of a pixel as a function of the memory. *)
Definition bytes_at (m : mem) (p : Z) (n : nat) : list Z :=
  map (λ i, default 0 (m !! (p + Z.of_nat i))) (seq 0 n).

Definition px_at (m : mem) (cv : canvas) (x y : Z) : list Z :=
  bytes_at m (px_addr cv x y) (Z.to_nat (ck cv)).

Lemma bytes_at_has m p l : has_bytes m p l → bytes_at m p (length l) = l.
Proof.
  unfold bytes_at. revert p. induction l as [|b l IH]; intros p H; [done |].
  destruct H as [Hb H]. cbn [length seq map]. rewrite Z.add_0_r, Hb. cbn [default]. f_equal.
  rewrite <- (IH (p + 1) H) at 2. rewrite <- seq_shift, map_map.
  apply map_ext. intros i. by replace (p + 1 + Z.of_nat i) with (p + Z.of_nat (S i)) by lia.
Qed.

Lemma px_at_eq m cv x y l : px_bytes m cv x y l → px_at m cv x y = l.
Proof. intros [Hl Hb]. unfold px_at. rewrite <- Hl. by apply bytes_at_has. Qed.

(** ** Painting *)

(** From [m] to [m'] the pixels [D] were set to [px] and no other byte was
    written. *)
Record painted (cv : canvas) (m m' : mem) (D : Z → Z → Prop) (px : Z → Z → list Z) : Prop := {
  painted_in : ∀ x y, D x y → px_bytes m' cv x y (px x y);
  painted_out : ∀ a, (∀ x y, D x y → ¬ in_px cv x y a) → m' !! a = m !! a;
  painted_mapped : ∀ a, is_Some (m !! a) → is_Some (m' !! a);
  painted_ok : bytes_ok m';
}.

Lemma painted_none cv m px : bytes_ok m → painted cv m m (λ _ _, False) px.
Proof. intros. split; naive_solver. Qed.

Lemma painted_iff cv m m' D D' px :
  (∀ x y, D x y ↔ D' x y) → painted cv m m' D px → painted cv m m' D' px.
Proof.
  intros H [P1 P2 P3 P4]. split; try done.
  - intros x y ?%H. auto.
  - intros a Ha. apply P2. intros x y ?%H. auto.
Qed.

Lemma painted_ext cv m m' D px px' :
  (∀ x y, D x y → px x y = px' x y) → painted cv m m' D px → painted cv m m' D px'.
Proof.
  intros H [P1 P2 P3 P4]. split; try done. intros x y HD. rewrite <- H by done. auto.
Qed.

(** A pixel that was not painted, and any other byte, is as before. *)
Lemma painted_other cv m m' D px x y l :
  canvas_wf cv → (∀ x y, D x y → in_canvas cv x y) →
  painted cv m m' D px → in_canvas cv x y → ¬ D x y →
  px_bytes m cv x y l → px_bytes m' cv x y l.
Proof.
  intros Hwf HD Hp Hxy Hn [Hl Hb]. split; [done |].
  eapply has_bytes_agree; [|done]. intros a Ha. apply (painted_out _ _ _ _ _ Hp).
  intros x' y' H' Hin. assert (0 < ck cv) by apply Hwf.
  destruct (in_px_inj cv x y x' y' a) as [-> ->]; auto. unfold in_px. lia.
Qed.

(** Writing one more pixel. *)
Lemma painted_write cv m m' D px x y :
  canvas_wf cv → (∀ x y, D x y → in_canvas cv x y) →
  in_canvas cv x y → ¬ D x y →
  length (px x y) = Z.to_nat (ck cv) → Forall in_u8 (px x y) →
  painted cv m m' D px →
  painted cv m (write_bytes m' (px_addr cv x y) (px x y))
    (λ x' y', D x' y' ∨ (x' = x ∧ y' = y)) px.
Proof.
  intros Hwf HD Hxy Hn Hl Hu Hp. assert (0 < ck cv) by apply Hwf. split.
  - intros x' y' [H'|[-> ->]].
    + destruct (painted_in _ _ _ _ _ Hp x' y' H') as [Hl' Hb']. split; [done |].
      eapply has_bytes_agree; [|done]. intros a Ha. rewrite lookup_write_bytes, decide_False; [done |].
      intros Hin. destruct (in_px_inj cv x y x' y' a) as [-> ->]; auto; unfold in_px; lia.
    + split; [done | apply has_bytes_write].
  - intros a Ha. rewrite lookup_write_bytes, decide_False.
    + apply (painted_out _ _ _ _ _ Hp). auto.
    + intros Hin. apply (Ha x y); [auto |]. unfold in_px. lia.
  - intros a Ha. apply write_bytes_mapped. by apply (painted_mapped _ _ _ _ _ Hp).
  - apply bytes_ok_write; [apply (painted_ok _ _ _ _ _ Hp) | done].
Qed.

(** ** Rasters *)

(** Rows [y0 .. y0 + j) of a rectangle, and the first [i] pixels of the next. *)
Definition raster (x0 y0 w j i x y : Z) : Prop :=
  (y0 ≤ y < y0 + j ∧ x0 ≤ x < x0 + w) ∨ (y = y0 + j ∧ x0 ≤ x < x0 + i).

Definition in_area (x0 y0 w h x y : Z) : Prop := x0 ≤ x < x0 + w ∧ y0 ≤ y < y0 + h.

Lemma raster_row x0 y0 w j x y :
  0 ≤ j → raster x0 y0 w j w x y ↔ raster x0 y0 w (j + 1) 0 x y.
Proof. unfold raster. lia. Qed.

Lemma raster_step x0 y0 w j i x y :
  0 ≤ i → raster x0 y0 w j (i + 1) x y ↔ raster x0 y0 w j i x y ∨ (x = x0 + i ∧ y = y0 + j).
Proof. unfold raster. lia. Qed.

Section raster_loop.
Context (cv : canvas) (x0 y0 w h : Z) (px : Z → Z → list Z).
Hypothesis Hwf : canvas_wf cv.
Hypothesis Hx : 0 ≤ x0 ∧ 0 ≤ w ∧ x0 + w ≤ cw cv.
Hypothesis Hy : 0 ≤ y0 ∧ 0 ≤ h ∧ y0 + h ≤ ch cv.
Hypothesis Hpx : ∀ x y, in_area x0 y0 w h x y →
  length (px x y) = Z.to_nat (ck cv) ∧ Forall in_u8 (px x y).

Lemma raster_in_canvas j i x y :
  0 ≤ j ≤ h → 0 ≤ i ≤ w → (j = h → i = 0) → raster x0 y0 w j i x y → in_canvas cv x y.
Proof using Hx Hy. unfold raster, in_canvas. lia. Qed.

(** One pixel of the raster. *)
Lemma painted_raster_step m m' j i :
  0 ≤ j < h → 0 ≤ i < w →
  painted cv m m' (raster x0 y0 w j i) px →
  painted cv m (write_bytes m' (px_addr cv (x0 + i) (y0 + j)) (px (x0 + i) (y0 + j)))
    (raster x0 y0 w j (i + 1)) px.
Proof using Hwf Hx Hy Hpx.
  intros Hj Hi Hp. destruct (Hpx (x0 + i) (y0 + j)) as [Hl Hu]; [unfold in_area; lia |].
  eapply painted_iff; [intros; symmetry; apply raster_step; lia |].
  apply painted_write; try done.
  - intros x y. apply raster_in_canvas; lia.
  - unfold in_canvas. lia.
  - unfold raster. lia.
Qed.

(** The pixel that comes next has the bytes it had at the start. *)
Lemma raster_next m m' j i l :
  0 ≤ j < h → 0 ≤ i < w → painted cv m m' (raster x0 y0 w j i) px →
  px_bytes m cv (x0 + i) (y0 + j) l → px_bytes m' cv (x0 + i) (y0 + j) l.
Proof using Hwf Hx Hy.
  intros Hj Hi Hp Hl. eapply painted_other; [done | | done | | | done].
  - intros x y. apply raster_in_canvas; lia.
  - unfold in_canvas. lia.
  - unfold raster. lia.
Qed.

(** Nested loops that visit the pixels row by row, [SA j] being the value of
    the outer loop's variables before row [j] and [SB j i] that of the inner
    loop's before pixel [i] of it. *)
Lemma wp_raster_loops {A B} (outer : Z → A → prog mem A) (inner : Z → Z → B → prog mem B)
    (re : Z → B → prog mem A) (SA : Z → A) (SB : Z → Z → B) (m : mem) :
  bytes_ok m →
  (∀ j, 0 ≤ j < h → outer j (SA j) = bind (for_to w (inner j) (SB j 0)) (re j)) →
  (∀ j, 0 ≤ j < h → re j (SB j w) = ret (SA (j + 1))) →
  (∀ j i m', 0 ≤ j < h → 0 ≤ i < w → painted cv m m' (raster x0 y0 w j i) px →
     wp (inner j i (SB j i))
       (λ b m'', b = SB j (i + 1) ∧
          m'' = write_bytes m' (px_addr cv (x0 + i) (y0 + j)) (px (x0 + i) (y0 + j))) m') →
  wp (for_to h outer (SA 0)) (λ a m', a = SA h ∧ painted cv m m' (in_area x0 y0 w h) px) m.
Proof using Hwf Hx Hy Hpx.
  intros Hok Houter Hre Hbody.
  apply (wp_for_to _ _ _ _ (λ j a m', a = SA j ∧ painted cv m m' (raster x0 y0 w j 0) px)).
  - lia.
  - split; [done |]. eapply painted_iff; [|by apply painted_none]. unfold raster. lia.
  - intros j a m1 Hj [-> Hp1]. rewrite Houter by done. apply wp_bind.
    apply (wp_for_to _ _ _ _ (λ i b m', b = SB j i ∧ painted cv m m' (raster x0 y0 w j i) px)).
    + lia.
    + done.
    + intros i b m2 Hi [-> Hp2].
      eapply wp_mono; [by apply Hbody |]. intros b' m3 [-> ->]. split; [done |].
      by apply painted_raster_step.
    + intros b m2 [-> Hp2]. rewrite Hre by done. apply wp_ret. split; [done |].
      eapply painted_iff; [|done]. intros x y. apply raster_row. lia.
  - intros a m1 [-> Hp1]. split; [done |].
    eapply painted_iff; [|done]. unfold raster, in_area. lia.
Qed.

Lemma wp_raster_then {A B C} (r : C) (outer : Z → A → prog mem A) (inner : Z → Z → B → prog mem B)
    (re : Z → B → prog mem A) (SA : Z → A) (SB : Z → Z → B) (m : mem) :
  bytes_ok m →
  (∀ j, 0 ≤ j < h → outer j (SA j) = bind (for_to w (inner j) (SB j 0)) (re j)) →
  (∀ j, 0 ≤ j < h → re j (SB j w) = ret (SA (j + 1))) →
  (∀ j i m', 0 ≤ j < h → 0 ≤ i < w → painted cv m m' (raster x0 y0 w j i) px →
     wp (inner j i (SB j i))
       (λ b m'', b = SB j (i + 1) ∧
          m'' = write_bytes m' (px_addr cv (x0 + i) (y0 + j)) (px (x0 + i) (y0 + j))) m') →
  wp (for_to h outer (SA 0) ;; ret r) (λ _ m', painted cv m m' (in_area x0 y0 w h) px) m.
Proof using Hwf Hx Hy Hpx.
  intros. apply wp_bind. eapply wp_mono; [by apply (wp_raster_loops _ inner re SA SB) |].
  intros a m' [_ Hp]. by apply wp_ret.
Qed.

(** The case where the outer loop's variables seed the inner loop's. *)
Lemma wp_raster {A B} (rb : Z → A → B) (re : Z → A → B → A) (body : Z → Z → B → prog mem B)
    (SA : Z → A) (SB : Z → Z → B) (m : mem) :
  bytes_ok m →
  (∀ j, 0 ≤ j < h → rb j (SA j) = SB j 0) →
  (∀ j, 0 ≤ j < h → re j (SA j) (SB j w) = SA (j + 1)) →
  (∀ j i m', 0 ≤ j < h → 0 ≤ i < w → painted cv m m' (raster x0 y0 w j i) px →
     wp (body j i (SB j i))
       (λ b m'', b = SB j (i + 1) ∧
          m'' = write_bytes m' (px_addr cv (x0 + i) (y0 + j)) (px (x0 + i) (y0 + j))) m') →
  wp (for_to h (λ j a, let* b := for_to w (λ i b, body j i b) (rb j a) in ret (re j a b)) (SA 0))
    (λ a m', a = SA h ∧ painted cv m m' (in_area x0 y0 w h) px) m.
Proof using Hwf Hx Hy Hpx.
  intros Hok Hrb Hre Hbody. apply (wp_raster_loops _ body (λ j b, ret (re j (SA j) b)) SA SB); try done.
  - intros j Hj. by rewrite Hrb.
  - intros j Hj. by rewrite Hre.
Qed.
End raster_loop.

(** Address [a] of a row of pixels belongs to one of them. *)
Lemma in_row_px cv x0 w y a :
  0 < ck cv → px_addr cv x0 y ≤ a < px_addr cv x0 y + w * ck cv →
  ∃ x, x0 ≤ x < x0 + w ∧ in_px cv x y a.
Proof.
  unfold px_addr, in_px, px_addr. intros Hk Ha. set (d := a - (cbase cv + y * cpitch cv + x0 * ck cv)).
  pose proof (Z.div_mod d (ck cv) ltac:(lia)). pose proof (Z.mod_pos_bound d (ck cv) Hk).
  exists (x0 + d / ck cv). split; [|nia].
  assert (0 ≤ d / ck cv) by (apply Z.div_pos; lia).
  assert (d / ck cv < w) by (apply Z.div_lt_upper_bound; lia). lia.
Qed.

(** Copying a row of pixels over the next row of a painted area. *)
Lemma painted_copy_row cv m m1 m2 x0 y0 w j px src :
  canvas_wf cv → 0 ≤ x0 → 0 ≤ w → x0 + w ≤ cw cv → 0 ≤ y0 → 0 ≤ j → y0 + j < ch cv →
  painted cv m m1 (in_area x0 y0 w j) px →
  mapped m1 src (w * ck cv) → copied m1 m2 (px_addr cv x0 (y0 + j)) src (w * ck cv) →
  (∀ x, x0 ≤ x < x0 + w → length (px x (y0 + j)) = Z.to_nat (ck cv) ∧
     has_bytes m1 (src + (x - x0) * ck cv) (px x (y0 + j))) →
  painted cv m m2 (in_area x0 y0 w (j + 1)) px.
Proof.
  intros Hwf Hx Hw Hxw Hy Hj Hyj Hp Hm Hc Hpx. assert (0 < ck cv) as Hk by apply Hwf.
  assert (∀ x y, y0 ≤ y < y0 + (j + 1) → x0 ≤ x < x0 + w → in_canvas cv x y) as Hcv
    by (unfold in_canvas; lia).
  split.
  - intros x y [Hxr Hyr]. destruct (decide (y = y0 + j)) as [->|Hne].
    + destruct (Hpx x Hxr) as [Hl Hb]. split; [done |].
      apply has_bytes_lookup. intros i b Hi. apply lookup_lt_Some in Hi as Hlt.
      rewrite Hc, decide_True by (unfold px_addr in *; nia).
      apply (proj1 (has_bytes_lookup _ _ _) Hb) in Hi. rewrite <- Hi.
      apply lookup_eq. unfold px_addr. lia.
    + destruct (painted_in _ _ _ _ _ Hp x y) as [Hl Hb]; [unfold in_area; lia |]. split; [done |].
      eapply has_bytes_agree; [|done]. intros a Ha. rewrite Hc, decide_False; [done |].
      intros (x' & Hx' & Hin)%in_row_px; [|done].
      destruct (in_px_inj cv x y x' (y0 + j) a) as [_ ->]; auto; try (apply Hcv; lia).
      unfold in_px. lia.
  - intros a Ha. rewrite Hc, decide_False.
    + apply (painted_out _ _ _ _ _ Hp). intros x y Hxy. apply Ha. unfold in_area in *. lia.
    + intros (x' & Hx' & Hin)%in_row_px; [|done]. eapply Ha; [|done]. unfold in_area. lia.
  - intros a Ha. eapply copied_mapped; [done | done |]. by apply (painted_mapped _ _ _ _ _ Hp).
  - intros a b Hb. rewrite Hc in Hb. case_decide; by eapply (painted_ok _ _ _ _ _ Hp).
Qed.

(** Pixels that keep their bytes count as painted with them. *)
Lemma painted_same cv m D :
  bytes_ok m → (∀ x y, D x y → mapped m (px_addr cv x y) (ck cv)) → 0 < ck cv →
  painted cv m m D (px_at m cv).
Proof.
  intros Hok HD Hk. split; [|done|done|done]. intros x y H%HD.
  rewrite <- (Z2Nat.id (ck cv)) in H by lia. destruct (mapped_has_bytes _ _ _ H) as (l & Hl & Hb).
  assert (px_bytes m cv x y l) as Hpx by done. by rewrite (px_at_eq _ _ _ _ _ Hpx).
Qed.

(** The pixel an address belongs to is found by division. *)
Lemma in_px_find cv x y a :
  canvas_wf cv → in_canvas cv x y → in_px cv x y a →
  y = (a - cbase cv) / cpitch cv ∧ x = ((a - cbase cv) mod cpitch cv) / ck cv.
Proof.
  unfold canvas_wf, in_canvas, in_px, px_addr. intros (Hk & Hw & Hh & Hp & _) [Hx Hy] Ha.
  assert (0 ≤ x * ck cv ∧ x * ck cv + ck cv ≤ cpitch cv) by nia.
  set (d := a - cbase cv - y * cpitch cv - x * ck cv).
  assert (a - cbase cv = y * cpitch cv + (x * ck cv + d)) as -> by lia.
  rewrite Z.div_add_l, Z.div_small by lia. split; [lia |].
  rewrite Z.add_comm, Z.mod_add, Z.mod_small by lia. rewrite Z.div_add_l, Z.div_small by lia. lia.
Qed.

Lemma in_px_dec cv (D : Z → Z → Prop) a :
  canvas_wf cv → (∀ x y, D x y → in_canvas cv x y) → (∀ x y, Decision (D x y)) →
  (∃ x y, D x y ∧ in_px cv x y a) ∨ (∀ x y, D x y → ¬ in_px cv x y a).
Proof.
  intros Hwf HD Hdec. set (y := (a - cbase cv) / cpitch cv).
  set (x := ((a - cbase cv) mod cpitch cv) / ck cv).
  assert (Decision (in_px cv x y a)) by (unfold in_px; apply _).
  destruct (decide (D x y ∧ in_px cv x y a)) as [|Hn]; [naive_solver |]. right. intros x' y' H' Hin.
  destruct (in_px_find cv x' y' a) as [-> ->]; auto.
Qed.

(** What is painted where determines the memory. *)
Lemma painted_det cv m m1 m2 D px :
  canvas_wf cv → (∀ x y, D x y → in_canvas cv x y) → (∀ x y, Decision (D x y)) →
  painted cv m m1 D px → painted cv m m2 D px → m1 = m2.
Proof.
  intros Hwf HD Hdec P1 P2. assert (0 < ck cv) by apply Hwf. apply map_eq. intros a.
  destruct (in_px_dec cv D a Hwf HD Hdec) as [(x & y & H' & Hin)|Hn].
  - destruct (painted_in _ _ _ _ _ P1 x y H') as [Hl B1].
    destruct (painted_in _ _ _ _ _ P2 x y H') as [_ B2].
    assert (Z.to_nat (a - px_addr cv x y) < length (px x y))%nat as Hlt by (unfold in_px in Hin; lia).
    apply lookup_lt_is_Some_2 in Hlt as [b Hb].
    pose proof (proj1 (has_bytes_lookup _ _ _) B1 _ _ Hb) as E1.
    pose proof (proj1 (has_bytes_lookup _ _ _) B2 _ _ Hb) as E2.
    replace (px_addr cv x y + Z.of_nat (Z.to_nat (a - px_addr cv x y))) with a in E1, E2
      by (unfold in_px in Hin; lia).
    by rewrite E1, E2.
  - by rewrite (painted_out _ _ _ _ _ P1), (painted_out _ _ _ _ _ P2).
Qed.

#[export] Instance in_area_dec x0 y0 w h x y : Decision (in_area x0 y0 w h x y).
Proof. unfold in_area. apply _. Defined.

(** One painting after another: the later one counts where both paint. *)
Lemma painted_trans cv m m1 m2 (D1 D2 : Z → Z → Prop) px1 px2 px :
  canvas_wf cv → (∀ x y, D1 x y → in_canvas cv x y) → (∀ x y, D2 x y → in_canvas cv x y) →
  (∀ x y, Decision (D2 x y)) →
  painted cv m m1 D1 px1 → painted cv m1 m2 D2 px2 →
  (∀ x y, D2 x y → px x y = px2 x y) → (∀ x y, D1 x y → ¬ D2 x y → px x y = px1 x y) →
  painted cv m m2 (λ x y, D1 x y ∨ D2 x y) px.
Proof.
  intros Hwf H1 H2 Hdec P1 P2 E2 E1. split.
  - intros x y Hxy. destruct (decide (D2 x y)) as [Hd|Hd].
    + rewrite E2 by done. by apply (painted_in _ _ _ _ _ P2).
    + destruct Hxy as [Hd1|]; [| done]. rewrite E1 by done.
      eapply painted_other; [done | exact H2 | done | by apply H1 | done |].
      by apply (painted_in _ _ _ _ _ P1).
  - intros a Ha. rewrite (painted_out _ _ _ _ _ P2) by naive_solver.
    apply (painted_out _ _ _ _ _ P1). naive_solver.
  - intros a Ha. by apply (painted_mapped _ _ _ _ _ P2), (painted_mapped _ _ _ _ _ P1).
  - apply (painted_ok _ _ _ _ _ P2).
Qed.

(** Painting over a part of what was painted. *)
Lemma painted_over cv m m1 m2 (D D2 : Z → Z → Prop) px1 px2 px :
  canvas_wf cv → (∀ x y, D x y → in_canvas cv x y) → (∀ x y, D2 x y → D x y) →
  (∀ x y, Decision (D2 x y)) →
  painted cv m m1 D px1 → painted cv m1 m2 D2 px2 →
  (∀ x y, D2 x y → px x y = px2 x y) → (∀ x y, D x y → ¬ D2 x y → px x y = px1 x y) →
  painted cv m m2 D px.
Proof.
  intros Hwf HD H2 Hdec P1 P2 E2 E1. apply painted_iff with (D := λ x y, D x y ∨ D2 x y).
  - intros x y. split; [intros [?|?]; auto | auto].
  - by eapply (painted_trans _ _ _ _ _ _ _ _ _ Hwf HD); eauto.
Qed.
