(* ===== verification/Surface.v ===== *)
(** * Surfaces: [surface.c], [maps.c], [sw_utils.c] and [sw_point.c]

    A surface is an array of pixels with a format and a clip rectangle.  This
    file has the surface record, the clip rectangle, the access to single
    pixels and the drawing of a point; the functions that allocate surfaces
    are in [SurfaceAlloc]. *)

From stdpp Require Import prelude gmap.
From Stdlib Require Import ZArith Lia.
From S2P Require Import Prelude Prog Memory Rect Color Pixel Canvas.

Local Open Scope Z_scope.
Local Open Scope word_scope.

(** ** Data *)

Inductive surface_pixels := SURFACE_PIXELS_NEEDFREE | SURFACE_PIXELS_DONTFREE.

#[export] Instance surface_pixels_eq_dec : EqDecision surface_pixels.
Proof. solve_decision. Defined.

Definition BLEND_MODE_REPLACE : Z := 0.
Definition BLEND_MODE_ALPHA : Z := 1.

(** The functions a slot of [struct surface_maps] can point to. *)
Inductive map_fn :=
  | map_point_sw | map_hline_sw | map_vline_sw | map_fill_sw | map_blit_sw
  | map_scale_sw | map_rotate_sw.

#[export] Instance map_fn_eq_dec : EqDecision map_fn.
Proof. solve_decision. Defined.

Record surface_maps := Maps {
  maps_point : option map_fn;
  maps_hline : option map_fn;
  maps_vline : option map_fn;
  maps_fill : option map_fn;
  maps_blit : option map_fn;
  maps_scale : option map_fn;
  maps_rotate : option map_fn;
}.

Record surface_t := Surface {
  info : pixel_info;
  s_w : Z;
  s_h : Z;
  s_pitch : Z;
  s_flag : surface_pixels;
  s_pixels : Z;
  s_clip : rect_t;
  s_maps : surface_maps;
}.

(** ** Map table, clip rectangle, colours *)

(** [if (!slot) slot = f;] *)
Definition default_map (slot : option map_fn) (f : map_fn) : option map_fn :=
  match slot with None => Some f | Some g => Some g end.

Definition surface_set_maps (maps : option surface_maps) : bool * option surface_maps :=
  match maps with
  | None => (false, None)
  | Some maps =>
      (true,
       Some (Maps (default_map (maps_point maps) map_point_sw)
                  (default_map (maps_hline maps) map_hline_sw)
                  (default_map (maps_vline maps) map_vline_sw)
                  (default_map (maps_fill maps) map_fill_sw)
                  (default_map (maps_blit maps) map_blit_sw)
                  (default_map (maps_scale maps) map_scale_sw)
                  (default_map (maps_rotate maps) map_rotate_sw)))
  end.

Definition set_clip (s : surface_t) (r : rect_t) : surface_t :=
  Surface (info s) (s_w s) (s_h s) (s_pitch s) (s_flag s) (s_pixels s) r (s_maps s).

Definition surface_set_clip_rect (surface : option surface_t) (rect : option rect_t)
    : bool * option surface_t :=
  match surface with
  | None => (false, None)
  | Some s =>
      match rect with
      | None => (true, Some (set_clip s (Rect 0 0 (s32 (s_w s)) (s32 (s_h s)))))
      | Some rect =>
          let full := Rect 0 0 (s32 (s_w s)) (s32 (s_h s)) in
          let '(hit, clip) := rect_intersect rect full in
          (hit, Some (set_clip s clip))
      end
  end.

(** The rectangle is the caller's variable; [None] is a null pointer to it. *)
Definition surface_get_clip_rect (surface : option surface_t) (rect : option rect_t)
    : bool * option rect_t :=
  match surface with
  | None => (false, rect)
  | Some s =>
      match rect with
      | None => (false, None)
      | Some _ => (true, Some (Rect (rx (s_clip s)) (ry (s_clip s)) (rw (s_clip s)) (rh (s_clip s))))
      end
  end.

Definition surface_map_color (surface : option surface_t) (col : option color_t) : Z :=
  match surface, col with
  | Some s, Some col => map_pixel_color (info s) col
  | _, _ => 0
  end.

Definition surface_unmap_color (surface : option surface_t) (c : Z) (col : option color_t)
    : option color_t :=
  match surface, col with
  | Some s, Some _ => Some (unmap_pixel_color (info s) c)
  | _, _ => col
  end.

(** ** Single pixels *)

(** The value of the [#if (BYTE_ORDER == BIG_ENDIAN)] tests.  No header the
    drawing code includes and no compiler flag of the build defines the two
    identifiers, and the preprocessor evaluates an identifier that is not a
    macro as zero. *)
Definition BYTE_ORDER : Z := 0.
Definition BIG_ENDIAN : Z := 0.
Definition big_endian : bool := BYTE_ORDER =? BIG_ENDIAN.

(** [surface->pixels + y * surface->pitch + dx] *)
Definition pixel_ptr (s : surface_t) (y dx : Z) : Z :=
  ptr_add (ptr_add (s_pixels s) (u32 y *u s_pitch s)) dx.

Definition surface_sw_get_pointer (s : surface_t) (x y : Z) : Z :=
  let bpp := bytes_per_pixel (info s) in
  if bpp =? 1 then pixel_ptr s y x
  else if bpp =? 2 then pixel_ptr s y (x *s 2)
  else if bpp =? 3 then pixel_ptr s y (x *s 3)
  else if bpp =? 4 then pixel_ptr s y (x *s 4)
  else 0.

Definition surface_sw_get_pixel (s : surface_t) (x y : Z) : prog mem Z :=
  let bpp := bytes_per_pixel (info s) in
  if bpp =? 1 then load8 (pixel_ptr s y x)
  else if bpp =? 2 then load16 (pixel_ptr s y (x *s 2))
  else if bpp =? 3 then
    let p := pixel_ptr s y (x *s 3) in
    let* p0 := load8 p in
    let* p1 := load8 (ptr_add p 1) in
    let* p2 := load8 (ptr_add p 2) in
    if big_endian
    then ret (Z.lor (Z.lor p2 (Z.shiftl p1 8)) (Z.shiftl p0 16))
    else ret (Z.lor (Z.lor p0 (Z.shiftl p1 8)) (Z.shiftl p2 16))
  else if bpp =? 4 then load32 (pixel_ptr s y (x *s 4))
  else ret 0.

Definition surface_sw_set_pixel (s : surface_t) (x y c : Z) : prog mem unit :=
  let bpp := bytes_per_pixel (info s) in
  if bpp =? 1 then store8 (pixel_ptr s y x) (u8 c)
  else if bpp =? 2 then store16 (pixel_ptr s y (x *s 2)) (u16 c)
  else if bpp =? 3 then
    let p := pixel_ptr s y (x *s 3) in
    if big_endian then
      store8 p (Z.land (Z.shiftr c 16) 255) ;;
      store8 (ptr_add p 1) (Z.land (Z.shiftr c 8) 255) ;;
      store8 (ptr_add p 2) (Z.land c 255)
    else
      store8 p (Z.land c 255) ;;
      store8 (ptr_add p 1) (Z.land (Z.shiftr c 8) 255) ;;
      store8 (ptr_add p 2) (Z.land (Z.shiftr c 16) 255)
  else if bpp =? 4 then store32 (pixel_ptr s y (x *s 4)) (u32 c)
  else ret tt.

(** [col.x = (((scol.x - dcol.x) * alpha) >> 8) + dcol.x] on bytes. *)
Definition blend_channel (sc dc alpha : Z) : Z := u8 (Z.shiftr ((sc - dc) * alpha) 8 + dc).

Definition blend (scol dcol : color_t) (alpha : Z) : color_t :=
  Color (blend_channel (c_r scol) (c_r dcol) alpha)
        (blend_channel (c_g scol) (c_g dcol) alpha)
        (blend_channel (c_b scol) (c_b dcol) alpha)
        (blend_channel (c_a scol) (c_a dcol) alpha).

Definition surface_sw_set_pixel_with_alpha (s : surface_t) (x y c : Z) : prog mem unit :=
  let scol := unmap_pixel_color (info s) c in
  let alpha := c_a scol in
  if alpha =? 255 then surface_sw_set_pixel s x y c
  else if alpha =? 0 then ret tt
  else
    let* dc := surface_sw_get_pixel s x y in
    let dcol := unmap_pixel_color (info s) dc in
    let col := blend scol dcol alpha in
    let dc := map_pixel_color (info s) col in
    surface_sw_set_pixel s x y dc.

(** ** Points and lines *)

Definition map_software_point (surface : option surface_t) (x y c mode : Z) : prog mem bool :=
  match surface with
  | None => ret false
  | Some s =>
      if s_pixels s =? 0 then ret false
      else if bits_per_pixel (info s) <? 8 then ret false
      else
        let minx := rx (s_clip s) in
        let maxx := rx (s_clip s) +s rw (s_clip s) -s 1 in
        let miny := ry (s_clip s) in
        let maxy := ry (s_clip s) +s rh (s_clip s) -s 1 in
        if (x <? minx) || (x >? maxx) || (y <? miny) || (y >? maxy) then ret true
        else if mode =? BLEND_MODE_REPLACE then surface_sw_set_pixel s x y c ;; ret true
        else if mode =? BLEND_MODE_ALPHA then surface_sw_set_pixel_with_alpha s x y c ;; ret true
        else ret false
  end.

Definition map_software_hline (surface : option surface_t) (x0 y0 x1 c mode : Z) : prog mem bool :=
  ret false.

Definition map_software_vline (surface : option surface_t) (x0 y0 y1 c mode : Z) : prog mem bool :=
  ret false.

(** A call through the [point] slot; a slot that holds a function of another
    type is undefined behaviour. *)
Definition surface_point (surface : option surface_t) (x y c mode : Z) : prog mem bool :=
  match surface with
  | None => ret false
  | Some s =>
      match maps_point (s_maps s) with
      | None => ret false
      | Some map_point_sw => map_software_point (Some s) x y c mode
      | Some _ => fault
      end
  end.

(** ** Surfaces as pixel arrays *)

Definition canvas_of (s : surface_t) : canvas :=
  Canvas (s_pixels s) (s_pitch s) (bytes_per_pixel (info s)) (s_w s) (s_h s).

(** The bytes of a pixel of value [c], and the value of the bytes of a pixel. *)
Definition px_enc (s : surface_t) (c : Z) : list Z :=
  let l := le_bytes (Z.to_nat (bytes_per_pixel (info s))) c in
  if (bytes_per_pixel (info s) =? 3) && big_endian then rev l else l.

Definition px_dec (s : surface_t) (l : list Z) : Z :=
  if (bytes_per_pixel (info s) =? 3) && big_endian then le_val (rev l) else le_val l.

(** The bytes of a pixel that held [l] once [c] is drawn over it. *)
Definition alpha_px (s : surface_t) (c : Z) (l : list Z) : list Z :=
  let scol := unmap_pixel_color (info s) c in
  if c_a scol =? 255 then px_enc s c
  else if c_a scol =? 0 then l
  else px_enc s (map_pixel_color (info s)
                   (blend scol (unmap_pixel_color (info s) (px_dec s l)) (c_a scol))).

Definition drawn_px (s : surface_t) (mode c : Z) (l : list Z) : list Z :=
  if mode =? BLEND_MODE_REPLACE then px_enc s c else alpha_px s c l.

(** A surface the drawing code can work on: its pixels take 1 to 4 bytes, its
    rows do not overlap and start a multiple of four bytes apart, and its clip rectangle is inside of it. *)
Definition clip_in (s : surface_t) : Prop :=
  0 ≤ rx (s_clip s) ∧ 0 ≤ ry (s_clip s) ∧ 0 ≤ rw (s_clip s) ∧ 0 ≤ rh (s_clip s) ∧
  rx (s_clip s) + rw (s_clip s) ≤ s_w s ∧ ry (s_clip s) + rh (s_clip s) ≤ s_h s.

Record surface_wf (s : surface_t) : Prop := {
  wf_canvas : canvas_wf (canvas_of s);
  wf_pixels : 0 < s_pixels s;
  wf_bpp : 1 ≤ bytes_per_pixel (info s) ≤ 4;
  wf_bits : 8 ≤ bits_per_pixel (info s);
  wf_w : 0 ≤ s_w s < 536870912;
  wf_h : 0 ≤ s_h s < 536870912;
  wf_pitch : s_pitch s `mod` 4 = 0;
  wf_clip : clip_in s;
}.

(** The pixels of the surface are mapped. *)
Definition surface_in (m : mem) (s : surface_t) : Prop :=
  bytes_ok m ∧ mapped m (s_pixels s) (s_h s * s_pitch s).

Lemma length_px_enc s c : length (px_enc s c) = Z.to_nat (bytes_per_pixel (info s)).
Proof. unfold px_enc. case_match; rewrite ?length_rev; apply length_le_bytes. Qed.

Lemma px_enc_in_u8 s c : Forall in_u8 (px_enc s c).
Proof.
  unfold px_enc. case_match; [apply Forall_rev|]; apply le_bytes_in_u8.
Qed.

(** A stored pixel reads back as its value modulo the size of a pixel. *)
Lemma px_dec_enc s c :
  px_dec s (px_enc s c) = c `mod` 2 ^ (8 * Z.of_nat (Z.to_nat (bytes_per_pixel (info s)))).
Proof.
  unfold px_dec, px_enc. case_match; rewrite ?rev_involutive; by rewrite le_val_bytes.
Qed.

Lemma px_enc_dec s l :
  length l = Z.to_nat (bytes_per_pixel (info s)) → Forall in_u8 l → px_enc s (px_dec s l) = l.
Proof.
  intros Hl Hu. unfold px_dec, px_enc. rewrite <- Hl. case_match.
  - rewrite <- (length_rev l), le_bytes_val by by apply Forall_rev. apply rev_involutive.
  - by apply le_bytes_val.
Qed.

Lemma get_pointer_addr s x y :
  1 ≤ bytes_per_pixel (info s) ≤ 4 →
  surface_sw_get_pointer s x y = u32 (px_addr (canvas_of s) x y).
Proof.
  intros Hk. unfold surface_sw_get_pointer, pixel_ptr, ptr_add, px_addr. cbn [cbase cpitch ck canvas_of].
  assert (bytes_per_pixel (info s) = 1 ∨ bytes_per_pixel (info s) = 2 ∨
          bytes_per_pixel (info s) = 3 ∨ bytes_per_pixel (info s) = 4) as [E|[E|[E|E]]] by lia;
    rewrite E; cbn [Z.eqb Pos.eqb]; autorewrite with words; f_equal; lia.
Qed.

Section pixels.
Context (s : surface_t) (Hwf : surface_wf s).
Implicit Types (x y c : Z) (m : mem).

Lemma pixel_ptr_eq x y :
  in_canvas (canvas_of s) x y →
  pixel_ptr s y (x *s bytes_per_pixel (info s)) = px_addr (canvas_of s) x y.
Proof using Hwf.
  intros Hxy. pose proof (px_addr_bounds _ x y (wf_canvas _ Hwf) Hxy) as Hb.
  destruct Hwf as [Hc Hp Hk _ Hw Hh _ _]. unfold canvas_wf, in_canvas, px_addr in *. cbn in *.
  assert (0 ≤ y * s_pitch s < 4294967296) by nia.
  unfold pixel_ptr, ptr_add. rewrite (u32_small y), (u32_small (y * _)), (s32_small (x * _)) by nia.
  rewrite (u32_small (s_pixels s + _)), u32_small by nia. done.
Qed.

Lemma px_mapped m x y :
  surface_in m s → in_canvas (canvas_of s) x y →
  mapped m (px_addr (canvas_of s) x y) (bytes_per_pixel (info s)).
Proof using Hwf.
  intros [_ Hm] Hxy. pose proof (px_addr_bounds _ x y (wf_canvas _ Hwf) Hxy) as Hb. cbn in Hb.
  eapply mapped_sub; [exact Hm | lia | lia].
Qed.

Lemma px_bytes_exist m x y :
  surface_in m s → in_canvas (canvas_of s) x y →
  ∃ l, px_bytes m (canvas_of s) x y l ∧ Forall in_u8 l.
Proof using Hwf.
  intros Hin Hxy. pose proof (px_mapped m x y Hin Hxy) as Hm.
  pose proof (wf_bpp _ Hwf). rewrite <- (Z2Nat.id (bytes_per_pixel (info s))) in Hm by lia.
  destruct (mapped_has_bytes _ _ _ Hm) as (l & Hl & Hb). exists l. split; [by split |]. eapply has_bytes_in_u8; [apply Hin | done].
Qed.

Lemma wp_sw_get_pixel m x y l (Q : Z → mem → Prop) :
  in_canvas (canvas_of s) x y → px_bytes m (canvas_of s) x y l →
  Q (px_dec s l) m → wp (surface_sw_get_pixel s x y) Q m.
Proof using Hwf.
  intros Hxy [Hl Hb] HQ. pose proof (px_addr_bounds _ x y (wf_canvas _ Hwf) Hxy) as Hbd.
  pose proof (pixel_ptr_eq x y Hxy) as Hp. pose proof (wf_bpp _ Hwf) as Hk.
  destruct (wf_canvas _ Hwf) as (_ & _ & _ & _ & H0 & H1). pose proof (wf_w _ Hwf).
  cbn in Hl, Hbd, H0, H1. unfold surface_sw_get_pixel, px_dec, in_canvas in *. cbn in Hxy.
  assert (bytes_per_pixel (info s) = 1 ∨ bytes_per_pixel (info s) = 2 ∨
          bytes_per_pixel (info s) = 3 ∨ bytes_per_pixel (info s) = 4) as [E|[E|[E|E]]] by lia;
    rewrite E in *; cbn [Z.eqb Pos.eqb andb] in *.
  - rewrite Z.mul_1_r, s32_small in Hp by lia. rewrite Hp. destruct l as [|b [|]]; try done.
    eapply wp_load8; [apply Hb |]. cbn in HQ. by rewrite Z.lor_0_r in HQ.
  - rewrite Hp. eapply wp_load16; eauto; lia.
  - destruct l as [|b0 [|b1 [|b2 [|]]]]; try done. destruct Hb as (Hb0 & Hb1 & Hb2 & _).
    rewrite Hp, !ptr_add_small by lia. rewrite <- Z.add_assoc in Hb2.
    apply wp_bind; eapply wp_load8; [done |]. apply wp_bind; eapply wp_load8; [done |].
    apply wp_bind; eapply wp_load8; [done |]. apply wp_ret.
    unfold big_endian, BYTE_ORDER, BIG_ENDIAN in *. cbn -[Z.shiftl] in *.
    rewrite ?Z.shiftl_0_l, Z.lor_0_r, Z.shiftl_lor, Z.shiftl_shiftl, Z.lor_assoc in HQ by lia. done.
  - rewrite Hp. eapply wp_load32; eauto; lia.
Qed.

Lemma wp_sw_set_pixel m x y c (Q : unit → mem → Prop) :
  in_canvas (canvas_of s) x y → mapped m (px_addr (canvas_of s) x y) (bytes_per_pixel (info s)) →
  Q tt (write_bytes m (px_addr (canvas_of s) x y) (px_enc s c)) →
  wp (surface_sw_set_pixel s x y c) Q m.
Proof using Hwf.
  intros Hxy Hm HQ. pose proof (px_addr_bounds _ x y (wf_canvas _ Hwf) Hxy) as Hbd.
  pose proof (pixel_ptr_eq x y Hxy) as Hp. pose proof (wf_bpp _ Hwf) as Hk.
  destruct (wf_canvas _ Hwf) as (_ & _ & _ & _ & H0 & H1). pose proof (wf_w _ Hwf).
  cbn in Hbd, H0, H1. unfold surface_sw_set_pixel, px_enc, in_canvas in *. cbn in Hxy.
  assert (bytes_per_pixel (info s) = 1 ∨ bytes_per_pixel (info s) = 2 ∨
          bytes_per_pixel (info s) = 3 ∨ bytes_per_pixel (info s) = 4) as [E|[E|[E|E]]] by lia;
    rewrite E in *; cbn [Z.eqb Pos.eqb andb] in *.
  - rewrite Z.mul_1_r, s32_small in Hp by lia. rewrite Hp.
    apply wp_store8; [apply Hm; lia |]. by rewrite u8_idemp.
  - rewrite Hp. apply wp_store16; try done; [lia | lia |]. change (u16 c) with (c mod 2 ^ (8 * Z.of_nat 2)). by rewrite le_bytes_mod.
  - rewrite Hp, !ptr_add_small by lia. unfold big_endian, BYTE_ORDER, BIG_ENDIAN in *. cbn -[Z.shiftr] in *.
    apply wp_bind, wp_store8; [apply Hm; lia |].
    apply wp_bind, wp_store8; [rewrite !lookup_insert_is_Some'; right; apply Hm; lia |].
    apply wp_store8; [rewrite !lookup_insert_is_Some'; right; right; apply Hm; lia |].
    rewrite !land_255, !u8_idemp. change (Z.to_nat 3) with 3%nat in HQ.
    cbn -[Z.shiftr u8] in HQ. rewrite Z.shiftr_shiftr, <- Z.add_assoc in HQ by lia.
    rewrite (insert_insert_ne _ (_ + 2)), (insert_insert_ne _ (_ + 2) _), (insert_insert_ne _ (_ + 1)) by lia.
    done.
  - rewrite Hp. apply wp_store32; try done; [lia | lia |]. change (u32 c) with (c mod 2 ^ (8 * Z.of_nat 4)). by rewrite le_bytes_mod.
Qed.

Lemma px_bytes_at m x y :
  surface_in m s → in_canvas (canvas_of s) x y →
  px_bytes m (canvas_of s) x y (px_at m (canvas_of s) x y).
Proof using Hwf.
  intros Hin Hxy. destruct (px_bytes_exist m x y Hin Hxy) as (l & Hl & _).
  by rewrite (px_at_eq _ _ _ _ _ Hl).
Qed.

Lemma wp_sw_set_pixel_with_alpha m x y c l (Q : unit → mem → Prop) :
  in_canvas (canvas_of s) x y → px_bytes m (canvas_of s) x y l →
  Q tt (write_bytes m (px_addr (canvas_of s) x y) (alpha_px s c l)) →
  wp (surface_sw_set_pixel_with_alpha s x y c) Q m.
Proof using Hwf.
  intros Hxy Hb HQ. pose proof (wf_bpp _ Hwf).
  assert (mapped m (px_addr (canvas_of s) x y) (bytes_per_pixel (info s))) as Hm.
  { destruct Hb as [Hl Hb]. apply has_bytes_mapped in Hb. rewrite Hl in Hb. cbn in Hb.
    by rewrite Z2Nat.id in Hb by lia. }
  unfold surface_sw_set_pixel_with_alpha, alpha_px in *. cbn zeta in *.
  case_match; [by apply wp_sw_set_pixel |]. case_match.
  - apply wp_ret. by rewrite write_bytes_same in HQ by apply Hb.
  - apply wp_bind. eapply wp_sw_get_pixel; [done .. |]. by apply wp_sw_set_pixel.
Qed.
End pixels.

Lemma length_alpha_px s c l :
  length l = Z.to_nat (bytes_per_pixel (info s)) →
  length (alpha_px s c l) = Z.to_nat (bytes_per_pixel (info s)).
Proof. intros. unfold alpha_px. repeat case_match; auto using length_px_enc. Qed.

Lemma alpha_px_in_u8 s c l : Forall in_u8 l → Forall in_u8 (alpha_px s c l).
Proof. intros. unfold alpha_px. repeat case_match; auto using px_enc_in_u8. Qed.

Lemma drawn_px_ok s mode c l :
  length l = Z.to_nat (bytes_per_pixel (info s)) → Forall in_u8 l →
  length (drawn_px s mode c l) = Z.to_nat (bytes_per_pixel (info s)) ∧
  Forall in_u8 (drawn_px s mode c l).
Proof.
  unfold drawn_px. intros. case_match;
    auto using length_px_enc, px_enc_in_u8, length_alpha_px, alpha_px_in_u8.
Qed.

Lemma px_at_ok m s x y :
  surface_wf s → surface_in m s → in_canvas (canvas_of s) x y →
  length (px_at m (canvas_of s) x y) = Z.to_nat (bytes_per_pixel (info s)) ∧
  Forall in_u8 (px_at m (canvas_of s) x y).
Proof.
  intros Hwf Hin Hxy. destruct (px_bytes_exist s Hwf m x y Hin Hxy) as (l & Hl & Hu).
  rewrite (px_at_eq _ _ _ _ _ Hl). split; [apply Hl | done].
Qed.

Lemma painted_surface_in cv m m' D px s :
  painted cv m m' D px → surface_in m s → surface_in m' s.
Proof.
  intros Hp [_ Hm]. split; [apply (painted_ok _ _ _ _ _ Hp) |].
  eapply mapped_agree; [apply (painted_mapped _ _ _ _ _ Hp) | done].
Qed.

(** Two surfaces whose pixels do not overlap. *)
Definition surf_disjoint (s s' : surface_t) : Prop :=
  s_pixels s + s_h s * s_pitch s ≤ s_pixels s' ∨ s_pixels s' + s_h s' * s_pitch s' ≤ s_pixels s.

(** Painting one surface leaves the other alone. *)
Lemma painted_disjoint s s' m m' D px x y l :
  surface_wf s → surface_wf s' → surf_disjoint s s' →
  (∀ x y, D x y → in_canvas (canvas_of s) x y) → painted (canvas_of s) m m' D px →
  in_canvas (canvas_of s') x y → px_bytes m (canvas_of s') x y l → px_bytes m' (canvas_of s') x y l.
Proof.
  intros Hwf Hwf' Hd HD Hp Hxy [Hl Hb]. split; [done |].
  pose proof (px_addr_bounds _ x y (wf_canvas _ Hwf') Hxy) as B'. pose proof (wf_bpp _ Hwf').
  eapply has_bytes_agree; [|done]. intros a Ha. apply (painted_out _ _ _ _ _ Hp).
  intros x' y' H'%HD Hin. pose proof (px_addr_bounds _ x' y' (wf_canvas _ Hwf) H') as B.
  unfold in_px, surf_disjoint in *. rewrite Hl in Ha. cbn in *. lia.
Qed.

(** Where the pixels of a surface are. *)
Lemma addr_small s x y :
  surface_wf s → in_canvas (canvas_of s) x y →
  u32 (px_addr (canvas_of s) x y) = px_addr (canvas_of s) x y ∧
  0 < px_addr (canvas_of s) x y ∧ px_addr (canvas_of s) x y + bytes_per_pixel (info s) < 4294967296.
Proof.
  intros Hwf Hxy. pose proof (px_addr_bounds _ x y (wf_canvas _ Hwf) Hxy) as B.
  pose proof (wf_canvas _ Hwf) as Hc. pose proof (wf_pixels _ Hwf). unfold canvas_wf in Hc. cbn in *.
  rewrite u32_small; lia.
Qed.

Lemma row_in w s x y :
  surface_wf s → 0 ≤ x → 0 < w → x + w ≤ s_w s → 0 ≤ y < s_h s →
  0 < px_addr (canvas_of s) x y ∧ s_pixels s ≤ px_addr (canvas_of s) x y ∧
  px_addr (canvas_of s) x y + w * bytes_per_pixel (info s) ≤ s_pixels s + s_h s * s_pitch s ∧
  s_pixels s + s_h s * s_pitch s < 4294967296.
Proof.
  intros Hwf Hx Hw Hxw Hy. pose proof (wf_canvas _ Hwf) as Hc. pose proof (wf_pixels _ Hwf).
  pose proof (px_addr_bounds (canvas_of s) x y Hc) as B0.
  pose proof (px_addr_bounds (canvas_of s) (x + w - 1) y Hc) as B1.
  unfold canvas_wf, in_canvas, px_addr in *. cbn in *. nia.
Qed.

(** Drawing one pixel paints that pixel. *)
Lemma painted_pixel m s x y l :
  surface_wf s → surface_in m s → in_canvas (canvas_of s) x y →
  length l = Z.to_nat (bytes_per_pixel (info s)) → Forall in_u8 l →
  painted (canvas_of s) m (write_bytes m (px_addr (canvas_of s) x y) l)
    (λ x' y', x' = x ∧ y' = y) (λ _ _, l).
Proof.
  intros Hwf Hin Hxy Hl Hu. eapply painted_iff; [|apply painted_write with (px := λ _ _, l)];
    [| apply Hwf | | done | | done | done | apply painted_none, Hin]; naive_solver.
Qed.

(** An interpolation with rounding towards [dc] or below stays a byte. *)
Lemma blend_channel_spec sc dc alpha :
  in_u8 sc → in_u8 dc → in_u8 alpha →
  blend_channel sc dc alpha = ((sc - dc) * alpha) / 256 + dc ∧
  Z.min sc dc ≤ blend_channel sc dc alpha ≤ Z.max sc dc.
Proof.
  unfold in_u8, blend_channel. intros Hs Hd Ha. rewrite Z.shiftr_div_pow2 by lia. change (2 ^ 8) with 256.
  pose proof (Z.div_mod ((sc - dc) * alpha) 256 ltac:(lia)) as Hq.
  pose proof (Z.mod_pos_bound ((sc - dc) * alpha) 256 ltac:(lia)) as Hr.
  assert (Z.min sc dc ≤ (sc - dc) * alpha / 256 + dc ≤ Z.max sc dc).
  { destruct (Z.le_gt_cases dc sc).
    - assert (0 ≤ (sc - dc) * alpha ≤ (sc - dc) * 256) by nia. lia.
    - assert ((sc - dc) * 256 ≤ (sc - dc) * alpha ≤ 0) by nia. lia. }
  rewrite u8_small by lia. lia.
Qed.

Lemma full_rect_small s : surface_wf s → rect_small (Rect 0 0 (s32 (s_w s)) (s32 (s_h s))).
Proof. intros [_ _ _ _ Hw Hh _ _]. unfold rect_small. cbn. rewrite !s32_small; lia. Qed.

Lemma set_clip_wf s r : surface_wf s → clip_in (set_clip s r) → surface_wf (set_clip s r).
Proof. intros [] H. split; done. Qed.

(** Surfaces of 2 by 2 pixels in a memory of zeros, for examples. *)
Definition example_at (f : pixel_format) (p : Z) : surface_t :=
  Surface (format_info f) 2 2 8 SURFACE_PIXELS_DONTFREE p (Rect 0 0 2 2)
    (Maps None None None None None None None).

Lemma example_at_wf f p :
  f ≠ PIXEL_FORMAT_GENERIC → 0 < p < 65536 → surface_wf (example_at f p).
Proof.
  intros Hf Hp. split; unfold canvas_wf, clip_in; cbn [canvas_of example_at cbase cpitch ck cw ch
    s_pixels s_pitch s_w s_h s_clip info rx ry rw rh]; try lia; by destruct f; cbn; try lia.
Qed.

Lemma example_at_in f p q n :
  q ≤ p → p + 16 ≤ q + Z.of_nat n → surface_in (zeros q n) (example_at f p).
Proof.
  intros H1 H2. split; [apply zeros_ok |]. cbn. apply (mapped_sub _ q (Z.of_nat n)); [apply zeros_mapped | lia | lia].
Qed.

Definition example_surface : surface_t := example_at PIXEL_FORMAT_ARGB_8888 4096.

Definition example_mem : mem := zeros 4096 16.

Lemma example_surface_wf : surface_wf example_surface.
Proof. by apply example_at_wf. Qed.

Lemma example_surface_in : surface_in example_mem example_surface.
Proof. by apply example_at_in. Qed.

(** What drawing a point does. *)
Lemma map_software_point_spec m s x y c mode :
  surface_wf s → surface_in m s →
  wp (map_software_point (Some s) x y c mode)
    (λ ok m',
       (in_rect (s_clip s) x y → ok = bool_decide (mode = BLEND_MODE_REPLACE ∨ mode = BLEND_MODE_ALPHA)) ∧
       painted (canvas_of s) m m'
         (λ x' y', x' = x ∧ y' = y ∧ in_rect (s_clip s) x y ∧ ok = true)
         (λ x' y', drawn_px s mode c (px_at m (canvas_of s) x' y'))) m.
Proof.
  intros Hwf Hin. pose proof (wf_pixels _ Hwf). pose proof (wf_bits _ Hwf).
  destruct (wf_clip _ Hwf) as (? & ? & ? & ? & ? & ?). pose proof (wf_w _ Hwf). pose proof (wf_h _ Hwf).
  unfold map_software_point. rewrite (proj2 (Z.eqb_neq _ _)), (proj2 (Z.ltb_ge _ _)) by lia. s32_simp.
  case_match eqn:Hout.
  { apply wp_ret. split; [unfold in_rect; lia |].
    eapply painted_iff; [|by apply painted_none, Hin]. unfold in_rect. lia. }
  assert (in_rect (s_clip s) x y) as Hclip by (unfold in_rect; lia).
  assert (in_canvas (canvas_of s) x y) as Hxy by (unfold in_canvas, in_rect in *; cbn; lia).
  destruct (px_at_ok m s x y Hwf Hin Hxy) as [Hl Hu].
  destruct (drawn_px_ok s mode c _ Hl Hu) as [Hl' Hu'].
  pose proof (painted_pixel m s x y _ Hwf Hin Hxy Hl' Hu') as Hp.
  assert (painted (canvas_of s) m
            (write_bytes m (px_addr (canvas_of s) x y) (drawn_px s mode c (px_at m (canvas_of s) x y)))
            (λ x' y', x' = x ∧ y' = y ∧ in_rect (s_clip s) x y ∧ true = true)
            (λ x' y', drawn_px s mode c (px_at m (canvas_of s) x' y'))) as Hp'.
  { eapply painted_ext; [|eapply painted_iff; [|exact Hp]]; naive_solver. }
  unfold drawn_px in Hp'. unfold BLEND_MODE_REPLACE, BLEND_MODE_ALPHA in *.
  destruct (Z.eqb_spec mode 0) as [->|]; [|destruct (Z.eqb_spec mode 1) as [->|]].
  - apply wp_bind, wp_sw_set_pixel; [done | done | by apply px_mapped |]. apply wp_ret. done.
  - apply wp_bind. eapply wp_sw_set_pixel_with_alpha; [done | done | by apply px_bytes_at |].
    apply wp_ret. done.
  - apply wp_ret. rewrite bool_decide_eq_false_2 by lia. split; [done |].
    eapply painted_iff; [|by apply painted_none, Hin]. naive_solver.
Qed.

(** ** Properties *)

(** Drawing a point through the software map changes the bytes of that
    pixel, to the colour or to the blend of the colour with what was there, if
    the point is in the clip rectangle, and nothing at all otherwise; an
    unknown blend mode is refused without a write. *)
Theorem map_software_point_correct m s x y c mode :
  surface_wf s → surface_in m s →
  wp (map_software_point (Some s) x y c mode)
    (λ ok m',
       (in_rect (s_clip s) x y → ok = bool_decide (mode = BLEND_MODE_REPLACE ∨ mode = BLEND_MODE_ALPHA)) ∧
       painted (canvas_of s) m m'
         (λ x' y', x' = x ∧ y' = y ∧ in_rect (s_clip s) x y ∧ ok = true)
         (λ x' y', drawn_px s mode c (px_at m (canvas_of s) x' y'))) m.
Proof. apply map_software_point_spec. Qed.

Lemma map_software_point_correct_witness :
  wp (map_software_point (Some example_surface) 1 1 4278255360 BLEND_MODE_REPLACE)
    (λ ok m',
       (in_rect (s_clip example_surface) 1 1 →
          ok = bool_decide (BLEND_MODE_REPLACE = BLEND_MODE_REPLACE ∨ BLEND_MODE_REPLACE = BLEND_MODE_ALPHA)) ∧
       painted (canvas_of example_surface) example_mem m'
         (λ x' y', x' = 1 ∧ y' = 1 ∧ in_rect (s_clip example_surface) 1 1 ∧ ok = true)
         (λ x' y', drawn_px example_surface BLEND_MODE_REPLACE 4278255360
                     (px_at example_mem (canvas_of example_surface) x' y'))) example_mem.
Proof.
  apply (map_software_point_correct example_mem example_surface 1 1 4278255360 BLEND_MODE_REPLACE).
  - apply example_surface_wf.
  - apply example_surface_in.
Defined.

(** Blending never leaves the range between the two colours, channel by
    channel: no channel wraps around its byte. *)
Theorem blend_between scol dcol alpha :
  color_ok scol → color_ok dcol → in_u8 alpha →
  let col := blend scol dcol alpha in
  Z.min (c_r scol) (c_r dcol) ≤ c_r col ≤ Z.max (c_r scol) (c_r dcol) ∧
  Z.min (c_g scol) (c_g dcol) ≤ c_g col ≤ Z.max (c_g scol) (c_g dcol) ∧
  Z.min (c_b scol) (c_b dcol) ≤ c_b col ≤ Z.max (c_b scol) (c_b dcol) ∧
  Z.min (c_a scol) (c_a dcol) ≤ c_a col ≤ Z.max (c_a scol) (c_a dcol).
Proof.
  intros (?&?&?&?) (?&?&?&?) ? col. cbn [col blend c_r c_g c_b c_a].
  repeat split; by apply blend_channel_spec.
Qed.

Lemma blend_between_witness :
  blend (Color 255 0 128 255) (Color 0 255 128 255) 128 = Color 127 127 128 255 ∧
  Z.min 255 0 ≤ c_r (blend (Color 255 0 128 255) (Color 0 255 128 255) 128) ≤ Z.max 255 0.
Proof.
  split; [vm_compute; reflexivity |].
  apply (blend_between (Color 255 0 128 255) (Color 0 255 128 255) 128); cbv; intuition discriminate.
Defined.

(** [surface_set_clip_rect] keeps a surface well formed exactly when it
    reports success, and then clips to the part of the rectangle that is on
    the surface. *)
Theorem surface_set_clip_rect_correct s r :
  surface_wf s → rect_small r →
  ∃ s', (surface_set_clip_rect (Some s) (Some r)).2 = Some s' ∧
    (∀ x y, in_rect (s_clip s') x y ↔ in_rect r x y ∧ in_canvas (canvas_of s) x y) ∧
    ((surface_set_clip_rect (Some s) (Some r)).1 = true ↔
       ∃ x y, in_rect r x y ∧ in_canvas (canvas_of s) x y) ∧
    ((surface_set_clip_rect (Some s) (Some r)).1 = true → surface_wf s').
Proof.
  intros Hwf Hr. pose proof (full_rect_small s Hwf) as Hf. unfold surface_set_clip_rect.
  set (full := Rect 0 0 (s32 (s_w s)) (s32 (s_h s))) in *.
  assert (∀ x y, in_rect full x y ↔ in_canvas (canvas_of s) x y) as Hfull.
  { pose proof (wf_w _ Hwf). pose proof (wf_h _ Hwf).
    unfold in_rect, full, in_canvas. cbn. rewrite !s32_small by lia. done. }
  pose proof (λ x y, rect_intersect_in r full x y Hr Hf) as Hin.
  pose proof (rect_intersect_hit r full Hr Hf) as Hhit.
  pose proof (rect_intersect_nonempty r full) as Hne.
  destruct (rect_intersect r full) as [hit clip]. cbn [fst snd] in *.
  setoid_rewrite Hfull in Hin. setoid_rewrite Hfull in Hhit.
  eexists. split; [done |]. split; [exact Hin |]. split; [exact Hhit |].
  intros Ht. destruct (Hne Ht) as [? ?]. apply set_clip_wf; [done |]. unfold clip_in. cbn.
  pose proof (proj1 (Hin (rx clip) (ry clip))) as H1.
  pose proof (proj1 (Hin (rx clip + rw clip - 1) (ry clip + rh clip - 1))) as H2.
  unfold in_canvas, in_rect in *. cbn in *. lia.
Qed.

Lemma surface_set_clip_rect_correct_witness :
  (surface_set_clip_rect (Some example_surface) (Some (Rect 1 (-3) 7 4))).2 =
    Some (set_clip example_surface (Rect 1 0 1 1)) ∧
  surface_wf (set_clip example_surface (Rect 1 0 1 1)).
Proof.
  destruct (surface_set_clip_rect_correct example_surface (Rect 1 (-3) 7 4)) as (s' & E & _ & _ & H).
  - apply example_surface_wf.
  - cbv. intuition discriminate.
  - assert (s' = set_clip example_surface (Rect 1 0 1 1)) as -> by (injection E; auto).
    split; [exact E | apply H; reflexivity].
Defined.
