(* ===== verification/Font.v ===== *)
(** * Text: [font.c]

    Characters are drawn from a table of glyphs of 8 by 16 pixels, one point
    at a time, through the point function of the screen's map table.  The
    screen is an argument here; it is the surface [exynos4412_screen_surface]
    returns. *)

From stdpp Require Import prelude gmap.
From Stdlib Require Import ZArith Lia.
From S2P Require Import Prelude Prog Memory Rect Color Pixel Canvas Surface Number Printf.

Local Open Scope Z_scope.
Local Open Scope word_scope.

(** One row of the table per character, one byte per row of its glyph. *)
Definition font_ascii_16x8 : list (list Z) :=
  [
   replicate 16 0x00;
   [0x00; 0x00; 0x7e; 0x81; 0xa5; 0x81; 0x81; 0xbd; 0x99; 0x81; 0x81; 0x7e; 0x00; 0x00; 0x00; 0x00];
   [0x00; 0x00; 0x7e; 0xff; 0xdb; 0xff; 0xff; 0xc3; 0xe7; 0xff; 0xff; 0x7e; 0x00; 0x00; 0x00; 0x00];
   [0x00; 0x00; 0x00; 0x00; 0x6c; 0xfe; 0xfe; 0xfe; 0xfe; 0x7c; 0x38; 0x10; 0x00; 0x00; 0x00; 0x00];
   [0x00; 0x00; 0x00; 0x00; 0x10; 0x38; 0x7c; 0xfe; 0x7c; 0x38; 0x10; 0x00; 0x00; 0x00; 0x00; 0x00];
   [0x00; 0x00; 0x00; 0x18; 0x3c; 0x3c; 0xe7; 0xe7; 0xe7; 0x18; 0x18; 0x3c; 0x00; 0x00; 0x00; 0x00];
   [0x00; 0x00; 0x00; 0x18; 0x3c; 0x7e; 0xff; 0xff; 0x7e; 0x18; 0x18; 0x3c; 0x00; 0x00; 0x00; 0x00];
   [0x00; 0x00; 0x00; 0x00; 0x00; 0x00; 0x18; 0x3c; 0x3c; 0x18; 0x00; 0x00; 0x00; 0x00; 0x00; 0x00];
   [0xff; 0xff; 0xff; 0xff; 0xff; 0xff; 0xe7; 0xc3; 0xc3; 0xe7; 0xff; 0xff; 0xff; 0xff; 0xff; 0xff];
   [0x00; 0x00; 0x00; 0x00; 0x00; 0x3c; 0x66; 0x42; 0x42; 0x66; 0x3c; 0x00; 0x00; 0x00; 0x00; 0x00];
   [0xff; 0xff; 0xff; 0xff; 0xff; 0xc3; 0x99; 0xbd; 0xbd; 0x99; 0xc3; 0xff; 0xff; 0xff; 0xff; 0xff];
   [0x00; 0x00; 0x1e; 0x0e; 0x1a; 0x32; 0x78; 0xcc; 0xcc; 0xcc; 0xcc; 0x78; 0x00; 0x00; 0x00; 0x00];
   [0x00; 0x00; 0x3c; 0x66; 0x66; 0x66; 0x66; 0x3c; 0x18; 0x7e; 0x18; 0x18; 0x00; 0x00; 0x00; 0x00];
   [0x00; 0x00; 0x3f; 0x33; 0x3f; 0x30; 0x30; 0x30; 0x30; 0x70; 0xf0; 0xe0; 0x00; 0x00; 0x00; 0x00];
   [0x00; 0x00; 0x7f; 0x63; 0x7f; 0x63; 0x63; 0x63; 0x63; 0x67; 0xe7; 0xe6; 0xc0; 0x00; 0x00; 0x00];
   [0x00; 0x00; 0x00; 0x18; 0x18; 0xdb; 0x3c; 0xe7; 0x3c; 0xdb; 0x18; 0x18; 0x00; 0x00; 0x00; 0x00];
   [0x00; 0x80; 0xc0; 0xe0; 0xf0; 0xf8; 0xfe; 0xf8; 0xf0; 0xe0; 0xc0; 0x80; 0x00; 0x00; 0x00; 0x00];
   [0x00; 0x02; 0x06; 0x0e; 0x1e; 0x3e; 0xfe; 0x3e; 0x1e; 0x0e; 0x06; 0x02; 0x00; 0x00; 0x00; 0x00];
   [0x00; 0x00; 0x18; 0x3c; 0x7e; 0x18; 0x18; 0x18; 0x7e; 0x3c; 0x18; 0x00; 0x00; 0x00; 0x00; 0x00];
   [0x00; 0x00; 0x66; 0x66; 0x66; 0x66; 0x66; 0x66; 0x66; 0x00; 0x66; 0x66; 0x00; 0x00; 0x00; 0x00];
   [0x00; 0x00; 0x7f; 0xdb; 0xdb; 0xdb; 0x7b; 0x1b; 0x1b; 0x1b; 0x1b; 0x1b; 0x00; 0x00; 0x00; 0x00];
   [0x00; 0x7c; 0xc6; 0x60; 0x38; 0x6c; 0xc6; 0xc6; 0x6c; 0x38; 0x0c; 0xc6; 0x7c; 0x00; 0x00; 0x00];
   [0x00; 0x00; 0x00; 0x00; 0x00; 0x00; 0x00; 0x00; 0xfe; 0xfe; 0xfe; 0xfe; 0x00; 0x00; 0x00; 0x00];
   [0x00; 0x00; 0x18; 0x3c; 0x7e; 0x18; 0x18; 0x18; 0x7e; 0x3c; 0x18; 0x7e; 0x00; 0x00; 0x00; 0x00];
   [0x00; 0x00; 0x18; 0x3c; 0x7e; 0x18; 0x18; 0x18; 0x18; 0x18; 0x18; 0x18; 0x00; 0x00; 0x00; 0x00];
   [0x00; 0x00; 0x18; 0x18; 0x18; 0x18; 0x18; 0x18; 0x18; 0x7e; 0x3c; 0x18; 0x00; 0x00; 0x00; 0x00];
   [0x00; 0x00; 0x00; 0x00; 0x00; 0x18; 0x0c; 0xfe; 0x0c; 0x18; 0x00; 0x00; 0x00; 0x00; 0x00; 0x00];
   [0x00; 0x00; 0x00; 0x00; 0x00; 0x30; 0x60; 0xfe; 0x60; 0x30; 0x00; 0x00; 0x00; 0x00; 0x00; 0x00];
   [0x00; 0x00; 0x00; 0x00; 0x00; 0x00; 0xc0; 0xc0; 0xc0; 0xfe; 0x00; 0x00; 0x00; 0x00; 0x00; 0x00];
   [0x00; 0x00; 0x00; 0x00; 0x00; 0x28; 0x6c; 0xfe; 0x6c; 0x28; 0x00; 0x00; 0x00; 0x00; 0x00; 0x00];
   [0x00; 0x00; 0x00; 0x00; 0x10; 0x38; 0x38; 0x7c; 0x7c; 0xfe; 0xfe; 0x00; 0x00; 0x00; 0x00; 0x00];
   [0x00; 0x00; 0x00; 0x00; 0xfe; 0xfe; 0x7c; 0x7c; 0x38; 0x38; 0x10; 0x00; 0x00; 0x00; 0x00; 0x00];
   replicate 16 0x00;
   [0x00; 0x00; 0x18; 0x3c; 0x3c; 0x3c; 0x18; 0x18; 0x18; 0x00; 0x18; 0x18; 0x00; 0x00; 0x00; 0x00];
   [0x00; 0x66; 0x66; 0x66; 0x24; 0x00; 0x00; 0x00; 0x00; 0x00; 0x00; 0x00; 0x00; 0x00; 0x00; 0x00];
   [0x00; 0x00; 0x00; 0x6c; 0x6c; 0xfe; 0x6c; 0x6c; 0x6c; 0xfe; 0x6c; 0x6c; 0x00; 0x00; 0x00; 0x00];
   [0x18; 0x18; 0x7c; 0xc6; 0xc2; 0xc0; 0x7c; 0x06; 0x06; 0x86; 0xc6; 0x7c; 0x18; 0x18; 0x00; 0x00];
   [0x00; 0x00; 0x00; 0x00; 0xc2; 0xc6; 0x0c; 0x18; 0x30; 0x60; 0xc6; 0x86; 0x00; 0x00; 0x00; 0x00];
   [0x00; 0x00; 0x38; 0x6c; 0x6c; 0x38; 0x76; 0xdc; 0xcc; 0xcc; 0xcc; 0x76; 0x00; 0x00; 0x00; 0x00];
   [0x00; 0x30; 0x30; 0x30; 0x60; 0x00; 0x00; 0x00; 0x00; 0x00; 0x00; 0x00; 0x00; 0x00; 0x00; 0x00];
   [0x00; 0x00; 0x0c; 0x18; 0x30; 0x30; 0x30; 0x30; 0x30; 0x30; 0x18; 0x0c; 0x00; 0x00; 0x00; 0x00];
   [0x00; 0x00; 0x30; 0x18; 0x0c; 0x0c; 0x0c; 0x0c; 0x0c; 0x0c; 0x18; 0x30; 0x00; 0x00; 0x00; 0x00];
   [0x00; 0x00; 0x00; 0x00; 0x00; 0x66; 0x3c; 0xff; 0x3c; 0x66; 0x00; 0x00; 0x00; 0x00; 0x00; 0x00];
   [0x00; 0x00; 0x00; 0x00; 0x00; 0x18; 0x18; 0x7e; 0x18; 0x18; 0x00; 0x00; 0x00; 0x00; 0x00; 0x00];
   [0x00; 0x00; 0x00; 0x00; 0x00; 0x00; 0x00; 0x00; 0x00; 0x18; 0x18; 0x18; 0x30; 0x00; 0x00; 0x00];
   [0x00; 0x00; 0x00; 0x00; 0x00; 0x00; 0x00; 0xfe; 0x00; 0x00; 0x00; 0x00; 0x00; 0x00; 0x00; 0x00];
   [0x00; 0x00; 0x00; 0x00; 0x00; 0x00; 0x00; 0x00; 0x00; 0x00; 0x18; 0x18; 0x00; 0x00; 0x00; 0x00];
   [0x00; 0x00; 0x00; 0x00; 0x02; 0x06; 0x0c; 0x18; 0x30; 0x60; 0xc0; 0x80; 0x00; 0x00; 0x00; 0x00];
   [0x00; 0x00; 0x38; 0x6c; 0xc6; 0xc6; 0xd6; 0xd6; 0xc6; 0xc6; 0x6c; 0x38; 0x00; 0x00; 0x00; 0x00];
   [0x00; 0x00; 0x18; 0x38; 0x78; 0x18; 0x18; 0x18; 0x18; 0x18; 0x18; 0x7e; 0x00; 0x00; 0x00; 0x00];
   [0x00; 0x00; 0x7c; 0xc6; 0x06; 0x0c; 0x18; 0x30; 0x60; 0xc0; 0xc6; 0xfe; 0x00; 0x00; 0x00; 0x00];
   [0x00; 0x00; 0x7c; 0xc6; 0x06; 0x06; 0x3c; 0x06; 0x06; 0x06; 0xc6; 0x7c; 0x00; 0x00; 0x00; 0x00];
   [0x00; 0x00; 0x0c; 0x1c; 0x3c; 0x6c; 0xcc; 0xfe; 0x0c; 0x0c; 0x0c; 0x1e; 0x00; 0x00; 0x00; 0x00];
   [0x00; 0x00; 0xfe; 0xc0; 0xc0; 0xc0; 0xfc; 0x06; 0x06; 0x06; 0xc6; 0x7c; 0x00; 0x00; 0x00; 0x00];
   [0x00; 0x00; 0x38; 0x60; 0xc0; 0xc0; 0xfc; 0xc6; 0xc6; 0xc6; 0xc6; 0x7c; 0x00; 0x00; 0x00; 0x00];
   [0x00; 0x00; 0xfe; 0xc6; 0x06; 0x06; 0x0c; 0x18; 0x30; 0x30; 0x30; 0x30; 0x00; 0x00; 0x00; 0x00];
   [0x00; 0x00; 0x7c; 0xc6; 0xc6; 0xc6; 0x7c; 0xc6; 0xc6; 0xc6; 0xc6; 0x7c; 0x00; 0x00; 0x00; 0x00];
   [0x00; 0x00; 0x7c; 0xc6; 0xc6; 0xc6; 0x7e; 0x06; 0x06; 0x06; 0x0c; 0x78; 0x00; 0x00; 0x00; 0x00];
   [0x00; 0x00; 0x00; 0x00; 0x18; 0x18; 0x00; 0x00; 0x00; 0x18; 0x18; 0x00; 0x00; 0x00; 0x00; 0x00];
   [0x00; 0x00; 0x00; 0x00; 0x18; 0x18; 0x00; 0x00; 0x00; 0x18; 0x18; 0x30; 0x00; 0x00; 0x00; 0x00];
   [0x00; 0x00; 0x00; 0x06; 0x0c; 0x18; 0x30; 0x60; 0x30; 0x18; 0x0c; 0x06; 0x00; 0x00; 0x00; 0x00];
   [0x00; 0x00; 0x00; 0x00; 0x00; 0x7e; 0x00; 0x00; 0x7e; 0x00; 0x00; 0x00; 0x00; 0x00; 0x00; 0x00];
   [0x00; 0x00; 0x00; 0x60; 0x30; 0x18; 0x0c; 0x06; 0x0c; 0x18; 0x30; 0x60; 0x00; 0x00; 0x00; 0x00];
   [0x00; 0x00; 0x7c; 0xc6; 0xc6; 0x0c; 0x18; 0x18; 0x18; 0x00; 0x18; 0x18; 0x00; 0x00; 0x00; 0x00];
   [0x00; 0x00; 0x00; 0x7c; 0xc6; 0xc6; 0xde; 0xde; 0xde; 0xdc; 0xc0; 0x7c; 0x00; 0x00; 0x00; 0x00];
   [0x00; 0x00; 0x10; 0x38; 0x6c; 0xc6; 0xc6; 0xfe; 0xc6; 0xc6; 0xc6; 0xc6; 0x00; 0x00; 0x00; 0x00];
   [0x00; 0x00; 0xfc; 0x66; 0x66; 0x66; 0x7c; 0x66; 0x66; 0x66; 0x66; 0xfc; 0x00; 0x00; 0x00; 0x00];
   [0x00; 0x00; 0x3c; 0x66; 0xc2; 0xc0; 0xc0; 0xc0; 0xc0; 0xc2; 0x66; 0x3c; 0x00; 0x00; 0x00; 0x00];
   [0x00; 0x00; 0xf8; 0x6c; 0x66; 0x66; 0x66; 0x66; 0x66; 0x66; 0x6c; 0xf8; 0x00; 0x00; 0x00; 0x00];
   [0x00; 0x00; 0xfe; 0x66; 0x62; 0x68; 0x78; 0x68; 0x60; 0x62; 0x66; 0xfe; 0x00; 0x00; 0x00; 0x00];
   [0x00; 0x00; 0xfe; 0x66; 0x62; 0x68; 0x78; 0x68; 0x60; 0x60; 0x60; 0xf0; 0x00; 0x00; 0x00; 0x00];
   [0x00; 0x00; 0x3c; 0x66; 0xc2; 0xc0; 0xc0; 0xde; 0xc6; 0xc6; 0x66; 0x3a; 0x00; 0x00; 0x00; 0x00];
   [0x00; 0x00; 0xc6; 0xc6; 0xc6; 0xc6; 0xfe; 0xc6; 0xc6; 0xc6; 0xc6; 0xc6; 0x00; 0x00; 0x00; 0x00];
   [0x00; 0x00; 0x3c; 0x18; 0x18; 0x18; 0x18; 0x18; 0x18; 0x18; 0x18; 0x3c; 0x00; 0x00; 0x00; 0x00];
   [0x00; 0x00; 0x1e; 0x0c; 0x0c; 0x0c; 0x0c; 0x0c; 0xcc; 0xcc; 0xcc; 0x78; 0x00; 0x00; 0x00; 0x00];
   [0x00; 0x00; 0xe6; 0x66; 0x66; 0x6c; 0x78; 0x78; 0x6c; 0x66; 0x66; 0xe6; 0x00; 0x00; 0x00; 0x00];
   [0x00; 0x00; 0xf0; 0x60; 0x60; 0x60; 0x60; 0x60; 0x60; 0x62; 0x66; 0xfe; 0x00; 0x00; 0x00; 0x00];
   [0x00; 0x00; 0xc6; 0xee; 0xfe; 0xfe; 0xd6; 0xc6; 0xc6; 0xc6; 0xc6; 0xc6; 0x00; 0x00; 0x00; 0x00];
   [0x00; 0x00; 0xc6; 0xe6; 0xf6; 0xfe; 0xde; 0xce; 0xc6; 0xc6; 0xc6; 0xc6; 0x00; 0x00; 0x00; 0x00];
   [0x00; 0x00; 0x7c; 0xc6; 0xc6; 0xc6; 0xc6; 0xc6; 0xc6; 0xc6; 0xc6; 0x7c; 0x00; 0x00; 0x00; 0x00];
   [0x00; 0x00; 0xfc; 0x66; 0x66; 0x66; 0x7c; 0x60; 0x60; 0x60; 0x60; 0xf0; 0x00; 0x00; 0x00; 0x00];
   [0x00; 0x00; 0x7c; 0xc6; 0xc6; 0xc6; 0xc6; 0xc6; 0xc6; 0xd6; 0xde; 0x7c; 0x0c; 0x0e; 0x00; 0x00];
   [0x00; 0x00; 0xfc; 0x66; 0x66; 0x66; 0x7c; 0x6c; 0x66; 0x66; 0x66; 0xe6; 0x00; 0x00; 0x00; 0x00];
   [0x00; 0x00; 0x7c; 0xc6; 0xc6; 0x60; 0x38; 0x0c; 0x06; 0xc6; 0xc6; 0x7c; 0x00; 0x00; 0x00; 0x00];
   [0x00; 0x00; 0x7e; 0x7e; 0x5a; 0x18; 0x18; 0x18; 0x18; 0x18; 0x18; 0x3c; 0x00; 0x00; 0x00; 0x00];
   [0x00; 0x00; 0xc6; 0xc6; 0xc6; 0xc6; 0xc6; 0xc6; 0xc6; 0xc6; 0xc6; 0x7c; 0x00; 0x00; 0x00; 0x00];
   [0x00; 0x00; 0xc6; 0xc6; 0xc6; 0xc6; 0xc6; 0xc6; 0xc6; 0x6c; 0x38; 0x10; 0x00; 0x00; 0x00; 0x00];
   [0x00; 0x00; 0xc6; 0xc6; 0xc6; 0xc6; 0xd6; 0xd6; 0xd6; 0xfe; 0xee; 0x6c; 0x00; 0x00; 0x00; 0x00];
   [0x00; 0x00; 0xc6; 0xc6; 0x6c; 0x7c; 0x38; 0x38; 0x7c; 0x6c; 0xc6; 0xc6; 0x00; 0x00; 0x00; 0x00];
   [0x00; 0x00; 0x66; 0x66; 0x66; 0x66; 0x3c; 0x18; 0x18; 0x18; 0x18; 0x3c; 0x00; 0x00; 0x00; 0x00];
   [0x00; 0x00; 0xfe; 0xc6; 0x86; 0x0c; 0x18; 0x30; 0x60; 0xc2; 0xc6; 0xfe; 0x00; 0x00; 0x00; 0x00];
   [0x00; 0x00; 0x3c; 0x30; 0x30; 0x30; 0x30; 0x30; 0x30; 0x30; 0x30; 0x3c; 0x00; 0x00; 0x00; 0x00];
   [0x00; 0x00; 0x00; 0x80; 0xc0; 0xe0; 0x70; 0x38; 0x1c; 0x0e; 0x06; 0x02; 0x00; 0x00; 0x00; 0x00];
   [0x00; 0x00; 0x3c; 0x0c; 0x0c; 0x0c; 0x0c; 0x0c; 0x0c; 0x0c; 0x0c; 0x3c; 0x00; 0x00; 0x00; 0x00];
   [0x10; 0x38; 0x6c; 0xc6; 0x00; 0x00; 0x00; 0x00; 0x00; 0x00; 0x00; 0x00; 0x00; 0x00; 0x00; 0x00];
   [0x00; 0x00; 0x00; 0x00; 0x00; 0x00; 0x00; 0x00; 0x00; 0x00; 0x00; 0x00; 0x00; 0xff; 0x00; 0x00];
   [0x00; 0x30; 0x18; 0x0c; 0x00; 0x00; 0x00; 0x00; 0x00; 0x00; 0x00; 0x00; 0x00; 0x00; 0x00; 0x00];
   [0x00; 0x00; 0x00; 0x00; 0x00; 0x78; 0x0c; 0x7c; 0xcc; 0xcc; 0xcc; 0x76; 0x00; 0x00; 0x00; 0x00];
   [0x00; 0x00; 0xe0; 0x60; 0x60; 0x78; 0x6c; 0x66; 0x66; 0x66; 0x66; 0x7c; 0x00; 0x00; 0x00; 0x00];
   [0x00; 0x00; 0x00; 0x00; 0x00; 0x7c; 0xc6; 0xc0; 0xc0; 0xc0; 0xc6; 0x7c; 0x00; 0x00; 0x00; 0x00];
   [0x00; 0x00; 0x1c; 0x0c; 0x0c; 0x3c; 0x6c; 0xcc; 0xcc; 0xcc; 0xcc; 0x76; 0x00; 0x00; 0x00; 0x00];
   [0x00; 0x00; 0x00; 0x00; 0x00; 0x7c; 0xc6; 0xfe; 0xc0; 0xc0; 0xc6; 0x7c; 0x00; 0x00; 0x00; 0x00];
   [0x00; 0x00; 0x1c; 0x36; 0x32; 0x30; 0x78; 0x30; 0x30; 0x30; 0x30; 0x78; 0x00; 0x00; 0x00; 0x00];
   [0x00; 0x00; 0x00; 0x00; 0x00; 0x76; 0xcc; 0xcc; 0xcc; 0xcc; 0xcc; 0x7c; 0x0c; 0xcc; 0x78; 0x00];
   [0x00; 0x00; 0xe0; 0x60; 0x60; 0x6c; 0x76; 0x66; 0x66; 0x66; 0x66; 0xe6; 0x00; 0x00; 0x00; 0x00];
   [0x00; 0x00; 0x18; 0x18; 0x00; 0x38; 0x18; 0x18; 0x18; 0x18; 0x18; 0x3c; 0x00; 0x00; 0x00; 0x00];
   [0x00; 0x00; 0x06; 0x06; 0x00; 0x0e; 0x06; 0x06; 0x06; 0x06; 0x06; 0x06; 0x66; 0x66; 0x3c; 0x00];
   [0x00; 0x00; 0xe0; 0x60; 0x60; 0x66; 0x6c; 0x78; 0x78; 0x6c; 0x66; 0xe6; 0x00; 0x00; 0x00; 0x00];
   [0x00; 0x00; 0x38; 0x18; 0x18; 0x18; 0x18; 0x18; 0x18; 0x18; 0x18; 0x3c; 0x00; 0x00; 0x00; 0x00];
   [0x00; 0x00; 0x00; 0x00; 0x00; 0xec; 0xfe; 0xd6; 0xd6; 0xd6; 0xd6; 0xc6; 0x00; 0x00; 0x00; 0x00];
   [0x00; 0x00; 0x00; 0x00; 0x00; 0xdc; 0x66; 0x66; 0x66; 0x66; 0x66; 0x66; 0x00; 0x00; 0x00; 0x00];
   [0x00; 0x00; 0x00; 0x00; 0x00; 0x7c; 0xc6; 0xc6; 0xc6; 0xc6; 0xc6; 0x7c; 0x00; 0x00; 0x00; 0x00];
   [0x00; 0x00; 0x00; 0x00; 0x00; 0xdc; 0x66; 0x66; 0x66; 0x66; 0x66; 0x7c; 0x60; 0x60; 0xf0; 0x00];
   [0x00; 0x00; 0x00; 0x00; 0x00; 0x76; 0xcc; 0xcc; 0xcc; 0xcc; 0xcc; 0x7c; 0x0c; 0x0c; 0x1e; 0x00];
   [0x00; 0x00; 0x00; 0x00; 0x00; 0xdc; 0x76; 0x66; 0x60; 0x60; 0x60; 0xf0; 0x00; 0x00; 0x00; 0x00];
   [0x00; 0x00; 0x00; 0x00; 0x00; 0x7c; 0xc6; 0x60; 0x38; 0x0c; 0xc6; 0x7c; 0x00; 0x00; 0x00; 0x00];
   [0x00; 0x00; 0x10; 0x30; 0x30; 0xfc; 0x30; 0x30; 0x30; 0x30; 0x36; 0x1c; 0x00; 0x00; 0x00; 0x00];
   [0x00; 0x00; 0x00; 0x00; 0x00; 0xcc; 0xcc; 0xcc; 0xcc; 0xcc; 0xcc; 0x76; 0x00; 0x00; 0x00; 0x00];
   [0x00; 0x00; 0x00; 0x00; 0x00; 0xc6; 0xc6; 0xc6; 0xc6; 0xc6; 0x6c; 0x38; 0x00; 0x00; 0x00; 0x00];
   [0x00; 0x00; 0x00; 0x00; 0x00; 0xc6; 0xc6; 0xd6; 0xd6; 0xd6; 0xfe; 0x6c; 0x00; 0x00; 0x00; 0x00];
   [0x00; 0x00; 0x00; 0x00; 0x00; 0xc6; 0x6c; 0x38; 0x38; 0x38; 0x6c; 0xc6; 0x00; 0x00; 0x00; 0x00];
   [0x00; 0x00; 0x00; 0x00; 0x00; 0xc6; 0xc6; 0xc6; 0xc6; 0xc6; 0xc6; 0x7e; 0x06; 0x0c; 0xf8; 0x00];
   [0x00; 0x00; 0x00; 0x00; 0x00; 0xfe; 0xcc; 0x18; 0x30; 0x60; 0xc6; 0xfe; 0x00; 0x00; 0x00; 0x00];
   [0x00; 0x00; 0x0e; 0x18; 0x18; 0x18; 0x70; 0x18; 0x18; 0x18; 0x18; 0x0e; 0x00; 0x00; 0x00; 0x00];
   [0x00; 0x00; 0x18; 0x18; 0x18; 0x18; 0x18; 0x18; 0x18; 0x18; 0x18; 0x18; 0x00; 0x00; 0x00; 0x00];
   [0x00; 0x00; 0x70; 0x18; 0x18; 0x18; 0x0e; 0x18; 0x18; 0x18; 0x18; 0x70; 0x00; 0x00; 0x00; 0x00];
   [0x00; 0x76; 0xdc; 0x00; 0x00; 0x00; 0x00; 0x00; 0x00; 0x00; 0x00; 0x00; 0x00; 0x00; 0x00; 0x00];
   [0x00; 0x00; 0x00; 0x00; 0x10; 0x38; 0x6c; 0xc6; 0xc6; 0xc6; 0xfe; 0x00; 0x00; 0x00; 0x00; 0x00]
  ].

(** ** The code *)

(** [exynos4412_screen_surface()->maps.point(...)]: the slot is called without
    a test. *)
Definition set_pixel (screen : surface_t) (x y c : Z) : prog mem unit :=
  match maps_point (s_maps screen) with
  | Some map_point_sw =>
      map_software_point (Some screen) (s32 x) (s32 y) c BLEND_MODE_REPLACE ;; ret tt
  | _ => fault
  end.

(** [*p], the byte of row [j] of the glyph; the table is read within its bounds. *)
Definition glyph_row (ch j : Z) : prog mem Z :=
  match font_ascii_16x8 !! Z.to_nat ch with
  | Some g => match g !! Z.to_nat j with Some b => ret b | None => fault end
  | None => fault
  end.

Definition lcd_char (screen : surface_t) (x y fc bc ch : Z) : prog mem unit :=
  if ch >? 0x7f then ret tt
  else
    for_do 16 (λ j,
      for_do 8 (λ i,
        let* p := glyph_row ch j in
        if Z.land p (Z.shiftr 0x80 i) =? 0 then set_pixel screen (x +u i) (y +u j) bc
        else set_pixel screen (x +u i) (y +u j) fc)).

(** The position along the line is a 16-bit number. *)
Definition lcd_textout (screen : surface_t) (x y fc bc : Z) (buf : list Z) (cnt : Z) : prog mem unit :=
  for_to cnt (λ i ox,
    match buf !! Z.to_nat i with
    | Some ch => lcd_char screen ox y fc bc ch ;; ret (u16 (ox + 8))
    | None => fault
    end) (u16 x) ;;
  ret tt.

(** What the [n] conversions store. *)
Fixpoint store_counts (l : list (Z * Z)) : prog mem unit :=
  match l with
  | [] => ret tt
  | (ip, n) :: l => store32 ip n ;; store_counts l
  end.

(** [vsprintf(buf, fmt, ap)] with a buffer of 1024 bytes: the text in it.  A text
    that does not fit with its terminating zero is undefined behaviour. *)
Definition format_text (fmt : list Z) (args : list arg) : prog mem (list Z) :=
  let* m := get_state in
  match vsprintf m fmt args with
  | Some (text, stores) =>
      if 1024 <=? Z.of_nat (length text) then fault else store_counts stores ;; ret text
  | None => fault
  end.

Definition lcd_print (screen : surface_t) (x y fc bc : Z) (fmt : list Z) (args : list arg) : prog mem unit :=
  let* text := format_text fmt args in
  lcd_textout screen x y fc bc text (Z.of_nat (length text)).

(** ** What is drawn *)

(** Whether the glyph of [ch] has a dot in column [i] of row [j]. *)
Definition glyph_dot (ch i j : Z) : bool :=
  match font_ascii_16x8 !! Z.to_nat ch ≫= (.!! Z.to_nat j) with
  | Some b => Z.testbit b (7 - i)
  | None => false
  end.

(** The table covers the characters 0 to 127, and its entries are bytes. *)
Lemma font_table_ok :
  length font_ascii_16x8 = 128%nat ∧
  Forall (λ g, length g = 16%nat ∧ Forall in_u8 g) font_ascii_16x8.
Proof.
  split; [done |].
  assert (forallb (λ g, (length g =? 16)%nat && forallb (λ b, (0 <=? b) && (b <? 256)) g) font_ascii_16x8 = true)
    as Hall by by vm_compute.
  rewrite forallb_forall in Hall. apply Forall_forall. intros g Hg%list_elem_of_In%Hall.
  apply andb_prop in Hg as [Hl Hg]. split; [by apply Nat.eqb_eq |].
  rewrite forallb_forall in Hg. apply Forall_forall. intros b Hb%list_elem_of_In%Hg. unfold in_u8. lia.
Qed.

Lemma glyph_row_spec ch j :
  0 ≤ ch < 128 → 0 ≤ j < 16 →
  ∃ b, glyph_row ch j = ret b ∧ ∀ i, glyph_dot ch i j = Z.testbit b (7 - i).
Proof.
  intros Hch Hj. destruct font_table_ok as [Hn Hall].
  destruct (lookup_lt_is_Some_2 font_ascii_16x8 (Z.to_nat ch)) as [g Hg]; [lia |].
  destruct (proj1 (Forall_lookup _ _) Hall _ _ Hg) as [Hlen _].
  destruct (lookup_lt_is_Some_2 g (Z.to_nat j)) as [b Hb]; [lia |].
  exists b. unfold glyph_row, glyph_dot. rewrite Hg. cbn. by rewrite Hb.
Qed.

Lemma dot_mask b i : 0 ≤ i < 8 → (Z.land b (Z.shiftr 0x80 i) =? 0) = negb (Z.testbit b (7 - i)).
Proof.
  intros Hi. assert (Z.shiftr 0x80 i = 2 ^ (7 - i)) as ->.
  { change 0x80 with (2 ^ 7). rewrite Z.shiftr_div_pow2 by lia. rewrite <- Z.pow_sub_r by lia. done. }
  destruct (Z.testbit b (7 - i)) eqn:E; cbn.
  - apply Z.eqb_neq. intros H0. assert (Z.testbit (Z.land b (2 ^ (7 - i))) (7 - i) = true) as H1.
    { by rewrite Z.land_spec, E, Z.pow2_bits_true by lia. }
    by rewrite H0, Z.testbit_0_l in H1.
  - apply Z.eqb_eq, Z.bits_inj'. intros k Hk. rewrite Z.land_spec, Z.testbit_0_l, Z.pow2_bits_eqb by lia.
    destruct (Z.eqb_spec (7 - i) k) as [<- |]; [by rewrite E | apply andb_false_r].
Qed.

(** Formatting without stores keeps the memory. *)
Lemma format_text_spec m fmt args text :
  vsprintf m fmt args = Some (text, []) → Z.of_nat (length text) < 1024 →
  wp (format_text fmt args) (λ t m', t = text ∧ m' = m) m.
Proof.
  intros E Hl. unfold format_text. apply wp_bind. unfold get_state, wp at 1. rewrite E.
  rewrite (proj2 (Z.leb_gt _ _)) by lia. by apply wp_bind, wp_ret, wp_ret.
Qed.

Section text.
Context (s : surface_t).
Hypothesis Hwf : surface_wf s.
Hypothesis Hpoint : maps_point (s_maps s) = Some map_point_sw.

Notation cv := (canvas_of s).

(** The part of a set of pixels that is inside the clip rectangle. *)
Definition clipped (D : Z → Z → Prop) : Z → Z → Prop := λ x y, in_rect (s_clip s) x y ∧ D x y.

Lemma clipped_in D x y : clipped D x y → in_canvas cv x y.
Proof using Hwf.
  intros [H _]. destruct (wf_clip _ Hwf) as (? & ? & ? & ? & ? & ?). unfold in_canvas, in_rect in *. cbn. lia.
Qed.

Lemma set_pixel_spec m x y c :
  surface_in m s → 0 ≤ x < 2147483648 → 0 ≤ y < 2147483648 →
  wp (set_pixel s x y c)
     (λ _ m', painted cv m m' (clipped (λ X Y, X = x ∧ Y = y)) (λ _ _, px_enc s c)) m.
Proof using Hwf Hpoint.
  intros Hin Hx Hy. unfold set_pixel. rewrite Hpoint, !s32_small by lia. apply wp_bind.
  eapply wp_mono; [by apply map_software_point_spec |]. intros ok m' [Hok Hp]. apply wp_ret.
  eapply painted_iff; [| exact Hp]. intros X Y. unfold clipped. cbn beta. split.
  - intros (-> & -> & Hr & _). done.
  - intros (Hr & -> & ->). split_and!; try done. rewrite Hok by done. done.
Qed.

(** One more point of a raster. *)
Lemma set_pixel_next m m1 x y c (D D' : Z → Z → Prop) px :
  0 ≤ x < 2147483648 → 0 ≤ y < 2147483648 → surface_in m s →
  painted cv m m1 (clipped D) px → (px x y = px_enc s c) →
  (∀ X Y, D' X Y ↔ D X Y ∨ (X = x ∧ Y = y)) →
  wp (set_pixel s x y c) (λ _ m2, painted cv m m2 (clipped D') px) m1.
Proof using Hwf Hpoint.
  intros Hx Hy Hin Hp Hc HD. eapply wp_mono; [apply set_pixel_spec; [by eapply painted_surface_in | done | done] |].
  intros [] m2 Hp2. eapply painted_iff; [| eapply painted_trans; [apply Hwf | apply clipped_in | apply clipped_in | |
    exact Hp | exact Hp2 | |]].
  - intros X Y. cbn beta. unfold clipped. rewrite HD. tauto.
  - intros X Y. unfold clipped, in_rect. apply _.
  - intros X Y (_ & -> & ->). done.
  - done.
Qed.

Lemma lcd_char_spec m x y fc bc ch :
  surface_in m s → 0 ≤ x < 2147483640 → 0 ≤ y < 2147483632 → 0 ≤ ch < 128 →
  wp (lcd_char s x y fc bc ch)
     (λ _ m', painted cv m m' (clipped (in_area x y 8 16))
                (λ X Y, px_enc s (if glyph_dot ch (X - x) (Y - y) then fc else bc))) m.
Proof using Hwf Hpoint.
  intros Hin Hx Hy Hch. unfold lcd_char. rewrite Z.gtb_ltb, (proj2 (Z.ltb_ge _ _)) by lia.
  set (px := λ X Y : Z, px_enc s (if glyph_dot ch (X - x) (Y - y) then fc else bc)).
  apply (wp_for_do _ _ _ (λ j m', painted cv m m' (clipped (raster x y 8 j 0)) px)).
  - done.
  - eapply painted_iff; [| apply painted_none, Hin]. unfold clipped, raster. lia.
  - intros j m1 Hj Hp1. destruct (glyph_row_spec ch j Hch Hj) as (b & Eb & Hdot).
    apply (wp_for_do _ _ _ (λ i m', painted cv m m' (clipped (raster x y 8 j i)) px)); [done | done | |].
    + intros i m2 Hi Hp2. rewrite Eb, !u32_small by lia. apply wp_bind, wp_ret. rewrite dot_mask by done.
      assert (px (x + i) (y + j) = px_enc s (if Z.testbit b (7 - i) then fc else bc)) as Hpx.
      { unfold px. rewrite <- Hdot. by replace (x + i - x) with i by lia; replace (y + j - y) with j by lia. }
      destruct (Z.testbit b (7 - i)); cbn [negb];
        (eapply set_pixel_next; [lia | lia | done | done | done |]; intros; apply raster_step; lia).
    + intros m2 Hp2. eapply painted_iff; [| exact Hp2]. intros X Y. unfold clipped. by rewrite raster_row by lia.
  - intros m1 Hp1. eapply painted_iff; [| exact Hp1]. intros X Y. unfold clipped.
    assert (raster x y 8 16 0 X Y ↔ in_area x y 8 16 X Y) by (unfold raster, in_area; lia). tauto.
Qed.

(** The cells of the first [n] characters of a text, those of characters
    that have no glyph left out. *)
Definition cells (x y : Z) (buf : list Z) (n : Z) : Z → Z → Prop := λ X Y,
  in_area x y (8 * n) 16 X Y ∧ ∃ ch, buf !! Z.to_nat ((X - x) / 8) = Some ch ∧ ch < 128.

Definition cell_color (x y fc bc : Z) (buf : list Z) (X Y : Z) : Z :=
  match buf !! Z.to_nat ((X - x) / 8) with
  | Some ch => if glyph_dot ch ((X - x) mod 8) (Y - y) then fc else bc
  | None => bc
  end.

Lemma cell_index x n X : x + 8 * n ≤ X < x + 8 * n + 8 → (X - x) / 8 = n ∧ (X - x) mod 8 = X - (x + 8 * n).
Proof.
  intros HX. split; symmetry.
  - apply (Z.div_unique _ _ _ (X - (x + 8 * n))); lia.
  - apply (Z.mod_unique _ _ n); lia.
Qed.

Lemma cells_next x y buf n ch X Y :
  0 ≤ n → buf !! Z.to_nat n = Some ch →
  cells x y buf (n + 1) X Y ↔
  cells x y buf n X Y ∨ (in_area (x + 8 * n) y 8 16 X Y ∧ ch < 128).
Proof.
  intros Hn Hch. unfold cells, in_area. split.
  - intros [Ha (c & Hc & Hlt)]. destruct (decide (X < x + 8 * n)); [left; split; [lia | eauto] |].
    right. destruct (cell_index x n X) as [E _]; [lia |]. rewrite E, Hch in Hc. simplify_eq. lia.
  - intros [[Ha Hc] | [Ha Hc]]; [split; [lia | done] |]. split; [lia |].
    destruct (cell_index x n X) as [E _]; [lia |]. rewrite E. eauto.
Qed.

Lemma lcd_textout_spec m x y fc bc buf cnt :
  surface_in m s → Forall (λ ch, 0 ≤ ch) buf →
  0 ≤ cnt ≤ Z.of_nat (length buf) → 0 ≤ x → x + 8 * cnt ≤ 65536 → 0 ≤ y < 2147483632 →
  wp (lcd_textout s x y fc bc buf cnt)
     (λ _ m', painted cv m m' (clipped (cells x y buf cnt)) (λ X Y, px_enc s (cell_color x y fc bc buf X Y))) m.
Proof using Hwf Hpoint.
  intros Hin Hbuf Hcnt Hx Hxn Hy. unfold lcd_textout. set (px := λ X Y : Z, px_enc s _). apply wp_bind.
  apply (wp_for_to _ _ _ _ (λ n ox m', ox = u16 (x + 8 * n) ∧
    painted cv m m' (clipped (cells x y buf n)) px)); [lia | | | by intros a m' [_ Hp]].
  - split; [f_equal; lia |]. eapply painted_iff; [| apply painted_none, Hin].
    intros X Y. unfold clipped, cells, in_area. split; [done |]. intros (_ & ? & _). lia.
  - intros n ox m1 Hn [-> Hp1].
    destruct (lookup_lt_is_Some_2 buf (Z.to_nat n)) as [ch Hch]; [lia |]. rewrite Hch. apply wp_bind.
    assert (0 ≤ ch) by exact (proj1 (Forall_lookup _ _) Hbuf _ _ Hch).
    assert (u16 (u16 (x + 8 * n) + 8) = u16 (x + 8 * (n + 1))) as Eox.
    { rewrite (u16_small (x + 8 * n)) by lia. f_equal. lia. }
    rewrite Eox, u16_small by lia. destruct (decide (ch < 128)) as [Hlt|Hge].
    + eapply wp_mono; [apply lcd_char_spec; [by eapply painted_surface_in | lia..] |].
      intros [] m2 Hp2. apply wp_ret. split; [done |].
      eapply painted_iff; [| eapply painted_trans; [apply Hwf | apply clipped_in | apply clipped_in | |
        exact Hp1 | exact Hp2 | |]].
      * intros X Y. cbn beta. unfold clipped. rewrite (cells_next x y buf n ch) by (done || lia). tauto.
      * intros X Y. unfold clipped, in_rect. apply _.
      * intros X Y [_ [HX _]]. unfold px, cell_color. destruct (cell_index x n X HX) as [-> ->]. by rewrite Hch.
      * done.
    + unfold lcd_char. rewrite Z.gtb_ltb, (proj2 (Z.ltb_lt _ _)) by lia. apply wp_ret, wp_ret. split; [done |].
      eapply painted_iff; [| exact Hp1]. intros X Y. unfold clipped.
      rewrite (cells_next x y buf n ch) by (done || lia). tauto.
Qed.
End text.

(** ** Properties *)

(** C36: [lcd_textout] draws its text: for every character that has a glyph, the
    pixels of its cell of 8 by 16 that are inside the clip rectangle get the
    foreground colour where the glyph has a dot and the background colour
    elsewhere, and no other byte is written.  The text may be cut by the clip
    rectangle but its last cell ends before column 65536, where the 16-bit
    position starts again at the left. *)
Theorem lcd_textout_correct m s x y fc bc buf cnt :
  surface_wf s → surface_in m s → maps_point (s_maps s) = Some map_point_sw →
  Forall (λ ch, 0 ≤ ch) buf → 0 ≤ cnt ≤ Z.of_nat (length buf) →
  0 ≤ x → x + 8 * cnt ≤ 65536 → 0 ≤ y < 2147483632 →
  wp (lcd_textout s x y fc bc buf cnt)
     (λ _ m', painted (canvas_of s) m m' (clipped s (cells x y buf cnt))
                (λ X Y, px_enc s (cell_color x y fc bc buf X Y))) m.
Proof. intros. by apply lcd_textout_spec. Qed.

Definition example_screen : surface_t :=
  Surface (format_info PIXEL_FORMAT_ABGR_8888) 2 2 8 SURFACE_PIXELS_DONTFREE 4096 (Rect 0 0 2 2)
    (Maps (Some map_point_sw) None None None None None None).

(** The first two characters of a text on a screen of 2 by 2 pixels. *)
Lemma lcd_textout_correct_witness :
  wp (lcd_textout example_screen 0 0 0xffffffff 0xff000000 [65; 200; 66] 2)
     (λ _ m', painted (canvas_of example_screen) example_mem m'
                (clipped example_screen (cells 0 0 [65; 200; 66] 2))
                (λ X Y, px_enc example_screen (cell_color 0 0 0xffffffff 0xff000000 [65; 200; 66] X Y)))
     example_mem.
Proof.
  apply (lcd_textout_correct example_mem example_screen 0 0 0xffffffff 0xff000000 [65; 200; 66] 2).
  - split; unfold canvas_wf, clip_in; cbn; (lia || done).
  - exact example_surface_in.
  - done.
  - repeat constructor; lia.
  - cbn. lia.
  - lia.
  - lia.
  - lia.
Defined.
