(* ===== verification/Fill.v ===== *)
(** * Filling rectangles: [sw_fill.c]

    The opaque fill writes the first row pixel by pixel and copies it to the
    others; the translucent fill reads, blends and writes every pixel.  Both
    are shown to paint the clipped rectangle and nothing else. *)

From stdpp Require Import prelude gmap.
From Stdlib Require Import ZArith Lia.
From S2P Require Import Prelude Prog Memory Rect Color Pixel Canvas Surface.

Local Open Scope Z_scope.
Local Open Scope word_scope.

(** [surface->pixels + y * surface->pitch + x * surface->info.bytes_per_pixel] *)
Definition fill_ptr (s : surface_t) (x y : Z) : Z :=
  ptr_add (ptr_add (s_pixels s) (y *u s_pitch s)) (x *u bytes_per_pixel (info s)).

(** [for (i = 1; i < h; i++) { q += skip; memcpy(q, p, len); }] *)
Definition copy_rows (p len skip h : Z) : prog mem unit :=
  for_to (h - 1) (λ _ q, let q := ptr_add q skip in memcpy q p len ;; ret q) p ;; ret tt.

Definition software_fill_replace_1byte (s : surface_t) (rect : rect_t) (c : Z) : prog mem unit :=
  let fill := u8 (Z.land c 255) in
  let x := u32 (rx rect) in
  let y := u32 (ry rect) in
  let w := u32 (rw rect) in
  let h := u32 (rh rect) in
  let len := bytes_per_pixel (info s) *u w in
  let skip := s_pitch s in
  let t := fill_ptr s x y in
  let p := t in
  for_to w (λ _ t, store8_inc t fill) t ;;
  copy_rows p len skip h.

Definition software_fill_replace_2byte (s : surface_t) (rect : rect_t) (c : Z) : prog mem unit :=
  let fill := u16 (Z.land c 65535) in
  let x := u32 (rx rect) in
  let y := u32 (ry rect) in
  let w := u32 (rw rect) in
  let h := u32 (rh rect) in
  let len := bytes_per_pixel (info s) *u w in
  let skip := s_pitch s in
  let t := fill_ptr s x y in
  let p := t in
  for_to w (λ _ t, store16 t fill ;; ret (ptr_add t 2)) t ;;
  copy_rows p len skip h.

Definition software_fill_replace_3byte (s : surface_t) (rect : rect_t) (c : Z) : prog mem unit :=
  let fill0 := u8 (Z.land (Z.shiftr c 0) 255) in
  let fill1 := u8 (Z.land (Z.shiftr c 8) 255) in
  let fill2 := u8 (Z.land (Z.shiftr c 16) 255) in
  let x := u32 (rx rect) in
  let y := u32 (ry rect) in
  let w := u32 (rw rect) in
  let h := u32 (rh rect) in
  let len := bytes_per_pixel (info s) *u w in
  let skip := s_pitch s in
  let t := fill_ptr s x y in
  let p := t in
  for_to w (λ _ t,
    if big_endian then store8_seq t [fill2; fill1; fill0]
    else store8_seq t [fill0; fill1; fill2]) t ;;
  copy_rows p len skip h.

Definition software_fill_replace_4byte (s : surface_t) (rect : rect_t) (c : Z) : prog mem unit :=
  let x := u32 (rx rect) in
  let y := u32 (ry rect) in
  let w := u32 (rw rect) in
  let h := u32 (rh rect) in
  let len := bytes_per_pixel (info s) *u w in
  let skip := s_pitch s in
  let t := fill_ptr s x y in
  let p := t in
  for_to w (λ _ t, store32 t c ;; ret (ptr_add t 4)) t ;;
  copy_rows p len skip h.

Definition software_fill_replace (s : surface_t) (rect : rect_t) (c : Z) : prog mem unit :=
  let bpp := bytes_per_pixel (info s) in
  if bpp =? 1 then software_fill_replace_1byte s rect c
  else if bpp =? 2 then software_fill_replace_2byte s rect c
  else if bpp =? 3 then software_fill_replace_3byte s rect c
  else if bpp =? 4 then software_fill_replace_4byte s rect c
  else ret tt.

(** The pixel value that replaces [dc]. *)
Definition blend_value (s : surface_t) (scol : color_t) (alpha dc : Z) : Z :=
  let dcol := unmap_pixel_color (info s) dc in
  map_pixel_color (info s) (blend scol dcol alpha).

Definition software_fill_alpha (s : surface_t) (rect : rect_t) (c : Z) : prog mem unit :=
  let scol := unmap_pixel_color (info s) c in
  let alpha := c_a scol in
  if alpha =? 255 then software_fill_replace s rect c
  else if alpha =? 0 then ret tt
  else
    let x := u32 (rx rect) in
    let y := u32 (ry rect) in
    let w := u32 (rw rect) in
    let h := u32 (rh rect) in
    let bpp := bytes_per_pixel (info s) in
    if bpp =? 1 then
      let p := surface_sw_get_pointer s (s32 x) (s32 y) in
      let skip := s_pitch s -u w in
      for_to h (λ j p,
        let* p := for_to w (λ i p,
          let* dc := load8 p in
          store8 p (u8 (blend_value s scol alpha dc)) ;;
          ret (ptr_add p 1)) p in
        ret (ptr_add p skip)) p ;; ret tt
    else if bpp =? 2 then
      let p := surface_sw_get_pointer s (s32 x) (s32 y) in
      let skip := (s_pitch s -u (2 *u w)) / 2 in
      for_to h (λ j p,
        let* p := for_to w (λ i p,
          let* dc := load16 p in
          store16 p (u16 (blend_value s scol alpha dc)) ;;
          ret (ptr_add p 2)) p in
        ret (ptr_add p (2 * skip))) p ;; ret tt
    else if bpp =? 3 then
      for_to h (λ j _,
        let* _ := for_to w (λ i _,
          let* dc := surface_sw_get_pixel s (s32 (x + i)) (s32 (y + j)) in
          surface_sw_set_pixel s (s32 (x + i)) (s32 (y + j)) (blend_value s scol alpha dc)) tt in
        ret tt) tt ;; ret tt
    else if bpp =? 4 then
      let p := surface_sw_get_pointer s (s32 x) (s32 y) in
      let skip := (s_pitch s -u (4 *u w)) / 4 in
      for_to h (λ j p,
        let* p := for_to w (λ i p,
          let* dc := load32 p in
          store32 p (blend_value s scol alpha dc) ;;
          ret (ptr_add p 4)) p in
        ret (ptr_add p (4 * skip))) p ;; ret tt
    else ret tt.

Definition map_software_fill (surface : option surface_t) (rect : option rect_t) (c mode : Z)
    : prog mem bool :=
  match surface with
  | None => ret false
  | Some s =>
      if s_pixels s =? 0 then ret false
      else if bits_per_pixel (info s) <? 8 then ret false
      else
        let draw rect :=
          if mode =? BLEND_MODE_REPLACE then software_fill_replace s rect c ;; ret true
          else if mode =? BLEND_MODE_ALPHA then software_fill_alpha s rect c ;; ret true
          else ret false in
        match rect with
        | Some rect =>
            let '(hit, clipped) := rect_intersect rect (s_clip s) in
            if negb hit then ret true else draw clipped
        | None => draw (s_clip s)
        end
  end.

Definition surface_fill (surface : option surface_t) (rect : option rect_t) (c mode : Z)
    : prog mem bool :=
  match surface with
  | None => ret false
  | Some s =>
      match maps_fill (s_maps s) with
      | None => ret false
      | Some map_fill_sw => map_software_fill (Some s) rect c mode
      | Some _ => fault
      end
  end.

(** ** The rectangle on the surface *)

Section area.
Context (s : surface_t) (Hwf : surface_wf s).
Context (x0 y0 w h : Z).
Hypothesis Hx : 0 ≤ x0 ∧ 0 < w ∧ x0 + w ≤ s_w s.
Hypothesis Hy : 0 ≤ y0 ∧ 0 < h ∧ y0 + h ≤ s_h s.

Local Notation cv := (canvas_of s).
Local Notation addr := (px_addr (canvas_of s)).
Local Notation bpp := (bytes_per_pixel (info s)).

Lemma fill_ptr_eq x y : fill_ptr s (u32 x) (u32 y) = u32 (addr x y).
Proof.
  unfold fill_ptr, ptr_add, px_addr. cbn. autorewrite with words. done.
Qed.

Lemma area_in_canvas x y : in_area x0 y0 w h x y → in_canvas cv x y.
Proof using Hx Hy. unfold in_area, in_canvas. cbn. lia. Qed.

Lemma area_addr x y : in_area x0 y0 w h x y → u32 (addr x y) = addr x y.
Proof using Hwf Hx Hy.
  intros Hxy%area_in_canvas. pose proof (px_addr_bounds _ x y (wf_canvas _ Hwf) Hxy) as Hb.
  pose proof (wf_canvas _ Hwf) as Hc. unfold canvas_wf in Hc. apply u32_small. lia.
Qed.

Lemma row_bounds y :
  y0 ≤ y < y0 + h →
  0 < addr x0 y ∧ addr x0 y + w * bpp ≤ s_pixels s + s_h s * s_pitch s < 4294967296 ∧
  s_pixels s ≤ addr x0 y.
Proof using Hwf Hx Hy.
  intros Hr. pose proof (wf_canvas _ Hwf) as Hc. pose proof (wf_pixels _ Hwf).
  pose proof (px_addr_bounds cv x0 y Hc) as B0. pose proof (px_addr_bounds cv (x0 + w - 1) y Hc) as B1.
  unfold canvas_wf, in_canvas, px_addr in *. cbn in *. nia.
Qed.

Lemma row_mapped m y :
  surface_in m s → y0 ≤ y < y0 + h → mapped m (addr x0 y) (w * bpp).
Proof using Hwf Hx Hy.
  intros [_ Hm] Hr. pose proof (row_bounds y Hr). eapply mapped_sub; [exact Hm | lia | lia].
Qed.

(** One row after the other is copied from the first. *)
Lemma copy_rows_spec m m1 l :
  length l = Z.to_nat bpp → surface_in m s →
  painted cv m m1 (in_area x0 y0 w 1) (λ _ _, l) →
  wp (copy_rows (addr x0 y0) (bpp *u w) (s_pitch s) h)
    (λ _ m', painted cv m m' (in_area x0 y0 w h) (λ _ _, l)) m1.
Proof using Hwf Hx Hy.
  intros Hl Hin Hp. unfold copy_rows. apply wp_bind.
  pose proof (wf_canvas _ Hwf) as Hc. pose proof Hc as (Hk & _ & _ & Hpitch & H0 & H1). cbn in Hk, Hpitch, H0, H1.
  assert (0 ≤ w * bpp ≤ s_pitch s) as Hlen by nia.
  pose proof (row_bounds y0 ltac:(lia)) as B0.
  rewrite (u32_small (bpp * w)), (Z.mul_comm bpp w) by lia.
  apply (wp_for_to _ _ _ _ (λ i q m', q = addr x0 (y0 + i) ∧
    painted cv m m' (in_area x0 y0 w (i + 1)) (λ _ _, l))).
  - lia.
  - by rewrite Z.add_0_r.
  - intros i q m2 Hi [-> Hp2].
    pose proof (row_bounds (y0 + (i + 1)) ltac:(lia)) as Bi.
    pose proof (painted_surface_in _ _ _ _ _ _ Hp2 Hin) as Hin2.
    assert (ptr_add (addr x0 (y0 + i)) (s_pitch s) = addr x0 (y0 + (i + 1))) as ->.
    { unfold ptr_add, px_addr in *. cbn in *. rewrite u32_small; lia. }
    apply wp_bind. eapply wp_mono.
    + apply memcpy_spec; [apply Hin2 | lia | lia | lia | lia | lia | | |].
      * apply row_mapped; [done | lia].
      * apply row_mapped; [done | lia].
      * right. unfold px_addr. cbn. nia.
    + intros q m3 [_ Hcp]. apply wp_ret. split; [done |].
      apply (painted_copy_row cv m m2 m3 x0 y0 w (i + 1) _ (addr x0 y0)); try done; try (cbn; lia).
      * apply row_mapped; [done | lia].
      * intros x Hxr. split; [done |].
        destruct (painted_in _ _ _ _ _ Hp2 x y0) as [_ Hb]; [unfold in_area; lia |].
        by replace (addr x0 y0 + (x - x0) * ck cv) with (addr x y0) by (unfold px_addr; lia).
  - intros q m2 [_ Hp2]. apply wp_ret. by replace (h - 1 + 1) with h in Hp2 by lia.
Qed.

(** The first row, whatever the code that writes a pixel. *)
Lemma first_row_spec m l (body : Z → prog mem Z) :
  surface_in m s → length l = Z.to_nat bpp → Forall in_u8 l →
  (∀ x m', x0 ≤ x < x0 + w → mapped m' (addr x y0) bpp →
     wp (body (addr x y0))
       (λ t m'', t = u32 (addr (x + 1) y0) ∧ m'' = write_bytes m' (addr x y0) l) m') →
  wp (for_to w (λ _ t, body t) (addr x0 y0))
    (λ _ m', painted cv m m' (in_area x0 y0 w 1) (λ _ _, l)) m.
Proof using Hwf Hx Hy.
  intros Hin Hl Hu Hbody. rewrite <- (area_addr x0 y0) by (unfold in_area; lia).
  apply (wp_for_to _ _ _ _ (λ i t m', t = u32 (addr (x0 + i) y0) ∧
    painted cv m m' (raster x0 y0 w 0 i) (λ _ _, l))).
  - lia.
  - rewrite Z.add_0_r. split; [done |]. eapply painted_iff; [|apply painted_none, Hin]. unfold raster. lia.
  - intros i t m1 Hi [-> Hp1]. rewrite area_addr by (unfold in_area; lia).
    pose proof (painted_surface_in _ _ _ _ _ _ Hp1 Hin) as Hin1.
    eapply wp_mono.
    { apply Hbody; [lia |]. apply px_mapped; [done | done |]. unfold in_canvas. cbn. lia. }
    intros t m2 [-> ->]. split; [by rewrite Z.add_assoc |].
    pose proof (painted_raster_step cv x0 y0 w h (λ _ _, l) (wf_canvas _ Hwf)) as Hs.
    specialize (Hs ltac:(cbn; lia) ltac:(cbn; lia) ltac:(done) m m1 0 i).
    rewrite Z.add_0_r in Hs. apply Hs; [lia | lia | done].
  - intros t m1 [_ Hp1]. eapply painted_iff; [|done]. unfold raster, in_area. lia.
Qed.

(** The four row writers differ in how they store a pixel. *)
Lemma fill_rows_spec m c (body : Z → prog mem Z) :
  surface_in m s →
  (∀ x m', x0 ≤ x < x0 + w → mapped m' (addr x y0) bpp →
     wp (body (addr x y0))
       (λ t m'', t = u32 (addr x y0 + bpp) ∧ m'' = write_bytes m' (addr x y0) (px_enc s c)) m') →
  wp (for_to (u32 w) (λ _ t, body t) (fill_ptr s (u32 x0) (u32 y0)) ;;
      copy_rows (fill_ptr s (u32 x0) (u32 y0)) (bpp *u u32 w) (s_pitch s) (u32 h))
    (λ _ m', painted cv m m' (in_area x0 y0 w h) (λ _ _, px_enc s c)) m.
Proof using Hwf Hx Hy.
  intros Hin Hbody. pose proof (wf_w _ Hwf). pose proof (wf_h _ Hwf).
  rewrite fill_ptr_eq, area_addr, !(u32_small w), (u32_small h) by (lia || (unfold in_area; lia)).
  apply wp_bind. eapply wp_mono.
  - apply first_row_spec; [done | apply length_px_enc | apply px_enc_in_u8 |].
    intros x m' Hxr Hm. eapply wp_mono; [by apply Hbody |]. intros t m'' [-> ->]. split; [|done].
    f_equal. unfold px_addr. cbn. lia.
  - intros t m1 Hp1. apply copy_rows_spec; [apply length_px_enc | done | done].
Qed.

Lemma software_fill_replace_spec m c :
  surface_in m s →
  wp (software_fill_replace s (Rect x0 y0 w h) c)
    (λ _ m', painted cv m m' (in_area x0 y0 w h) (λ _ _, px_enc s c)) m.
Proof using Hwf Hx Hy.
  intros Hin. pose proof (wf_bpp _ Hwf).
  assert (∀ x, x0 ≤ x < x0 + w → 0 < addr x y0 ∧ addr x y0 + bpp < 4294967296) as Hb.
  { intros x Hxr. pose proof (row_bounds y0 ltac:(lia)). unfold px_addr in *. cbn in *. nia. }
  unfold software_fill_replace.
  destruct (Z.eqb_spec bpp 1) as [E|]; [|destruct (Z.eqb_spec bpp 2) as [E|];
    [|destruct (Z.eqb_spec bpp 3) as [E|]; [|destruct (Z.eqb_spec bpp 4) as [E|]; [|lia]]]];
    apply fill_rows_spec; try done; intros x m' Hxr Hm; rewrite E in *; pose proof (Hb x Hxr).
  - apply wp_store8_inc; [apply Hm; lia |]. split; [done |].
    rewrite land_255, !u8_idemp. unfold px_enc. by rewrite E.
  - apply wp_bind, wp_store16; [lia | lia | done |]. apply wp_ret. split; [done |].
    unfold px_enc. rewrite E, land_65535. cbn [Z.eqb Pos.eqb andb].
    change (u16 (u16 c)) with (((c mod 65536) mod 2 ^ (8 * Z.of_nat 2))). rewrite le_bytes_mod.
    change (c mod 65536) with (c mod 2 ^ (8 * Z.of_nat 2)). by rewrite le_bytes_mod.
  - change big_endian with true. apply wp_store8_seq; [lia | cbn; lia | done |]. split.
    + rewrite u32_small by lia. done.
    + unfold px_enc. rewrite E. cbn [map]. rewrite !land_255, !u8_idemp.
      change (Z.to_nat 3) with 3%nat. cbn -[Z.shiftr u8]. by rewrite Z.shiftr_0_r, Z.shiftr_shiftr.
  - apply wp_bind, wp_store32; [lia | lia | done |]. apply wp_ret. split; [done |].
    unfold px_enc. by rewrite E.
Qed.

(** Both loops of the translucent fill, on a pointer that walks the rows. *)
Lemma blend_rows_spec m c (body : Z → prog mem Z) skip :
  surface_in m s →
  (∀ j, 0 ≤ j < h → ptr_add (u32 (addr (x0 + w) (y0 + j))) skip = u32 (addr x0 (y0 + (j + 1)))) →
  (∀ x y l m', in_area x0 y0 w h x y → px_bytes m' cv x y l →
     mapped m' (addr x y) bpp →
     wp (body (addr x y))
       (λ t m'', t = u32 (addr x y + bpp) ∧ m'' = write_bytes m' (addr x y) (alpha_px s c l)) m') →
  wp (for_to h (λ j p, let* p := for_to w (λ i p, body p) p in ret (ptr_add p skip)) (u32 (addr x0 y0)))
    (λ _ m', painted cv m m' (in_area x0 y0 w h) (λ x y, alpha_px s c (px_at m cv x y))) m.
Proof using Hwf Hx Hy.
  intros Hin Hskip Hbody. replace y0 with (y0 + 0) at 1 by lia. eapply wp_mono.
  - apply (wp_raster cv x0 y0 w h (λ x y, alpha_px s c (px_at m cv x y)) (wf_canvas _ Hwf)
      ltac:(cbn; lia) ltac:(cbn; lia)) with
      (rb := λ _ p, p) (re := λ _ _ p, ptr_add p skip) (body := λ j i p, body p)
      (SA := λ j, u32 (addr x0 (y0 + j))) (SB := λ j i, u32 (addr (x0 + i) (y0 + j))).
    + intros x y Hxy%area_in_canvas. destruct (px_at_ok m s x y Hwf Hin Hxy) as [Hl Hu].
      split; [by apply length_alpha_px | by apply alpha_px_in_u8].
    + apply Hin.
    + intros j Hj. by rewrite Z.add_0_r.
    + intros j Hj. by apply Hskip.
    + intros j i m' Hj Hi Hp. assert (in_area x0 y0 w h (x0 + i) (y0 + j)) as Ha by (unfold in_area; lia).
      pose proof (area_in_canvas _ _ Ha) as Hcv. rewrite area_addr by done.
      eapply wp_mono.
      * apply Hbody; [done | | apply px_mapped; [done | by eapply painted_surface_in | done]].
        eapply (raster_next cv x0 y0 w h _ (wf_canvas _ Hwf)); [cbn; lia | cbn; lia | done | done | done |].
        by apply px_bytes_at.
      * intros t m'' [-> ->]. split; [|done]. f_equal. unfold px_addr. cbn. lia.
  - intros t m' [_ Hp]. done.
Qed.

Lemma get_pointer_eq : surface_sw_get_pointer s (s32 (u32 x0)) (s32 (u32 y0)) = u32 (addr x0 y0).
Proof using Hwf Hx Hy.
  pose proof (wf_w _ Hwf). pose proof (wf_h _ Hwf). pose proof (wf_bpp _ Hwf).
  rewrite !u32_small, !s32_small by lia.
  by apply get_pointer_addr.
Qed.

Lemma pitch_mod p k : k = 1 ∨ k = 2 ∨ k = 4 → p `mod` 4 = 0 → p `mod` k = 0.
Proof.
  intros Hk Hp. apply Z.mod_divide in Hp; [|lia]. apply Z.mod_divide; [lia |].
  apply (Z.divide_trans _ 4); [|done]. destruct Hk as [->|[->| ->]]; [by exists 4 | by exists 2 | done].
Qed.

(** The remainder of a row in pixels, for rows that are whole pixels apart. *)
Lemma skip_row k j :
  k = bpp → s_pitch s mod k = 0 → 0 ≤ j < h →
  ptr_add (u32 (addr (x0 + w) (y0 + j))) (k * ((s_pitch s -u (k *u u32 w)) / k)) =
  u32 (addr x0 (y0 + (j + 1))).
Proof using Hwf Hx Hy.
  intros -> Hmod Hj. pose proof (wf_canvas _ Hwf) as Hc. unfold canvas_wf in Hc. cbn in Hc.
  pose proof (wf_w _ Hwf). pose proof (row_bounds y0 ltac:(lia)) as B.
  assert (0 ≤ bpp * w ≤ s_pitch s) by nia.
  assert (s_pitch s < 4294967296) by (unfold px_addr in B; cbn in B; nia).
  rewrite (u32_small w), (u32_small (bpp * w)), (u32_small (s_pitch s - _)) by lia.
  apply Z.div_exact in Hmod; [|lia].
  replace (bpp * ((s_pitch s - bpp * w) / bpp)) with (s_pitch s - bpp * w).
  - unfold ptr_add. rewrite u32_add_l. f_equal. unfold px_addr. cbn. lia.
  - replace (s_pitch s - bpp * w) with ((s_pitch s / bpp - w) * bpp) at 2 by lia.
    rewrite Z.div_mul by lia. lia.
Qed.

Lemma software_fill_alpha_spec m c :
  surface_in m s →
  wp (software_fill_alpha s (Rect x0 y0 w h) c)
    (λ _ m', painted cv m m' (in_area x0 y0 w h) (λ x y, alpha_px s c (px_at m cv x y))) m.
Proof using Hwf Hx Hy.
  intros Hin. unfold software_fill_alpha. cbn [rx ry rw rh].
  pose proof (blend_rows_spec m c) as Hrows.
  unfold alpha_px in *. destruct (Z.eqb_spec (c_a (unmap_pixel_color (info s) c)) 255).
  { eapply wp_mono; [by apply software_fill_replace_spec |]. done. }
  destruct (Z.eqb_spec (c_a (unmap_pixel_color (info s) c)) 0).
  { apply wp_ret. apply painted_same; [apply Hin | | apply Hwf].
    intros x y Hxy%area_in_canvas. by apply px_mapped. }
  set (scol := unmap_pixel_color (info s) c) in *.
  rewrite get_pointer_eq. pose proof (wf_bpp _ Hwf). pose proof (wf_pitch _ Hwf) as Hp4.
  pose proof (wf_w _ Hwf). pose proof (wf_h _ Hwf).
  assert (∀ x y, in_area x0 y0 w h x y → 0 ≤ addr x y ∧ addr x y + bpp < 4294967296) as Hb.
  { intros x y [Hxr Hyr]. pose proof (row_bounds y ltac:(lia)). unfold px_addr in *. cbn in *. nia. }
  rewrite !(u32_small h), !(u32_small w) by lia.
  destruct (Z.eqb_spec bpp 1) as [E|]; [|destruct (Z.eqb_spec bpp 2) as [E|];
    [|destruct (Z.eqb_spec bpp 3) as [E|]; [|destruct (Z.eqb_spec bpp 4) as [E|]; [|lia]]]];
    apply wp_bind.
  - eapply wp_mono; [apply Hrows; [done | |] | intros; by apply wp_ret].
    + intros j Hj. pose proof (skip_row 1 j ltac:(lia) (Z.mod_1_r _) Hj) as Hs.
      by rewrite Z.mul_1_l, Z.div_1_r, Z.mul_1_l, u32_idemp, (u32_small w) in Hs by lia.
    + intros x y l m' Hxy [Hl Hbs] Hm. cbn in Hl. rewrite E in *. destruct l as [|b [|]]; try done.
      apply wp_bind. eapply wp_load8; [apply Hbs |].
      apply wp_bind, wp_store8; [apply Hm; lia |]. apply wp_ret. split; [done |].
      unfold px_enc, px_dec. rewrite E. cbn -[u8]. by rewrite u8_idemp, Z.lor_0_r.
  - eapply wp_mono; [apply Hrows; [done | |] | intros; by apply wp_ret].
    + intros j Hj. pose proof (skip_row 2 j ltac:(lia)) as Hs. rewrite (u32_small w) in Hs by lia.
      apply Hs; [|done]. by apply pitch_mod; [right; left |].
    + intros x y l m' Hxy [Hl Hbs] Hm. cbn in Hl. pose proof (Hb _ _ Hxy). rewrite E in *.
      apply wp_bind. eapply wp_load16; [lia | lia | done | done |].
      apply wp_bind, wp_store16; [lia | lia | done |]. apply wp_ret. split; [done |].
      unfold px_enc, px_dec. rewrite E. cbn [Z.eqb Pos.eqb andb].
      change (u16 ?v) with (v mod 2 ^ (8 * Z.of_nat 2)). by rewrite le_bytes_mod.
  - eapply wp_mono; [apply (wp_raster cv x0 y0 w h (λ x y, px_enc s (map_pixel_color (info s)
        (blend scol (unmap_pixel_color (info s) (px_dec s (px_at m cv x y))) (c_a scol)))) (wf_canvas _ Hwf)
      ltac:(cbn; lia) ltac:(cbn; lia)) with (rb := λ _ _, tt) (re := λ _ _ _, tt)
      (SA := λ _, tt) (SB := λ _ _, tt) | intros t m' [_ Hp]; by apply wp_ret].
    + intros x y _. split; [apply length_px_enc | apply px_enc_in_u8].
    + apply Hin.
    + done.
    + done.
    + intros j i m' Hj Hi Hp. assert (in_area x0 y0 w h (x0 + i) (y0 + j)) as Ha by (unfold in_area; lia).
      pose proof (area_in_canvas _ _ Ha) as Hcv. rewrite !u32_small, !s32_small by lia.
      apply wp_bind. eapply wp_sw_get_pixel; [done | done | |].
      { eapply (raster_next cv x0 y0 w h _ (wf_canvas _ Hwf)); [cbn; lia | cbn; lia | done | done | done |].
        by apply px_bytes_at. }
      apply wp_sw_set_pixel; [done | done | |done].
      apply px_mapped; [done | by eapply painted_surface_in | done].
  - eapply wp_mono; [apply Hrows; [done | |] | intros; by apply wp_ret].
    + intros j Hj. pose proof (skip_row 4 j ltac:(lia)) as Hs. rewrite (u32_small w) in Hs by lia.
      by apply Hs.
    + intros x y l m' Hxy [Hl Hbs] Hm. cbn in Hl. pose proof (Hb _ _ Hxy). rewrite E in *.
      apply wp_bind. eapply wp_load32; [lia | lia | done | done |].
      apply wp_bind, wp_store32; [lia | lia | done |]. apply wp_ret. split; [done |].
      unfold px_enc, px_dec. by rewrite E.
Qed.
End area.

Lemma fill_draw_spec m s r c mode :
  surface_wf s → surface_in m s →
  mode = BLEND_MODE_REPLACE ∨ mode = BLEND_MODE_ALPHA →
  0 ≤ rx r ∧ 0 < rw r ∧ rx r + rw r ≤ s_w s → 0 ≤ ry r ∧ 0 < rh r ∧ ry r + rh r ≤ s_h s →
  wp (if mode =? BLEND_MODE_REPLACE then software_fill_replace s r c ;; ret true
      else if mode =? BLEND_MODE_ALPHA then software_fill_alpha s r c ;; ret true
      else ret false)
    (λ ok m', ok = true ∧ painted (canvas_of s) m m' (in_rect r)
         (λ x y, drawn_px s mode c (px_at m (canvas_of s) x y))) m.
Proof.
  intros Hwf Hin Hmode Hx Hy. destruct r as [x0 y0 w h]. cbn in Hx, Hy. unfold drawn_px.
  destruct Hmode as [-> | ->]; apply wp_bind; (eapply wp_mono;
    [(by apply software_fill_replace_spec) || (by apply software_fill_alpha_spec) |]);
    intros t m' Hp; apply wp_ret; split; done.
Qed.

Lemma clip_small s : surface_wf s → rect_small (s_clip s).
Proof.
  intros Hwf. destruct (wf_clip _ Hwf) as (? & ? & ? & ? & ? & ?).
  pose proof (wf_w _ Hwf). pose proof (wf_h _ Hwf). unfold rect_small. lia.
Qed.

(** A rectangle that [rect_intersect] reports is in both arguments. *)
Lemma clip_hit_bounds s r :
  surface_wf s → rect_small r → (rect_intersect r (s_clip s)).1 = true →
  let c := (rect_intersect r (s_clip s)).2 in
  (0 ≤ rx c ∧ 0 < rw c ∧ rx c + rw c ≤ s_w s) ∧ (0 ≤ ry c ∧ 0 < rh c ∧ ry c + rh c ≤ s_h s) ∧
  ∀ x y, in_rect c x y ↔ in_rect r x y ∧ in_rect (s_clip s) x y.
Proof.
  intros Hwf Hr Hhit c. destruct (rect_intersect_nonempty _ _ Hhit) as [Hw Hh]. fold c in Hw, Hh.
  destruct (wf_clip _ Hwf) as (? & ? & ? & ? & ? & ?). pose proof (clip_small s Hwf) as Hcs.
  pose proof (λ x y, rect_intersect_in r (s_clip s) x y Hr Hcs) as Hin. fold c in Hin.
  pose proof (proj1 (Hin (rx c) (ry c))) as Hq1.
  pose proof (proj1 (Hin (rx c + rw c - 1) (ry c + rh c - 1))) as Hq2.
  unfold in_rect in Hq1, Hq2. split; [lia |]. split; [lia |]. exact Hin.
Qed.

(** A fill whose first byte is not mapped faults. *)
Lemma software_fill_replace_fault m s r c :
  1 ≤ bytes_per_pixel (info s) ≤ 4 → 0 < u32 (rw r) →
  m !! fill_ptr s (u32 (rx r)) (u32 (ry r)) = None → software_fill_replace s r c m = None.
Proof.
  intros Hk Hw Hm. assert (∀ v, store8 (fill_ptr s (u32 (rx r)) (u32 (ry r))) v m = None) as Hs
    by (intros v; unfold store8; by rewrite Hm).
  unfold software_fill_replace.
  repeat (case_match; [apply bind_fault, for_to_fault; [done |] |]); [ | | | |lia].
  - by apply bind_fault, Hs.
  - by apply bind_fault, bind_fault, Hs.
  - change big_endian with true. by apply bind_fault, bind_fault, Hs.
  - by apply bind_fault, bind_fault, Hs.
Qed.

(** The pixels a call of [map_software_fill] is to paint. *)
Definition fill_area (s : surface_t) (rect : option rect_t) (x y : Z) : Prop :=
  in_rect (s_clip s) x y ∧ match rect with Some r => in_rect r x y | None => True end.

Lemma map_software_fill_spec m s rect c mode :
  surface_wf s → surface_in m s →
  mode = BLEND_MODE_REPLACE ∨ mode = BLEND_MODE_ALPHA →
  match rect with Some r => rect_small r | None => rect_is_empty (s_clip s) = false end →
  wp (map_software_fill (Some s) rect c mode)
    (λ ok m', ok = true ∧
       painted (canvas_of s) m m' (fill_area s rect)
         (λ x y, drawn_px s mode c (px_at m (canvas_of s) x y))) m.
Proof.
  intros Hwf Hin Hmode Hrect. pose proof (wf_pixels _ Hwf). pose proof (wf_bits _ Hwf).
  unfold map_software_fill, fill_area.
  rewrite (proj2 (Z.eqb_neq _ _)), (proj2 (Z.ltb_ge _ _)) by lia.
  destruct rect as [r|].
  - pose proof (clip_hit_bounds s r Hwf Hrect) as Hb.
    pose proof (rect_intersect_hit r (s_clip s) Hrect (clip_small s Hwf)) as Hhit.
    destruct (rect_intersect r (s_clip s)) as [[] clipped]; cbn [fst snd negb] in *.
    + destruct (Hb eq_refl) as (Hx & Hy & Hiff).
      eapply wp_mono; [by apply fill_draw_spec |]. intros ok m' [-> Hp]. split; [done |].
      eapply painted_iff; [|exact Hp]. intros x y. rewrite Hiff. tauto.
    + apply wp_ret. split; [done |]. eapply painted_iff; [|by apply painted_none, Hin].
      intros x y. split; [done |]. intros [H1 H2].
      assert (false = true) by (apply Hhit; eauto). done.
  - destruct (wf_clip _ Hwf) as (? & ? & ? & ? & ? & ?). unfold rect_is_empty in Hrect.
    eapply wp_mono; [apply fill_draw_spec; done || lia |]. intros ok m' [-> Hp]. split; [done |].
    eapply painted_iff; [|exact Hp]. tauto.
Qed.

(** ** Properties *)

(** C11: filling a rectangle of a surface, opaque or translucent, by the row
    copies and pointer walks of the four pixel sizes, paints every pixel of the
    clipped rectangle with the colour, or with the blend of the colour and what
    was there, and changes no other byte of memory.  A surface whose clip is
    empty must be given a rectangle. *)
Theorem map_software_fill_correct m s rect c mode :
  surface_wf s → surface_in m s →
  mode = BLEND_MODE_REPLACE ∨ mode = BLEND_MODE_ALPHA →
  match rect with Some r => rect_small r | None => rect_is_empty (s_clip s) = false end →
  wp (map_software_fill (Some s) rect c mode)
    (λ ok m', ok = true ∧
       painted (canvas_of s) m m' (fill_area s rect)
         (λ x y, drawn_px s mode c (px_at m (canvas_of s) x y))) m.
Proof. apply map_software_fill_spec. Qed.

Lemma map_software_fill_correct_witness :
  wp (map_software_fill (Some example_surface) (Some (Rect (-1) 1 2 5)) 2164195328 BLEND_MODE_ALPHA)
    (λ ok m', ok = true ∧
       painted (canvas_of example_surface) example_mem m' (fill_area example_surface (Some (Rect (-1) 1 2 5)))
         (λ x y, drawn_px example_surface BLEND_MODE_ALPHA 2164195328
                   (px_at example_mem (canvas_of example_surface) x y))) example_mem.
Proof.
  apply (map_software_fill_correct example_mem example_surface (Some (Rect (-1) 1 2 5))).
  - apply example_surface_wf.
  - apply example_surface_in.
  - right. reflexivity.
  - cbv. intuition discriminate.
Defined.

(** [surface_set_clip_rect] stores an empty clip when it refuses a rectangle
    that lies off the surface, and a fill of the whole clip does not test for
    that: asked to clip to the row below the surface and then to fill, the code
    writes past the end of the pixels. *)
Theorem fill_empty_clip_overruns m s c :
  surface_wf s → 0 < s_w s → m !! (s_pixels s + s_h s * s_pitch s) = None →
  ∃ s', surface_set_clip_rect (Some s) (Some (Rect 0 (s_h s) (s_w s) 1)) = (false, Some s') ∧
    map_software_fill (Some s') None c BLEND_MODE_REPLACE m = None.
Proof.
  intros Hwf Hw Hm. pose proof (full_rect_small s Hwf) as Hf.
  pose proof (wf_w _ Hwf). pose proof (wf_h _ Hwf). pose proof (wf_pixels _ Hwf). pose proof (wf_bits _ Hwf).
  pose proof (wf_canvas _ Hwf) as Hc. unfold canvas_wf in Hc. cbn in Hc.
  exists (set_clip s (Rect 0 (s_h s) (s_w s) 0)). split.
  - unfold surface_set_clip_rect. rewrite rect_intersect_eq; [|unfold rect_small; cbn; lia | done].
    cbn [rx ry rw rh]. rewrite !s32_small by lia.
    rewrite !Z.add_0_l, Z.max_id, Z.min_id, Z.max_l, Z.min_r, Z.sub_0_r, Z.sub_diag by lia.
    unfold rect_is_empty. cbn [rw rh]. by rewrite orb_true_r.
  - unfold map_software_fill. cbn [set_clip s_pixels info s_clip].
    rewrite (proj2 (Z.eqb_neq _ _)), (proj2 (Z.ltb_ge _ _)) by lia.
    apply bind_fault, software_fill_replace_fault; cbn [rx ry rw info set_clip].
    + apply Hwf.
    + rewrite u32_small; lia.
    + rewrite fill_ptr_eq. unfold px_addr. cbn. by rewrite Z.add_0_r, u32_small by nia.
Qed.

Lemma fill_empty_clip_overruns_witness :
  ∃ s', surface_set_clip_rect (Some example_surface) (Some (Rect 0 2 2 1)) = (false, Some s') ∧
    map_software_fill (Some s') None 0 BLEND_MODE_REPLACE example_mem = None.
Proof.
  apply (fill_empty_clip_overruns example_mem example_surface 0).
  - apply example_surface_wf.
  - reflexivity.
  - vm_compute. reflexivity.
Defined.
