(* ===== verification/BlitReplace.v ===== *)
(** * Opaque blits: [sw_blit_replace.c]

    A blit copies a rectangle of one surface to another and converts the
    pixels to the format of the destination.  The file has the generic loop,
    the row copy for equal formats, and one conversion loop for each of 38
    pairs of formats; those loops differ in the bytes they read and write for a
    pixel, which are the argument of [blit_pixels]. *)

From stdpp Require Import prelude gmap.
From Stdlib Require Import ZArith Lia.
From S2P Require Import Prelude Prog Memory Rect Color Pixel Layout Canvas Surface.

Local Open Scope Z_scope.
Local Open Scope word_scope.

Definition sw_blit_replace_generic (dst : surface_t) (dst_rect : rect_t) (src : surface_t)
    (src_rect : rect_t) : prog mem unit :=
  let dx := rx dst_rect in
  let dy := ry dst_rect in
  let dw := rw dst_rect in
  let dh := rh dst_rect in
  let sx := rx src_rect in
  let sy := ry src_rect in
  for_to dh (λ j _,
    let* _ := for_to dw (λ i _,
      let* sc := surface_sw_get_pixel src (sx +s i) (sy +s j) in
      let col := unmap_pixel_color (info src) sc in
      let dc := map_pixel_color (info dst) col in
      surface_sw_set_pixel dst (dx +s i) (dy +s j) dc) tt in
    ret tt) tt ;; ret tt.

Definition sw_blit_replace_directN (dst : surface_t) (dst_rect : rect_t) (src : surface_t)
    (src_rect : rect_t) : prog mem unit :=
  let dx := rx dst_rect in
  let dy := ry dst_rect in
  let dw := rw dst_rect in
  let dh := rh dst_rect in
  let sx := rx src_rect in
  let sy := ry src_rect in
  let dpitch := s_pitch dst in
  let spitch := s_pitch src in
  let len := dw *s bytes_per_pixel (info dst) in
  let sp := surface_sw_get_pointer src sx sy in
  let dp := surface_sw_get_pointer dst dx dy in
  for_to dh (λ j '(dp, sp),
    memmove dp sp (u32 len) ;;
    ret (ptr_add dp dpitch, ptr_add sp spitch)) (dp, sp) ;; ret tt.

(** The loops around a conversion; [pixel] converts one pixel and advances the
    two pointers. *)
Definition blit_pixels (dst : surface_t) (dst_rect : rect_t) (src : surface_t) (src_rect : rect_t)
    (pixel : Z → Z → prog mem (Z * Z)) : prog mem unit :=
  let dx := rx dst_rect in
  let dy := ry dst_rect in
  let dw := rw dst_rect in
  let dh := rh dst_rect in
  let sx := rx src_rect in
  let sy := ry src_rect in
  let dskip := s_pitch dst -u (bytes_per_pixel (info dst) *s dw) in
  let sskip := s_pitch src -u (bytes_per_pixel (info src) *s dw) in
  let sp := surface_sw_get_pointer src sx sy in
  let dp := surface_sw_get_pointer dst dx dy in
  for_to dh (λ j '(dp, sp),
    let* (dp, sp) := for_to dw (λ i '(dp, sp), pixel dp sp) (dp, sp) in
    ret (ptr_add dp dskip, ptr_add sp sskip)) (dp, sp) ;; ret tt.

Definition sw_blit_replace_ABGR_8888_ARGB_8888 (dst : surface_t) (dst_rect : rect_t) (src : surface_t) (src_rect : rect_t)
    : prog mem unit :=
  blit_pixels dst dst_rect src src_rect (λ dp sp,
    let* (b, sp) := load8_inc sp in
    let* (g, sp) := load8_inc sp in
    let* (r, sp) := load8_inc sp in
    let* (a, sp) := load8_inc sp in
    let* dp := store8_seq dp [r; g; b; a] in
    ret (dp, sp)).

Definition sw_blit_replace_ABGR_8888_BGRA_8888 (dst : surface_t) (dst_rect : rect_t) (src : surface_t) (src_rect : rect_t)
    : prog mem unit :=
  blit_pixels dst dst_rect src src_rect (λ dp sp,
    let* (a, sp) := load8_inc sp in
    let* (r, sp) := load8_inc sp in
    let* (g, sp) := load8_inc sp in
    let* (b, sp) := load8_inc sp in
    let* dp := store8_seq dp [r; g; b; a] in
    ret (dp, sp)).

Definition sw_blit_replace_ABGR_8888_RGBA_8888 (dst : surface_t) (dst_rect : rect_t) (src : surface_t) (src_rect : rect_t)
    : prog mem unit :=
  blit_pixels dst dst_rect src src_rect (λ dp sp,
    let* (a, sp) := load8_inc sp in
    let* (b, sp) := load8_inc sp in
    let* (g, sp) := load8_inc sp in
    let* (r, sp) := load8_inc sp in
    let* dp := store8_seq dp [r; g; b; a] in
    ret (dp, sp)).

Definition sw_blit_replace_ABGR_8888_BGR_888 (dst : surface_t) (dst_rect : rect_t) (src : surface_t) (src_rect : rect_t)
    : prog mem unit :=
  blit_pixels dst dst_rect src src_rect (λ dp sp,
    let* (r, sp) := load8_inc sp in
    let* (g, sp) := load8_inc sp in
    let* (b, sp) := load8_inc sp in
    let* dp := store8_seq dp [r; g; b; 255] in
    ret (dp, sp)).

Definition sw_blit_replace_ABGR_8888_RGB_888 (dst : surface_t) (dst_rect : rect_t) (src : surface_t) (src_rect : rect_t)
    : prog mem unit :=
  blit_pixels dst dst_rect src src_rect (λ dp sp,
    let* (b, sp) := load8_inc sp in
    let* (g, sp) := load8_inc sp in
    let* (r, sp) := load8_inc sp in
    let* dp := store8_seq dp [r; g; b; 255] in
    ret (dp, sp)).

Definition sw_blit_replace_ABGR_8888_BGR565 (dst : surface_t) (dst_rect : rect_t) (src : surface_t) (src_rect : rect_t)
    : prog mem unit :=
  blit_pixels dst dst_rect src src_rect (λ dp sp,
    let* v := load16 sp in
    let sp := ptr_add sp 2 in
    let* dp := store8_seq dp [Z.shiftl (Z.land v 31) 3; Z.shiftr (Z.land v 2016) 3; Z.shiftr (Z.land v 63488) 8; 255] in
    ret (dp, sp)).

Definition sw_blit_replace_ABGR_8888_RGB565 (dst : surface_t) (dst_rect : rect_t) (src : surface_t) (src_rect : rect_t)
    : prog mem unit :=
  blit_pixels dst dst_rect src src_rect (λ dp sp,
    let* v := load16 sp in
    let sp := ptr_add sp 2 in
    let* dp := store8_seq dp [Z.shiftr (Z.land v 63488) 8; Z.shiftr (Z.land v 2016) 3; Z.shiftl (Z.land v 31) 3; 255] in
    ret (dp, sp)).

Definition sw_blit_replace_ARGB_8888_ABGR_8888 (dst : surface_t) (dst_rect : rect_t) (src : surface_t) (src_rect : rect_t)
    : prog mem unit :=
  blit_pixels dst dst_rect src src_rect (λ dp sp,
    let* (r, sp) := load8_inc sp in
    let* (g, sp) := load8_inc sp in
    let* (b, sp) := load8_inc sp in
    let* (a, sp) := load8_inc sp in
    let* dp := store8_seq dp [b; g; r; a] in
    ret (dp, sp)).

Definition sw_blit_replace_ARGB_8888_BGRA_8888 (dst : surface_t) (dst_rect : rect_t) (src : surface_t) (src_rect : rect_t)
    : prog mem unit :=
  blit_pixels dst dst_rect src src_rect (λ dp sp,
    let* (a, sp) := load8_inc sp in
    let* (r, sp) := load8_inc sp in
    let* (g, sp) := load8_inc sp in
    let* (b, sp) := load8_inc sp in
    let* dp := store8_seq dp [b; g; r; a] in
    ret (dp, sp)).

Definition sw_blit_replace_ARGB_8888_RGBA_8888 (dst : surface_t) (dst_rect : rect_t) (src : surface_t) (src_rect : rect_t)
    : prog mem unit :=
  blit_pixels dst dst_rect src src_rect (λ dp sp,
    let* (a, sp) := load8_inc sp in
    let* (b, sp) := load8_inc sp in
    let* (g, sp) := load8_inc sp in
    let* (r, sp) := load8_inc sp in
    let* dp := store8_seq dp [b; g; r; a] in
    ret (dp, sp)).

Definition sw_blit_replace_ARGB_8888_BGR_888 (dst : surface_t) (dst_rect : rect_t) (src : surface_t) (src_rect : rect_t)
    : prog mem unit :=
  blit_pixels dst dst_rect src src_rect (λ dp sp,
    let* (r, sp) := load8_inc sp in
    let* (g, sp) := load8_inc sp in
    let* (b, sp) := load8_inc sp in
    let* dp := store8_seq dp [b; g; r; 255] in
    ret (dp, sp)).

Definition sw_blit_replace_ARGB_8888_RGB_888 (dst : surface_t) (dst_rect : rect_t) (src : surface_t) (src_rect : rect_t)
    : prog mem unit :=
  blit_pixels dst dst_rect src src_rect (λ dp sp,
    let* (b, sp) := load8_inc sp in
    let* (g, sp) := load8_inc sp in
    let* (r, sp) := load8_inc sp in
    let* dp := store8_seq dp [b; g; r; 255] in
    ret (dp, sp)).

Definition sw_blit_replace_ARGB_8888_BGR565 (dst : surface_t) (dst_rect : rect_t) (src : surface_t) (src_rect : rect_t)
    : prog mem unit :=
  blit_pixels dst dst_rect src src_rect (λ dp sp,
    let* v := load16 sp in
    let sp := ptr_add sp 2 in
    let* dp := store8_seq dp [Z.shiftr (Z.land v 63488) 8; Z.shiftr (Z.land v 2016) 3; Z.shiftl (Z.land v 31) 3; 255] in
    ret (dp, sp)).

Definition sw_blit_replace_ARGB_8888_RGB565 (dst : surface_t) (dst_rect : rect_t) (src : surface_t) (src_rect : rect_t)
    : prog mem unit :=
  blit_pixels dst dst_rect src src_rect (λ dp sp,
    let* v := load16 sp in
    let sp := ptr_add sp 2 in
    let* dp := store8_seq dp [Z.shiftl (Z.land v 31) 3; Z.shiftr (Z.land v 2016) 3; Z.shiftr (Z.land v 63488) 8; 255] in
    ret (dp, sp)).

Definition sw_blit_replace_BGRA_8888_ABGR_8888 (dst : surface_t) (dst_rect : rect_t) (src : surface_t) (src_rect : rect_t)
    : prog mem unit :=
  blit_pixels dst dst_rect src src_rect (λ dp sp,
    let* (r, sp) := load8_inc sp in
    let* (g, sp) := load8_inc sp in
    let* (b, sp) := load8_inc sp in
    let* (a, sp) := load8_inc sp in
    let* dp := store8_seq dp [a; r; g; b] in
    ret (dp, sp)).

Definition sw_blit_replace_BGRA_8888_ARGB_8888 (dst : surface_t) (dst_rect : rect_t) (src : surface_t) (src_rect : rect_t)
    : prog mem unit :=
  blit_pixels dst dst_rect src src_rect (λ dp sp,
    let* (b, sp) := load8_inc sp in
    let* (g, sp) := load8_inc sp in
    let* (r, sp) := load8_inc sp in
    let* (a, sp) := load8_inc sp in
    let* dp := store8_seq dp [a; r; g; b] in
    ret (dp, sp)).

Definition sw_blit_replace_BGRA_8888_RGBA_8888 (dst : surface_t) (dst_rect : rect_t) (src : surface_t) (src_rect : rect_t)
    : prog mem unit :=
  blit_pixels dst dst_rect src src_rect (λ dp sp,
    let* (a, sp) := load8_inc sp in
    let* (b, sp) := load8_inc sp in
    let* (g, sp) := load8_inc sp in
    let* (r, sp) := load8_inc sp in
    let* dp := store8_seq dp [a; r; g; b] in
    ret (dp, sp)).

Definition sw_blit_replace_BGRA_8888_BGR_888 (dst : surface_t) (dst_rect : rect_t) (src : surface_t) (src_rect : rect_t)
    : prog mem unit :=
  blit_pixels dst dst_rect src src_rect (λ dp sp,
    let* (r, sp) := load8_inc sp in
    let* (g, sp) := load8_inc sp in
    let* (b, sp) := load8_inc sp in
    let* dp := store8_seq dp [255; r; g; b] in
    ret (dp, sp)).

Definition sw_blit_replace_BGRA_8888_RGB_888 (dst : surface_t) (dst_rect : rect_t) (src : surface_t) (src_rect : rect_t)
    : prog mem unit :=
  blit_pixels dst dst_rect src src_rect (λ dp sp,
    let* (b, sp) := load8_inc sp in
    let* (g, sp) := load8_inc sp in
    let* (r, sp) := load8_inc sp in
    let* dp := store8_seq dp [255; r; g; b] in
    ret (dp, sp)).

Definition sw_blit_replace_BGRA_8888_BGR565 (dst : surface_t) (dst_rect : rect_t) (src : surface_t) (src_rect : rect_t)
    : prog mem unit :=
  blit_pixels dst dst_rect src src_rect (λ dp sp,
    let* v := load16 sp in
    let sp := ptr_add sp 2 in
    let* dp := store8_seq dp [255; Z.shiftl (Z.land v 31) 3; Z.shiftr (Z.land v 2016) 3; Z.shiftr (Z.land v 63488) 8] in
    ret (dp, sp)).

Definition sw_blit_replace_BGRA_8888_RGB565 (dst : surface_t) (dst_rect : rect_t) (src : surface_t) (src_rect : rect_t)
    : prog mem unit :=
  blit_pixels dst dst_rect src src_rect (λ dp sp,
    let* v := load16 sp in
    let sp := ptr_add sp 2 in
    let* dp := store8_seq dp [255; Z.shiftr (Z.land v 63488) 8; Z.shiftr (Z.land v 2016) 3; Z.shiftl (Z.land v 31) 3] in
    ret (dp, sp)).

Definition sw_blit_replace_RGBA_8888_ABGR_8888 (dst : surface_t) (dst_rect : rect_t) (src : surface_t) (src_rect : rect_t)
    : prog mem unit :=
  blit_pixels dst dst_rect src src_rect (λ dp sp,
    let* (r, sp) := load8_inc sp in
    let* (g, sp) := load8_inc sp in
    let* (b, sp) := load8_inc sp in
    let* (a, sp) := load8_inc sp in
    let* dp := store8_seq dp [a; b; g; r] in
    ret (dp, sp)).

Definition sw_blit_replace_RGBA_8888_ARGB_8888 (dst : surface_t) (dst_rect : rect_t) (src : surface_t) (src_rect : rect_t)
    : prog mem unit :=
  blit_pixels dst dst_rect src src_rect (λ dp sp,
    let* (b, sp) := load8_inc sp in
    let* (g, sp) := load8_inc sp in
    let* (r, sp) := load8_inc sp in
    let* (a, sp) := load8_inc sp in
    let* dp := store8_seq dp [a; b; g; r] in
    ret (dp, sp)).

Definition sw_blit_replace_RGBA_8888_BGRA_8888 (dst : surface_t) (dst_rect : rect_t) (src : surface_t) (src_rect : rect_t)
    : prog mem unit :=
  blit_pixels dst dst_rect src src_rect (λ dp sp,
    let* (a, sp) := load8_inc sp in
    let* (r, sp) := load8_inc sp in
    let* (g, sp) := load8_inc sp in
    let* (b, sp) := load8_inc sp in
    let* dp := store8_seq dp [a; b; g; r] in
    ret (dp, sp)).

Definition sw_blit_replace_RGBA_8888_BGR_888 (dst : surface_t) (dst_rect : rect_t) (src : surface_t) (src_rect : rect_t)
    : prog mem unit :=
  blit_pixels dst dst_rect src src_rect (λ dp sp,
    let* (r, sp) := load8_inc sp in
    let* (g, sp) := load8_inc sp in
    let* (b, sp) := load8_inc sp in
    let* dp := store8_seq dp [255; b; g; r] in
    ret (dp, sp)).

Definition sw_blit_replace_RGBA_8888_RGB_888 (dst : surface_t) (dst_rect : rect_t) (src : surface_t) (src_rect : rect_t)
    : prog mem unit :=
  blit_pixels dst dst_rect src src_rect (λ dp sp,
    let* (b, sp) := load8_inc sp in
    let* (g, sp) := load8_inc sp in
    let* (r, sp) := load8_inc sp in
    let* dp := store8_seq dp [255; b; g; r] in
    ret (dp, sp)).

Definition sw_blit_replace_RGBA_8888_BGR565 (dst : surface_t) (dst_rect : rect_t) (src : surface_t) (src_rect : rect_t)
    : prog mem unit :=
  blit_pixels dst dst_rect src src_rect (λ dp sp,
    let* v := load16 sp in
    let sp := ptr_add sp 2 in
    let* dp := store8_seq dp [255; Z.shiftr (Z.land v 63488) 8; Z.shiftr (Z.land v 2016) 3; Z.shiftl (Z.land v 31) 3] in
    ret (dp, sp)).

Definition sw_blit_replace_RGBA_8888_RGB565 (dst : surface_t) (dst_rect : rect_t) (src : surface_t) (src_rect : rect_t)
    : prog mem unit :=
  blit_pixels dst dst_rect src src_rect (λ dp sp,
    let* v := load16 sp in
    let sp := ptr_add sp 2 in
    let* dp := store8_seq dp [255; Z.shiftl (Z.land v 31) 3; Z.shiftr (Z.land v 2016) 3; Z.shiftr (Z.land v 63488) 8] in
    ret (dp, sp)).

Definition sw_blit_replace_BGR_888_ABGR_8888 (dst : surface_t) (dst_rect : rect_t) (src : surface_t) (src_rect : rect_t)
    : prog mem unit :=
  blit_pixels dst dst_rect src src_rect (λ dp sp,
    let* (r, sp) := load8_inc sp in
    let* (g, sp) := load8_inc sp in
    let* (b, sp) := load8_inc sp in
    let* (a, sp) := load8_inc sp in
    let* dp := store8_seq dp [r; g; b] in
    ret (dp, sp)).

Definition sw_blit_replace_BGR_888_ARGB_8888 (dst : surface_t) (dst_rect : rect_t) (src : surface_t) (src_rect : rect_t)
    : prog mem unit :=
  blit_pixels dst dst_rect src src_rect (λ dp sp,
    let* (b, sp) := load8_inc sp in
    let* (g, sp) := load8_inc sp in
    let* (r, sp) := load8_inc sp in
    let* (a, sp) := load8_inc sp in
    let* dp := store8_seq dp [r; g; b] in
    ret (dp, sp)).

Definition sw_blit_replace_BGR_888_BGRA_8888 (dst : surface_t) (dst_rect : rect_t) (src : surface_t) (src_rect : rect_t)
    : prog mem unit :=
  blit_pixels dst dst_rect src src_rect (λ dp sp,
    let* (a, sp) := load8_inc sp in
    let* (r, sp) := load8_inc sp in
    let* (g, sp) := load8_inc sp in
    let* (b, sp) := load8_inc sp in
    let* dp := store8_seq dp [r; g; b] in
    ret (dp, sp)).

Definition sw_blit_replace_BGR_888_RGBA_8888 (dst : surface_t) (dst_rect : rect_t) (src : surface_t) (src_rect : rect_t)
    : prog mem unit :=
  blit_pixels dst dst_rect src src_rect (λ dp sp,
    let* (a, sp) := load8_inc sp in
    let* (b, sp) := load8_inc sp in
    let* (g, sp) := load8_inc sp in
    let* (r, sp) := load8_inc sp in
    let* dp := store8_seq dp [r; g; b] in
    ret (dp, sp)).

Definition sw_blit_replace_BGR_888_RGB_888 (dst : surface_t) (dst_rect : rect_t) (src : surface_t) (src_rect : rect_t)
    : prog mem unit :=
  blit_pixels dst dst_rect src src_rect (λ dp sp,
    let* (b, sp) := load8_inc sp in
    let* (g, sp) := load8_inc sp in
    let* (r, sp) := load8_inc sp in
    let* dp := store8_seq dp [r; g; b] in
    ret (dp, sp)).

Definition sw_blit_replace_RGB_888_ABGR_8888 (dst : surface_t) (dst_rect : rect_t) (src : surface_t) (src_rect : rect_t)
    : prog mem unit :=
  blit_pixels dst dst_rect src src_rect (λ dp sp,
    let* (r, sp) := load8_inc sp in
    let* (g, sp) := load8_inc sp in
    let* (b, sp) := load8_inc sp in
    let* (a, sp) := load8_inc sp in
    let* dp := store8_seq dp [b; g; r] in
    ret (dp, sp)).

Definition sw_blit_replace_RGB_888_ARGB_8888 (dst : surface_t) (dst_rect : rect_t) (src : surface_t) (src_rect : rect_t)
    : prog mem unit :=
  blit_pixels dst dst_rect src src_rect (λ dp sp,
    let* (b, sp) := load8_inc sp in
    let* (g, sp) := load8_inc sp in
    let* (r, sp) := load8_inc sp in
    let* (a, sp) := load8_inc sp in
    let* dp := store8_seq dp [b; g; r] in
    ret (dp, sp)).

Definition sw_blit_replace_RGB_888_BGRA_8888 (dst : surface_t) (dst_rect : rect_t) (src : surface_t) (src_rect : rect_t)
    : prog mem unit :=
  blit_pixels dst dst_rect src src_rect (λ dp sp,
    let* (a, sp) := load8_inc sp in
    let* (r, sp) := load8_inc sp in
    let* (g, sp) := load8_inc sp in
    let* (b, sp) := load8_inc sp in
    let* dp := store8_seq dp [b; g; r] in
    ret (dp, sp)).

Definition sw_blit_replace_RGB_888_RGBA_8888 (dst : surface_t) (dst_rect : rect_t) (src : surface_t) (src_rect : rect_t)
    : prog mem unit :=
  blit_pixels dst dst_rect src src_rect (λ dp sp,
    let* (a, sp) := load8_inc sp in
    let* (b, sp) := load8_inc sp in
    let* (g, sp) := load8_inc sp in
    let* (r, sp) := load8_inc sp in
    let* dp := store8_seq dp [b; g; r] in
    ret (dp, sp)).

Definition sw_blit_replace_RGB_888_BGR_888 (dst : surface_t) (dst_rect : rect_t) (src : surface_t) (src_rect : rect_t)
    : prog mem unit :=
  blit_pixels dst dst_rect src src_rect (λ dp sp,
    let* (r, sp) := load8_inc sp in
    let* (g, sp) := load8_inc sp in
    let* (b, sp) := load8_inc sp in
    let* dp := store8_seq dp [b; g; r] in
    ret (dp, sp)).

Definition sw_blit_replace (dst : surface_t) (dst_rect : rect_t) (src : surface_t) (src_rect : rect_t)
    : prog mem unit :=
  match fmt (info dst), fmt (info src) with
  | PIXEL_FORMAT_ABGR_8888, PIXEL_FORMAT_ABGR_8888 => sw_blit_replace_directN dst dst_rect src src_rect
  | PIXEL_FORMAT_ABGR_8888, PIXEL_FORMAT_ARGB_8888 => sw_blit_replace_ABGR_8888_ARGB_8888 dst dst_rect src src_rect
  | PIXEL_FORMAT_ABGR_8888, PIXEL_FORMAT_BGRA_8888 => sw_blit_replace_ABGR_8888_BGRA_8888 dst dst_rect src src_rect
  | PIXEL_FORMAT_ABGR_8888, PIXEL_FORMAT_RGBA_8888 => sw_blit_replace_ABGR_8888_RGBA_8888 dst dst_rect src src_rect
  | PIXEL_FORMAT_ABGR_8888, PIXEL_FORMAT_BGR_888 => sw_blit_replace_ABGR_8888_BGR_888 dst dst_rect src src_rect
  | PIXEL_FORMAT_ABGR_8888, PIXEL_FORMAT_RGB_888 => sw_blit_replace_ABGR_8888_RGB_888 dst dst_rect src src_rect
  | PIXEL_FORMAT_ABGR_8888, PIXEL_FORMAT_BGR_565 => sw_blit_replace_ABGR_8888_BGR565 dst dst_rect src src_rect
  | PIXEL_FORMAT_ABGR_8888, PIXEL_FORMAT_RGB_565 => sw_blit_replace_ABGR_8888_RGB565 dst dst_rect src src_rect
  | PIXEL_FORMAT_ARGB_8888, PIXEL_FORMAT_ABGR_8888 => sw_blit_replace_ARGB_8888_ABGR_8888 dst dst_rect src src_rect
  | PIXEL_FORMAT_ARGB_8888, PIXEL_FORMAT_ARGB_8888 => sw_blit_replace_directN dst dst_rect src src_rect
  | PIXEL_FORMAT_ARGB_8888, PIXEL_FORMAT_BGRA_8888 => sw_blit_replace_ARGB_8888_BGRA_8888 dst dst_rect src src_rect
  | PIXEL_FORMAT_ARGB_8888, PIXEL_FORMAT_RGBA_8888 => sw_blit_replace_ARGB_8888_RGBA_8888 dst dst_rect src src_rect
  | PIXEL_FORMAT_ARGB_8888, PIXEL_FORMAT_BGR_888 => sw_blit_replace_ARGB_8888_BGR_888 dst dst_rect src src_rect
  | PIXEL_FORMAT_ARGB_8888, PIXEL_FORMAT_RGB_888 => sw_blit_replace_ARGB_8888_RGB_888 dst dst_rect src src_rect
  | PIXEL_FORMAT_ARGB_8888, PIXEL_FORMAT_BGR_565 => sw_blit_replace_ARGB_8888_BGR565 dst dst_rect src src_rect
  | PIXEL_FORMAT_ARGB_8888, PIXEL_FORMAT_RGB_565 => sw_blit_replace_ARGB_8888_RGB565 dst dst_rect src src_rect
  | PIXEL_FORMAT_BGRA_8888, PIXEL_FORMAT_ABGR_8888 => sw_blit_replace_BGRA_8888_ABGR_8888 dst dst_rect src src_rect
  | PIXEL_FORMAT_BGRA_8888, PIXEL_FORMAT_ARGB_8888 => sw_blit_replace_BGRA_8888_ARGB_8888 dst dst_rect src src_rect
  | PIXEL_FORMAT_BGRA_8888, PIXEL_FORMAT_BGRA_8888 => sw_blit_replace_directN dst dst_rect src src_rect
  | PIXEL_FORMAT_BGRA_8888, PIXEL_FORMAT_RGBA_8888 => sw_blit_replace_BGRA_8888_RGBA_8888 dst dst_rect src src_rect
  | PIXEL_FORMAT_BGRA_8888, PIXEL_FORMAT_BGR_888 => sw_blit_replace_BGRA_8888_BGR_888 dst dst_rect src src_rect
  | PIXEL_FORMAT_BGRA_8888, PIXEL_FORMAT_RGB_888 => sw_blit_replace_BGRA_8888_RGB_888 dst dst_rect src src_rect
  | PIXEL_FORMAT_BGRA_8888, PIXEL_FORMAT_BGR_565 => sw_blit_replace_BGRA_8888_BGR565 dst dst_rect src src_rect
  | PIXEL_FORMAT_BGRA_8888, PIXEL_FORMAT_RGB_565 => sw_blit_replace_BGRA_8888_RGB565 dst dst_rect src src_rect
  | PIXEL_FORMAT_RGBA_8888, PIXEL_FORMAT_ABGR_8888 => sw_blit_replace_RGBA_8888_ABGR_8888 dst dst_rect src src_rect
  | PIXEL_FORMAT_RGBA_8888, PIXEL_FORMAT_ARGB_8888 => sw_blit_replace_RGBA_8888_ARGB_8888 dst dst_rect src src_rect
  | PIXEL_FORMAT_RGBA_8888, PIXEL_FORMAT_BGRA_8888 => sw_blit_replace_RGBA_8888_BGRA_8888 dst dst_rect src src_rect
  | PIXEL_FORMAT_RGBA_8888, PIXEL_FORMAT_RGBA_8888 => sw_blit_replace_directN dst dst_rect src src_rect
  | PIXEL_FORMAT_RGBA_8888, PIXEL_FORMAT_BGR_888 => sw_blit_replace_RGBA_8888_BGR_888 dst dst_rect src src_rect
  | PIXEL_FORMAT_RGBA_8888, PIXEL_FORMAT_RGB_888 => sw_blit_replace_RGBA_8888_RGB_888 dst dst_rect src src_rect
  | PIXEL_FORMAT_RGBA_8888, PIXEL_FORMAT_BGR_565 => sw_blit_replace_RGBA_8888_BGR565 dst dst_rect src src_rect
  | PIXEL_FORMAT_RGBA_8888, PIXEL_FORMAT_RGB_565 => sw_blit_replace_RGBA_8888_RGB565 dst dst_rect src src_rect
  | PIXEL_FORMAT_BGR_888, PIXEL_FORMAT_ABGR_8888 => sw_blit_replace_BGR_888_ABGR_8888 dst dst_rect src src_rect
  | PIXEL_FORMAT_BGR_888, PIXEL_FORMAT_ARGB_8888 => sw_blit_replace_BGR_888_ARGB_8888 dst dst_rect src src_rect
  | PIXEL_FORMAT_BGR_888, PIXEL_FORMAT_BGRA_8888 => sw_blit_replace_BGR_888_BGRA_8888 dst dst_rect src src_rect
  | PIXEL_FORMAT_BGR_888, PIXEL_FORMAT_RGBA_8888 => sw_blit_replace_BGR_888_RGBA_8888 dst dst_rect src src_rect
  | PIXEL_FORMAT_BGR_888, PIXEL_FORMAT_BGR_888 => sw_blit_replace_directN dst dst_rect src src_rect
  | PIXEL_FORMAT_BGR_888, PIXEL_FORMAT_RGB_888 => sw_blit_replace_BGR_888_RGB_888 dst dst_rect src src_rect
  | PIXEL_FORMAT_RGB_888, PIXEL_FORMAT_ABGR_8888 => sw_blit_replace_RGB_888_ABGR_8888 dst dst_rect src src_rect
  | PIXEL_FORMAT_RGB_888, PIXEL_FORMAT_ARGB_8888 => sw_blit_replace_RGB_888_ARGB_8888 dst dst_rect src src_rect
  | PIXEL_FORMAT_RGB_888, PIXEL_FORMAT_BGRA_8888 => sw_blit_replace_RGB_888_BGRA_8888 dst dst_rect src src_rect
  | PIXEL_FORMAT_RGB_888, PIXEL_FORMAT_RGBA_8888 => sw_blit_replace_RGB_888_RGBA_8888 dst dst_rect src src_rect
  | PIXEL_FORMAT_RGB_888, PIXEL_FORMAT_BGR_888 => sw_blit_replace_RGB_888_BGR_888 dst dst_rect src src_rect
  | PIXEL_FORMAT_RGB_888, PIXEL_FORMAT_RGB_888 => sw_blit_replace_directN dst dst_rect src src_rect
  | PIXEL_FORMAT_BGR_565, PIXEL_FORMAT_BGR_565 => sw_blit_replace_directN dst dst_rect src src_rect
  | PIXEL_FORMAT_RGB_565, PIXEL_FORMAT_RGB_565 => sw_blit_replace_directN dst dst_rect src src_rect
  | PIXEL_FORMAT_BGR_332, PIXEL_FORMAT_BGR_332 => sw_blit_replace_directN dst dst_rect src src_rect
  | PIXEL_FORMAT_RGB_332, PIXEL_FORMAT_RGB_332 => sw_blit_replace_directN dst dst_rect src src_rect
  | _, _ => sw_blit_replace_generic dst dst_rect src src_rect
  end.

(** Execute the body of a conversion loop. *)
Ltac load_bytes Hb :=
  repeat (apply wp_bind; eapply wp_load8_inc; [by apply Hb |]; rewrite ptr_add_small by lia; cbn beta iota).

Ltac store_bytes :=
  apply wp_bind, wp_store8_seq; [lia | cbn [length]; lia | assumption |];
  cbn [length Z.of_nat Pos.of_succ_nat Pos.succ]; apply wp_ret; split; [f_equal; lia |].

(** ** What the loops do *)

Section blit.
Context (dst src : surface_t) (dx dy sx sy w h : Z).
Hypothesis Hdst : surface_wf dst.
Hypothesis Hsrc : surface_wf src.
Hypothesis Hdisj : surf_disjoint dst src.
Hypothesis Hdx : 0 ≤ dx ∧ 0 < w ∧ dx + w ≤ s_w dst.
Hypothesis Hdy : 0 ≤ dy ∧ 0 < h ∧ dy + h ≤ s_h dst.
Hypothesis Hsx : 0 ≤ sx ∧ sx + w ≤ s_w src.
Hypothesis Hsy : 0 ≤ sy ∧ sy + h ≤ s_h src.

Local Notation dcv := (canvas_of dst).
Local Notation scv := (canvas_of src).

(** The source pixel that goes to [(x, y)]. *)
Definition src_px (m : mem) (x y : Z) : list Z := px_at m scv (x - dx + sx) (y - dy + sy).

Lemma src_px_ok m x y :
  surface_in m src → in_area dx dy w h x y →
  length (src_px m x y) = Z.to_nat (bytes_per_pixel (info src)) ∧ Forall in_u8 (src_px m x y).
Proof using Hsrc Hdx Hdy Hsx Hsy.
  intros Hin Ha. apply px_at_ok; [done | done |]. unfold in_area, in_canvas in *. cbn. lia.
Qed.

(** While the destination is painted the source keeps its pixels. *)
Lemma src_px_stable m m' px j i :
  surface_in m src → 0 ≤ j < h → 0 ≤ i < w →
  painted dcv m m' (raster dx dy w j i) px →
  px_bytes m' scv (sx + i) (sy + j) (src_px m (dx + i) (dy + j)).
Proof using Hdst Hsrc Hdisj Hdx Hdy Hsx Hsy.
  intros Hin Hj Hi Hp. assert (in_canvas scv (sx + i) (sy + j)) as Hc by (unfold in_canvas; cbn; lia).
  apply (painted_disjoint dst src m m' (raster dx dy w j i) px); try done.
  - intros x y. apply (raster_in_canvas dcv dx dy w h); cbn; lia.
  - unfold src_px. replace (dx + i - dx + sx) with (sx + i) by lia.
    replace (dy + j - dy + sy) with (sy + j) by lia. by apply px_bytes_at.
Qed.

Lemma skip_eq s x w' y :
  u32 (px_addr (canvas_of s) (x + w') y + (s_pitch s -u (bytes_per_pixel (info s) *s w'))) =
  u32 (px_addr (canvas_of s) x (y + 1)).
Proof.
  rewrite u32_add_r, Z.add_sub_assoc, <- u32_sub_r, u32_s32, u32_sub_r.
  f_equal. unfold px_addr. cbn. lia.
Qed.

(** A conversion loop paints the converted pixels, for any conversion of one
    pixel that reads [ks] bytes and writes [kd]. *)
Lemma blit_pixels_spec m (pixel : Z → Z → prog mem (Z * Z)) (conv : list Z → list Z) :
  surface_in m dst → surface_in m src →
  (∀ l, length l = Z.to_nat (bytes_per_pixel (info src)) → Forall in_u8 l →
     length (conv l) = Z.to_nat (bytes_per_pixel (info dst)) ∧ Forall in_u8 (conv l)) →
  (∀ dp sp l m', length l = Z.to_nat (bytes_per_pixel (info src)) → Forall in_u8 l →
     has_bytes m' sp l → mapped m' dp (bytes_per_pixel (info dst)) →
     0 ≤ dp → dp + bytes_per_pixel (info dst) < 4294967296 →
     0 ≤ sp → sp + bytes_per_pixel (info src) < 4294967296 →
     wp (pixel dp sp)
       (λ r m'', r = (dp + bytes_per_pixel (info dst), sp + bytes_per_pixel (info src)) ∧
          m'' = write_bytes m' dp (conv l)) m') →
  wp (blit_pixels dst (Rect dx dy w h) src (Rect sx sy w h) pixel)
    (λ _ m', painted dcv m m' (in_area dx dy w h) (λ x y, conv (src_px m x y))) m.
Proof using Hdst Hsrc Hdisj Hdx Hdy Hsx Hsy.
  intros Hind Hins Hconv Hpixel. unfold blit_pixels. cbn [rx ry rw rh].
  pose proof (wf_bpp _ Hdst). pose proof (wf_bpp _ Hsrc).
  rewrite !get_pointer_addr by done.
  replace (px_addr dcv dx dy) with (px_addr dcv dx (dy + 0)) by (f_equal; lia).
  replace (px_addr scv sx sy) with (px_addr scv sx (sy + 0)) by (f_equal; lia).
  apply (wp_raster_then dcv dx dy w h (λ x y, conv (src_px m x y)) (wf_canvas _ Hdst)) with
    (inner := λ j i '(dp, sp), pixel dp sp)
    (re := λ j '(dp, sp), ret
       (ptr_add dp (s_pitch dst -u (bytes_per_pixel (info dst) *s w)),
        ptr_add sp (s_pitch src -u (bytes_per_pixel (info src) *s w))))
    (SA := λ j, (u32 (px_addr dcv dx (dy + j)), u32 (px_addr scv sx (sy + j))))
    (SB := λ j i, (u32 (px_addr dcv (dx + i) (dy + j)), u32 (px_addr scv (sx + i) (sy + j)))).
  - cbn. lia.
  - cbn. lia.
  - intros x y Ha. by apply Hconv; apply src_px_ok.
  - apply Hind.
  - intros j Hj. by rewrite !Z.add_0_r.
  - intros j Hj. unfold ptr_add. by rewrite !u32_add_l, !skip_eq, !Z.add_assoc.
  - intros j i m' Hj Hi Hp.
    destruct (addr_small dst (dx + i) (dy + j) Hdst) as (-> & D1 & D2); [unfold in_canvas; cbn; lia |].
    destruct (addr_small src (sx + i) (sy + j) Hsrc) as (-> & S1 & S2); [unfold in_canvas; cbn; lia |].
    destruct (src_px_ok m (dx + i) (dy + j) Hins) as [Hl Hu]; [unfold in_area; lia |].
    eapply wp_mono.
    + apply (Hpixel _ _ (src_px m (dx + i) (dy + j))); try done; try lia.
      * by eapply src_px_stable.
      * apply px_mapped; [done | by eapply painted_surface_in | unfold in_canvas; cbn; lia].
    + intros r m'' [-> ->]. split; [|done].
      by rewrite !Z.add_assoc, !px_addr_next, !u32_small by (cbn; lia).
Qed.

(** The pairs of different formats that have a loop of their own. *)
Definition has_loop (fd fs : pixel_format) : bool :=
  bool_decide (fd ≠ fs) && true_colour fd &&
  (true_colour fs || (high_colour fs && (alpha_mask_size (format_info fd) =? 8))).

Lemma sw_blit_replace_loop_spec m fd fs :
  info dst = format_info fd → info src = format_info fs → has_loop fd fs = true →
  surface_in m dst → surface_in m src →
  wp (sw_blit_replace dst (Rect dx dy w h) src (Rect sx sy w h))
    (λ _ m', painted dcv m m' (in_area dx dy w h) (λ x y, convert fd fs (src_px m x y))) m.
Proof using Hdst Hsrc Hdisj Hdx Hdy Hsx Hsy.
  intros Ed Es Hloop Hind Hins. pose proof blit_pixels_spec as Hspec.
  rewrite Ed, Es in Hspec. unfold sw_blit_replace. rewrite Ed, Es.
  assert (true_colour fd = true) as Hfd by (unfold has_loop in Hloop; destruct (true_colour fd); [done | by rewrite andb_false_r in Hloop]).
  assert (∀ l, length (convert fd fs l) = Z.to_nat (bytes_per_pixel (format_info fd)) ∧ Forall in_u8 (convert fd fs l)) as Hcok
    by (intros l; by apply convert_ok).
  destruct fd; try discriminate Hfd; destruct fs; try discriminate Hloop; cbn [fmt format_info set_pixel_info];
    (apply (Hspec m _ _ Hind Hins (λ l _ _, Hcok l)); clear Hspec Hcok Hfd Hloop;
     intros dp sp l m' Hl Hu Hb Hm Hd0 Hd1 Hs0 Hs1; cbn [format_info set_pixel_info bytes_per_pixel] in *).
  all: destruct l as [|b0 [|b1 [|b2 [|b3 [|]]]]]; try discriminate Hl.
  all: rewrite ?Forall_cons in Hu.
  all: try (load_bytes Hb; store_bytes; f_equal; symmetry).
  all: try match goal with
    | |- convert ?fd PIXEL_FORMAT_ABGR_8888 [?x; ?y; ?z; ?t] = _ => apply (convert_true fd PIXEL_FORMAT_ABGR_8888 x y z t); tauto
    | |- convert ?fd PIXEL_FORMAT_ARGB_8888 [?x; ?y; ?z; ?t] = _ => apply (convert_true fd PIXEL_FORMAT_ARGB_8888 z y x t); tauto
    | |- convert ?fd PIXEL_FORMAT_BGRA_8888 [?x; ?y; ?z; ?t] = _ => apply (convert_true fd PIXEL_FORMAT_BGRA_8888 y z t x); tauto
    | |- convert ?fd PIXEL_FORMAT_RGBA_8888 [?x; ?y; ?z; ?t] = _ => apply (convert_true fd PIXEL_FORMAT_RGBA_8888 t z y x); tauto
    | |- convert ?fd PIXEL_FORMAT_BGR_888 [?x; ?y; ?z] = _ => apply (convert_true fd PIXEL_FORMAT_BGR_888 x y z x); tauto
    | |- convert ?fd PIXEL_FORMAT_RGB_888 [?x; ?y; ?z] = _ => apply (convert_true fd PIXEL_FORMAT_RGB_888 z y x x); tauto
  end.
  all: apply wp_bind; eapply (wp_load16 _ _ _ [b0; b1]); [lia | lia | done | done |].
  all: rewrite ptr_add_small by lia; store_bytes; f_equal; symmetry.
  all: apply convert_high; [done | done |]; rewrite !Forall_cons; tauto.
Qed.

Lemma sw_blit_replace_generic_spec m :
  surface_in m dst → surface_in m src →
  wp (sw_blit_replace_generic dst (Rect dx dy w h) src (Rect sx sy w h))
    (λ _ m', painted dcv m m' (in_area dx dy w h)
       (λ x y, px_enc dst (map_pixel_color (info dst)
                 (unmap_pixel_color (info src) (px_dec src (src_px m x y)))))) m.
Proof using Hdst Hsrc Hdisj Hdx Hdy Hsx Hsy.
  intros Hind Hins. unfold sw_blit_replace_generic. cbn [rx ry rw rh].
  pose proof (wf_w _ Hdst). pose proof (wf_h _ Hdst). pose proof (wf_w _ Hsrc). pose proof (wf_h _ Hsrc).
  eapply (wp_raster_then dcv dx dy w h _ (wf_canvas _ Hdst)) with (SA := λ _, tt) (SB := λ _ _, tt).
  - cbn. lia.
  - cbn. lia.
  - intros x y _. split; [apply length_px_enc | apply px_enc_in_u8].
  - apply Hind.
  - done.
  - done.
  - intros j i m' Hj Hi Hp. cbn beta. rewrite !s32_small by lia.
    assert (in_canvas dcv (dx + i) (dy + j)) as Hc by (unfold in_canvas; cbn; lia).
    apply wp_bind. eapply wp_sw_get_pixel; [done | unfold in_canvas; cbn; lia | by eapply src_px_stable |].
    apply wp_sw_set_pixel; [done | done | | done].
    apply px_mapped; [done | by eapply painted_surface_in | done].
Qed.

Lemma sw_blit_replace_directN_spec m :
  bytes_per_pixel (info src) = bytes_per_pixel (info dst) →
  surface_in m dst → surface_in m src →
  wp (sw_blit_replace_directN dst (Rect dx dy w h) src (Rect sx sy w h))
    (λ _ m', painted dcv m m' (in_area dx dy w h) (src_px m)) m.
Proof using Hdst Hsrc Hdisj Hdx Hdy Hsx Hsy.
  intros Hk Hind Hins. unfold sw_blit_replace_directN. cbn [rx ry rw rh].
  pose proof (wf_bpp _ Hdst). pose proof (wf_bpp _ Hsrc). pose proof (wf_w _ Hdst).
  rewrite !get_pointer_addr by done. rewrite (s32_small (w * _)), (u32_small (w * _)) by nia. apply wp_bind.
  apply (wp_for_to _ _ _ _ (λ j '(dp, sp) m',
    dp = u32 (px_addr dcv dx (dy + j)) ∧ sp = u32 (px_addr scv sx (sy + j)) ∧
    painted dcv m m' (in_area dx dy w j) (src_px m))).
  - lia.
  - rewrite !Z.add_0_r. split_and!; [done | done |].
    eapply painted_iff; [|apply painted_none, Hind]. unfold in_area. lia.
  - intros j [dp sp] m1 Hj (-> & -> & Hp).
    pose proof (row_in w dst dx (dy + j) Hdst ltac:(lia) ltac:(lia) ltac:(lia) ltac:(lia)) as D.
    pose proof (row_in w src sx (sy + j) Hsrc ltac:(lia) ltac:(lia) ltac:(lia) ltac:(lia)) as S'.
    rewrite Hk in S'. rewrite !(u32_small (px_addr _ _ _)) by lia.
    assert (surface_in m1 dst) as Hd1 by (by eapply painted_surface_in).
    assert (surface_in m1 src) as Hs1 by (by eapply painted_surface_in).
    assert (mapped m1 (px_addr dcv dx (dy + j)) (w * bytes_per_pixel (info dst))) as Md
      by (apply (mapped_sub m1 (s_pixels dst) (s_h dst * s_pitch dst)); [apply Hd1 | lia | lia]).
    assert (mapped m1 (px_addr scv sx (sy + j)) (w * bytes_per_pixel (info dst))) as Ms
      by (apply (mapped_sub m1 (s_pixels src) (s_h src * s_pitch src)); [apply Hs1 | lia | lia]).
    apply wp_bind. eapply wp_mono; [apply memmove_spec; try done; try lia; apply Hd1 |].
    intros r m2 [_ Hc]. apply wp_ret. split_and!.
    + unfold ptr_add. f_equal. unfold px_addr. cbn. lia.
    + unfold ptr_add. f_equal. unfold px_addr. cbn. lia.
    + apply (painted_copy_row dcv m m1 m2 dx dy w j _ (px_addr scv sx (sy + j))); try done; try (cbn; lia).
      * apply Hdst.
      * intros x Hx. destruct (src_px_ok m x (dy + j) Hins) as [Hl _]; [unfold in_area; lia |].
        split; [by rewrite Hl, Hk |].
        destruct (painted_disjoint dst src m m1 (in_area dx dy w j) (src_px m)
          (x - dx + sx) (dy + j - dy + sy) (src_px m x (dy + j))) as [_ Hb]; try done.
        -- intros x' y' Ha. unfold in_area, in_canvas in *. cbn. lia.
        -- unfold in_canvas. cbn. lia.
        -- apply px_bytes_at; [done | done |]. unfold in_canvas. cbn. lia.
        -- replace (px_addr scv sx (sy + j) + (x - dx) * ck dcv) with (px_addr scv (x - dx + sx) (dy + j - dy + sy));
             [done |]. unfold px_addr. cbn. rewrite Hk. lia.
  - intros [dp sp] m1 (_ & _ & Hp). by apply wp_ret.
Qed.

(** The bytes of the destination pixel made from the source bytes [l]. *)
Definition generic_px (l : list Z) : list Z :=
  px_enc dst (map_pixel_color (info dst) (unmap_pixel_color (info src) (px_dec src l))).

Definition blit_px (fd fs : pixel_format) (l : list Z) : list Z :=
  if bool_decide (fd = fs) then l
  else if has_loop fd fs then convert fd fs l
  else generic_px l.

Lemma sw_blit_replace_spec m fd fs :
  info dst = format_info fd → info src = format_info fs →
  surface_in m dst → surface_in m src →
  wp (sw_blit_replace dst (Rect dx dy w h) src (Rect sx sy w h))
    (λ _ m', painted dcv m m' (in_area dx dy w h) (λ x y, blit_px fd fs (src_px m x y))) m.
Proof using Hdst Hsrc Hdisj Hdx Hdy Hsx Hsy.
  intros Ed Es Hind Hins. unfold blit_px. pose proof (wf_bpp _ Hdst) as Hk.
  case_bool_decide as E.
  - subst fs. assert (sw_blit_replace dst (Rect dx dy w h) src (Rect sx sy w h) =
      sw_blit_replace_directN dst (Rect dx dy w h) src (Rect sx sy w h)) as ->.
    { unfold sw_blit_replace. rewrite Ed, Es. rewrite Ed in Hk. destruct fd; try done. cbn in Hk. lia. }
    apply sw_blit_replace_directN_spec; [by rewrite Ed, Es | done | done].
  - destruct (has_loop fd fs) eqn:Hl; [by apply sw_blit_replace_loop_spec |].
    assert (sw_blit_replace dst (Rect dx dy w h) src (Rect sx sy w h) =
      sw_blit_replace_generic dst (Rect dx dy w h) src (Rect sx sy w h)) as ->.
    { unfold sw_blit_replace. rewrite Ed, Es. by destruct fd, fs. }
    by apply sw_blit_replace_generic_spec.
Qed.

(** The pairs whose conversion agrees with the generic code. *)
Definition exact_pair (fd fs : pixel_format) : bool :=
  negb (has_loop fd fs) || (word_format fd && word_format fs).

Lemma blit_px_generic fd fs l :
  info dst = format_info fd → info src = format_info fs → exact_pair fd fs = true →
  length l = Z.to_nat (bytes_per_pixel (info src)) → Forall in_u8 l →
  blit_px fd fs l = generic_px l.
Proof using Hdst Hsrc.
  intros Ed Es Hex Hl Hu. pose proof (wf_bpp _ Hsrc) as Hk. unfold blit_px, generic_px.
  case_bool_decide as E.
  - subst fs. assert (fd ≠ PIXEL_FORMAT_GENERIC) as Hg by (intros ->; rewrite Es in Hk; cbn in Hk; lia).
    rewrite Ed, Es, map_unmap; [| done |].
    + unfold px_enc, px_dec. rewrite Ed, Es. rewrite Es in Hl. rewrite <- Hl.
      case_match; [|by rewrite le_bytes_val].
      by rewrite <- (length_rev l), le_bytes_val, rev_involutive by by apply Forall_rev.
    + assert (0 ≤ px_dec src l < 2 ^ (8 * Z.of_nat (length l))) as Hr.
      { unfold px_dec. case_match; [|by apply le_val_range].
        rewrite <- length_rev. by apply le_val_range, Forall_rev. }
      rewrite Hl, Es in Hr. by destruct fd.
  - destruct (has_loop fd fs) eqn:Hloop; [|done].
    assert (word_format fd = true ∧ word_format fs = true) as [Hwd Hws].
    { unfold exact_pair in Hex. rewrite Hloop in Hex. by apply andb_true_iff. }
    rewrite convert_le by ((by destruct fd) || (by destruct fs)).
    unfold px_enc, px_dec. rewrite Ed, Es. by destruct fd, fs.
Qed.
(** The bytes of a pixel with those of a format of three bytes reversed: the
    generic code, through [sw_get_pixel] and [sw_set_pixel], has them the other way round. *)
Definition flip (f : pixel_format) (l : list Z) : list Z :=
  if bytes_per_pixel (format_info f) =? 3 then rev l else l.

(** What a loop of its own makes of a pixel, in terms of the generic code: from a
    format of 16 bits the channels without the low bits that are not in the
    source, and else the same up to the order of the three bytes. *)
Definition loop_px (fd fs : pixel_format) (l : list Z) : list Z :=
  if high_colour fs then layout fd (chop (format_info fs) (unmap_pixel_color (format_info fs) (px_dec src l)))
  else flip fd (generic_px (flip fs l)).

Lemma convert_generic fd fs l :
  info dst = format_info fd → info src = format_info fs → has_loop fd fs = true →
  convert fd fs l = loop_px fd fs l.
Proof using.
  intros Ed Es Hloop. unfold loop_px. destruct (high_colour fs) eqn:Hh.
  - unfold convert, px_dec. rewrite Es. by destruct fs.
  - assert (true_colour fd = true ∧ true_colour fs = true) as [Hd Hs] by (by destruct fd, fs).
    rewrite convert_le by done. unfold generic_px, flip, px_enc, px_dec. rewrite Ed, Es.
    by destruct fd, fs; cbn [format_info set_pixel_info bytes_per_pixel Z.eqb Pos.eqb andb big_endian];
      rewrite ?rev_involutive.
Qed.
End blit.

(** ** Properties *)

(** C10: the dispatch of the optimised blit against the generic loop, which
    converts each pixel through its colour.  For every pair of equal formats, of
    different formats of four bytes (12 of the 38 loops), and of formats without
    a loop of their own, the two leave the same memory.  For the other 26 loops
    both write the same pixels, and the loop writes what [loop_px] says: the
    generic result with the bytes of three-byte pixels in the other order, and
    from 16-bit formats the channels without their low bits. *)
Theorem sw_blit_replace_equivalence dst src dx dy sx sy w h fd fs m :
  surface_wf dst → surface_wf src → surf_disjoint dst src →
  0 ≤ dx ∧ 0 < w ∧ dx + w ≤ s_w dst → 0 ≤ dy ∧ 0 < h ∧ dy + h ≤ s_h dst →
  0 ≤ sx ∧ sx + w ≤ s_w src → 0 ≤ sy ∧ sy + h ≤ s_h src →
  info dst = format_info fd → info src = format_info fs →
  surface_in m dst → surface_in m src →
  let source x y := px_at m (canvas_of src) (x - dx + sx) (y - dy + sy) in
  ∃ m1 m2,
    sw_blit_replace dst (Rect dx dy w h) src (Rect sx sy w h) m = Some (tt, m1) ∧
    sw_blit_replace_generic dst (Rect dx dy w h) src (Rect sx sy w h) m = Some (tt, m2) ∧
    painted (canvas_of dst) m m2 (in_area dx dy w h) (λ x y, generic_px dst src (source x y)) ∧
    if exact_pair fd fs then m1 = m2
    else painted (canvas_of dst) m m1 (in_area dx dy w h) (λ x y, loop_px dst src fd fs (source x y)).
Proof.
  intros Hdst Hsrc Hdisj Hdx Hdy Hsx Hsy Ed Es Hind Hins source.
  pose proof (sw_blit_replace_spec dst src dx dy sx sy w h Hdst Hsrc Hdisj Hdx Hdy Hsx Hsy
    m fd fs Ed Es Hind Hins) as H1.
  pose proof (sw_blit_replace_generic_spec dst src dx dy sx sy w h Hdst Hsrc Hdisj Hdx Hdy Hsx Hsy
    m Hind Hins) as H2.
  destruct (wp_elim _ _ _ H1) as ([] & m1 & E1 & P1). destruct (wp_elim _ _ _ H2) as ([] & m2 & E2 & P2).
  exists m1, m2. split_and!; [done | done | exact P2 |]. destruct (exact_pair fd fs) eqn:Hex.
  - eapply (painted_det (canvas_of dst) m m1 m2 (in_area dx dy w h)); [apply wf_canvas, Hdst | | apply _ | exact P1 |].
    + intros x y Ha. unfold in_area, in_canvas in *. cbn. lia.
    + eapply painted_ext; [|exact P2]. intros x y Ha.
      destruct (src_px_ok dst src dx dy sx sy w h Hsrc Hdx Hdy Hsx Hsy m x y Hins Ha) as [Hl Hu].
      symmetry. by apply blit_px_generic.
  - assert (has_loop fd fs = true) as Hloop by (unfold exact_pair in Hex; by destruct (has_loop fd fs)).
    eapply painted_ext; [|exact P1]. intros x y Ha. unfold blit_px. rewrite Hloop.
    rewrite bool_decide_false by (intros ->; clear -Hloop; by destruct fs).
    by rewrite (convert_generic dst src fd fs).
Qed.

(** From 32 bits to 24 bits, a pair with a loop that is not equal to the generic one. *)
Lemma sw_blit_replace_equivalence_witness :
  let dst := example_at PIXEL_FORMAT_BGR_888 4096 in
  let src := example_at PIXEL_FORMAT_RGBA_8888 4112 in
  let m := zeros 4096 32 in
  ∃ m1, sw_blit_replace dst (Rect 0 0 2 1) src (Rect 0 1 2 1) m = Some (tt, m1) ∧
    painted (canvas_of dst) m m1 (in_area 0 0 2 1)
      (λ x y, rev (generic_px dst src (px_at m (canvas_of src) (x - 0 + 0) (y - 0 + 1)))).
Proof.
  intros dst src m.
  destruct (sw_blit_replace_equivalence dst src 0 0 0 1 2 1 PIXEL_FORMAT_BGR_888 PIXEL_FORMAT_RGBA_8888 m)
    as (m1 & m2 & E1 & _ & _ & P).
  - by apply example_at_wf.
  - by apply example_at_wf.
  - left. cbn. lia.
  - cbn. lia.
  - cbn. lia.
  - cbn. lia.
  - cbn. lia.
  - reflexivity.
  - reflexivity.
  - by apply (example_at_in _ 4096 4096 32).
  - by apply (example_at_in _ 4112 4096 32).
  - exists m1. split; [exact E1 | exact P].
Defined.
