(* ===== verification/Blit.v ===== *)
(** * Blits with clipping and blending: [sw_blit.c], [sw_blit_alpha.c]

    [map_software_blit] clips the source rectangle to the source surface and
    the destination to its clip rectangle, moving both together, and hands the
    rectangles to the opaque blit of [BlitReplace] or to the translucent one
    of this file. *)

From stdpp Require Import prelude gmap.
From Stdlib Require Import ZArith Lia.
From S2P Require Import Prelude Prog Memory Rect Color Pixel Layout Canvas Surface Fill BlitReplace.

Local Open Scope Z_scope.
Local Open Scope word_scope.

Definition sw_blit_alpha_generic (dst : surface_t) (dst_rect : rect_t) (src : surface_t)
    (src_rect : rect_t) : prog mem unit :=
  let dx := rx dst_rect in
  let dy := ry dst_rect in
  let dw := rw dst_rect in
  let dh := rh dst_rect in
  let sx := rx src_rect in
  let sy := ry src_rect in
  for_to dh (λ j _,
    let* _ := for_to dw (λ i _,
      let* sc := surface_sw_get_pixel src (sx +s i) (sy +s j) in
      let scol := unmap_pixel_color (info src) sc in
      let alpha := c_a scol in
      if alpha =? 255 then surface_sw_set_pixel dst (dx +s i) (dy +s j) sc
      else if alpha =? 0 then ret tt
      else
        let* dc := surface_sw_get_pixel dst (dx +s i) (dy +s j) in
        let dcol := unmap_pixel_color (info dst) dc in
        let col := blend scol dcol alpha in
        let dc := map_pixel_color (info dst) col in
        surface_sw_set_pixel dst (dx +s i) (dy +s j) dc) tt in
    ret tt) tt ;; ret tt.

(** The [switch] on the destination format has no case. *)
Definition sw_blit_alpha (dst : surface_t) (dst_rect : rect_t) (src : surface_t) (src_rect : rect_t)
    : prog mem unit :=
  sw_blit_alpha_generic dst dst_rect src src_rect.

(** The two steps that clip one axis of the source rectangle to the source
    surface; the result is the start, the size and the destination start. *)
Definition clip_source (start size surface_size d : Z) : Z * Z * Z :=
  let '(x, w, dr) := if start <? 0 then (0, size +s start, d -s start) else (start, size, d) in
  let maxw := s32 (surface_size - u32 x) in
  (x, if maxw <? w then maxw else w, dr).

(** The two steps that clip one axis of the destination to the clip rectangle. *)
Definition clip_dest (clip_start clip_size x w dr : Z) : Z * Z * Z :=
  let dx := clip_start -s dr in
  let '(x, w, dr) := if dx >? 0 then (x +s dx, w -s dx, dr +s dx) else (x, w, dr) in
  let dx := dr +s w -s clip_start -s clip_size in
  (x, if dx >? 0 then w -s dx else w, dr).

Definition map_software_blit (dst : option surface_t) (dst_rect : option rect_t)
    (src : option surface_t) (src_rect : option rect_t) (mode : Z) : prog mem bool :=
  match dst, src with
  | Some dst, Some src =>
      let dr := match dst_rect with
                | None => Rect 0 0 (s32 (s_w dst)) (s32 (s_h dst))
                | Some r => r
                end in
      (* Clip the source rectangle to the source surface *)
      let '(x, w, dr_x, y, h, dr_y) :=
        match src_rect with
        | Some r =>
            let '(x, w, dr_x) := clip_source (rx r) (rw r) (s_w src) (rx dr) in
            let '(y, h, dr_y) := clip_source (ry r) (rh r) (s_h src) (ry dr) in
            (x, w, dr_x, y, h, dr_y)
        | None => (0, s32 (s_w src), rx dr, 0, s32 (s_h src), ry dr)
        end in
      (* Clip the destination rectangle against the clip rectangle *)
      let clip := s_clip dst in
      let '(x, w, dr_x) := clip_dest (rx clip) (rw clip) x w dr_x in
      let '(y, h, dr_y) := clip_dest (ry clip) (rh clip) y h dr_y in
      if (w >? 0) && (h >? 0) then
        let sr := Rect x y w h in
        let dr := Rect dr_x dr_y w h in
        if mode =? BLEND_MODE_REPLACE then sw_blit_replace dst dr src sr ;; ret true
        else if mode =? BLEND_MODE_ALPHA then sw_blit_alpha dst dr src sr ;; ret true
        else ret false
      else ret true
  | _, _ => ret false
  end.

Definition surface_blit (dst : option surface_t) (dst_rect : option rect_t)
    (src : option surface_t) (src_rect : option rect_t) (mode : Z) : prog mem bool :=
  match dst, src with
  | Some d, Some s =>
      match maps_blit (s_maps d) with
      | None => ret false
      | Some map_blit_sw => map_software_blit (Some d) dst_rect (Some s) src_rect mode
      | Some _ => fault
      end
  | _, _ => ret false
  end.

(** ** Clipping *)

(** Clipping one axis: the pixels that are left are those of the destination
    interval that are in the clip and whose source is in the source rectangle
    and on the source surface. *)
Lemma clip_axis_spec start size n d c0 cn :
  -536870912 ≤ start < 536870912 → 0 ≤ size < 536870912 → 0 ≤ n < 536870912 →
  -536870912 ≤ d < 536870912 → 0 ≤ c0 < 536870912 → 0 ≤ cn < 536870912 →
  let '(x, w, dr) := clip_source start size n d in
  let '(x', w', dr') := clip_dest c0 cn x w dr in
  (∀ v, dr' ≤ v < dr' + w' ↔
     c0 ≤ v < c0 + cn ∧ start ≤ v - d + start < start + size ∧ 0 ≤ v - d + start < n) ∧
  (0 < w' → x' - dr' = start - d ∧ 0 ≤ x' ∧ x' + w' ≤ n ∧ c0 ≤ dr' ∧ dr' + w' ≤ c0 + cn).
Proof.
  intros H1 H2 H3 H4 H5 H6. unfold clip_source, clip_dest.
  destruct (Z.ltb_spec start 0); rewrite (u32_small _) by lia; s32_simp;
    (match goal with |- context [if ?a >? 0 then _ else _] => destruct (Z.gtb_spec a 0) end);
    (match goal with |- context [if ?a <? ?b then _ else _] => destruct (Z.ltb_spec a b) end);
    s32_simp;
    (match goal with |- context [if ?a >? 0 then _ else _] => destruct (Z.gtb_spec a 0) end);
    s32_simp; (split; [intros v|]; lia).
Qed.

(** A whole surface as a source is a rectangle as well. *)
Lemma clip_source_whole n d :
  0 ≤ n < 536870912 → clip_source 0 (s32 n) n d = (0, s32 n, d).
Proof.
  intros Hn. unfold clip_source. cbn -[s32 u32]. rewrite u32_small, Z.sub_0_r by lia. by case_match.
Qed.

Definition whole (s : surface_t) : rect_t := Rect 0 0 (s_w s) (s_h s).

(** The destination pixels of a blit from rectangle [sr] to the place of [dr]. *)
Definition blit_area (dst : surface_t) (dr : rect_t) (src : surface_t) (sr : rect_t) (x y : Z) : Prop :=
  in_rect (s_clip dst) x y ∧
  in_rect sr (x - rx dr + rx sr) (y - ry dr + ry sr) ∧
  in_canvas (canvas_of src) (x - rx dr + rx sr) (y - ry dr + ry sr).

Definition blit_rect (r : rect_t) : Prop := rect_small r ∧ 0 ≤ rw r ∧ 0 ≤ rh r.

Section clipping.
Context (dst src : surface_t) (dst_rect src_rect : option rect_t).
Hypothesis Hdst : surface_wf dst.
Hypothesis Hsrc : surface_wf src.

Local Notation dr := (default (whole dst) dst_rect).
Local Notation sr := (default (whole src) src_rect).

Hypothesis Hdr : rect_small dr.
Hypothesis Hsr : blit_rect sr.

Definition blit_draw (mode : Z) (drawn from : rect_t) : prog mem bool :=
  if mode =? BLEND_MODE_REPLACE then sw_blit_replace dst drawn src from ;; ret true
  else if mode =? BLEND_MODE_ALPHA then sw_blit_alpha dst drawn src from ;; ret true
  else ret false.

Lemma map_software_blit_eq mode :
  map_software_blit (Some dst) dst_rect (Some src) src_rect mode =
  (let '(x, w, dr_x) := clip_source (rx sr) (rw sr) (s_w src) (rx dr) in
   let '(y, h, dr_y) := clip_source (ry sr) (rh sr) (s_h src) (ry dr) in
   let '(x, w, dr_x) := clip_dest (rx (s_clip dst)) (rw (s_clip dst)) x w dr_x in
   let '(y, h, dr_y) := clip_dest (ry (s_clip dst)) (rh (s_clip dst)) y h dr_y in
   if (w >? 0) && (h >? 0) then blit_draw mode (Rect dr_x dr_y w h) (Rect x y w h) else ret true).
Proof using Hsrc.
  clear Hdr Hsr. pose proof (wf_w _ Hsrc) as Hw. pose proof (wf_h _ Hsrc) as Hh.
  assert (∀ d, clip_source 0 (s_w src) (s_w src) d = (0, s32 (s_w src), d)) as Ew.
  { intros d. rewrite <- (clip_source_whole _ d Hw) at 1. by rewrite (s32_small (s_w src)) by lia. }
  assert (∀ d, clip_source 0 (s_h src) (s_h src) d = (0, s32 (s_h src), d)) as Eh.
  { intros d. rewrite <- (clip_source_whole _ d Hh) at 1. by rewrite (s32_small (s_h src)) by lia. }
  unfold map_software_blit, blit_draw, whole.
  destruct src_rect as [r|], dst_rect as [r'|]; cbn [default rx ry rw rh]; unfold id;
    rewrite ?Ew, ?Eh; try done;
    destruct (clip_source (rx r) _ _ _) as [[? ?] ?], (clip_source (ry r) _ _ _) as [[? ?] ?]; done.
Qed.

(** A blit draws one rectangle, which is [blit_area], or nothing. *)
Lemma map_software_blit_cases mode m (Q : bool → mem → Prop) :
  (∀ dx dy sx sy w h,
     0 ≤ dx ∧ 0 < w ∧ dx + w ≤ s_w dst → 0 ≤ dy ∧ 0 < h ∧ dy + h ≤ s_h dst →
     0 ≤ sx ∧ sx + w ≤ s_w src → 0 ≤ sy ∧ sy + h ≤ s_h src →
     sx - dx = rx sr - rx dr → sy - dy = ry sr - ry dr →
     (∀ x y, in_area dx dy w h x y ↔ blit_area dst dr src sr x y) →
     wp (blit_draw mode (Rect dx dy w h) (Rect sx sy w h)) Q m) →
  ((∀ x y, ¬ blit_area dst dr src sr x y) → Q true m) →
  wp (map_software_blit (Some dst) dst_rect (Some src) src_rect mode) Q m.
Proof using Hdst Hsrc Hdr Hsr.
  intros Hdraw Hnone. rewrite map_software_blit_eq.
  destruct (wf_clip _ Hdst) as (? & ? & ? & ? & ? & ?). pose proof (wf_w _ Hdst). pose proof (wf_h _ Hdst).
  pose proof (wf_w _ Hsrc). pose proof (wf_h _ Hsrc). destruct Hsr as [Hs [Hs1 Hs2]].
  unfold rect_small in Hdr, Hs.
  pose proof (clip_axis_spec (rx sr) (rw sr) (s_w src) (rx dr) (rx (s_clip dst)) (rw (s_clip dst))
    ltac:(lia) ltac:(lia) ltac:(lia) ltac:(lia) ltac:(lia) ltac:(lia)) as Hx.
  pose proof (clip_axis_spec (ry sr) (rh sr) (s_h src) (ry dr) (ry (s_clip dst)) (rh (s_clip dst))
    ltac:(lia) ltac:(lia) ltac:(lia) ltac:(lia) ltac:(lia) ltac:(lia)) as Hy.
  destruct (clip_source (rx sr) (rw sr) (s_w src) (rx dr)) as [[x w] dx].
  destruct (clip_source (ry sr) (rh sr) (s_h src) (ry dr)) as [[y h] dy].
  destruct (clip_dest (rx (s_clip dst)) (rw (s_clip dst)) x w dx) as [[x' w'] dx'].
  destruct (clip_dest (ry (s_clip dst)) (rh (s_clip dst)) y h dy) as [[y' h'] dy'].
  destruct Hx as [Hx Hx'], Hy as [Hy Hy'].
  assert (∀ u v, in_area dx' dy' w' h' u v ↔ blit_area dst dr src sr u v) as Harea.
  { intros u v. unfold in_area, blit_area, in_rect, in_canvas. cbn [canvas_of cw ch].
    rewrite Hx, Hy. tauto. }
  destruct (Z.gtb_spec w' 0), (Z.gtb_spec h' 0); cbn [andb].
  - specialize (Hx' ltac:(lia)). specialize (Hy' ltac:(lia)). apply Hdraw; try lia. done.
  - apply wp_ret, Hnone. intros u v. rewrite <- Harea. unfold in_area. lia.
  - apply wp_ret, Hnone. intros u v. rewrite <- Harea. unfold in_area. lia.
  - apply wp_ret, Hnone. intros u v. rewrite <- Harea. unfold in_area. lia.
Qed.
End clipping.

(** ** The translucent blit *)

(** The bytes of a destination pixel [ld] once the source pixel [ls] is drawn
    over it by [sw_blit_alpha_generic]. *)
Definition over_px (dst src : surface_t) (ls ld : list Z) : list Z :=
  let sc := px_dec src ls in
  let scol := unmap_pixel_color (info src) sc in
  if c_a scol =? 255 then px_enc dst sc
  else if c_a scol =? 0 then ld
  else px_enc dst (map_pixel_color (info dst)
         (blend scol (unmap_pixel_color (info dst) (px_dec dst ld)) (c_a scol))).

(** Between surfaces of one format it is the drawing of [sw_utils.c]. *)
Lemma over_px_same dst src ls ld :
  info dst = info src → over_px dst src ls ld = alpha_px dst (px_dec src ls) ld.
Proof. intros E. unfold over_px, alpha_px. by rewrite E. Qed.

Lemma over_px_ok dst src ls ld :
  length ld = Z.to_nat (bytes_per_pixel (info dst)) → Forall in_u8 ld →
  length (over_px dst src ls ld) = Z.to_nat (bytes_per_pixel (info dst)) ∧
  Forall in_u8 (over_px dst src ls ld).
Proof. intros. unfold over_px. repeat case_match; auto using length_px_enc, px_enc_in_u8. Qed.

Lemma sw_blit_alpha_spec dst src dx dy sx sy w h m :
  surface_wf dst → surface_wf src → surf_disjoint dst src →
  0 ≤ dx ∧ 0 < w ∧ dx + w ≤ s_w dst → 0 ≤ dy ∧ 0 < h ∧ dy + h ≤ s_h dst →
  0 ≤ sx ∧ sx + w ≤ s_w src → 0 ≤ sy ∧ sy + h ≤ s_h src →
  surface_in m dst → surface_in m src →
  wp (sw_blit_alpha dst (Rect dx dy w h) src (Rect sx sy w h))
    (λ _ m', painted (canvas_of dst) m m' (in_area dx dy w h)
       (λ x y, over_px dst src (src_px src dx dy sx sy m x y) (px_at m (canvas_of dst) x y))) m.
Proof.
  intros Hdst Hsrc Hdisj Hdx Hdy Hsx Hsy Hind Hins.
  unfold sw_blit_alpha, sw_blit_alpha_generic. cbn [rx ry rw rh].
  pose proof (wf_w _ Hdst). pose proof (wf_h _ Hdst). pose proof (wf_w _ Hsrc). pose proof (wf_h _ Hsrc).
  assert (∀ x y, in_area dx dy w h x y → in_canvas (canvas_of dst) x y) as Hcv
    by (intros x y Ha; unfold in_area, in_canvas in *; cbn; lia).
  eapply (wp_raster_then (canvas_of dst) dx dy w h
    (λ x y, over_px dst src (src_px src dx dy sx sy m x y) (px_at m (canvas_of dst) x y))
    (wf_canvas _ Hdst)) with (SA := λ _, tt) (SB := λ _ _, tt).
  - cbn. lia.
  - cbn. lia.
  - intros x y Ha%Hcv. destruct (px_at_ok m dst x y Hdst Hind Ha) as [Hl Hu]. by apply over_px_ok.
  - apply Hind.
  - done.
  - done.
  - intros j i m' Hj Hi Hp. cbn beta. rewrite !s32_small by lia.
    assert (in_canvas (canvas_of dst) (dx + i) (dy + j)) as Hc by (unfold in_canvas; cbn; lia).
    assert (px_bytes m' (canvas_of dst) (dx + i) (dy + j) (px_at m (canvas_of dst) (dx + i) (dy + j))) as Hd.
    { eapply (raster_next (canvas_of dst) dx dy w h _ (wf_canvas _ Hdst)); [cbn; lia | cbn; lia | done | done | done |].
      by apply px_bytes_at. }
    assert (mapped m' (px_addr (canvas_of dst) (dx + i) (dy + j)) (bytes_per_pixel (info dst))) as Hm
      by (apply px_mapped; [done | by eapply painted_surface_in | done]).
    apply wp_bind. eapply wp_sw_get_pixel; [done | unfold in_canvas; cbn; lia | |].
    { by eapply (src_px_stable dst src dx dy sx sy w h). }
    unfold over_px. cbn zeta. case_match; [by apply wp_sw_set_pixel|]. case_match.
    + apply wp_ret. split; [done |]. by rewrite write_bytes_same by apply Hd.
    + apply wp_bind. eapply wp_sw_get_pixel; [done | done | done |]. by apply wp_sw_set_pixel.
Qed.

(** ** Exchanged channels *)

Definition swap_rb (col : color_t) : color_t := Color (c_b col) (c_g col) (c_r col) (c_a col).

Lemma unmap_word f l :
  word_format f = true → length l = 4%nat → Forall in_u8 l →
  ∃ col, color_ok col ∧ l = layout f col ∧ unmap_pixel_color (format_info f) (le_val l) = col.
Proof.
  intros Hf Hl Hu. destruct l as [|b0 [|b1 [|b2 [|b3 [|]]]]]; try done.
  rewrite !Forall_cons in Hu. destruct Hu as (H0 & H1 & H2 & H3 & _).
  exists (match f with
          | PIXEL_FORMAT_ABGR_8888 => Color b0 b1 b2 b3
          | PIXEL_FORMAT_ARGB_8888 => Color b2 b1 b0 b3
          | PIXEL_FORMAT_BGRA_8888 => Color b1 b2 b3 b0
          | _ => Color b3 b2 b1 b0
          end).
  split; [destruct f; done |].
  assert (∀ col, color_ok col → unmap_pixel_color (format_info f) (le_val (layout f col)) = col) as Hun.
  { intros [r g b a] Hc. rewrite unmap_layout by (done || by destruct f). by destruct f. }
  split; [by destruct f |]. rewrite <- Hun; by destruct f.
Qed.

(** Reading the bytes of one of the two formats as the other. *)
Lemma unmap_swapped l :
  length l = 4%nat → Forall in_u8 l →
  unmap_pixel_color (format_info PIXEL_FORMAT_ABGR_8888) (le_val l) =
  swap_rb (unmap_pixel_color (format_info PIXEL_FORMAT_ARGB_8888) (le_val l)).
Proof.
  intros Hl Hu. destruct (unmap_word PIXEL_FORMAT_ARGB_8888 l) as ([r g b a] & Hc & El & ->); try done.
  change (layout PIXEL_FORMAT_ARGB_8888 (Color r g b a))
    with (layout PIXEL_FORMAT_ABGR_8888 (swap_rb (Color r g b a))) in El.
  rewrite El, unmap_layout; [done | done |]. destruct Hc as (? & ? & ? & ?). done.
Qed.

Lemma px_dec_word s l :
  bytes_per_pixel (info s) = 4 → px_dec s l = le_val l.
Proof. intros E. unfold px_dec. by rewrite E. Qed.

Lemma px_dec_enc_word s c :
  bytes_per_pixel (info s) = 4 → 0 ≤ c < 4294967296 → px_dec s (px_enc s c) = c.
Proof. intros E Hc. rewrite px_dec_enc, E. by apply Z.mod_small. Qed.

(** A 24-bit pixel is stored most significant byte first, so its bytes are the
    layout of the colour with red and blue exchanged. *)
Lemma px_enc_24 s f col :
  info s = format_info f → true_colour f = true → bytes_per_pixel (format_info f) = 3 → color_ok col →
  px_enc s (map_pixel_color (format_info f) col) = layout f (swap_rb col).
Proof.
  intros Es Hf Hk Hc. unfold px_enc. rewrite Es, Hk. cbn [Z.eqb Pos.eqb andb].
  change big_endian with true. cbn iota.
  replace (Z.to_nat 3) with (Z.to_nat (bytes_per_pixel (format_info f))) by by rewrite Hk.
  rewrite le_bytes_map by done. destruct col, f; try done.
Qed.

Lemma has_loop_24 fd fs :
  word_format fd = true → true_colour fs = true → bytes_per_pixel (format_info fs) = 3 →
  has_loop fd fs = true ∧ bool_decide (fd = fs) = false.
Proof. destruct fd, fs; done. Qed.

Lemma convert_24 fd fs col :
  word_format fd = true → true_colour fs = true → bytes_per_pixel (format_info fs) = 3 → color_ok col →
  convert fd fs (layout fs col) = layout fd (Color (c_r col) (c_g col) (c_b col) 255).
Proof.
  intros Hd Hs Hk (Hr & Hg & Hb & Ha). destruct col as [r g b a]. cbn [c_r c_g c_b c_a] in *.
  rewrite convert_true by done.
  assert (alpha_mask_size (format_info fs) =? 8 = false) as -> by (by destruct fs).
  apply map_u8_layout. assert (in_u8 255) by (unfold in_u8; lia). done.
Qed.

(** The bytes of the source pixel a blit brings to [(x, y)]. *)
Definition blit_source (m : mem) (src : surface_t) (dr sr : rect_t) (x y : Z) : list Z :=
  px_at m (canvas_of src) (x - rx dr + rx sr) (y - ry dr + ry sr).

Lemma map_software_blit_spec m dst src dst_rect src_rect fd fs :
  surface_wf dst → surface_wf src → surf_disjoint dst src →
  info dst = format_info fd → info src = format_info fs →
  surface_in m dst → surface_in m src →
  let dr := default (whole dst) dst_rect in
  let sr := default (whole src) src_rect in
  rect_small dr → blit_rect sr →
  wp (map_software_blit (Some dst) dst_rect (Some src) src_rect BLEND_MODE_REPLACE)
    (λ ok m', ok = true ∧
       painted (canvas_of dst) m m' (blit_area dst dr src sr)
         (λ x y, blit_px dst src fd fs (blit_source m src dr sr x y))) m.
Proof.
  intros Hdst Hsrc Hdisj Ed Es Hind Hins dr sr Hdr Hsr.
  apply map_software_blit_cases; try done.
  - intros dx dy sx sy w h Hdx Hdy Hsx Hsy Ex Ey Harea. unfold blit_draw. cbn [Z.eqb].
    apply wp_bind. eapply wp_mono; [by apply (sw_blit_replace_spec dst src dx dy sx sy w h) with (fd := fd) (fs := fs) |].
    intros [] m' Hp. apply wp_ret. split; [done |].
    eapply painted_iff; [exact Harea |]. eapply painted_ext; [|exact Hp]. intros x y _.
    unfold src_px, blit_source. subst dr sr. do 2 f_equal; lia.
  - intros Hnone. split; [done |]. eapply painted_iff; [|apply painted_none, Hind].
    intros x y. split; [done |]. apply Hnone.
Qed.

Lemma map_software_blit_alpha_spec m dst src dst_rect src_rect :
  surface_wf dst → surface_wf src → surf_disjoint dst src → info dst = info src →
  surface_in m dst → surface_in m src →
  let dr := default (whole dst) dst_rect in
  let sr := default (whole src) src_rect in
  rect_small dr → blit_rect sr →
  wp (map_software_blit (Some dst) dst_rect (Some src) src_rect BLEND_MODE_ALPHA)
    (λ ok m', ok = true ∧
       painted (canvas_of dst) m m' (blit_area dst dr src sr)
         (λ x y, alpha_px dst (px_dec src (blit_source m src dr sr x y)) (px_at m (canvas_of dst) x y))) m.
Proof.
  intros Hdst Hsrc Hdisj Einfo Hind Hins dr sr Hdr Hsr.
  apply map_software_blit_cases; try done.
  - intros dx dy sx sy w h Hdx Hdy Hsx Hsy Ex Ey Harea. unfold blit_draw. cbn [Z.eqb].
    apply wp_bind. eapply wp_mono; [by apply (sw_blit_alpha_spec dst src dx dy sx sy w h) |].
    intros [] m' Hp. apply wp_ret. split; [done |].
    eapply painted_iff; [exact Harea |]. eapply painted_ext; [|exact Hp]. intros x y _.
    cbn beta. rewrite over_px_same by done. unfold src_px, blit_source. subst dr sr. do 3 f_equal; lia.
  - intros Hnone. split; [done |]. eapply painted_iff; [|apply painted_none, Hind].
    intros x y. split; [done |]. apply Hnone.
Qed.

(** ** Properties *)

(** C9: an opaque blit, however the two rectangles lie, paints exactly the
    pixels of the clip rectangle whose source is in the source rectangle and on
    the source surface, each with the conversion of that source pixel, and
    changes no other byte.  Null rectangles stand for whole surfaces. *)
Theorem map_software_blit_correct m dst src dst_rect src_rect fd fs :
  surface_wf dst → surface_wf src → surf_disjoint dst src →
  info dst = format_info fd → info src = format_info fs →
  surface_in m dst → surface_in m src →
  let dr := default (whole dst) dst_rect in
  let sr := default (whole src) src_rect in
  rect_small dr → blit_rect sr →
  wp (map_software_blit (Some dst) dst_rect (Some src) src_rect BLEND_MODE_REPLACE)
    (λ ok m', ok = true ∧
       painted (canvas_of dst) m m' (blit_area dst dr src sr)
         (λ x y, blit_px dst src fd fs (blit_source m src dr sr x y))) m.
Proof. apply map_software_blit_spec. Qed.

Lemma map_software_blit_correct_witness :
  wp (map_software_blit (Some (example_at PIXEL_FORMAT_ARGB_8888 4096)) (Some (Rect 1 (-1) 0 0))
        (Some (example_at PIXEL_FORMAT_RGB_565 4112)) None BLEND_MODE_REPLACE)
    (λ ok m', ok = true ∧
       painted (canvas_of (example_at PIXEL_FORMAT_ARGB_8888 4096)) (zeros 4096 32) m'
         (blit_area (example_at PIXEL_FORMAT_ARGB_8888 4096) (Rect 1 (-1) 0 0)
            (example_at PIXEL_FORMAT_RGB_565 4112) (Rect 0 0 2 2))
         (λ x y, blit_px (example_at PIXEL_FORMAT_ARGB_8888 4096) (example_at PIXEL_FORMAT_RGB_565 4112)
            PIXEL_FORMAT_ARGB_8888 PIXEL_FORMAT_RGB_565
            (blit_source (zeros 4096 32) (example_at PIXEL_FORMAT_RGB_565 4112)
               (Rect 1 (-1) 0 0) (Rect 0 0 2 2) x y))) (zeros 4096 32).
Proof.
  apply (map_software_blit_correct (zeros 4096 32) (example_at PIXEL_FORMAT_ARGB_8888 4096)
    (example_at PIXEL_FORMAT_RGB_565 4112) (Some (Rect 1 (-1) 0 0)) None); try reflexivity.
  - by apply example_at_wf.
  - by apply example_at_wf.
  - left. cbn. lia.
  - by apply (example_at_in _ 4096 4096 32).
  - by apply (example_at_in _ 4112 4096 32).
  - cbv. intuition discriminate.
  - cbv. intuition discriminate.
Defined.

(** C12: a translucent blit between surfaces of one format draws every source
    pixel over the destination as [surface_sw_set_pixel_with_alpha] does, on
    the same pixels as the opaque blit. *)
Theorem map_software_blit_alpha_correct m dst src dst_rect src_rect :
  surface_wf dst → surface_wf src → surf_disjoint dst src → info dst = info src →
  surface_in m dst → surface_in m src →
  let dr := default (whole dst) dst_rect in
  let sr := default (whole src) src_rect in
  rect_small dr → blit_rect sr →
  wp (map_software_blit (Some dst) dst_rect (Some src) src_rect BLEND_MODE_ALPHA)
    (λ ok m', ok = true ∧
       painted (canvas_of dst) m m' (blit_area dst dr src sr)
         (λ x y, alpha_px dst (px_dec src (blit_source m src dr sr x y)) (px_at m (canvas_of dst) x y))) m.
Proof. apply map_software_blit_alpha_spec. Qed.

Lemma map_software_blit_alpha_correct_witness :
  wp (map_software_blit (Some (example_at PIXEL_FORMAT_ARGB_8888 4096)) None
        (Some (example_at PIXEL_FORMAT_ARGB_8888 4112)) (Some (Rect (-1) 0 5 1)) BLEND_MODE_ALPHA)
    (λ ok m', ok = true ∧
       painted (canvas_of (example_at PIXEL_FORMAT_ARGB_8888 4096)) (zeros 4096 32) m'
         (blit_area (example_at PIXEL_FORMAT_ARGB_8888 4096) (Rect 0 0 2 2)
            (example_at PIXEL_FORMAT_ARGB_8888 4112) (Rect (-1) 0 5 1))
         (λ x y, alpha_px (example_at PIXEL_FORMAT_ARGB_8888 4096)
            (px_dec (example_at PIXEL_FORMAT_ARGB_8888 4112)
               (blit_source (zeros 4096 32) (example_at PIXEL_FORMAT_ARGB_8888 4112)
                  (Rect 0 0 2 2) (Rect (-1) 0 5 1) x y))
            (px_at (zeros 4096 32) (canvas_of (example_at PIXEL_FORMAT_ARGB_8888 4096)) x y)))
    (zeros 4096 32).
Proof.
  apply (map_software_blit_alpha_correct (zeros 4096 32) (example_at PIXEL_FORMAT_ARGB_8888 4096)
    (example_at PIXEL_FORMAT_ARGB_8888 4112) None (Some (Rect (-1) 0 5 1))); try reflexivity.
  - by apply example_at_wf.
  - by apply example_at_wf.
  - left. cbn. lia.
  - by apply (example_at_in _ 4096 4096 32).
  - by apply (example_at_in _ 4112 4096 32).
  - cbv. intuition discriminate.
  - cbv. intuition discriminate.
Defined.

(** The translucent blit stores an opaque source pixel without converting
    it: from ARGB to ABGR, red and blue of every opaque pixel are exchanged. *)
Theorem blit_alpha_opaque_not_converted m dst src dst_rect src_rect :
  surface_wf dst → surface_wf src → surf_disjoint dst src →
  info dst = format_info PIXEL_FORMAT_ABGR_8888 → info src = format_info PIXEL_FORMAT_ARGB_8888 →
  surface_in m dst → surface_in m src →
  let dr := default (whole dst) dst_rect in
  let sr := default (whole src) src_rect in
  rect_small dr → blit_rect sr →
  wp (map_software_blit (Some dst) dst_rect (Some src) src_rect BLEND_MODE_ALPHA)
    (λ ok m', ok = true ∧ ∀ x y, blit_area dst dr src sr x y →
       let scol := unmap_pixel_color (info src) (px_dec src (blit_source m src dr sr x y)) in
       c_a scol = 255 →
       unmap_pixel_color (info dst) (px_dec dst (px_at m' (canvas_of dst) x y)) = swap_rb scol) m.
Proof.
  intros Hdst Hsrc Hdisj Ed Es Hind Hins dr sr Hdr Hsr.
  apply map_software_blit_cases; try done; [|intros Hnone; split; [done |]; intros x y H; by apply Hnone in H].
  intros dx dy sx sy w h Hdx Hdy Hsx Hsy Ex Ey Harea. unfold blit_draw. cbn [Z.eqb].
  apply wp_bind. eapply wp_mono; [by apply (sw_blit_alpha_spec dst src dx dy sx sy w h) |].
  intros [] m' Hp. apply wp_ret. split; [done |]. intros x y Ha%Harea Hopaque.
  pose proof (src_px_ok dst src dx dy sx sy w h Hsrc Hdx Hdy Hsx Hsy m x y Hins Ha) as [Hl Hu].
  pose proof (px_at_eq _ _ _ _ _ (painted_in _ _ _ _ _ Hp x y Ha)) as ->.
  assert (blit_source m src dr sr x y = src_px src dx dy sx sy m x y) as E.
  { unfold src_px, blit_source. subst dr sr. f_equal; lia. }
  rewrite E in *. unfold over_px. cbn zeta. rewrite Hopaque. cbn [Z.eqb Pos.eqb].
  rewrite (px_dec_word src) in * by by rewrite Es. rewrite Es in *.
  pose proof (le_val_range _ Hu) as Hr. rewrite Hl in Hr.
  rewrite px_dec_enc_word by (by rewrite Ed || exact Hr). rewrite Ed. by apply unmap_swapped.
Qed.

Lemma blit_alpha_opaque_not_converted_witness :
  wp (map_software_blit (Some (example_at PIXEL_FORMAT_ABGR_8888 4096)) None
        (Some (example_at PIXEL_FORMAT_ARGB_8888 4112)) None BLEND_MODE_ALPHA)
    (λ ok m', ok = true ∧ ∀ x y,
       blit_area (example_at PIXEL_FORMAT_ABGR_8888 4096) (Rect 0 0 2 2)
         (example_at PIXEL_FORMAT_ARGB_8888 4112) (Rect 0 0 2 2) x y →
       c_a (unmap_pixel_color (format_info PIXEL_FORMAT_ARGB_8888)
              (px_dec (example_at PIXEL_FORMAT_ARGB_8888 4112)
                 (blit_source (zeros 4096 32) (example_at PIXEL_FORMAT_ARGB_8888 4112)
                    (Rect 0 0 2 2) (Rect 0 0 2 2) x y))) = 255 →
       unmap_pixel_color (format_info PIXEL_FORMAT_ABGR_8888)
         (px_dec (example_at PIXEL_FORMAT_ABGR_8888 4096)
            (px_at m' (canvas_of (example_at PIXEL_FORMAT_ABGR_8888 4096)) x y)) =
       swap_rb (unmap_pixel_color (format_info PIXEL_FORMAT_ARGB_8888)
         (px_dec (example_at PIXEL_FORMAT_ARGB_8888 4112)
            (blit_source (zeros 4096 32) (example_at PIXEL_FORMAT_ARGB_8888 4112)
               (Rect 0 0 2 2) (Rect 0 0 2 2) x y)))) (zeros 4096 32).
Proof.
  apply (blit_alpha_opaque_not_converted (zeros 4096 32) (example_at PIXEL_FORMAT_ABGR_8888 4096)
    (example_at PIXEL_FORMAT_ARGB_8888 4112) None None); try reflexivity.
  - by apply example_at_wf.
  - by apply example_at_wf.
  - left. cbn. lia.
  - by apply (example_at_in _ 4096 4096 32).
  - by apply (example_at_in _ 4112 4096 32).
  - cbv. intuition discriminate.
  - cbv. intuition discriminate.
Defined.

(** Single pixels and fills of the 24-bit formats use the byte order the
    undefined [BYTE_ORDER] macro selects, the conversion loops the other one.  A
    24-bit surface filled with a colour and blitted to a 32-bit one arrives
    there with red and blue exchanged. *)
Theorem fill_blit_24_swaps m dst src fd fs col :
  surface_wf dst → surface_wf src → surf_disjoint dst src →
  info dst = format_info fd → info src = format_info fs →
  word_format fd = true → true_colour fs = true → bytes_per_pixel (format_info fs) = 3 →
  rect_is_empty (s_clip src) = false → color_ok col →
  surface_in m dst → surface_in m src →
  wp (map_software_fill (Some src) None (surface_map_color (Some src) (Some col)) BLEND_MODE_REPLACE ;;
      map_software_blit (Some dst) None (Some src) None BLEND_MODE_REPLACE)
    (λ ok m', ok = true ∧ ∀ x y, in_rect (s_clip dst) x y → in_rect (s_clip src) x y →
       surface_unmap_color (Some dst) (px_dec dst (px_at m' (canvas_of dst) x y)) (Some col) =
       Some (Color (c_b col) (c_g col) (c_r col) 255)) m.
Proof.
  intros Hdst Hsrc Hdisj Ed Es Hfd Hfs Hk Hne Hcol Hind Hins.
  pose proof (wf_w _ Hdst). pose proof (wf_h _ Hdst). pose proof (wf_w _ Hsrc). pose proof (wf_h _ Hsrc).
  apply wp_bind. eapply wp_mono; [apply map_software_fill_spec; auto |]. intros ok m1 [_ Hp1].
  assert (rect_small (default (whole dst) None)) as Hdr by (unfold rect_small; cbn; lia).
  assert (blit_rect (default (whole src) None)) as Hsr by (unfold blit_rect, rect_small; cbn; lia).
  eapply wp_mono; [apply (map_software_blit_spec m1 dst src None None fd fs); try done; by eapply painted_surface_in |].
  intros ok' m2 [-> Hp2]. split; [done |]. intros x y Hd Hs. cbn [default] in Hp2.
  destruct (wf_clip _ Hsrc) as (? & ? & ? & ? & ? & ?). destruct (has_loop_24 fd fs Hfd Hfs Hk) as [Hloop Hneq].
  assert (blit_source m1 src (whole dst) (whole src) x y = layout fs (swap_rb col)) as E1.
  { unfold blit_source, whole. cbn [rx ry]. rewrite !Z.sub_0_r, !Z.add_0_r.
    rewrite (px_at_eq _ _ _ _ _ (painted_in _ _ _ _ _ Hp1 x y (conj Hs I))).
    unfold drawn_px, surface_map_color. cbn [Z.eqb BLEND_MODE_REPLACE]. rewrite Es. by apply px_enc_24. }
  assert (blit_area dst (whole dst) src (whole src) x y) as Ha.
  { unfold blit_area, whole, in_rect, in_canvas in *. cbn in *. lia. }
  rewrite (px_at_eq _ _ _ _ _ (painted_in _ _ _ _ _ Hp2 x y Ha)). cbn beta. rewrite E1.
  unfold blit_px. rewrite Hneq, Hloop, convert_24 by (done || destruct Hcol as (?&?&?&?); done).
  unfold surface_unmap_color. rewrite px_dec_word by (rewrite Ed; by destruct fd).
  rewrite Ed, unmap_layout; [|by destruct fd | destruct Hcol as (?&?&?&?); done].
  by destruct fd.
Qed.

Lemma fill_blit_24_swaps_witness :
  wp (map_software_fill (Some (example_at PIXEL_FORMAT_RGB_888 4112)) None
        (surface_map_color (Some (example_at PIXEL_FORMAT_RGB_888 4112)) (Some (Color 255 128 0 255)))
        BLEND_MODE_REPLACE ;;
      map_software_blit (Some (example_at PIXEL_FORMAT_ARGB_8888 4096)) None
        (Some (example_at PIXEL_FORMAT_RGB_888 4112)) None BLEND_MODE_REPLACE)
    (λ ok m', ok = true ∧ ∀ x y,
       in_rect (Rect 0 0 2 2) x y → in_rect (Rect 0 0 2 2) x y →
       surface_unmap_color (Some (example_at PIXEL_FORMAT_ARGB_8888 4096))
         (px_dec (example_at PIXEL_FORMAT_ARGB_8888 4096)
            (px_at m' (canvas_of (example_at PIXEL_FORMAT_ARGB_8888 4096)) x y))
         (Some (Color 255 128 0 255)) =
       Some (Color 0 128 255 255)) (zeros 4096 32).
Proof.
  apply (fill_blit_24_swaps (zeros 4096 32) (example_at PIXEL_FORMAT_ARGB_8888 4096)
    (example_at PIXEL_FORMAT_RGB_888 4112) PIXEL_FORMAT_ARGB_8888 PIXEL_FORMAT_RGB_888 (Color 255 128 0 255));
    try reflexivity.
  - by apply example_at_wf.
  - by apply example_at_wf.
  - left. cbn. lia.
  - cbv. intuition discriminate.
  - by apply (example_at_in _ 4096 4096 32).
  - by apply (example_at_in _ 4112 4096 32).
Defined.

(** White of a 16-bit surface is not white after a conversion loop, while the
    generic code, which reads the missing low bits as ones, keeps it. *)
Example convert_565_white :
  convert PIXEL_FORMAT_ARGB_8888 PIXEL_FORMAT_RGB_565 [255; 255] = [248; 252; 248; 255] ∧
  generic_px (example_at PIXEL_FORMAT_ARGB_8888 4096) (example_at PIXEL_FORMAT_RGB_565 4112) [255; 255] =
    [255; 255; 255; 255].
Proof. split; reflexivity. Qed.
