(* ===== verification/Malloc.v ===== *)
(** * The heap: [malloc.c]

    A first-fit allocator.  Every block starts with an arena header; all blocks
    are on a doubly linked list sorted by address, the free ones also on a
    second list, and both lists are circular through the static
    [__malloc_head].  The state is the headers, by address, and the end of the
    heap in use.  The file has the code and [Heap] its proof. *)

From stdpp Require Import prelude gmap.
From Stdlib Require Import ZArith Lia.
From S2P Require Import Prelude Prog.

Local Open Scope Z_scope.
Local Open Scope word_scope.

Definition ARENA_TYPE_USED : Z := 0.
Definition ARENA_TYPE_FREE : Z := 1.
Definition ARENA_TYPE_HEAD : Z := 2.

Definition SZ_64K : Z := 65536.
Definition SZ_16M : Z := 16777216.

(** [sizeof(struct arena_header)] *)
Definition ARENA_HEADER_SIZE : Z := 16.

Definition MALLOC_CHUNK_MASK : Z := SZ_64K - 1.
Definition ARENA_SIZE_MASK : Z := not32 (ARENA_HEADER_SIZE - 1).

(** The fields of [struct free_arena_header], those of its [struct arena_header]
    first. *)
Inductive field := a_type | a_size | a_next | a_prev | next_free | prev_free.

Definition field_eqb (f g : field) : bool :=
  match f, g with
  | a_type, a_type | a_size, a_size | a_next, a_next | a_prev, a_prev
  | next_free, next_free | prev_free, prev_free => true
  | _, _ => false
  end.

(** The headers, each field by the address of the header, and [__current_brk].
    The fields are kept apart from the bytes of [heap]: that a caller overwrites
    a header cannot be said here.  The headers lie outside the memory handed
    out, so a caller that stays inside it does not reach them. *)
Record heap_state := HeapState {
  arena : field → gmap Z Z;
  current_brk : Z;
}.

(** [p->f]; reading a field that was never written is a fault. *)
Definition get (f : field) (p : Z) : prog heap_state Z :=
  λ s, match arena s f !! p with Some v => Some (v, s) | None => None end.

Definition set_field (s : heap_state) (f : field) (p v : Z) : heap_state :=
  HeapState (λ g, if field_eqb f g then <[p := v]> (arena s g) else arena s g) (current_brk s).

(** [p->f = v] *)
Definition put (f : field) (p v : Z) : prog heap_state unit := λ s, Some (tt, set_field s f p v).

(** The addresses of the static [heap] and [__malloc_head]. *)
Class HeapLayout := {
  heap : Z;
  malloc_head : Z;
}.

Section malloc.
Context `{HeapLayout}.

(** [(void * )-1] *)
Definition MINUS_ONE : Z := 4294967295.

Definition align_up (p a : Z) : Z := Z.land (u32 (p + a - 1)) (not32 (a - 1)).

Definition __brk (end_ : Z) : Z :=
  if end_ =? 0 then heap
  else if (s32 end_ <? s32 heap) || (s32 end_ >=? SZ_16M +s s32 heap) then MINUS_ONE
  else u32 (heap + (s32 end_ -s s32 heap)).

Definition sbrk (increment : Z) : prog heap_state Z :=
  let* s := get_state in
  let current := if current_brk s =? 0 then __brk 0 else current_brk s in
  let start := align_up current 32 in
  let end_ := u32 (start + increment) in
  let new_brk := __brk end_ in
  put_state (HeapState (arena s) current) ;;
  if new_brk =? MINUS_ONE then ret MINUS_ONE
  else if new_brk <? end_ then ret MINUS_ONE
  else put_state (HeapState (arena s) new_brk) ;; ret start.

Definition brk (end_data_segment : Z) : prog heap_state Z :=
  let new_brk := __brk end_data_segment in
  if negb (new_brk =? end_data_segment) then ret (-1)
  else
    let* s := get_state in
    put_state (HeapState (arena s) new_brk) ;; ret 0.

Definition remove_from_main_chain (ah : Z) : prog heap_state unit :=
  let* ap := get a_prev ah in
  let* an := get a_next ah in
  put a_next ap an ;;
  put a_prev an ap.

Definition remove_from_free_chain (ah : Z) : prog heap_state unit :=
  let* ap := get prev_free ah in
  let* an := get next_free ah in
  put next_free ap an ;;
  put prev_free an ap.

Definition remove_from_chains (ah : Z) : prog heap_state unit :=
  remove_from_free_chain ah ;;
  remove_from_main_chain ah.

Definition __malloc_from_block (fp size : Z) : prog heap_state Z :=
  let* fsize := get a_size fp in
  (if fsize >=? size +u 2 * ARENA_HEADER_SIZE then
     (* bigger block than required -- split block *)
     let nfp := u32 (fp + size) in
     let* na := get a_next fp in
     put a_type nfp ARENA_TYPE_FREE ;;
     put a_size nfp (fsize -u size) ;;
     put a_type fp ARENA_TYPE_USED ;;
     put a_size fp size ;;
     (* insert into all-block chain *)
     put a_prev nfp fp ;;
     put a_next nfp na ;;
     put a_prev na nfp ;;
     put a_next fp nfp ;;
     (* replace current block on free chain *)
     let* fpn := get next_free fp in
     put next_free nfp fpn ;;
     let* fpp := get prev_free fp in
     put prev_free nfp fpp ;;
     put prev_free fpn nfp ;;
     put next_free fpp nfp
   else
     put a_type fp ARENA_TYPE_USED ;;
     remove_from_free_chain fp) ;;
  ret (u32 (fp + ARENA_HEADER_SIZE)).

Definition __free_block (ah : Z) : prog heap_state Z :=
  let* pah := get a_prev ah in
  let* nah := get a_next ah in
  let* ptype := get a_type pah in
  let* psize := (if ptype =? ARENA_TYPE_FREE then get a_size pah else ret 0) in
  let* ah :=
    (if (ptype =? ARENA_TYPE_FREE) && (u32 (pah + psize) =? ah) then
       (* coalesce into the previous block *)
       let* size := get a_size ah in
       put a_size pah (psize +u size) ;;
       put a_next pah nah ;;
       put a_prev nah pah ;;
       ret pah
     else
       (* need to add this block to the free chain *)
       put a_type ah ARENA_TYPE_FREE ;;
       let* first := get next_free malloc_head in
       put next_free ah first ;;
       put prev_free ah malloc_head ;;
       put next_free malloc_head ah ;;
       let* first := get next_free ah in
       put prev_free first ah ;;
       ret ah) in
  (* in either of the previous cases, we might be able to merge with the
     subsequent block... *)
  let* ntype := get a_type nah in
  let* size := (if ntype =? ARENA_TYPE_FREE then get a_size ah else ret 0) in
  (if (ntype =? ARENA_TYPE_FREE) && (u32 (ah + size) =? nah) then
     let* nsize := get a_size nah in
     put a_size ah (size +u nsize) ;;
     (* remove the old block from the chains *)
     remove_from_chains nah
   else ret tt) ;;
  ret ah.

(** [for (fp = __malloc_head.next_free; fp->a.type != ARENA_TYPE_HEAD; fp = fp->next_free)],
    with the test that ends it early; [None] if no block fits. *)
Fixpoint find_fit (fuel : nat) (fp size : Z) : prog heap_state (option Z) :=
  match fuel with
  | O => fault
  | Datatypes.S fuel' =>
      let* type := get a_type fp in
      if type =? ARENA_TYPE_HEAD then ret None
      else
        let* fsize := get a_size fp in
        if fsize >=? size then ret (Some fp)
        else let* fp := get next_free fp in find_fit fuel' fp size
  end.

(** [for (pah = __malloc_head.a.prev; pah->a.type != ARENA_TYPE_HEAD; pah = pah->a.prev)] *)
Fixpoint find_place (fuel : nat) (pah fp : Z) : prog heap_state Z :=
  match fuel with
  | O => fault
  | Datatypes.S fuel' =>
      let* type := get a_type pah in
      if type =? ARENA_TYPE_HEAD then ret pah
      else if pah <? fp then ret pah
      else let* pah := get a_prev pah in find_place fuel' pah fp
  end.

Definition round_size (size : Z) : Z :=
  Z.land (size +u 2 * ARENA_HEADER_SIZE -u 1) ARENA_SIZE_MASK.

(** The fuel of the two loops is the number of headers: neither visits a header
    twice. *)
Definition xmalloc (size : Z) : prog heap_state Z :=
  if size =? 0 then ret 0
  else
    (* add the obligatory arena header, and round up *)
    let size := round_size size in
    let* s := get_state in
    let* first := get next_free malloc_head in
    let* fit := find_fit (Datatypes.S (map_size (arena s a_type))) first size in
    match fit with
    | Some fp => __malloc_from_block fp size
    | None =>
        (* nothing found... need to request a block from the kernel *)
        let fsize := Z.land (size +u MALLOC_CHUNK_MASK) (not32 MALLOC_CHUNK_MASK) in
        let* fp := sbrk (s32 fsize) in
        if fp =? MINUS_ONE then ret 0
        else
          put a_type fp ARENA_TYPE_FREE ;;
          put a_size fp fsize ;;
          let* last := get a_prev malloc_head in
          let* pah := find_place (Datatypes.S (map_size (arena s a_type))) last fp in
          (* now pah points to the node that should be the predecessor *)
          let* pnext := get a_next pah in
          put a_next fp pnext ;;
          put a_prev fp pah ;;
          put a_next pah fp ;;
          let* fnext := get a_next fp in
          put a_prev fnext fp ;;
          (* insert into the free chain and coalesce with adjacent blocks *)
          let* fp := __free_block fp in
          (* now we can allocate from this block *)
          __malloc_from_block fp size
    end.

Definition xfree (ptr : Z) : prog heap_state unit :=
  if ptr =? 0 then ret tt
  else
    let ah := u32 (ptr - ARENA_HEADER_SIZE) in
    (* merge into adjacent free blocks *)
    let* ah := __free_block ah in
    (* see if it makes sense to return memory to the system *)
    let* size := get a_size ah in
    let* s := get_state in
    if (size >=? SZ_64K) && (u32 (ah + size) =? current_brk s) then
      remove_from_chains ah ;; brk ah ;; ret tt
    else ret tt.

(** The static initialisers. *)
Definition heap_init : heap_state :=
  HeapState (λ f, {[ malloc_head :=
    match f with a_type => ARENA_TYPE_HEAD | a_size => 0 | _ => malloc_head end ]}) heap.
End malloc.
