(* ===== verification/Chain.v ===== *)
(** * Circular doubly linked lists in memory

    [chain N P h l] says that, from the head node [h], the links [N] visit the
    nodes [l] in order and come back, and that the links [P] go the other way.
    The lemmas cover what the code does to a chain: insert a node, remove a
    node, and put a node in the place of another. *)

From stdpp Require Import prelude gmap.
From Stdlib Require Import ZArith Lia.
From S2P Require Import Prelude.

Local Open Scope Z_scope.

(** The nodes of a path are linked in both directions. *)
Fixpoint linked (N P : gmap Z Z) (l : list Z) : Prop :=
  match l with
  | a :: (b :: _) as t => N !! a = Some b ∧ P !! b = Some a ∧ linked N P t
  | _ => True
  end.

Definition chain (N P : gmap Z Z) (h : Z) (l : list Z) : Prop :=
  NoDup (h :: l) ∧ linked N P (h :: l ++ [h]).

Lemma linked_app N P l1 x l2 :
  linked N P (l1 ++ x :: l2) ↔ linked N P (l1 ++ [x]) ∧ linked N P (x :: l2).
Proof.
  induction l1 as [|a l1 IH]; [cbn; tauto |].
  destruct l1 as [|b l1]; [cbn; destruct l2; tauto |].
  change ((a :: b :: l1) ++ x :: l2) with (a :: b :: (l1 ++ x :: l2)).
  change ((a :: b :: l1) ++ [x]) with (a :: b :: (l1 ++ [x])).
  change (N !! a = Some b ∧ P !! b = Some a ∧ linked N P ((b :: l1) ++ x :: l2) ↔
    (N !! a = Some b ∧ P !! b = Some a ∧ linked N P ((b :: l1) ++ [x])) ∧ linked N P (x :: l2)).
  rewrite IH. tauto.
Qed.

(** Only the links out of the nodes but the last, and into the nodes but the
    first, matter. *)
Lemma linked_ext N P N' P' l x :
  (∀ q, q ∈ l → N' !! q = N !! q) → (∀ q, q ∈ tail (l ++ [x]) → P' !! q = P !! q) →
  linked N P (l ++ [x]) → linked N' P' (l ++ [x]).
Proof.
  induction l as [|a l IH]; intros HN HP Hl; [done |].
  destruct l as [|b l].
  - cbn in *. destruct Hl as (H1 & H2 & _). rewrite HN, HP by set_solver. done.
  - destruct Hl as (H1 & H2 & Hl).
    split; [rewrite HN by set_solver; done |]. split; [rewrite HP by set_solver; done |].
    apply IH; [set_solver | | done]. intros q Hq. apply HP. cbn in *. set_solver.
Qed.

(** The nodes around a place of the list. *)
Definition before (h : Z) (l1 : list Z) : Z := List.last l1 h.
Definition after (h : Z) (l2 : list Z) : Z := List.hd h l2.

Lemma before_split h l1 : ∃ c, h :: l1 = c ++ [before h l1].
Proof.
  unfold before. revert h. induction l1 as [|a l1 IH]; intros h; [by exists [] |].
  destruct (IH a) as [c Hc]. exists (h :: c). cbn [app]. rewrite Hc at 1. f_equal. f_equal.
  f_equal. destruct l1; [done |]. cbn. clear. revert z. induction l1; cbn; [done |]. intros. apply IHl1.
Qed.

Lemma after_split h l2 : ∃ c, l2 ++ [h] = after h l2 :: c.
Proof. destruct l2 as [|a l2]; [by exists [] | by exists (l2 ++ [h])]. Qed.

Lemma linked_join N P c x z c' :
  linked N P (c ++ x :: z :: c') ↔
  linked N P (c ++ [x]) ∧ (N !! x = Some z ∧ P !! z = Some x) ∧ linked N P (z :: c').
Proof. rewrite linked_app. cbn. tauto. Qed.

(** A chain cut at a place. *)
Lemma chain_cut N P h l1 l2 :
  chain N P h (l1 ++ l2) ↔
  NoDup (h :: l1 ++ l2) ∧ linked N P (h :: l1) ∧
  (N !! before h l1 = Some (after h l2) ∧ P !! after h l2 = Some (before h l1)) ∧
  linked N P (l2 ++ [h]).
Proof.
  destruct (before_split h l1) as [c1 E1]. destruct (after_split h l2) as [c2 E2]. unfold chain.
  assert (h :: (l1 ++ l2) ++ [h] = c1 ++ before h l1 :: after h l2 :: c2) as ->.
  { rewrite <- app_assoc, E2, app_comm_cons, E1, <- app_assoc. done. }
  rewrite linked_join, <- E1, <- E2. tauto.
Qed.

(** Links may change at the end of the first part and at the start of the
    second. *)
Lemma linked_front N P N' P' h l1 :
  NoDup (h :: l1) →
  (∀ q, q ∈ h :: l1 → q ≠ before h l1 → N' !! q = N !! q) → (∀ q, q ∈ l1 → P' !! q = P !! q) →
  linked N P (h :: l1) → linked N' P' (h :: l1).
Proof.
  intros Hnd HN HP Hl. destruct (before_split h l1) as [c E].
  assert (l1 = tail (c ++ [before h l1])) as Et by (by rewrite <- E).
  rewrite E in Hnd, Hl |- *. apply (linked_ext N P); [| | done].
  - intros q Hq. apply HN; [rewrite E; set_solver |]. intros ->.
    apply NoDup_app in Hnd as (_ & Hd & _). apply (Hd _ Hq). set_solver.
  - intros q Hq. apply HP. by rewrite Et.
Qed.

Lemma linked_back N P N' P' h l2 :
  NoDup (l2 ++ [h]) →
  (∀ q, q ∈ l2 → N' !! q = N !! q) → (∀ q, q ∈ l2 ++ [h] → q ≠ after h l2 → P' !! q = P !! q) →
  linked N P (l2 ++ [h]) → linked N' P' (l2 ++ [h]).
Proof.
  intros Hnd HN HP. apply linked_ext; [done |].
  intros q Hq. destruct (after_split h l2) as [c E]. rewrite E in *. cbn in Hq.
  apply HP; [set_solver |]. intros ->. apply NoDup_cons in Hnd as [Hn _]. done.
Qed.

Lemma before_in h l1 : before h l1 ∈ h :: l1.
Proof. destruct (before_split h l1) as [c ->]. set_solver. Qed.

Lemma after_in h l2 : after h l2 ∈ l2 ++ [h].
Proof. destruct (after_split h l2) as [c ->]. set_solver. Qed.

Lemma nodup_rotate (h : Z) l : NoDup (h :: l) ↔ NoDup (l ++ [h]).
Proof. by rewrite (Permutation_cons_append l h). Qed.

Lemma before_snoc h l1 n : before h (l1 ++ [n]) = n.
Proof. unfold before. apply last_last. Qed.

Section moves.
Context (N P N' P' : gmap Z Z) (h : Z) (l1 l2 : list Z).

Local Notation x := (before h l1).
Local Notation z := (after h l2).

Lemma chain_parts :
  NoDup (h :: l1 ++ l2) → NoDup (h :: l1) ∧ NoDup (l2 ++ [h]) ∧ (∀ q, q ∈ l1 → q ∉ l2 ++ [h]) ∧
  (∀ q, q ∈ h :: l1 → q ∉ l2).
Proof.
  rewrite app_comm_cons, NoDup_app. intros (Hd1 & Hd & Hd2). split; [done |].
  rewrite <- nodup_rotate, NoDup_cons. apply NoDup_cons in Hd1 as [Hh Hd1].
  split; [split; [apply Hd; set_solver | done] |]. split; [|done]. set_solver.
Qed.

Lemma chain_insert n :
  chain N P h (l1 ++ l2) → n ∉ h :: l1 ++ l2 →
  (∀ q, q ∈ n :: h :: l1 ++ l2 →
     N' !! q = if decide (q = x) then Some n else if decide (q = n) then Some z else N !! q) →
  (∀ q, q ∈ n :: h :: l1 ++ l2 →
     P' !! q = if decide (q = z) then Some n else if decide (q = n) then Some x else P !! q) →
  chain N' P' h (l1 ++ n :: l2).
Proof.
  rewrite chain_cut. intros (Hnd & H1 & H2 & H3) Hn HN HP.
  destruct (chain_parts Hnd) as (D1 & D2 & D3 & D4).
  pose proof (before_in h l1) as Bx. pose proof (after_in h l2) as Az.
  assert (z ∈ n :: h :: l1 ++ l2) as Hzin.
  { rewrite elem_of_app, list_elem_of_singleton in Az. rewrite !elem_of_cons, elem_of_app. tauto. }
  apply chain_cut. split; [|split; [|split]].
  - rewrite app_comm_cons, <- Permutation_middle. apply NoDup_cons. rewrite <- app_comm_cons. done.
  - apply (linked_front N P); try done.
    + intros q Hq Hx. rewrite HN, !decide_False by set_solver. done.
    + intros q Hq. rewrite HP, !decide_False by set_solver. done.
  - change (after h (n :: l2)) with n. rewrite HN, decide_True by (done || set_solver).
    rewrite HP, decide_False, decide_True by (done || set_solver). done.
  - destruct (after_split h l2) as [c E]. change ((n :: l2) ++ [h]) with (n :: (l2 ++ [h])).
    assert (linked N' P' (l2 ++ [h])) as H3'.
    { apply (linked_back N P); try done.
      - intros q Hq. rewrite HN, !decide_False by set_solver. done.
      - intros q Hq Hz. rewrite HP, !decide_False by set_solver. done. }
    rewrite E in *. split; [|split; [|done]].
    + rewrite HN, decide_False by set_solver. by rewrite decide_True.
    + by rewrite (HP _ Hzin), decide_True.
Qed.

Lemma chain_links a :
  chain N P h (l1 ++ a :: l2) →
  N !! a = Some z ∧ P !! a = Some x ∧ N !! x = Some a ∧ P !! z = Some a.
Proof.
  intros H. pose proof (proj1 (chain_cut _ _ _ _ _) H) as (_ & _ & H1 & _).
  change (l1 ++ a :: l2) with (l1 ++ [a] ++ l2) in H. rewrite app_assoc in H.
  apply chain_cut in H as (_ & _ & H2 & _). rewrite before_snoc in H2. cbn in H1. tauto.
Qed.

Lemma chain_remove a :
  chain N P h (l1 ++ a :: l2) →
  (∀ q, q ∈ h :: l1 ++ l2 → N' !! q = if decide (q = x) then Some z else N !! q) →
  (∀ q, q ∈ h :: l1 ++ l2 → P' !! q = if decide (q = z) then Some x else P !! q) →
  chain N' P' h (l1 ++ l2).
Proof.
  intros H HN HP. pose proof (proj1 (chain_cut _ _ _ _ _) H) as (Hnd & H1 & _ & _).
  pose proof H as H'. change (l1 ++ a :: l2) with (l1 ++ [a] ++ l2) in H'. rewrite app_assoc in H'.
  apply chain_cut in H' as (_ & _ & _ & H3).
  assert (NoDup (h :: l1 ++ l2)) as Hnd'.
  { rewrite app_comm_cons, <- Permutation_middle, <- app_comm_cons in Hnd. by apply NoDup_cons in Hnd as [_ ?]. }
  destruct (chain_parts Hnd') as (D1 & D2 & D3 & D4).
  pose proof (before_in h l1) as Bx. pose proof (after_in h l2) as Az.
  apply chain_cut. split; [done |]. split; [|split].
  - apply (linked_front N P); try done.
    + intros q Hq Hx. rewrite HN, decide_False by set_solver. done.
    + intros q Hq. rewrite HP, decide_False by set_solver. done.
  - rewrite HN, HP, !decide_True by set_solver. done.
  - apply (linked_back N P); try done.
    + intros q Hq. rewrite HN, decide_False by set_solver. done.
    + intros q Hq Hz. rewrite HP, decide_False by set_solver. done.
Qed.
End moves.

Lemma chain_replace N P N' P' h l1 l2 a n :
  chain N P h (l1 ++ a :: l2) → n ∉ h :: l1 ++ a :: l2 →
  (∀ q, q ≠ a → N' !! q = if decide (q = before h l1) then Some n
                          else if decide (q = n) then Some (after h l2) else N !! q) →
  (∀ q, q ≠ a → P' !! q = if decide (q = after h l2) then Some n
                          else if decide (q = n) then Some (before h l1) else P !! q) →
  chain N' P' h (l1 ++ n :: l2).
Proof.
  intros H Hn HN HP. assert (a ∉ n :: h :: l1 ++ l2) as Ha.
  { destruct H as [Hnd _]. rewrite app_comm_cons, <- Permutation_middle in Hnd.
    apply NoDup_cons in Hnd as [Ha _]. set_solver. }
  apply (chain_insert (<[before h l1 := after h l2]> N) (<[after h l2 := before h l1]> P)).
  - eapply chain_remove; [exact H | |]; intros q _; rewrite lookup_insert; repeat case_decide; congruence.
  - set_solver.
  - intros q Hq. rewrite HN, lookup_insert by set_solver. repeat case_decide; congruence.
  - intros q Hq. rewrite HP, lookup_insert by set_solver. repeat case_decide; congruence.
Qed.

(** Links of other nodes do not matter. *)
Lemma chain_frame N P N' P' h l :
  (∀ q, q ∈ h :: l → N' !! q = N !! q) → (∀ q, q ∈ h :: l → P' !! q = P !! q) →
  chain N P h l → chain N' P' h l.
Proof.
  intros HN HP [Hnd Hl]. split; [done |]. rewrite app_comm_cons in *. eapply linked_ext; [done | | done].
  intros q Hq. apply HP. cbn in Hq. set_solver.
Qed.

(** The length of a chain is bounded by the number of nodes that have links. *)
Lemma chain_dom N P h l q : chain N P h l → q ∈ h :: l → is_Some (N !! q) ∧ is_Some (P !! q).
Proof.
  intros H Hq. apply list_elem_of_split in Hq as (l1 & l2 & E). destruct l1 as [|b l1]; simplify_eq/=.
  - pose proof (proj1 (chain_cut N P q [] l2) H) as (_ & _ & [H1 _] & _). cbn in H1.
    pose proof (chain_cut N P q l2 []) as Hc. rewrite app_nil_r in Hc.
    apply Hc in H as (_ & _ & [_ H2] & _). cbn in H2. eauto.
  - apply chain_links in H as (H1 & H2 & _). eauto.
Qed.

(** The links determine the nodes. *)
Lemma linked_unique N P h x l l' :
  h ∉ l → h ∉ l' → linked N P (x :: l ++ [h]) → linked N P (x :: l' ++ [h]) → l = l'.
Proof.
  revert x l'. induction l as [|a l IH]; intros x l' Hh Hh' H H'.
  - destruct l' as [|b l']; [done |]. cbn in H, H'. destruct H as [E _], H' as [E' _]. simplify_eq. set_solver.
  - destruct l' as [|b l'].
    + cbn in H, H'. destruct H as [E _], H' as [E' _]. simplify_eq. set_solver.
    + destruct H as (E & _ & H), H' as (E' & _ & H'). simplify_eq. f_equal.
      apply (IH a); [set_solver | set_solver | done | done].
Qed.

Lemma chain_unique N P h l l' : chain N P h l → chain N P h l' → l = l'.
Proof.
  intros [Hnd H] [Hnd' H']. apply NoDup_cons in Hnd as [Hn _], Hnd' as [Hn' _].
  by apply (linked_unique N P h h).
Qed.
