(* ===== verification/Heap.v ===== *)
(** * Correctness of the heap

    The headers of [Malloc] represent a list of blocks sorted by address, each
    used or free, of which no two free ones touch.  [heap_rep] relates the two;
    every operation of [malloc.c] is shown to keep the relation, to hand out
    memory that belongs to no other block, and to take back what it is given. *)

From stdpp Require Import prelude gmap.
From Stdlib Require Import ZArith Lia.
From S2P Require Import Prelude Prog Malloc Chain.

Local Open Scope Z_scope.
Local Open Scope word_scope.

(** ** Lists of blocks *)

(** A block that is being freed or added is in [Limbo]: on the list of all blocks
    but not on the free list, whatever its type field holds. *)
Inductive tag := Used | Free | Limbo.

#[export] Instance tag_eq_dec : EqDecision tag.
Proof. solve_decision. Defined.

Record block := Blk { b_addr : Z; b_size : Z; b_tag : tag }.

#[export] Instance block_eq_dec : EqDecision block.
Proof. solve_decision. Defined.

Definition block_wf (b : block) : Prop :=
  b_addr b mod 16 = 0 ∧ 32 ≤ b_size b ∧ b_size b mod 16 = 0.

(** Blocks in ascending order, without overlap, between two addresses. *)
Fixpoint layout (lo : Z) (B : list block) (hi : Z) : Prop :=
  match B with
  | [] => lo ≤ hi
  | b :: B' => lo ≤ b_addr b ∧ block_wf b ∧ layout (b_addr b + b_size b) B' hi
  end.

Definition touch (b b' : block) : Prop :=
  b_tag b = Free ∧ b_tag b' = Free ∧ b_addr b + b_size b = b_addr b'.

Fixpoint coalesced (B : list block) : Prop :=
  match B with
  | b :: (b' :: _) as B' => ¬ touch b b' ∧ coalesced B'
  | _ => True
  end.

Lemma layout_app lo B1 B2 hi :
  layout lo (B1 ++ B2) hi ↔ ∃ mid, layout lo B1 mid ∧ layout mid B2 hi.
Proof.
  revert lo. induction B1 as [|b B1 IH]; intros lo; cbn.
  - split; [intros H; exists lo; split; [lia | done] |]. intros (mid & H1 & H2).
    destruct B2 as [|b B2]; cbn in *; [lia |]. destruct H2 as (? & ? & ?). split_and!; [lia | done | done].
  - rewrite IH. naive_solver.
Qed.

Lemma layout_le lo B hi : layout lo B hi → lo ≤ hi.
Proof.
  revert lo. induction B as [|b B IH]; intros lo; cbn; [done |].
  intros (H1 & (_ & H2 & _) & H3%IH). lia.
Qed.

Lemma layout_weaken lo lo' B hi hi' : lo' ≤ lo → hi ≤ hi' → layout lo B hi → layout lo' B hi'.
Proof.
  revert lo lo'. induction B as [|b B IH]; intros lo lo' H1 H2; cbn; [lia |].
  intros (H3 & H4 & H5). split_and!; [lia | done |]. by eapply IH; [| |exact H5].
Qed.

Lemma layout_in lo B hi b :
  layout lo B hi → b ∈ B → lo ≤ b_addr b ∧ b_addr b + b_size b ≤ hi ∧ block_wf b.
Proof.
  intros H (B1 & B2 & ->)%list_elem_of_split. apply layout_app in H as (mid & H1 & H2).
  apply layout_le in H1. destruct H2 as (H3 & H4 & H5%layout_le). split_and!; [lia | lia | done].
Qed.

(** Different blocks do not overlap. *)
Lemma layout_disjoint lo B1 b B2 hi b' :
  layout lo (B1 ++ b :: B2) hi → b' ∈ B1 ++ B2 →
  b_addr b' + b_size b' ≤ b_addr b ∨ b_addr b + b_size b ≤ b_addr b'.
Proof.
  intros (mid & H1 & H2)%layout_app Hin. destruct H2 as (H3 & H4 & H5).
  apply elem_of_app in Hin as [Hin|Hin].
  - apply (layout_in _ _ _ _ H1) in Hin. lia.
  - apply (layout_in _ _ _ _ H5) in Hin. lia.
Qed.

Lemma coalesced_app B1 b B2 :
  coalesced (B1 ++ b :: B2) ↔ coalesced (B1 ++ [b]) ∧ coalesced (b :: B2).
Proof.
  induction B1 as [|x B1 IH]; [cbn; tauto |].
  destruct B1 as [|y B1]; [cbn; destruct B2; tauto |].
  change (¬ touch x y ∧ coalesced ((y :: B1) ++ b :: B2) ↔
    (¬ touch x y ∧ coalesced ((y :: B1) ++ [b])) ∧ coalesced (b :: B2)).
  rewrite IH. tauto.
Qed.

Lemma coalesced_cons b B :
  coalesced (b :: B) ↔ (∀ b2, head B = Some b2 → ¬ touch b b2) ∧ coalesced B.
Proof. destruct B; cbn; naive_solver. Qed.

Lemma coalesced_snoc B b :
  coalesced (B ++ [b]) ↔ (∀ b1, last B = Some b1 → ¬ touch b1 b) ∧ coalesced B.
Proof.
  destruct B as [|b1 B _] using rev_ind; [cbn; naive_solver |].
  rewrite <- app_assoc, last_snoc. change ([b1] ++ [b]) with (b1 :: [b]). rewrite coalesced_app.
  cbn. naive_solver.
Qed.

Lemma coalesced_middle B1 b B2 :
  coalesced (B1 ++ b :: B2) ↔
  coalesced B1 ∧ coalesced B2 ∧
  (∀ b1, last B1 = Some b1 → ¬ touch b1 b) ∧ (∀ b2, head B2 = Some b2 → ¬ touch b b2).
Proof. rewrite coalesced_app, coalesced_cons, coalesced_snoc. tauto. Qed.

Lemma elem_elsewhere {A} (b b' : A) B1 B2 : b ∈ B1 ++ b' :: B2 → b ≠ b' → b ∈ B1 ++ B2.
Proof. rewrite !elem_of_app, elem_of_cons. tauto. Qed.

(** ** Headers *)

Lemma wp_get f p v s (Q : Z → heap_state → Prop) :
  arena s f !! p = Some v → Q v s → wp (get f p) Q s.
Proof. intros H HQ. unfold wp, get. by rewrite H. Qed.

Lemma wp_put f p v s (Q : unit → heap_state → Prop) :
  Q tt (set_field s f p v) → wp (put f p v) Q s.
Proof. done. Qed.

(** The linker's part: [heap] has as much of the address space above it as it
    takes up itself, it lies in one half of the address space, so that the
    signed comparisons of [__brk] order its addresses, and it does not overlap
    [__malloc_head].  With U-Boot at 0xc3e00000, where the board's [config.mk]
    links it, it lies in the upper half. *)
Class HeapOk `{HeapLayout} : Prop := {
  heap_pos : 0 < heap;
  heap_top : heap + 2 * SZ_16M ≤ 4294967296;
  heap_half : heap + SZ_16M < 2147483648 ∨ 2147483648 ≤ heap;
  head_pos : 0 < malloc_head;
  head_apart : malloc_head + 24 ≤ heap ∨ heap + SZ_16M ≤ malloc_head;
}.

Definition type_ok (t : tag) (v : option Z) : Prop :=
  match t with
  | Used => v = Some ARENA_TYPE_USED
  | Free => v = Some ARENA_TYPE_FREE
  | Limbo => True
  end.

Section heap.
Context `{HeapOk}.

Local Notation addrs B := (b_addr <$> B).

(** The headers [s] hold the blocks [B], those of [F] in the order of the free
    list. *)
Record heap_rep (s : heap_state) (B : list block) (F : list Z) : Prop := {
  rep_main : chain (arena s a_next) (arena s a_prev) malloc_head (addrs B);
  rep_free : chain (arena s next_free) (arena s prev_free) malloc_head F;
  rep_head : arena s a_type !! malloc_head = Some ARENA_TYPE_HEAD;
  rep_blocks : ∀ b, b ∈ B →
    arena s a_size !! b_addr b = Some (b_size b) ∧ type_ok (b_tag b) (arena s a_type !! b_addr b);
  rep_listed : ∀ p, p ∈ F ↔ ∃ n, Blk p n Free ∈ B;
  rep_layout : layout heap B (current_brk s);
  rep_brk : current_brk s < heap + SZ_16M;
}.

Lemma head_not_block s B F b :
  heap_rep s B F → b ∈ B → b_addr b ≠ malloc_head ∧ heap ≤ b_addr b ∧ 32 ≤ b_size b ∧
    b_addr b + b_size b ≤ current_brk s ∧ current_brk s < heap + SZ_16M.
Proof.
  intros Hr Hb. pose proof (layout_in _ _ _ _ (rep_layout _ _ _ Hr) Hb) as (H1 & H2 & (_ & H3 & _)).
  pose proof head_apart. pose proof (rep_brk _ _ _ Hr). lia.
Qed.

(** The addresses inside a block are not those of another header. *)
Lemma inside_not_header s B1 b B2 F q :
  heap_rep s (B1 ++ b :: B2) F → b_addr b < q < b_addr b + b_size b →
  q ∉ malloc_head :: addrs (B1 ++ b :: B2).
Proof.
  intros Hr Hq. assert (b ∈ B1 ++ b :: B2) as Hb by set_solver.
  pose proof (head_not_block _ _ _ _ Hr Hb) as Hb'. pose proof head_apart.
  rewrite elem_of_cons. intros [->|Hin]; [lia |].
  apply list_elem_of_fmap in Hin as (b' & -> & Hb''). pose proof (head_not_block _ _ _ _ Hr Hb'').
  assert (b' = b ∨ b' ∈ B1 ++ B2) as [->|Hin] by set_solver; [lia |].
  pose proof (layout_disjoint _ _ _ _ _ _ (rep_layout _ _ _ Hr) Hin). lia.
Qed.

Lemma other_addr s B1 b B2 F b' :
  heap_rep s (B1 ++ b :: B2) F → b' ∈ B1 ++ B2 → b_addr b' ≠ b_addr b.
Proof.
  intros Hr Hin. pose proof (layout_disjoint _ _ _ _ _ _ (rep_layout _ _ _ Hr) Hin).
  assert (b' ∈ B1 ++ b :: B2) as Hb' by set_solver. assert (b ∈ B1 ++ b :: B2) as Hb by set_solver.
  pose proof (head_not_block _ _ _ _ Hr Hb). pose proof (head_not_block _ _ _ _ Hr Hb'). lia.
Qed.

(** The free list holds free blocks only, each once. *)
Lemma listed_addr s B F p : heap_rep s B F → p ∈ F → p ∈ addrs B.
Proof.
  intros Hr [n Hin]%(rep_listed _ _ _ Hr). apply list_elem_of_fmap. by exists (Blk p n Free).
Qed.

(** A free block becomes used as a whole. *)
Lemma take_block_rep s B1 a sz B2 F1 F2 s' :
  heap_rep s (B1 ++ Blk a sz Free :: B2) (F1 ++ a :: F2) →
  current_brk s' = current_brk s →
  (∀ f, f = a_next ∨ f = a_prev ∨ f = a_size → arena s' f = arena s f) →
  arena s' a_type = <[a := ARENA_TYPE_USED]> (arena s a_type) →
  arena s' next_free = <[before malloc_head F1 := after malloc_head F2]> (arena s next_free) →
  arena s' prev_free = <[after malloc_head F2 := before malloc_head F1]> (arena s prev_free) →
  heap_rep s' (B1 ++ Blk a sz Used :: B2) (F1 ++ F2).
Proof.
  intros Hr Hbrk Hsame Ht Hn Hp. pose proof Hr as [R1 R2 R3 R4 R5 R6 R7].
  assert (a ≠ malloc_head) as Hh by (apply (head_not_block _ _ _ (Blk a sz Free) Hr); set_solver).
  assert (NoDup (a :: F1 ++ F2)) as Hnd.
  { destruct R2 as [Hnd _]. apply NoDup_cons in Hnd as [_ Hnd]. by rewrite <- Permutation_middle in Hnd. }
  apply NoDup_cons in Hnd as [Hna _]. split.
  - rewrite !Hsame by auto. rewrite fmap_app in *. done.
  - rewrite Hn, Hp. eapply chain_remove; [exact R2 | |]; intros q _; rewrite lookup_insert;
      repeat case_decide; congruence.
  - by rewrite Ht, lookup_insert_ne.
  - intros b Hb. rewrite Hsame, Ht by auto.
    assert (b = Blk a sz Used ∨ b ∈ B1 ++ B2) as [->|Hin] by set_solver.
    + cbn. rewrite lookup_insert_eq. split; [|done].
      apply (R4 (Blk a sz Free)). set_solver.
    + pose proof (other_addr _ _ _ _ _ _ Hr Hin) as Hne. rewrite lookup_insert_ne by (cbn in *; congruence).
      apply R4. set_solver.
  - intros p. specialize (R5 p). split.
    + intros Hin. destruct (proj1 R5) as [n Hb]; [set_solver |]. exists n.
      assert (p ≠ a) by set_solver. apply elem_of_app in Hb as [?|[?|?]%elem_of_cons]; [set_solver | congruence | set_solver].
    + intros [n Hb]. assert (Blk p n Free ∈ B1 ++ B2) as Hin by
        (apply elem_of_app in Hb as [?|[?|?]%elem_of_cons]; [set_solver | congruence | set_solver]).
      pose proof (other_addr _ _ _ _ _ _ Hr Hin) as Hne. cbn in Hne.
      destruct R5 as [_ R5]. assert (p ∈ F1 ++ a :: F2) by (apply R5; exists n; set_solver). set_solver.
  - rewrite Hbrk. apply layout_app in R6 as (mid & L1 & L2). apply layout_app. by exists mid.
  - by rewrite Hbrk.
Qed.

(** A free block is cut in two: the first part is used, the rest takes its place
    on the free list. *)
Lemma split_block_rep s B1 a sz n B2 F1 F2 s' :
  heap_rep s (B1 ++ Blk a sz Free :: B2) (F1 ++ a :: F2) →
  32 ≤ n → n mod 16 = 0 → n + 32 ≤ sz →
  current_brk s' = current_brk s →
  arena s' a_type = <[a := ARENA_TYPE_USED]> (<[a + n := ARENA_TYPE_FREE]> (arena s a_type)) →
  arena s' a_size = <[a := n]> (<[a + n := sz - n]> (arena s a_size)) →
  arena s' a_next = <[a := a + n]> (<[a + n := after malloc_head (addrs B2)]> (arena s a_next)) →
  arena s' a_prev = <[after malloc_head (addrs B2) := a + n]> (<[a + n := a]> (arena s a_prev)) →
  arena s' next_free = <[before malloc_head F1 := a + n]> (<[a + n := after malloc_head F2]> (arena s next_free)) →
  arena s' prev_free = <[after malloc_head F2 := a + n]> (<[a + n := before malloc_head F1]> (arena s prev_free)) →
  heap_rep s' (B1 ++ Blk a n Used :: Blk (a + n) (sz - n) Free :: B2) (F1 ++ (a + n) :: F2).
Proof.
  intros Hr Hn Hn16 Hsz Hbrk Ht Hs Hnx Hpv Hnf Hpf. pose proof Hr as [R1 R2 R3 R4 R5 R6 R7].
  assert (a ≠ malloc_head) as Hh by (apply (head_not_block _ _ _ (Blk a sz Free) Hr); set_solver).
  pose proof (inside_not_header _ _ _ _ _ (a + n) Hr ltac:(cbn; lia)) as Hnew.
  assert (a + n ∉ malloc_head :: F1 ++ a :: F2) as HnewF.
  { rewrite elem_of_cons. intros [E|Hin]; [set_solver |]. apply (listed_addr _ _ _ _ Hr) in Hin. set_solver. }
  rewrite fmap_app, fmap_cons in R1, Hnew. cbn in R1, Hnew. split.
  - rewrite fmap_app, !fmap_cons, Hnx, Hpv. cbn [b_addr].
    change (addrs B1 ++ a :: a + n :: addrs B2) with (addrs B1 ++ [a] ++ (a + n :: addrs B2)). rewrite app_assoc.
    eapply (chain_insert (arena s a_next) (arena s a_prev)); [by rewrite <- app_assoc | by rewrite <- app_assoc | |];
      intros q _; rewrite !before_snoc, !lookup_insert; repeat case_decide; congruence.
  - rewrite Hnf, Hpf. eapply chain_replace; [exact R2 | done | |]; intros q _; rewrite !lookup_insert;
      repeat case_decide; congruence.
  - rewrite Ht, !lookup_insert_ne by set_solver. done.
  - intros b Hb. rewrite Hs, Ht.
    assert (b = Blk a n Used ∨ b = Blk (a + n) (sz - n) Free ∨ b ∈ B1 ++ B2) as [->|[->|Hin]] by set_solver.
    + cbn. by rewrite !lookup_insert_eq.
    + cbn. rewrite !(lookup_insert_ne _ a) by lia. by rewrite !lookup_insert_eq.
    + pose proof (other_addr _ _ _ _ _ _ Hr Hin) as Hne. cbn in Hne.
      assert (b_addr b ≠ a + n) by (intros E; apply Hnew; rewrite <- E; apply list_elem_of_further;
        rewrite elem_of_app, elem_of_cons, !list_elem_of_fmap; apply elem_of_app in Hin; naive_solver).
      rewrite !lookup_insert_ne by congruence. apply R4. set_solver.
  - intros p. specialize (R5 p). destruct (decide (p = a + n)) as [->|Hp].
    { split; [|set_solver]. intros _. exists (sz - n). set_solver. }
    destruct (decide (p = a)) as [->|Hpa].
    { split.
      - intros Hin. exfalso. destruct R2 as [Hnd _]. apply NoDup_cons in Hnd as [_ Hnd].
        rewrite <- Permutation_middle in Hnd. apply NoDup_cons in Hnd as [Hnd _].
        apply elem_of_app in Hin as [?|[?|?]%elem_of_cons]; [set_solver | lia | set_solver].
      - intros [k Hk]. exfalso.
        assert (Blk a k Free ∈ B1 ++ B2) as Hin by
          (apply elem_of_app in Hk as [?|[?|[?|?]%elem_of_cons]%elem_of_cons]; [set_solver | congruence | simplify_eq; lia | set_solver]).
        by apply (other_addr _ _ _ _ _ _ Hr) in Hin. }
    transitivity (p ∈ F1 ++ a :: F2); [set_solver |]. rewrite R5.
    split; intros [k Hk]; exists k; apply elem_of_app; apply elem_of_app in Hk as [?|Hk]; try (by left);
      right; rewrite ?elem_of_cons in *; naive_solver congruence.
  - rewrite Hbrk. apply layout_app in R6 as (mid & L1 & L2 & (L3 & L4 & L5) & L6). apply layout_app.
    exists mid. split; [done |]. cbn in *. unfold block_wf. cbn. split_and!; try lia; try done.
    + rewrite Z.add_mod, L3, Hn16 by lia. done.
    + rewrite Zminus_mod, L5, Hn16. done.
    + by replace (a + n + (sz - n)) with (a + sz) by lia.
  - by rewrite Hbrk.
Qed.

Lemma rep_links s B1 b B2 F :
  heap_rep s (B1 ++ b :: B2) F →
  arena s a_next !! b_addr b = Some (after malloc_head (addrs B2)) ∧
  arena s a_prev !! b_addr b = Some (before malloc_head (addrs B1)).
Proof.
  intros Hr. pose proof (rep_main _ _ _ Hr) as Hm. rewrite fmap_app, fmap_cons in Hm.
  apply chain_links in Hm. tauto.
Qed.

Lemma rep_free_split s B F p n :
  heap_rep s B F → Blk p n Free ∈ B → ∃ F1 F2, F = F1 ++ p :: F2.
Proof. intros Hr Hb. apply list_elem_of_split, (rep_listed _ _ _ Hr). eauto. Qed.

(** The blocks after [n] bytes are taken from a free block of [sz]. *)
Definition taken (a sz n : Z) : list block :=
  if sz >=? n + 32 then [Blk a n Used; Blk (a + n) (sz - n) Free] else [Blk a sz Used].

Ltac heap_steps :=
  repeat first [apply wp_bind | apply wp_put | apply wp_ret].

Lemma malloc_from_block_spec s B1 a sz n B2 F :
  heap_rep s (B1 ++ Blk a sz Free :: B2) F → 32 ≤ n → n mod 16 = 0 → n ≤ sz →
  wp (__malloc_from_block a n)
    (λ p s', p = a + 16 ∧ current_brk s' = current_brk s ∧
       ∃ F', heap_rep s' (B1 ++ taken a sz n ++ B2) F') s.
Proof.
  intros Hr Hn Hn16 Hsz. assert (Blk a sz Free ∈ B1 ++ Blk a sz Free :: B2) as Hb by set_solver.
  pose proof (head_not_block _ _ _ _ Hr Hb) as (Hh & Hlo & Hmin & Hhi & Htop). cbn in Hh, Hlo, Hmin, Hhi.
  pose proof heap_pos. pose proof heap_top. unfold SZ_16M in *.
  destruct (rep_free_split _ _ _ _ _ Hr Hb) as (F1 & F2 & ->).
  destruct (rep_links _ _ _ _ _ Hr) as [Ln Lp]. cbn in Ln, Lp.
  destruct (chain_links _ _ _ _ _ _ (rep_free _ _ _ Hr)) as (Fn & Fp & _).
  unfold __malloc_from_block, taken, ARENA_HEADER_SIZE. apply wp_bind.
  eapply wp_get; [apply (rep_blocks _ _ _ Hr _ Hb) |]. cbn [b_size].
  rewrite (u32_small (n + _)), (u32_small (a + n)), (u32_small (sz - n)), (u32_small (a + 16)) by lia.
  change (2 * 16) with 32. apply wp_bind. destruct (Z.geb_spec sz (n + 32)).
  - apply wp_bind. eapply wp_get; [exact Ln |]. heap_steps.
    eapply wp_get; [exact Fn |]. heap_steps. eapply wp_get; [exact Fp |]. heap_steps.
    split; [done |]. split; [done |]. eexists.
    eapply (split_block_rep s B1 a sz n B2 F1 F2); done.
  - heap_steps. unfold remove_from_free_chain. heap_steps. eapply wp_get; [exact Fp |]. heap_steps.
    eapply wp_get; [exact Fn |]. heap_steps. split; [done |]. split; [done |]. eexists.
    eapply (take_block_rep s B1 a sz B2 F1 F2); try done. by intros f [->|[->| ->]].
Qed.

Lemma taken_coalesced B1 a sz n B2 :
  coalesced (B1 ++ Blk a sz Free :: B2) → coalesced (B1 ++ taken a sz n ++ B2).
Proof.
  rewrite coalesced_middle. intros (C1 & C2 & C3 & C4). unfold taken. case_match; cbn [app];
    rewrite coalesced_middle, ?coalesced_cons; split_and!; try done.
  - intros b2 Hb2 (T1 & T2 & T3). apply (C4 b2 Hb2). split_and!; [done | done |]. cbn in *. lia.
  - intros ? _ (? & ? & _). done.
  - intros ? _ (? & ? & _). done.
  - intros ? _ (? & ? & _). done.
  - intros ? _ (? & ? & _). done.
Qed.

(** A block is absorbed by the free block that ends where it starts. *)
Lemma absorb_rep s s' B1 p ps a sz t B2 F F' :
  heap_rep s (B1 ++ Blk p ps Free :: Blk a sz t :: B2) F → p + ps = a →
  current_brk s' = current_brk s → arena s' a_type = arena s a_type →
  arena s' a_size = <[p := ps + sz]> (arena s a_size) →
  arena s' a_next = <[p := after malloc_head (addrs B2)]> (arena s a_next) →
  arena s' a_prev = <[after malloc_head (addrs B2) := p]> (arena s a_prev) →
  chain (arena s' next_free) (arena s' prev_free) malloc_head F' →
  (∀ q, q ∈ F' ↔ q ∈ F ∧ q ≠ a) →
  heap_rep s' (B1 ++ Blk p (ps + sz) Free :: B2) F'.
Proof.
  intros Hr Ha Hbrk Ht Hs Hn Hp Hch HF. pose proof Hr as [R1 R2 R3 R4 R5 R6 R7].
  assert (∀ b, b ∈ B1 ++ B2 → b_addr b ≠ p) as Hnp.
  { intros b Hb. apply (other_addr _ _ _ _ _ _ Hr). set_solver. }
  assert (∀ b, b ∈ B1 ++ Blk p ps Free :: B2 → b_addr b ≠ a) as Hna.
  { intros b Hb. change (B1 ++ Blk p ps Free :: Blk a sz t :: B2)
      with (B1 ++ [Blk p ps Free] ++ Blk a sz t :: B2) in Hr. rewrite app_assoc in Hr.
    apply (other_addr _ _ _ _ _ _ Hr). set_solver. }
  split.
  - rewrite fmap_app, !fmap_cons in *. cbn [b_addr] in *.
    change (addrs B1 ++ p :: a :: addrs B2) with (addrs B1 ++ [p] ++ a :: addrs B2) in R1.
    change (addrs B1 ++ p :: addrs B2) with (addrs B1 ++ [p] ++ addrs B2). rewrite app_assoc in *.
    rewrite Hn, Hp. eapply chain_remove; [exact R1 | |]; intros q _; rewrite before_snoc, lookup_insert;
      repeat case_decide; congruence.
  - done.
  - by rewrite Ht.
  - intros b Hb. rewrite Hs, Ht.
    assert (b = Blk p (ps + sz) Free ∨ b ∈ B1 ++ B2) as [->|Hin] by set_solver.
    + cbn. rewrite lookup_insert_eq. split; [done |]. apply (R4 (Blk p ps Free)). set_solver.
    + rewrite lookup_insert_ne by (symmetry; auto). apply R4. set_solver.
  - intros q. rewrite HF, R5. split.
    + intros [[k Hk] Hq]. destruct (decide (q = p)) as [->|Hqp]; [exists (ps + sz); set_solver |].
      exists k. rewrite elem_of_app, !elem_of_cons in *. naive_solver congruence.
    + intros [k Hk]. split.
      * destruct (decide (q = p)) as [->|Hqp]; [exists ps; set_solver |].
        exists k. rewrite elem_of_app, !elem_of_cons in *. naive_solver congruence.
      * intros ->. destruct (decide (a = p)) as [->|Hqp].
        -- apply (Hna (Blk p ps Free)); set_solver.
        -- apply (Hna (Blk a k Free)); [|done]. rewrite elem_of_app, !elem_of_cons in *. naive_solver congruence.
  - rewrite Hbrk. apply layout_app in R6 as (mid & L1 & L2 & (L3 & L4 & L5) & L6 & (L7 & L8 & L9) & L10).
    apply layout_app. exists mid. split; [done |]. cbn in *. unfold block_wf. cbn.
    split_and!; try lia; try done.
    + rewrite Z.add_mod, L5, L9 by lia. done.
    + by replace (p + (ps + sz)) with (a + sz) by lia.
  - by rewrite Hbrk.
Qed.

(** A block is put at the front of the free list. *)
Lemma listed_rep s s' B1 a sz t B2 F :
  heap_rep s (B1 ++ Blk a sz t :: B2) F → t ≠ Free →
  current_brk s' = current_brk s →
  (∀ f, f = a_next ∨ f = a_prev ∨ f = a_size → arena s' f = arena s f) →
  arena s' a_type = <[a := ARENA_TYPE_FREE]> (arena s a_type) →
  arena s' next_free = <[malloc_head := a]> (<[a := after malloc_head F]> (arena s next_free)) →
  arena s' prev_free = <[after malloc_head F := a]> (<[a := malloc_head]> (arena s prev_free)) →
  heap_rep s' (B1 ++ Blk a sz Free :: B2) (a :: F).
Proof.
  intros Hr Ht Hbrk Hsame Hty Hn Hp. pose proof Hr as [R1 R2 R3 R4 R5 R6 R7].
  assert (a ≠ malloc_head) as Hh by (apply (head_not_block _ _ _ (Blk a sz t) Hr); set_solver).
  assert (∀ k, Blk a k Free ∉ B1 ++ Blk a sz t :: B2) as Hk.
  { intros k Hin. assert (Blk a k Free ∈ B1 ++ B2) as Hin' by
      (rewrite elem_of_app, !elem_of_cons in *; naive_solver congruence).
    by apply (other_addr _ _ _ _ _ _ Hr) in Hin'. }
  assert (a ∉ F) as HaF by (intros [k Hin]%R5; by apply Hk in Hin).
  split.
  - rewrite !Hsame by auto. rewrite fmap_app in *. done.
  - rewrite Hn, Hp. apply (chain_insert (arena s next_free) (arena s prev_free) _ _ _ [] F); [done | set_solver | |];
      intros q _; cbn [before List.last]; rewrite !lookup_insert; repeat case_decide; congruence.
  - by rewrite Hty, lookup_insert_ne.
  - intros b Hb. rewrite Hsame, Hty by auto.
    assert (b = Blk a sz Free ∨ b ∈ B1 ++ B2) as [->|Hin] by set_solver.
    + cbn. rewrite lookup_insert_eq. split; [|done]. apply (R4 (Blk a sz t)). set_solver.
    + pose proof (other_addr _ _ _ _ _ _ Hr Hin) as Hne. rewrite lookup_insert_ne by (cbn in *; congruence).
      apply R4. set_solver.
  - intros q. rewrite elem_of_cons, R5. split.
    + intros [->|[k Hin]]; [exists sz; set_solver |]. exists k.
      rewrite elem_of_app, !elem_of_cons in *. naive_solver congruence.
    + intros [k Hin]. destruct (decide (q = a)) as [->|Hq]; [by left |]. right. exists k.
      rewrite elem_of_app, !elem_of_cons in *. naive_solver congruence.
  - rewrite Hbrk. apply layout_app in R6 as (mid & L1 & L2). apply layout_app. by exists mid.
  - by rewrite Hbrk.
Qed.
End heap.
