(* ===== verification/HeapOps.v ===== *)
(** * The operations of the heap

    Specifications of [__free_block], [xmalloc] and [xfree] over the lists of
    blocks of [Heap], and the properties of the allocator. *)

From stdpp Require Import prelude gmap.
From Stdlib Require Import ZArith Lia.
From S2P Require Import Prelude Prog Malloc Chain Heap.

Local Open Scope Z_scope.
Local Open Scope word_scope.

Ltac heap_steps :=
  repeat first [apply wp_bind | apply wp_put | apply wp_ret].

(** The largest request whose rounded size is still positive as the signed
    argument of [sbrk]. *)
Definition MAX_REQUEST : Z := 2147287040.

Section operations.
Context `{HeapOk}.

(** The largest request that does not overflow the arithmetic of [xmalloc]: the
    end of the memory asked for must also be an address.  For a heap in the
    lower half of the address space this is [MAX_REQUEST]. *)
Definition max_request : Z := Z.min MAX_REQUEST (4294967296 - heap - SZ_16M - SZ_64K - 64).

Local Notation addrs B := (b_addr <$> B).

Definition settled (B : list block) : Prop := ∀ b, b ∈ B → b_tag b ≠ Limbo.

(** Two lists of blocks with the same used blocks. *)
Definition same_used (B B' : list block) : Prop := ∀ p k, Blk p k Used ∈ B ↔ Blk p k Used ∈ B'.

Lemma after_type s B1 B2 F :
  heap_rep s (B1 ++ B2) F → settled B2 →
  ∃ ty, arena s a_type !! after malloc_head (addrs B2) = Some ty ∧
    (ty = ARENA_TYPE_FREE ↔ ∃ b, head B2 = Some b ∧ b_tag b = Free).
Proof.
  intros Hr Hs. destruct B2 as [|b B2]; cbn.
  - exists ARENA_TYPE_HEAD. split; [apply (rep_head _ _ _ Hr) |]. split; [done | naive_solver].
  - assert (b ∈ B1 ++ b :: B2) as Hb by set_solver. destruct (rep_blocks _ _ _ Hr b Hb) as [_ Ht].
    destruct (b_tag b) eqn:E; cbn in Ht.
    + exists ARENA_TYPE_USED. split; [done |]. split; [done | intros (? & ? & ?); congruence].
    + exists ARENA_TYPE_FREE. split; [done |]. split; [|done]. eauto.
    + exfalso. apply (Hs b); set_solver.
Qed.

Lemma before_type s B1 B2 F :
  heap_rep s (B1 ++ B2) F → settled B1 →
  ∃ ty, arena s a_type !! before malloc_head (addrs B1) = Some ty ∧
    (ty = ARENA_TYPE_FREE ↔ ∃ b, last B1 = Some b ∧ b_tag b = Free).
Proof.
  intros Hr Hs. destruct B1 as [|b B1 _] using rev_ind.
  - exists ARENA_TYPE_HEAD. split; [apply (rep_head _ _ _ Hr) |]. split; [done | naive_solver].
  - assert (b ∈ (B1 ++ [b]) ++ B2) as Hb by set_solver. destruct (rep_blocks _ _ _ Hr b Hb) as [_ Ht].
    rewrite fmap_app. change (addrs [b]) with [b_addr b]. rewrite before_snoc, last_snoc. destruct (b_tag b) eqn:E; cbn in Ht.
    + exists ARENA_TYPE_USED. split; [done |]. split; [done | intros (? & ? & ?); congruence].
    + exists ARENA_TYPE_FREE. split; [done |]. split; [|done]. eauto.
    + exfalso. apply (Hs b); set_solver.
Qed.

(** Where the first half of [__free_block] leaves the block. *)
Definition freed_left (s : heap_state) (B1 : list block) (a sz : Z) (B2 : list block)
    (ah : Z) (s' : heap_state) : Prop :=
  ∃ B1' sz' F', heap_rep s' (B1' ++ Blk ah sz' Free :: B2) F' ∧ current_brk s' = current_brk s ∧
    coalesced B1' ∧ (∀ b1, last B1' = Some b1 → ¬ touch b1 (Blk ah sz' Free)) ∧
    ah ≤ a ∧ ah + sz' = a + sz ∧ same_used B1' B1 ∧ settled B1'.

(** The block ends where a free block starts, which is absorbed. *)
Lemma merge_right_spec s B1 a sz B2 F :
  heap_rep s (B1 ++ Blk a sz Free :: B2) F → settled B2 →
  coalesced B1 → coalesced B2 → (∀ b1, last B1 = Some b1 → ¬ touch b1 (Blk a sz Free)) →
  wp (let* ntype := get a_type (after malloc_head (addrs B2)) in
      let* size := (if ntype =? ARENA_TYPE_FREE then get a_size a else ret 0) in
      (if (ntype =? ARENA_TYPE_FREE) && (u32 (a + size) =? after malloc_head (addrs B2)) then
         let* nsize := get a_size (after malloc_head (addrs B2)) in
         put a_size a (size +u nsize) ;;
         remove_from_chains (after malloc_head (addrs B2))
       else ret tt) ;;
      ret a)
    (λ r s', r = a ∧ ∃ B2' sz' F', heap_rep s' (B1 ++ Blk a sz' Free :: B2') F' ∧
       current_brk s' = current_brk s ∧ coalesced (B1 ++ Blk a sz' Free :: B2') ∧
       sz ≤ sz' ∧ same_used B2' B2 ∧ settled B2') s.
Proof.
  intros Hr Hset C1 C2 C3. assert (Blk a sz Free ∈ B1 ++ Blk a sz Free :: B2) as Hb by set_solver.
  pose proof (head_not_block _ _ _ _ Hr Hb) as (Hh & Hlo & Hmin & Hhi & Htop). cbn in Hh, Hlo, Hmin, Hhi.
  pose proof heap_pos. pose proof heap_top. unfold SZ_16M in *.
  assert (heap_rep s ((B1 ++ [Blk a sz Free]) ++ B2) F) as Hr' by by rewrite <- app_assoc.
  destruct (after_type _ _ _ _ Hr' Hset) as (ty & Ety & Hty).
  destruct (rep_blocks _ _ _ Hr _ Hb) as [Esz _]. cbn in Esz.
  apply wp_bind. eapply wp_get; [exact Ety |].
  apply wp_bind. apply (wp_mono _ (λ v s', s' = s ∧ (ty = ARENA_TYPE_FREE → v = sz))).
  { destruct (Z.eqb_spec ty ARENA_TYPE_FREE); [by eapply wp_get | by apply wp_ret]. }
  intros v s1 [-> Hv].
  destruct (Z.eqb_spec ty ARENA_TYPE_FREE) as [Efree|Hne]; cbn [andb];
    [destruct (Z.eqb_spec (u32 (a + v)) (after malloc_head (addrs B2))) as [Etouch|Hnt] |].
  - rewrite (Hv Efree) in *. destruct (proj1 Hty Efree) as (b & Hhd & Hfree).
    destruct B2 as [|[b' bs bt] B2]; [done |]. cbn in Hhd. simplify_eq. cbn in Hfree. subst bt.
    cbn [fmap list_fmap after List.hd b_addr] in *. rewrite u32_small in Etouch by lia.
    assert (Blk b' bs Free ∈ B1 ++ Blk a sz Free :: Blk b' bs Free :: B2) as Hb' by set_solver.
    pose proof (head_not_block _ _ _ _ Hr Hb') as (_ & _ & Hmin' & Hhi' & _). cbn in Hmin', Hhi'.
    destruct (rep_blocks _ _ _ Hr _ Hb') as [Esz' _]. cbn in Esz'.
    destruct (rep_free_split _ _ _ _ _ Hr Hb') as (F1 & F2 & ->).
    destruct (rep_links _ _ _ _ _ Hr') as [Ln Lp]. cbn in Ln, Lp.
    destruct (chain_links _ _ _ _ _ _ (rep_free _ _ _ Hr)) as (Fn & Fp & _).
    rewrite fmap_app in Lp. change (addrs [Blk a sz Free]) with [a] in Lp. rewrite before_snoc in Lp.
    apply wp_bind, wp_bind. eapply wp_get; [exact Esz' |]. rewrite (u32_small (sz + bs)) by lia.
    unfold remove_from_chains, remove_from_free_chain, remove_from_main_chain. heap_steps.
    eapply wp_get; [exact Fp |]. heap_steps. eapply wp_get; [exact Fn |]. heap_steps.
    eapply wp_get; [exact Lp |]. heap_steps. eapply wp_get; [exact Ln |]. heap_steps.
    split; [done |]. exists B2, (sz + bs), (F1 ++ F2). split; [|split; [done |]].
    + eapply (absorb_rep s _ B1 a sz b' bs Free B2 (F1 ++ b' :: F2)); try done.
      * eapply chain_remove; [apply (rep_free _ _ _ Hr) | |]; intros q _; cbn; rewrite lookup_insert;
          repeat case_decide; congruence.
      * intros q. destruct (rep_free _ _ _ Hr) as [Hnd _]. apply NoDup_cons in Hnd as [_ Hnd].
        rewrite <- Permutation_middle in Hnd. apply NoDup_cons in Hnd as [Hnd _]. set_solver.
    + apply coalesced_cons in C2 as [C4 C2]. split_and!.
      * apply coalesced_middle. split_and!; try done. intros b2 Hb2 (T1 & T2 & T3).
        apply (C4 b2 Hb2). split_and!; [done | done |]. cbn in *. lia.
      * lia.
      * intros q k. rewrite elem_of_cons. naive_solver congruence.
      * intros b Hin. apply Hset. set_solver.
  - apply wp_bind, wp_ret, wp_ret. split; [done |]. exists B2, sz, F. split_and!; try done.
    apply coalesced_middle. split_and!; try done. intros b2 Hb2 (T1 & T2 & T3). apply Hnt.
    rewrite (Hv Efree), u32_small by lia. destruct B2; [done |]. cbn in *. by simplify_eq.
  - apply wp_bind, wp_ret, wp_ret. split; [done |]. exists B2, sz, F. split_and!; try done.
    apply coalesced_middle. split_and!; try done. intros b2 Hb2 (T1 & T2 & T3). apply Hne, Hty. eauto.
Qed.

Lemma push_free_spec s B1 a sz t B2 F :
  heap_rep s (B1 ++ Blk a sz t :: B2) F → t ≠ Free →
  wp (put a_type a ARENA_TYPE_FREE ;;
      let* first := get next_free malloc_head in
      put next_free a first ;;
      put prev_free a malloc_head ;;
      put next_free malloc_head a ;;
      let* first := get next_free a in
      put prev_free first a ;;
      ret a)
    (λ r s', r = a ∧ current_brk s' = current_brk s ∧ ∃ F', heap_rep s' (B1 ++ Blk a sz Free :: B2) F') s.
Proof.
  intros Hr Ht. assert (a ≠ malloc_head) as Hh
    by (apply (head_not_block _ _ _ (Blk a sz t) Hr), elem_of_app; right; left).
  pose proof (proj1 (chain_cut _ _ _ [] F) (rep_free _ _ _ Hr)) as (_ & _ & [Hfirst _] & _).
  cbn [before List.last] in Hfirst. heap_steps. eapply wp_get; [exact Hfirst |]. heap_steps.
  eapply wp_get; [cbn; rewrite lookup_insert_ne, lookup_insert_eq by done; done |]. heap_steps.
  split_and!; [done | done |]. exists (a :: F).
  eapply (listed_rep s _ B1 a sz t B2 F); try done. by intros f [->|[->| ->]].
Qed.

(** The first half of [__free_block]: the block goes to the free block before it,
    or to the front of the free list. *)
Lemma merge_left_spec s B1 a sz t B2 F :
  heap_rep s (B1 ++ Blk a sz t :: B2) F → t ≠ Free → settled B1 → coalesced B1 →
  wp (let* ptype := get a_type (before malloc_head (addrs B1)) in
      let* psize := (if ptype =? ARENA_TYPE_FREE then get a_size (before malloc_head (addrs B1)) else ret 0) in
      if (ptype =? ARENA_TYPE_FREE) && (u32 (before malloc_head (addrs B1) + psize) =? a) then
        let* size := get a_size a in
        put a_size (before malloc_head (addrs B1)) (psize +u size) ;;
        put a_next (before malloc_head (addrs B1)) (after malloc_head (addrs B2)) ;;
        put a_prev (after malloc_head (addrs B2)) (before malloc_head (addrs B1)) ;;
        ret (before malloc_head (addrs B1))
      else
        put a_type a ARENA_TYPE_FREE ;;
        let* first := get next_free malloc_head in
        put next_free a first ;;
        put prev_free a malloc_head ;;
        put next_free malloc_head a ;;
        let* first := get next_free a in
        put prev_free first a ;;
        ret a)
    (freed_left s B1 a sz B2) s.
Proof.
  intros Hr Ht Hset C1. assert (Blk a sz t ∈ B1 ++ Blk a sz t :: B2) as Hb by set_solver.
  pose proof (head_not_block _ _ _ _ Hr Hb) as (Hh & Hlo & Hmin & Hhi & Htop). cbn in Hh, Hlo, Hmin, Hhi.
  pose proof heap_pos. pose proof heap_top. unfold SZ_16M in *.
  destruct (before_type _ _ _ _ Hr Hset) as (ty & Ety & Hty).
  destruct (rep_blocks _ _ _ Hr _ Hb) as [Esz _]. cbn in Esz.
  apply wp_bind. eapply wp_get; [exact Ety |].
  apply wp_bind. apply (wp_mono _ (λ v s', s' = s ∧ ∀ b, last B1 = Some b → b_tag b = Free → v = b_size b)).
  { destruct (Z.eqb_spec ty ARENA_TYPE_FREE) as [E|E].
    - destruct (proj1 Hty E) as (b & Hl & Hf). apply last_Some in Hl as [B1' ->].
      eapply wp_get.
      + rewrite fmap_app. change (addrs [b]) with [b_addr b]. rewrite before_snoc.
        apply (rep_blocks _ _ _ Hr). set_solver.
      + split; [done |]. intros b'. rewrite last_snoc. intros. by simplify_eq.
    - apply wp_ret. split; [done |]. intros b Hl Hf. destruct E. apply Hty. eauto. }
  intros v s1 [-> Hv].
  destruct (Z.eqb_spec ty ARENA_TYPE_FREE) as [E|E]; cbn [andb];
    [destruct (Z.eqb_spec (u32 (before malloc_head (addrs B1) + v)) a) as [Etouch|Hnt] |].
  - destruct (proj1 Hty E) as ([p ps pt] & Hl & Hf). rewrite (Hv _ Hl Hf) in *. cbn in Hf. subst pt.
    apply last_Some in Hl as [B1' ->]. rewrite fmap_app in *.
    change (addrs [Blk p ps Free]) with [p] in *. rewrite before_snoc in *. cbn [b_size] in *.
    rewrite <- app_assoc in Hr. cbn [app] in Hr.
    assert (Blk p ps Free ∈ B1' ++ Blk p ps Free :: Blk a sz t :: B2) as Hp by set_solver.
    pose proof (head_not_block _ _ _ _ Hr Hp) as (_ & Hlo' & Hmin' & Hhi' & _). cbn in Hlo', Hmin', Hhi'.
    rewrite u32_small in Etouch by lia.
    heap_steps. eapply wp_get; [exact Esz |]. heap_steps. rewrite (u32_small (ps + sz)) by lia.
    apply coalesced_snoc in C1 as [C2 C1].
    exists B1', (ps + sz), F. split_and!; try done; try lia.
    + eapply (absorb_rep s _ B1' p ps a sz t B2 F); try done; [apply (rep_free _ _ _ Hr) |].
      intros q. split; [|naive_solver]. intros Hq. split; [done |]. intros ->.
      apply (rep_listed _ _ _ Hr) in Hq as [k Hk].
      change (B1' ++ Blk p ps Free :: Blk a sz t :: B2) with (B1' ++ [Blk p ps Free] ++ Blk a sz t :: B2) in *.
      rewrite app_assoc in *.
      assert (Blk a k Free ∈ (B1' ++ [Blk p ps Free]) ++ B2) as Hin by (eapply elem_elsewhere; [exact Hk | congruence]).
      by apply (other_addr _ _ _ _ _ _ Hr) in Hin.
    + intros q k. rewrite elem_of_app, list_elem_of_singleton. naive_solver congruence.
    + intros b Hin. apply Hset. set_solver.
  - eapply wp_mono; [by eapply push_free_spec |]. intros r s1 (-> & Hbrk & F' & Hr1).
    exists B1, sz, F'. split_and!; try done; try lia.
    intros b1 Hl (T1 & T2 & T3). apply Hnt. rewrite (Hv _ Hl T1). apply last_Some in Hl as [B1' ->].
    rewrite fmap_app. change (addrs [b1]) with [b_addr b1]. rewrite before_snoc. cbn in T3. rewrite T3.
    apply u32_small. lia.
  - eapply wp_mono; [by eapply push_free_spec |]. intros r s1 (-> & Hbrk & F' & Hr1).
    exists B1, sz, F'. split_and!; try done; try lia.
    intros b1 Hl (T1 & T2 & T3). apply E, Hty. eauto.
Qed.

(** [__free_block] makes a block free and leaves no two free blocks touching. *)
Lemma free_block_spec s B1 a sz t B2 F :
  heap_rep s (B1 ++ Blk a sz t :: B2) F → t ≠ Free → settled B1 → settled B2 →
  coalesced (B1 ++ Blk a sz t :: B2) →
  wp (__free_block a)
    (λ r s', ∃ B1' sz' B2' F', heap_rep s' (B1' ++ Blk r sz' Free :: B2') F' ∧
       current_brk s' = current_brk s ∧ coalesced (B1' ++ Blk r sz' Free :: B2') ∧
       r ≤ a ∧ a + sz ≤ r + sz' ∧ same_used (B1' ++ B2') (B1 ++ B2) ∧ settled B1' ∧ settled B2') s.
Proof.
  intros Hr Ht Hset1 Hset2 (C1 & C2 & _)%coalesced_middle.
  destruct (rep_links _ _ _ _ _ Hr) as [Ln Lp]. cbn in Ln, Lp.
  unfold __free_block. apply wp_bind. eapply wp_get; [exact Lp |].
  apply wp_bind. eapply wp_get; [exact Ln |].
  pose proof (merge_left_spec _ _ _ _ _ _ _ Hr Ht Hset1 C1) as Hleft.
  apply wp_bind_inv in Hleft. apply wp_bind. eapply wp_mono; [exact Hleft |]. intros ptype s0 Hleft0.
  apply wp_bind_inv in Hleft0. apply wp_bind. eapply wp_mono; [exact Hleft0 |]. intros psize s1 Hleft1.
  apply wp_bind. eapply wp_mono; [exact Hleft1 |].
  intros ah s2 (B1' & sz1 & F1 & Hr1 & Hbrk1 & C3 & C4 & Hle & Hend & Hused & Hset3).
  eapply wp_mono; [by eapply merge_right_spec |].
  intros r s3 (-> & B2' & sz2 & F2 & Hr2 & Hbrk2 & C5 & Hsz & Hused2 & Hset4).
  exists B1', sz2, B2', F2. split_and!; try done; try lia.
  intros q k. by rewrite !elem_of_app, (Hused q k), (Hused2 q k).
Qed.

(** ** Search *)

Lemma chain_fuel s B F : heap_rep s B F → (length F < S (map_size (arena s a_type)))%nat.
Proof.
  intros Hr. destruct (rep_free _ _ _ Hr) as [Hnd _]. apply NoDup_cons in Hnd as [_ Hnd].
  rewrite <- (size_list_to_set (C := gset Z)) by done. unfold map_size.
  assert (list_to_set F ⊆ dom (arena s a_type)) as Hsub.
  { intros p Hp. apply elem_of_list_to_set, (rep_listed _ _ _ Hr) in Hp as [n Hn].
    destruct (rep_blocks _ _ _ Hr _ Hn) as [_ Ht]. apply elem_of_dom. cbn in Ht. eauto. }
  apply subseteq_size in Hsub. rewrite size_dom in Hsub. unfold size in *. unfold map_size in Hsub. lia.
Qed.

Lemma find_fit_spec s B F n F0 F' fuel :
  heap_rep s B F → F = F0 ++ F' → (length F' < fuel)%nat →
  wp (find_fit fuel (after malloc_head F') n)
    (λ r s', s' = s ∧
       match r with
       | Some fp => ∃ k, Blk fp k Free ∈ B ∧ n ≤ k
       | None => ∀ p k, p ∈ F' → Blk p k Free ∈ B → k < n
       end) s.
Proof.
  intros Hr. revert F0 fuel. induction F' as [|p F' IH]; intros F0 fuel EF Hf;
    (destruct fuel as [|fuel]; [cbn in Hf; lia |]); cbn [find_fit after List.hd]; apply wp_bind.
  - eapply wp_get; [apply (rep_head _ _ _ Hr) |]. apply wp_ret. split; [done |]. set_solver.
  - assert (p ∈ F) as Hp by set_solver. apply (rep_listed _ _ _ Hr) in Hp as [k Hk].
    destruct (rep_blocks _ _ _ Hr _ Hk) as [Hs Ht]. cbn in Hs, Ht.
    eapply wp_get; [exact Ht |]. cbn [Z.eqb Pos.eqb ARENA_TYPE_FREE ARENA_TYPE_HEAD].
    apply wp_bind. eapply wp_get; [exact Hs |]. destruct (Z.geb_spec k n).
    { apply wp_ret. split; [done |]. exists k. split; [done | lia]. }
    apply wp_bind. pose proof (rep_free _ _ _ Hr) as Hc. rewrite EF in Hc.
    apply chain_links in Hc as (Hn & _). eapply wp_get; [exact Hn |].
    eapply wp_mono; [apply (IH (F0 ++ [p])); [by rewrite <- app_assoc | cbn in Hf; lia] |].
    intros [fp|] s' [-> Hres]; (split; [done |]); [done |]. intros q j [->|Hq]%elem_of_cons Hj; [|eauto].
    destruct (rep_blocks _ _ _ Hr _ Hj) as [Hs' _]. cbn in Hs'. rewrite Hs in Hs'. simplify_eq. lia.
Qed.

(** New memory lies above all blocks: the search for its place ends at once. *)
Lemma find_place_spec s B1 B2 F fp fuel :
  heap_rep s (B1 ++ B2) F → settled B1 → (∀ b, b ∈ B1 → b_addr b < fp) →
  wp (find_place (S fuel) (before malloc_head (addrs B1)) fp)
    (λ r s', s' = s ∧ r = before malloc_head (addrs B1)) s.
Proof.
  intros Hr Hset Hlt. destruct B1 as [|b B1 _] using rev_ind; cbn [find_place]; apply wp_bind.
  - eapply wp_get; [apply (rep_head _ _ _ Hr) |]. by apply wp_ret.
  - destruct (before_type _ _ _ _ Hr Hset) as (ty & Ety & _). eapply wp_get; [exact Ety |].
    case_match; [by apply wp_ret |]. rewrite fmap_app. change (addrs [b]) with [b_addr b].
    rewrite before_snoc. rewrite (proj2 (Z.ltb_lt _ _)) by (apply Hlt; set_solver). by apply wp_ret.
Qed.

(** ** Growing and shrinking *)

Lemma align_up_32 p :
  0 ≤ p → p + 31 < 4294967296 →
  align_up p 32 mod 32 = 0 ∧ p ≤ align_up p 32 < p + 32.
Proof.
  intros Hp0 Hp1. unfold align_up. rewrite (u32_small (p + 32 - 1)) by lia.
  by apply (align_up_pow2 p 5); cbn; lia.
Qed.

Lemma s32_high z : 2147483648 ≤ z < 4294967296 → s32 z = z - 4294967296.
Proof.
  intros Hz. unfold s32. replace (z + 2147483648) with (z - 2147483648 + 1 * 4294967296) by lia.
  rewrite Z.mod_add, Z.mod_small by lia. lia.
Qed.

Lemma brk_in p : heap ≤ p < heap + SZ_16M → __brk p = p.
Proof.
  intros Hp. pose proof heap_pos. pose proof heap_top. unfold __brk, SZ_16M in *.
  rewrite (proj2 (Z.eqb_neq _ _)) by lia. destruct heap_half as [Hh|Hh]; unfold SZ_16M in *.
  - s32_simp. rewrite (proj2 (Z.ltb_ge _ _)) by lia.
    rewrite Z.geb_leb, (proj2 (Z.leb_gt _ _)) by lia. cbn [orb]. rewrite u32_small; lia.
  - rewrite !(s32_high p), !(s32_high heap) by lia.
    rewrite (s32_small (16777216 + _)), (s32_small (p - _ - _)) by lia.
    rewrite (proj2 (Z.ltb_ge _ _)) by lia. rewrite Z.geb_leb, (proj2 (Z.leb_gt _ _)) by lia. cbn [orb].
    rewrite u32_small; lia.
Qed.

Lemma brk_out p : heap + SZ_16M ≤ p < 4294967296 → __brk p = MINUS_ONE.
Proof.
  intros Hp. pose proof heap_pos. pose proof heap_top. unfold __brk, SZ_16M in *.
  rewrite (proj2 (Z.eqb_neq _ _)) by lia.
  assert ((s32 p <? s32 heap) || (s32 p >=? s32 (16777216 + s32 heap)) = true) as ->; [|done].
  destruct heap_half as [Hh|Hh]; unfold SZ_16M in *.
  - rewrite (s32_small heap), (s32_small (16777216 + heap)) by lia.
    destruct (decide (p < 2147483648)); [rewrite s32_small by lia | rewrite s32_high by lia]; lia.
  - rewrite (s32_high heap), (s32_small (16777216 + _)), (s32_high p) by lia. lia.
Qed.

(** [sbrk] extends the heap while it has room. *)
Lemma sbrk_spec s n :
  heap ≤ current_brk s < heap + SZ_16M → 0 < n → current_brk s + 31 + n < 4294967296 →
  wp (sbrk n)
    (λ r s', arena s' = arena s ∧
       let start := align_up (current_brk s) 32 in
       if start + n <? heap + SZ_16M
       then r = start ∧ current_brk s' = start + n
       else r = MINUS_ONE ∧ current_brk s' = current_brk s) s.
Proof.
  intros Hb Hn Hn'. pose proof heap_pos. pose proof heap_top. unfold SZ_16M in *.
  destruct (align_up_32 (current_brk s)) as [_ Ha]; [lia | lia |].
  unfold sbrk. apply wp_bind, (wp_intro _ _ _ s s); [done |].
  rewrite (proj2 (Z.eqb_neq (current_brk s) 0)) by lia. set (start := align_up (current_brk s) 32) in *.
  rewrite (u32_small (start + n)) by lia. apply wp_bind, (wp_intro _ _ _ tt (HeapState (arena s) (current_brk s))); [done |].
  destruct (Z.ltb_spec (start + n) (heap + 16777216)).
  - rewrite brk_in by (unfold SZ_16M; lia). rewrite (proj2 (Z.eqb_neq _ _)) by (unfold MINUS_ONE; lia).
    rewrite Z.ltb_irrefl. apply wp_bind, (wp_intro _ _ _ tt (HeapState (arena s) (start + n))); [done |].
    by apply wp_ret.
  - rewrite brk_out by (unfold SZ_16M; lia). cbn [Z.eqb]. rewrite Z.eqb_refl. by apply wp_ret.
Qed.

(** The type and size of a header that is on no list yet do not matter. *)
Lemma fresh_rep s B F s' fp :
  heap_rep s B F → fp ≠ malloc_head → (∀ b, b ∈ B → b_addr b ≠ fp) →
  current_brk s ≤ current_brk s' < heap + SZ_16M →
  (∃ v, arena s' a_type = <[fp := v]> (arena s a_type)) → (∃ v, arena s' a_size = <[fp := v]> (arena s a_size)) →
  (∀ f, f = a_next ∨ f = a_prev ∨ f = next_free ∨ f = prev_free → arena s' f = arena s f) →
  heap_rep s' B F.
Proof.
  intros [R1 R2 R3 R4 R5 R6 R7] Hh Hne Hbrk [v Ht] [v' Hs] Hsame.
  split; rewrite ?Hsame by auto; try done.
  - by rewrite Ht, lookup_insert_ne.
  - intros b Hb. rewrite Ht, Hs, !lookup_insert_ne by (symmetry; auto). by apply R4.
  - eapply layout_weaken; [| |exact R6]; lia.
  - lia.
Qed.

(** A new block above all others. *)
Lemma add_block_rep s B F s' fp n lim :
  heap_rep s B F → layout heap B lim → lim ≤ fp → block_wf (Blk fp n Limbo) →
  fp + n ≤ current_brk s' → current_brk s' < heap + SZ_16M →
  (∃ v, arena s' a_type = <[fp := v]> (arena s a_type)) → arena s' a_size = <[fp := n]> (arena s a_size) →
  arena s' a_next = <[before malloc_head (addrs B) := fp]> (<[fp := malloc_head]> (arena s a_next)) →
  arena s' a_prev = <[malloc_head := fp]> (<[fp := before malloc_head (addrs B)]> (arena s a_prev)) →
  arena s' next_free = arena s next_free → arena s' prev_free = arena s prev_free →
  heap_rep s' (B ++ [Blk fp n Limbo]) F.
Proof.
  intros Hr Hlay Hlim Hwf Hend Htop [v Ht] Hs Hn Hp Hnf Hpf. pose proof Hr as [R1 R2 R3 R4 R5 R6 R7].
  pose proof heap_pos. pose proof head_apart. pose proof (layout_le _ _ _ Hlay).
  assert (0 < n) by (destruct Hwf as (_ & ? & _); cbn in *; lia).
  assert (∀ b, b ∈ B → b_addr b ≠ fp) as Hne.
  { intros b Hb. pose proof (layout_in _ _ _ _ Hlay Hb) as (? & ? & _ & ? & _). lia. }
  assert (fp ≠ malloc_head) as Hh by lia.
  split.
  - rewrite fmap_app. change (addrs [Blk fp n Limbo]) with [fp]. rewrite Hn, Hp.
    apply (chain_insert (arena s a_next) (arena s a_prev)).
    + by rewrite app_nil_r.
    + rewrite app_nil_r, elem_of_cons, list_elem_of_fmap. intros [?|(b & E & Hb)]; [done |]. by apply (Hne b Hb).
    + intros q _. rewrite !lookup_insert. cbn [after List.hd]. repeat case_decide; congruence.
    + intros q _. rewrite !lookup_insert. cbn [after List.hd]. repeat case_decide; congruence.
  - by rewrite Hnf, Hpf.
  - by rewrite Ht, lookup_insert_ne.
  - intros b [Hb| ->%list_elem_of_singleton]%elem_of_app.
    + rewrite Hs, Ht, !lookup_insert_ne by (symmetry; auto). by apply R4.
    + rewrite Hs. cbn. by rewrite lookup_insert_eq.
  - intros q. rewrite R5. split; intros [k Hk]; exists k; rewrite elem_of_app, list_elem_of_singleton in *;
      naive_solver congruence.
  - apply layout_app. exists lim. split; [done |]. cbn. split_and!; [lia | done | lia].
  - done.
Qed.

Lemma round_size_spec n :
  0 < n ≤ MAX_REQUEST →
  round_size n mod 16 = 0 ∧ n + 16 ≤ round_size n < n + 32 ∧ 32 ≤ round_size n.
Proof.
  unfold MAX_REQUEST. intros Hn. unfold round_size, ARENA_SIZE_MASK, ARENA_HEADER_SIZE.
  rewrite (u32_small (n + 2 * 16)), (u32_small (n + 2 * 16 - 1)) by lia.
  replace (n + 2 * 16 - 1) with (n + 16 + 2 ^ 4 - 1) by lia. change (16 - 1) with (2 ^ 4 - 1).
  destruct (align_up_pow2 (n + 16) 4) as [Hm Hr]; [lia | lia | lia |]. change (2 ^ 4) with 16 in *.
  split; [done |]. split; [lia |].
  set (y := Z.land _ _) in *. pose proof (Z.div_mod y 16 ltac:(lia)). lia.
Qed.

Lemma chunk_size_spec n :
  32 ≤ n < 2147287072 →
  let c := Z.land (n +u MALLOC_CHUNK_MASK) (not32 MALLOC_CHUNK_MASK) in
  c mod 65536 = 0 ∧ n ≤ c < n + 65536.
Proof.
  intros Hn. unfold MALLOC_CHUNK_MASK, SZ_64K. rewrite u32_small by lia.
  replace (n + (65536 - 1)) with (n + 2 ^ 16 - 1) by lia. change (65536 - 1) with (2 ^ 16 - 1).
  apply (align_up_pow2 n 16); lia.
Qed.

(** The state between two calls: sorted, disjoint and coalesced blocks. *)
Definition heap_inv (s : heap_state) (B : list block) : Prop :=
  (∃ F, heap_rep s B F) ∧ coalesced B ∧ settled B.

Lemma taken_used a sz n q k :
  Blk q k Used ∈ taken a sz n ↔ q = a ∧ k = if sz >=? n + 32 then n else sz.
Proof. unfold taken. case_match; rewrite ?elem_of_cons, ?elem_of_nil; naive_solver. Qed.

Lemma taken_settled a sz n : settled (taken a sz n).
Proof. unfold settled, taken. case_match; set_solver. Qed.

(** [B'] has one more used block than [B], the [k] bytes at [a]. *)
Definition gains (B B' : list block) (a k : Z) : Prop :=
  (∀ j, Blk a j Used ∉ B) ∧
  ∀ q j, Blk q j Used ∈ B' ↔ Blk q j Used ∈ B ∨ (q = a ∧ j = k).

Lemma gains_used B1 B2 B' a k :
  (∀ q j, Blk q j Used ∈ B1 ↔ Blk q j Used ∈ B2) → gains B1 B' a k → gains B2 B' a k.
Proof.
  intros He [Hn Hg]. split; [intros j; rewrite <- He; apply Hn | intros q j; by rewrite <- He].
Qed.

(** Allocating from a free block, the step both paths of [xmalloc] end in. *)
Lemma malloc_from_block_inv s B1 a sz n B2 F :
  heap_rep s (B1 ++ Blk a sz Free :: B2) F → coalesced (B1 ++ Blk a sz Free :: B2) →
  settled B1 → settled B2 → 32 ≤ n → n mod 16 = 0 → n ≤ sz →
  wp (__malloc_from_block a n)
    (λ p s', p = a + 16 ∧ ∃ B' k, heap_inv s' B' ∧ n ≤ k ∧ gains (B1 ++ B2) B' a k) s.
Proof.
  intros Hr Hc S1 S2 Hn Hn16 Hsz. eapply wp_mono; [by eapply malloc_from_block_spec |].
  intros p s' (-> & _ & F' & Hr'). split; [done |].
  exists (B1 ++ taken a sz n ++ B2), (if sz >=? n + 32 then n else sz). split; [split; [eauto |] | split].
  - split; [by apply taken_coalesced |]. intros b. rewrite !elem_of_app.
    intros [Hb|[Hb|Hb]]; [by apply S1 | by apply (taken_settled a sz n) | by apply S2].
  - case_match; lia.
  - split; [|intros q j; rewrite !elem_of_app, taken_used; tauto].
    intros j Hj. by apply (other_addr _ _ _ _ _ _ Hr) in Hj.
Qed.

(** The rest of [xmalloc] once [sbrk] has given memory. *)
Lemma grow_spec s B F s1 fp fsize rn n fuel :
  heap_rep s B F → coalesced B → settled B → arena s1 = arena s →
  current_brk s ≤ fp → fp mod 32 = 0 → current_brk s1 = fp + fsize → fp + fsize < heap + SZ_16M →
  32 ≤ rn → rn mod 16 = 0 → rn ≤ fsize → fsize mod 65536 = 0 → n + 16 ≤ rn →
  wp (put a_type fp ARENA_TYPE_FREE ;;
      put a_size fp fsize ;;
      let* last := get a_prev malloc_head in
      let* pah := find_place (S fuel) last fp in
      let* pnext := get a_next pah in
      put a_next fp pnext ;;
      put a_prev fp pah ;;
      put a_next pah fp ;;
      let* fnext := get a_next fp in
      put a_prev fnext fp ;;
      let* fp := __free_block fp in
      __malloc_from_block fp rn)
    (λ p s', ∃ B' k, heap_inv s' B' ∧ n + 16 ≤ k ∧ gains B B' (p - 16) k) s1.
Proof.
  intros Hr Hc Hset Harena Hfp Hfp32 Hbrk Htop Hrn Hrn16 Hfit Hfs Hn.
  pose proof heap_pos. pose proof heap_top. pose proof head_apart.
  pose proof (layout_le _ _ _ (rep_layout _ _ _ Hr)) as Hlo.
  assert (∀ b, b ∈ B → b_addr b < fp) as Hlt.
  { intros b Hb. pose proof (layout_in _ _ _ _ (rep_layout _ _ _ Hr) Hb) as (? & ? & _ & ? & _). lia. }
  pose proof (chain_cut (arena s a_next) (arena s a_prev) malloc_head (addrs B) []) as Hcut.
  rewrite app_nil_r in Hcut. destruct (proj1 Hcut (rep_main _ _ _ Hr)) as (_ & _ & [Hnext Hprev] & _).
  cbn [after List.hd] in Hnext, Hprev. set (pah := before malloc_head (addrs B)) in *.
  assert (fp ≠ malloc_head) as Hh by (unfold SZ_16M in *; lia).
  assert (∀ b, b ∈ B → b_addr b ≠ fp) as Hne by (intros b Hb; specialize (Hlt b Hb); lia).
  assert (pah ≠ fp) as Hpah.
  { pose proof (before_in malloc_head (addrs B)) as Hin. fold pah in Hin.
    apply elem_of_cons in Hin as [Hin|Hin]; [congruence |].
    apply list_elem_of_fmap in Hin as (b & -> & Hb). by apply Hne. }
  heap_steps. eapply wp_get; [cbn; rewrite Harena; exact Hprev |]. apply wp_bind.
  eapply wp_mono.
  { eapply (find_place_spec _ B [] F); [|done |done]. rewrite app_nil_r.
    apply (fresh_rep s B F _ fp); try done; cbn; rewrite ?Harena; try lia; eauto.
    by intros f [->|[->|[->| ->]]]. }
  intros r s2 [-> ->]. fold pah. heap_steps. eapply wp_get; [cbn; rewrite Harena; exact Hnext |]. heap_steps.
  eapply wp_get; [cbn; rewrite lookup_insert_ne, lookup_insert_eq by done; done |].
  apply wp_bind, wp_put, wp_bind.
  eapply wp_mono.
  { eapply (free_block_spec _ B fp fsize Limbo []); [|done | done | by intros ? ?%elem_of_nil |].
    - apply (add_block_rep s B F _ fp fsize (current_brk s)); try done; cbn; rewrite ?Harena; try done; try lia; eauto.
      + apply (rep_layout _ _ _ Hr).
      + unfold block_wf. cbn. split_and!; [|lia|]; apply Z.mod_divide; try lia;
          (eapply Z.divide_trans; [|apply Z.mod_divide; [|eassumption]; lia]); [by exists 2 | by exists 4096].
    - apply coalesced_snoc. split; [|done]. intros ? _ (_ & ? & _). done. }
  intros r s3 (B1' & sz' & B2' & F' & Hr' & _ & Hc' & Hle & Hend & Hused & Hs1 & Hs2).
  eapply wp_mono; [eapply malloc_from_block_inv; [exact Hr' | done | done | done | done | done | lia] |].
  intros p s4 (-> & B' & k & Hinv & Hk & Hused'). exists B', k. split; [done |]. split; [lia |].
  replace (r + 16 - 16) with r by lia. eapply gains_used; [|done].
  intros q j. by rewrite (Hused q j), app_nil_r.
Qed.

Lemma xmalloc_spec s B n :
  heap_inv s B → 0 < n ≤ max_request →
  wp (xmalloc n)
    (λ p s', (p = 0 ∧ heap_inv s' B ∧
                (∀ q k, Blk q k Free ∈ B → k < n + 32) ∧ heap + SZ_16M < current_brk s + n + 65600) ∨
             (∃ B' k, heap_inv s' B' ∧ n + 16 ≤ k ∧ gains B B' (p - 16) k)) s.
Proof.
  intros ([F Hr] & Hc & Hset) Hn. pose proof heap_pos. pose proof heap_top.
  unfold max_request, SZ_64K in Hn. assert (0 < n ≤ MAX_REQUEST) as Hn' by lia. unfold MAX_REQUEST in Hn.
  destruct (round_size_spec n Hn') as (Hr16 & Hrn & Hr32). set (rn := round_size n) in *.
  unfold xmalloc. rewrite (proj2 (Z.eqb_neq n 0)) by lia. fold rn.
  apply wp_bind, (wp_intro _ _ _ s s); [done |].
  pose proof (proj1 (chain_cut _ _ _ [] F) (rep_free _ _ _ Hr)) as (_ & _ & [Hfirst _] & _).
  cbn [before List.last] in Hfirst. apply wp_bind. eapply wp_get; [exact Hfirst |].
  apply wp_bind. eapply wp_mono; [apply (find_fit_spec s B F rn [] F); [done | done | by eapply chain_fuel] |].
  intros [fp|] s' [-> Hfit].
  - destruct Hfit as (k & Hk & Hle). apply list_elem_of_split in Hk as (B1 & B2 & ->).
    eapply wp_mono.
    { eapply malloc_from_block_inv; [exact Hr | done | | | done | done | lia]; intros b Hb; apply Hset; set_solver. }
    intros p s' (-> & B' & k' & Hinv & Hk' & Hused). right. exists B', k'. split; [done |]. split; [lia |].
    replace (fp + 16 - 16) with fp by lia. eapply gains_used; [|done].
    intros q j. rewrite !elem_of_app, elem_of_cons. naive_solver congruence.
  - destruct (chunk_size_spec rn) as [Hc1 Hc2]; [lia |]. cbn zeta in Hc1, Hc2.
    set (fsize := Z.land _ _) in *. rewrite (s32_small fsize) by lia.
    pose proof (layout_le _ _ _ (rep_layout _ _ _ Hr)) as Hlo. pose proof (rep_brk _ _ _ Hr) as Htop.
    destruct (align_up_32 (current_brk s)) as [Ha16 Ha]; [lia | unfold SZ_16M in *; lia |].
    apply wp_bind. eapply wp_mono; [apply sbrk_spec; lia |]. intros fp s1 [Harena Hcase]. cbn zeta in Hcase.
    set (start := align_up (current_brk s) 32) in *.
    destruct (Z.ltb_spec (start + fsize) (heap + SZ_16M)) as [Hroom|Hfull]; destruct Hcase as [-> Hbrk].
    + rewrite (proj2 (Z.eqb_neq start MINUS_ONE)) by (unfold MINUS_ONE, SZ_16M in *; lia).
      apply (wp_mono _ (λ p s', ∃ B' k, heap_inv s' B' ∧ n + 16 ≤ k ∧ gains B B' (p - 16) k)); [|intros; by right].
      apply (grow_spec s B F s1 start fsize rn n); try done; lia.
    + rewrite Z.eqb_refl. apply wp_ret. left. split; [done |].
      assert (s1 = s) as -> by (destruct s1, s; cbn in *; congruence).
      split; [split; [eauto | done] |]. split; [|lia].
      intros q k Hk. enough (k < rn) by lia. apply (Hfit q k); [|done]. apply (rep_listed _ _ _ Hr). eauto.
Qed.

(** The last block leaves the heap, whose end moves down to it. *)
Lemma drop_block_rep s B a sz F1 F2 s' :
  heap_rep s (B ++ [Blk a sz Free]) (F1 ++ a :: F2) →
  current_brk s' = a → arena s' a_type = arena s a_type → arena s' a_size = arena s a_size →
  arena s' a_next = <[before malloc_head (addrs B) := malloc_head]> (arena s a_next) →
  arena s' a_prev = <[malloc_head := before malloc_head (addrs B)]> (arena s a_prev) →
  arena s' next_free = <[before malloc_head F1 := after malloc_head F2]> (arena s next_free) →
  arena s' prev_free = <[after malloc_head F2 := before malloc_head F1]> (arena s prev_free) →
  heap_rep s' B (F1 ++ F2).
Proof.
  intros Hr Hbrk Ht Hs Hn Hp Hnf Hpf. pose proof Hr as [R1 R2 R3 R4 R5 R6 R7].
  rewrite fmap_app in R1. change (addrs [Blk a sz Free]) with [a] in R1.
  assert (a ∉ F1 ++ F2) as Hna.
  { destruct R2 as [Hnd _]. apply NoDup_cons in Hnd as [_ Hnd]. rewrite <- Permutation_middle in Hnd.
    by apply NoDup_cons in Hnd as [? _]. }
  assert (∀ k, Blk a k Free ∉ B) as HaB.
  { intros k Hk. apply (other_addr s B (Blk a sz Free) [] _ (Blk a k Free) Hr); [|done]. by rewrite app_nil_r. }
  apply layout_app in R6 as (mid & L1 & L2 & (_ & L3 & _) & L4). cbn in L2, L3, L4.
  split.
  - rewrite <- (app_nil_r (addrs B)), Hn, Hp. eapply chain_remove; [exact R1 | |]; intros q _;
      rewrite lookup_insert; cbn [after List.hd]; repeat case_decide; congruence.
  - rewrite Hnf, Hpf. eapply chain_remove; [exact R2 | |]; intros q _; rewrite lookup_insert;
      repeat case_decide; congruence.
  - by rewrite Ht.
  - intros b Hb. rewrite Hs, Ht. apply R4. set_solver.
  - intros q. specialize (R5 q). destruct (decide (q = a)) as [->|Hq].
    + split; [done |]. intros [k Hk]. by apply HaB in Hk.
    + transitivity (q ∈ F1 ++ a :: F2); [set_solver |]. rewrite R5.
      split; intros [k Hk]; exists k; rewrite elem_of_app, list_elem_of_singleton in *; naive_solver congruence.
  - rewrite Hbrk. eapply layout_weaken; [| |exact L1]; lia.
  - lia.
Qed.

Lemma xfree_spec s B a k :
  heap_inv s B → Blk a k Used ∈ B →
  wp (xfree (a + 16))
    (λ _ s', ∃ B', heap_inv s' B' ∧ ∀ q j, Blk q j Used ∈ B' ↔ Blk q j Used ∈ B ∧ q ≠ a) s.
Proof.
  intros ([F Hr] & Hc & Hset) Hin. pose proof (head_not_block _ _ _ _ Hr Hin) as (Hh & Hlo & Hmin & Hhi & Htop).
  cbn in Hh, Hlo, Hmin, Hhi. pose proof heap_pos. pose proof heap_top. unfold SZ_16M in *.
  apply list_elem_of_split in Hin as (B1 & B2 & ->).
  assert (∀ q j, Blk q j Used ∈ B1 ++ B2 ↔ Blk q j Used ∈ B1 ++ Blk a k Used :: B2 ∧ q ≠ a) as Hother.
  { intros q j. split.
    - intros Hq. split; [rewrite elem_of_app, elem_of_cons in *; tauto |].
      intros ->. by apply (other_addr _ _ _ _ _ _ Hr) in Hq.
    - intros [Hq Hqa]. eapply elem_elsewhere; [exact Hq | congruence]. }
  unfold xfree, ARENA_HEADER_SIZE. rewrite (proj2 (Z.eqb_neq (a + 16) 0)) by lia.
  replace (a + 16 - 16) with a by lia. rewrite (u32_small a) by lia. apply wp_bind. eapply wp_mono.
  { eapply free_block_spec; [exact Hr | done | | | done]; intros b Hb; apply Hset; set_solver. }
  intros r s1 (B1' & sz' & B2' & F' & Hr1 & Hbrk1 & Hc1 & Hle & Hend & Hused & S1 & S2).
  assert (Blk r sz' Free ∈ B1' ++ Blk r sz' Free :: B2') as Hb by (apply elem_of_app; right; left).
  pose proof (head_not_block _ _ _ _ Hr1 Hb) as (Hh1 & Hlo1 & Hmin1 & Hhi1 & Htop1). cbn in Hh1, Hlo1, Hmin1, Hhi1.
  destruct (rep_blocks _ _ _ Hr1 _ Hb) as [Esz _]. cbn in Esz.
  apply wp_bind. eapply wp_get; [exact Esz |]. apply wp_bind, (wp_intro _ _ _ s1 s1); [done |].
  unfold SZ_16M in *. rewrite (u32_small (r + sz')) by lia.
  destruct (Z.geb_spec sz' SZ_64K), (Z.eqb_spec (r + sz') (current_brk s1)) as [Elast|]; cbn [andb].
  2-4: apply wp_ret; exists (B1' ++ Blk r sz' Free :: B2'); split;
    [split; [by exists F' | split; [done |]] |];
    [intros b Hb'; rewrite elem_of_app, elem_of_cons in Hb'; destruct Hb' as [?|[->|?]]; [by apply S1 | done | by apply S2]
    | intros q j; rewrite <- Hother, <- (Hused q j), !elem_of_app, elem_of_cons; naive_solver congruence].
  assert (B2' = []) as ->.
  { destruct B2' as [|b B2']; [done |].
    pose proof (rep_layout _ _ _ Hr1) as HL.
    apply layout_app in HL as (mid & _ & _ & _ & L4 & (_ & L5 & _) & L6%layout_le). cbn in L4. lia. }
  destruct (rep_free_split _ _ _ _ _ Hr1 Hb) as (F1 & F2 & ->).
  destruct (rep_links _ _ _ _ _ Hr1) as [Ln Lp]. cbn in Ln, Lp.
  destruct (chain_links _ _ _ _ _ _ (rep_free _ _ _ Hr1)) as (Fn & Fp & _).
  apply wp_bind. unfold remove_from_chains, remove_from_free_chain, remove_from_main_chain. heap_steps.
  eapply wp_get; [exact Fp |]. heap_steps. eapply wp_get; [exact Fn |]. heap_steps.
  eapply wp_get; [exact Lp |]. heap_steps. eapply wp_get; [exact Ln |]. heap_steps.
  unfold brk. rewrite brk_in, Z.eqb_refl by (unfold SZ_16M; lia). cbn [negb].
  eapply wp_bind, wp_intro; [done |]. eapply wp_bind, wp_intro; [done |]. apply wp_ret, wp_ret.
  exists B1'. split; [split; [|split]|].
  - exists (F1 ++ F2). eapply (drop_block_rep s1); done.
  - by apply coalesced_middle in Hc1 as (? & _).
  - done.
  - intros q j. rewrite <- Hother, <- (Hused q j), app_nil_r. done.
Qed.

(** ** Owned memory *)

(** The headers determine the blocks. *)
Lemma heap_inv_unique s B B' : heap_inv s B → heap_inv s B' → B = B'.
Proof.
  intros ([F Hr] & _ & Hset) ([F' Hr'] & _ & Hset').
  pose proof (chain_unique _ _ _ _ _ (rep_main _ _ _ Hr) (rep_main _ _ _ Hr')) as Ea.
  assert (∀ b b', b ∈ B → b' ∈ B' → b_addr b = b_addr b' → b = b') as Hsame.
  { intros [a n t] [a' n' t'] Hb Hb' E. cbn in E. subst a'.
    destruct (rep_blocks _ _ _ Hr _ Hb) as [E1 T1]. destruct (rep_blocks _ _ _ Hr' _ Hb') as [E2 T2].
    specialize (Hset _ Hb). specialize (Hset' _ Hb'). cbn in *. rewrite E1 in E2. simplify_eq.
    f_equal. unfold type_ok, ARENA_TYPE_USED, ARENA_TYPE_FREE in *. destruct t, t'; congruence. }
  clear Hr Hr' Hset Hset'. revert B' Ea Hsame. induction B as [|b B IH]; intros [|b' B'] Ea Hsame; try done.
  cbn in Ea. injection Ea as E1 E2. f_equal; [apply Hsame; [left | left | done] |].
  apply IH; [done |]. intros c c' Hc Hc'. apply Hsame; by right.
Qed.

(** [s] has given out the [k] bytes at [p]. *)
Definition owned (s : heap_state) (p k : Z) : Prop :=
  ∃ B, heap_inv s B ∧ Blk (p - 16) (k + 16) Used ∈ B.

Lemma owned_iff s B p k : heap_inv s B → owned s p k ↔ Blk (p - 16) (k + 16) Used ∈ B.
Proof.
  intros HB. split; [|by exists B]. intros (B' & HB' & Hin). by rewrite (heap_inv_unique _ _ _ HB HB').
Qed.

(** A block and the header in front of it. *)
Lemma owned_range s p k :
  owned s p k → heap + 16 ≤ p ∧ 16 ≤ k ∧ p + k < heap + SZ_16M ∧ p mod 16 = 0.
Proof.
  intros (B & ([F Hr] & _) & Hin).
  pose proof (layout_in _ _ _ _ (rep_layout _ _ _ Hr) Hin) as (H1 & H2 & H3 & H4 & _).
  pose proof (rep_brk _ _ _ Hr). cbn in *. split_and!; try lia.
  replace p with (p - 16 + 1 * 16) by lia. by rewrite Z.mod_add by lia.
Qed.

Lemma owned_apart s p k q j :
  owned s p k → owned s q j → (p = q ∧ k = j) ∨ p + k ≤ q - 16 ∨ q + j ≤ p - 16.
Proof.
  intros (B & HB & Hp) Hq. apply (owned_iff _ _ _ _ HB) in Hq. destruct HB as ([F Hr] & _).
  apply list_elem_of_split in Hp as (B1 & B2 & ->).
  destruct (decide (Blk (q - 16) (j + 16) Used = Blk (p - 16) (k + 16) Used)) as [E|Hne].
  { injection E as E1 E2. left. lia. }
  assert (Blk (q - 16) (j + 16) Used ∈ B1 ++ B2) as Hin by by eapply elem_elsewhere.
  pose proof (layout_disjoint _ _ _ _ _ _ (rep_layout _ _ _ Hr) Hin). cbn in *. lia.
Qed.

Lemma heap_init_inv : heap_inv heap_init [].
Proof.
  split; [|split; [done | by intros ? ?%elem_of_nil]]. exists []. pose proof heap_pos. pose proof heap_top.
  assert (NoDup [malloc_head]) as Hnd by apply NoDup_singleton.
  split; cbn; try done; try (split; [done |]); cbn; rewrite ?lookup_singleton_eq; try done.
  - by intros b ?%elem_of_nil.
  - intros p. split; [by intros ?%elem_of_nil | by intros [n ?%elem_of_nil]].
  - unfold SZ_16M. lia.
Qed.
End operations.
