(* ===== verification/Allocator.v ===== *)
(** * What the heap promises

    The interface of an allocator, which the surface code is verified against,
    the proof that [malloc.c] implements it, and the properties of
    [malloc.c]. *)

From stdpp Require Import prelude gmap.
From Stdlib Require Import ZArith Lia.
From S2P Require Import Prelude Prog Malloc Chain Heap HeapOps.

Local Open Scope Z_scope.
Local Open Scope word_scope.

(** An allocator with state [S], which hands out parts of the [alloc_len] bytes
    at [alloc_base] for requests of at most [alloc_max] bytes.  [alloc_owns s p k]
    says that the [k] bytes at [p] belong to the caller. *)
Class Allocator (S : Type) := {
  alloc : Z → prog S Z;
  dealloc : Z → prog S unit;
  alloc_inv : S → Prop;
  alloc_owns : S → Z → Z → Prop;
  alloc_base : Z;
  alloc_len : Z;
  alloc_max : Z;
}.

Class AllocatorLaws (S : Type) `{Allocator S} : Prop := {
  alloc_law s n :
    alloc_inv s → 0 < n ≤ alloc_max →
    wp (alloc n)
      (λ p s', alloc_inv s' ∧
         ((p = 0 ∧ ∀ q j, alloc_owns s' q j ↔ alloc_owns s q j) ∨
          (∃ k, n ≤ k ∧ (∀ j, ¬ alloc_owns s p j) ∧
             ∀ q j, alloc_owns s' q j ↔ alloc_owns s q j ∨ (q = p ∧ j = k)))) s;
  dealloc_law s p k :
    alloc_inv s → alloc_owns s p k →
    wp (dealloc p)
      (λ _ s', alloc_inv s' ∧ ∀ q j, alloc_owns s' q j ↔ alloc_owns s q j ∧ q ≠ p) s;
  dealloc_null s : wp (dealloc 0) (λ _ s', s' = s) s;
  owns_range_law s p k :
    alloc_inv s → alloc_owns s p k →
    0 < p ∧ 0 < k ∧ p mod 16 = 0 ∧ alloc_base ≤ p ∧ p + k ≤ alloc_base + alloc_len;
  region_law : 0 < alloc_base ∧ alloc_base + alloc_len < 4294967296;
  max_law : 16711616 ≤ alloc_max ≤ MAX_REQUEST;
  owns_apart_law s p k q j :
    alloc_inv s → alloc_owns s p k → alloc_owns s q j →
    (p = q ∧ k = j) ∨ p + k ≤ q ∨ q + j ≤ p;
}.

(** Whether the allocator in state [s] has [n] bytes to give. *)
Definition granted {S : Type} `{Allocator S} (s : S) (n : Z) : bool :=
  match alloc n s with Some (p, _) => negb (p =? 0) | None => false end.

Section malloc_allocator.
Context `{HeapOk}.

#[export] Instance malloc_allocator : Allocator heap_state := {
  alloc := xmalloc;
  dealloc := xfree;
  alloc_inv s := ∃ B, heap_inv s B;
  alloc_owns := owned;
  alloc_base := heap;
  alloc_len := SZ_16M;
  alloc_max := max_request;
}.

Lemma gains_owned s s' B B' p k :
  heap_inv s B → heap_inv s' B' → gains B B' (p - 16) k →
  (∀ j, ¬ owned s p j) ∧ ∀ q j, owned s' q j ↔ owned s q j ∨ (q = p ∧ j = k - 16).
Proof.
  intros HB HB' [Hn Hg]. split; [intros j; rewrite (owned_iff _ B) by done; apply Hn |].
  intros q j. rewrite (owned_iff _ B'), (owned_iff _ B), Hg by done.
  split; (intros [?|[? ?]]; [by left | right; lia]).
Qed.

Lemma xmalloc_owned s n :
  (∃ B, heap_inv s B) → 0 < n ≤ max_request →
  wp (xmalloc n)
    (λ p s', (∃ B, heap_inv s' B) ∧
       ((p = 0 ∧ ∀ q j, owned s' q j ↔ owned s q j) ∨
        (∃ k, n ≤ k ∧ (∀ j, ¬ owned s p j) ∧
           ∀ q j, owned s' q j ↔ owned s q j ∨ (q = p ∧ j = k)))) s.
Proof.
  intros [B HB] Hn. eapply wp_mono; [by apply (xmalloc_spec s B) |].
  intros p s' [(-> & HB' & _)|(B' & k & HB' & Hk & Hused)].
  - split; [by exists B |]. left. split; [done |]. intros q j. by rewrite !(owned_iff _ B).
  - split; [by exists B' |]. right. exists (k - 16). split; [lia |]. by eapply gains_owned.
Qed.

Lemma xfree_owned s p k :
  owned s p k →
  wp (xfree p) (λ _ s', (∃ B, heap_inv s' B) ∧ ∀ q j, owned s' q j ↔ owned s q j ∧ q ≠ p) s.
Proof.
  intros (B & HB & Hin). replace p with (p - 16 + 16) at 1 by lia.
  eapply wp_mono; [by apply (xfree_spec s B (p - 16) (k + 16)) |].
  intros _ s' (B' & HB' & Hused). split; [by exists B' |]. intros q j.
  rewrite (owned_iff _ B'), (owned_iff _ B), Hused by done. split; (intros [? ?]; split; [done | lia]).
Qed.

#[export] Instance malloc_allocator_laws : AllocatorLaws heap_state.
Proof.
  split.
  - apply xmalloc_owned.
  - intros s p k _. apply xfree_owned.
  - intros s. by apply wp_ret.
  - intros s p k _ Ho. pose proof heap_pos. apply owned_range in Ho. cbn. lia.
  - pose proof heap_pos. pose proof heap_top. cbn. unfold SZ_16M in *. lia.
  - pose proof heap_top. cbn. unfold max_request, MAX_REQUEST, SZ_16M, SZ_64K in *. lia.
  - intros s p k q j _ H1 H2. pose proof (owned_apart _ _ _ _ _ H1 H2). lia.
Qed.

(** One call of the program that uses the heap. *)
Inductive heap_step : heap_state → heap_state → Prop :=
  | step_malloc s n p s' :
      0 < n ≤ max_request → xmalloc n s = Some (p, s') → heap_step s s'
  | step_free s p k s' :
      owned s p k → xfree p s = Some (tt, s') → heap_step s s'.

Lemma reachable_inv s : rtc heap_step heap_init s → ∃ B, heap_inv s B.
Proof.
  intros Hr. assert (∃ B, heap_inv heap_init B) as Hinit by (exists []; apply heap_init_inv).
  induction Hr as [s|s s1 s2 Hstep _ IH]; [done |]. apply IH. clear IH.
  destruct Hstep as [s n p s' Hn E|s p k s' Ho E].
  - pose proof (xmalloc_owned s n Hinit Hn) as Hw. unfold wp in Hw. rewrite E in Hw. apply Hw.
  - pose proof (xfree_owned s p k Ho) as Hw. unfold wp in Hw. rewrite E in Hw. apply Hw.
Qed.

(** ** The properties of [malloc.c] *)


(** C3: [xfree] of an owned pointer returns and takes exactly that block from
    the caller; every other block stays owned, with its address and size. *)
Theorem xfree_correct s p k :
  owned s p k →
  ∃ s', xfree p s = Some (tt, s') ∧ ∀ q j, owned s' q j ↔ owned s q j ∧ q ≠ p.
Proof.
  intros Ho. destruct (wp_elim _ _ _ (xfree_owned s p k Ho)) as ([] & s' & E & _ & Hs').
  by exists s'.
Qed.

(** C1: Whatever sequence of [xmalloc] and [xfree] calls the program makes from
    the initial state, the next call returns, and the regions it owns are
    aligned to 16 bytes, inside the static array, and pairwise disjoint with a
    header's room in front of each. *)
Theorem heap_reachable_safe s :
  rtc heap_step heap_init s →
  (∀ n, 0 < n ≤ max_request → is_Some (xmalloc n s)) ∧
  (∀ p k, owned s p k →
     is_Some (xfree p s) ∧ p mod 16 = 0 ∧ heap + ARENA_HEADER_SIZE ≤ p ∧ p + k ≤ heap + SZ_16M) ∧
  (∀ p k q j, owned s p k → owned s q j → p ≠ q →
     p + k ≤ q - ARENA_HEADER_SIZE ∨ q + j ≤ p - ARENA_HEADER_SIZE).
Proof.
  intros Hr%reachable_inv. unfold ARENA_HEADER_SIZE. split_and!.
  - intros n Hn. destruct (wp_elim _ _ _ (xmalloc_owned s n Hr Hn)) as (p & s' & -> & _). by eexists.
  - intros p k Ho. destruct (wp_elim _ _ _ (xfree_owned s p k Ho)) as (? & s' & -> & _).
    apply owned_range in Ho. split_and!; try lia. by eexists.
  - intros p k q j Hp Hq Hne. pose proof (owned_apart _ _ _ _ _ Hp Hq). lia.
Qed.
End malloc_allocator.

(** ** A concrete placement of the two static objects *)

(** Above the board's link address. *)
Definition example_layout : HeapLayout := {| heap := 0xc4000000; malloc_head := 0xc3f00000 |}.

#[local] Existing Instance example_layout.

#[local] Instance example_layout_ok : HeapOk.
Proof. split; cbn; unfold SZ_16M; lia. Qed.

Lemma example_request n : 0 < n ≤ 939458496 → 0 < n ≤ max_request.
Proof. change max_request with 989790144. lia. Qed.


(** The state after [xmalloc(100)]. *)
Definition example_heap : heap_state :=
  match xmalloc 100 heap_init with Some (_, s) => s | None => heap_init end.

Lemma example_heap_owned : owned example_heap (heap + 16) 112.
Proof.
  assert (∃ B, heap_inv heap_init B) as Hinit by (exists []; apply heap_init_inv).
  destruct (wp_elim _ _ _ (xmalloc_owned heap_init 100 Hinit ltac:(by apply example_request)))
    as (p & s' & E & _ & Hs').
  assert (fst <$> xmalloc 100 heap_init = Some (heap + 16)) as Ep by by vm_compute.
  assert (arena example_heap a_size !! heap = Some 128) as Es by by vm_compute.
  unfold example_heap in *. rewrite E in Ep, Es |- *. cbn in Ep. injection Ep as ->.
  destruct Hs' as [[? _]|(k & Hk & _ & Hs')]; [done |].
  assert (owned s' (heap + 16) k) as Ho by (apply Hs'; by right).
  enough (k = 112) by by subst. destruct Ho as (B & ([F Hr] & _) & Hin).
  destruct (rep_blocks _ _ _ Hr _ Hin) as [Ek _]. cbn [b_addr b_size] in Ek.
  replace (heap + 16 - 16) with heap in Ek by lia. rewrite Es in Ek. injection Ek as Ek. lia.
Qed.

Lemma xfree_correct_witness :
  owned example_heap (heap + 16) 112 ∧
  ∃ s', xfree (heap + 16) example_heap = Some (tt, s') ∧
    ∀ q j, owned s' q j ↔ owned example_heap q j ∧ q ≠ heap + 16.
Proof. split; [apply example_heap_owned | apply (xfree_correct _ _ 112), example_heap_owned]. Defined.

Lemma example_heap_reachable : rtc heap_step heap_init example_heap.
Proof.
  apply rtc_once. unfold example_heap. destruct (xmalloc 100 heap_init) as [[p s]|] eqn:E.
  - apply (step_malloc _ 100 p); [by apply example_request | done].
  - exfalso. assert (is_Some (fst <$> xmalloc 100 heap_init)) as [? H] by (by vm_compute; eexists).
    by rewrite E in H.
Qed.

Lemma heap_reachable_safe_witness :
  is_Some (xmalloc 65536 example_heap) ∧ is_Some (xfree (heap + 16) example_heap).
Proof.
  destruct (heap_reachable_safe example_heap example_heap_reachable) as (Hm & Hf & _). split.
  - by apply Hm, example_request.
  - apply (Hf _ 112), example_heap_owned.
Defined.

(** The sizes above [max_request] are not handled: adding the header to a
    request of 4,294,967,295 bytes overflows to 16, and [xmalloc] returns a
    pointer, not NULL, to a block with no room: the header of the next, free,
    block is at the very address it returns. *)
Theorem xmalloc_overflow :
  wp (xmalloc 4294967295)
    (λ p s', p = heap + ARENA_HEADER_SIZE ∧
       arena s' a_size !! heap = Some ARENA_HEADER_SIZE ∧
       arena s' a_type !! heap = Some ARENA_TYPE_USED ∧
       arena s' a_next !! heap = Some p ∧ arena s' a_type !! p = Some ARENA_TYPE_FREE) heap_init.
Proof. vm_compute. done. Qed.

(** Nor is the request whose end is the end of the address space: [sbrk] calls
    [__brk] with NULL, which means "the start of the heap" there, and takes
    960 MB as granted without moving the end of the heap; the next request
    gets the same memory. *)
Theorem xmalloc_wraps :
  max_request < 0x3bffffe0 ∧
  wp (xmalloc 0x3bffffe0)
    (λ p s', p = heap + ARENA_HEADER_SIZE ∧ current_brk s' = heap ∧
       arena s' a_size !! heap = Some 0x3c000000 ∧
       wp (xmalloc 100) (λ q _, q = p) s') heap_init.
Proof. split; vm_compute; done. Qed.
