(* ===== verification/SurfaceAlloc.v ===== *)
(** * Allocation of surfaces: [surface.c]

    [surface_alloc], [surface_alloc_from_gimage] and [surface_free], against
    the interface [Allocator].  The state is the byte memory, the allocator's,
    and the surfaces by the address of their structure. *)

From stdpp Require Import prelude gmap.
From Stdlib Require Import ZArith Lia.
From S2P Require Import Prelude Prog Memory Rect Color Pixel Canvas Surface Malloc Heap HeapOps Allocator.

Local Open Scope Z_scope.
Local Open Scope word_scope.

(** ** The state *)

Record world (S : Type) := World {
  w_mem : mem;
  w_heap : S;
  w_surfaces : gmap Z surface_t;
}.
Arguments World {S}.
Arguments w_mem {S}.
Arguments w_heap {S}.
Arguments w_surfaces {S}.

Definition on_mem {S A} (c : prog mem A) : prog (world S) A := λ ω,
  match c (w_mem ω) with
  | Some (a, m) => Some (a, World m (w_heap ω) (w_surfaces ω))
  | None => None
  end.

Definition on_heap {S A} (c : prog S A) : prog (world S) A := λ ω,
  match c (w_heap ω) with
  | Some (a, h) => Some (a, World (w_mem ω) h (w_surfaces ω))
  | None => None
  end.

(** [*p], a fault if there is no surface at [p]. *)
Definition get_surface {S} (p : Z) : prog (world S) surface_t := λ ω,
  match w_surfaces ω !! p with Some s => Some (s, ω) | None => None end.

Definition put_surface {S} (p : Z) (s : surface_t) : prog (world S) unit := λ ω,
  Some (tt, World (w_mem ω) (w_heap ω) (<[p := s]> (w_surfaces ω))).

(** The structure at [p] ceases to exist. *)
Definition drop_surface {S} (p : Z) : prog (world S) unit := λ ω,
  Some (tt, World (w_mem ω) (w_heap ω) (delete p (w_surfaces ω))).

(** [sizeof(struct surface_t)] *)
Definition SURFACE_SIZE : Z := 84.

Record gimage := Gimage {
  g_width : Z;
  g_height : Z;
  g_bytes_per_pixel : Z;
  g_pixels : Z;
}.

(** ** The operations *)

Section operations.
Context {S : Type} `{Allocator S}.

(** What the bytes of a new [struct pixel_info] happen to hold: the generic
    format leaves them. *)
Variable uninit : pixel_info.

Definition surface_pitch (info : pixel_info) (w : Z) : Z :=
  let pitch := w *u bytes_per_pixel info in
  let pitch :=
    if bits_per_pixel info =? 1 then (pitch +u 7) / 8
    else if bits_per_pixel info =? 4 then (pitch +u 1) / 2
    else pitch in
  Z.land (pitch +u 3) (not32 3).

(** The [pixels] and [flag] fields, once they are known. *)
Definition set_pixels (s : surface_t) (pixels : Z) (flag : surface_pixels) : surface_t :=
  Surface (info s) (s_w s) (s_h s) (s_pitch s) flag pixels (s_clip s) (s_maps s).

(** The structure before its pixels are allocated: what no assignment has
    reached yet is arbitrary here, and no call reads it. *)
Definition surface_header (w h : Z) (fmt : pixel_format) : surface_t :=
  let info := set_pixel_info uninit fmt in
  let s := Surface info w h (surface_pitch info w) SURFACE_PIXELS_NEEDFREE 0 (Rect 0 0 0 0)
             (default (Maps None None None None None None None)
                (surface_set_maps (Some (Maps None None None None None None None))).2) in
  default s (surface_set_clip_rect (Some s) None).2.

(** When there is no memory for the pixels, the structure is passed to [free]
    of the boot loader's own heap, which it does not come from: undefined. *)
Definition surface_alloc (pixels w h : Z) (fmt : pixel_format) : prog (world S) Z :=
  if (w <=? 0) && (h <=? 0) then ret 0
  else
    let* surface := on_heap (alloc SURFACE_SIZE) in
    if surface =? 0 then ret 0
    else
      let s := surface_header w h fmt in
      if negb (pixels =? 0) then
        put_surface surface (set_pixels s pixels SURFACE_PIXELS_DONTFREE) ;;
        ret surface
      else
        let size := s_h s *u s_pitch s in
        let* pixels := on_heap (alloc size) in
        if pixels =? 0 then fault
        else
          on_mem (memset pixels 255 size) ;;
          put_surface surface (set_pixels s pixels SURFACE_PIXELS_NEEDFREE) ;;
          ret surface.

Definition surface_alloc_from_gimage (image : option gimage) : prog (world S) Z :=
  match image with
  | None => ret 0
  | Some image =>
      if g_bytes_per_pixel image =? 3 then
        surface_alloc (g_pixels image) (g_width image) (g_height image) PIXEL_FORMAT_BGR_888
      else if g_bytes_per_pixel image =? 4 then
        surface_alloc (g_pixels image) (g_width image) (g_height image) PIXEL_FORMAT_ABGR_8888
      else ret 0
  end.

Definition surface_free (surface : Z) : prog (world S) unit :=
  if surface =? 0 then ret tt
  else
    let* s := get_surface surface in
    (if negb (s_pixels s =? 0) && bool_decide (s_flag s = SURFACE_PIXELS_NEEDFREE)
     then on_heap (dealloc (s_pixels s)) else ret tt) ;;
    on_heap (dealloc surface) ;;
    drop_surface surface.
End operations.

(** ** Rules for the lifted programs *)

Lemma wp_on_mem {S A} (c : prog mem A) (Q : A → world S → Prop) ω :
  wp c (λ a m, Q a (World m (w_heap ω) (w_surfaces ω))) (w_mem ω) → wp (on_mem c) Q ω.
Proof. unfold wp, on_mem. by destruct (c (w_mem ω)) as [[a m]|]. Qed.

Lemma wp_on_heap {S A} (c : prog S A) (Q : A → world S → Prop) ω :
  wp c (λ a h, Q a (World (w_mem ω) h (w_surfaces ω))) (w_heap ω) → wp (on_heap c) Q ω.
Proof. unfold wp, on_heap. by destruct (c (w_heap ω)) as [[a h]|]. Qed.

Lemma on_heap_eq {S A} (c : prog S A) ω a h :
  c (w_heap ω) = Some (a, h) → on_heap c ω = Some (a, World (w_mem ω) h (w_surfaces ω)).
Proof. unfold on_heap. by intros ->. Qed.

Lemma wp_get_surface {S} p s (Q : surface_t → world S → Prop) ω :
  w_surfaces ω !! p = Some s → Q s ω → wp (get_surface p) Q ω.
Proof. unfold wp, get_surface. by intros ->. Qed.

(** ** The invariant *)

Section correctness.
Context {S : Type} `{AllocatorLaws S}.
Implicit Types (ω : world S) (p q : Z) (s t : surface_t).

Definition owns ω p k : Prop := alloc_owns (w_heap ω) p k.

(** The pixels of a surface are its own. *)
Definition needfree s : Prop := s_flag s = SURFACE_PIXELS_NEEDFREE.

(** The heap is valid and its bytes exist; every structure is in a block of its
    own, and so are the pixels of every surface that is to free them. *)
Record world_ok ω : Prop := {
  wo_heap : alloc_inv (w_heap ω);
  wo_bytes : bytes_ok (w_mem ω);
  wo_mapped : mapped (w_mem ω) alloc_base alloc_len;
  wo_surface p s : w_surfaces ω !! p = Some s → ∃ k, owns ω p k ∧ SURFACE_SIZE ≤ k;
  wo_pixels p s : w_surfaces ω !! p = Some s → needfree s →
    ∃ k, owns ω (s_pixels s) k ∧ s_h s * s_pitch s ≤ k;
  wo_apart p s : w_surfaces ω !! p = Some s → needfree s → w_surfaces ω !! s_pixels s = None;
  wo_inj p s q t : w_surfaces ω !! p = Some s → w_surfaces ω !! q = Some t →
    needfree s → needfree t → s_pixels s = s_pixels t → p = q;
}.

(** The block at [p] belongs to no surface. *)
Definition unused ω p : Prop :=
  w_surfaces ω !! p = None ∧
  ∀ q s, w_surfaces ω !! q = Some s → needfree s → s_pixels s ≠ p.

Lemma unowned_unused ω p : world_ok ω → (∀ k, ¬ owns ω p k) → unused ω p.
Proof.
  intros Hok Hno. split.
  - destruct (w_surfaces ω !! p) as [s|] eqn:E; [|done].
    destruct (wo_surface _ Hok _ _ E) as (k & Hk & _). by apply Hno in Hk.
  - intros q s E Hn <-. destruct (wo_pixels _ Hok _ _ E Hn) as (k & Hk & _). by apply Hno in Hk.
Qed.

(** More memory is owned. *)
Lemma world_ok_grow ω h :
  world_ok ω → alloc_inv h → (∀ q j, owns ω q j → alloc_owns h q j) →
  world_ok (World (w_mem ω) h (w_surfaces ω)).
Proof.
  intros [] Hh Hm. split; try done; cbn.
  - intros p s E. destruct (wo_surface0 p s E) as (k & ? & ?). exists k. split; [by apply Hm | done].
  - intros p s E Hn. destruct (wo_pixels0 p s E Hn) as (k & ? & ?). exists k. split; [by apply Hm | done].
Qed.

Lemma world_ok_mem ω m :
  world_ok ω → bytes_ok m → (∀ a, is_Some (w_mem ω !! a) → is_Some (m !! a)) →
  world_ok (World m (w_heap ω) (w_surfaces ω)).
Proof. intros [] Hb Hm. split; try done. intros a Ha. by apply Hm, wo_mapped0. Qed.

(** A surface is added. *)
Lemma world_ok_insert ω p s k :
  world_ok ω → owns ω p k → SURFACE_SIZE ≤ k → unused ω p →
  (needfree s → unused ω (s_pixels s) ∧ s_pixels s ≠ p ∧
     ∃ j, owns ω (s_pixels s) j ∧ s_h s * s_pitch s ≤ j) →
  world_ok (World (w_mem ω) (w_heap ω) (<[p := s]> (w_surfaces ω))).
Proof.
  intros Hok Hp Hk [Hu1 Hu2] Hs. destruct Hok. split; try done; cbn.
  - intros q t [[<- <-]|[_ E]]%lookup_insert_Some; [by exists k | by apply (wo_surface0 q t)].
  - intros q t [[<- <-]|[_ E]]%lookup_insert_Some Hn; [by apply Hs | by apply (wo_pixels0 q t)].
  - intros q t [[<- <-]|[_ E]]%lookup_insert_Some Hn.
    + destruct (Hs Hn) as ([? _] & ? & _). by rewrite lookup_insert_ne.
    + rewrite lookup_insert_ne by (symmetry; by eapply Hu2). by apply (wo_apart0 q t).
  - intros q t q' t' [[<- <-]|[_ E]]%lookup_insert_Some [[<- <-]|[_ E']]%lookup_insert_Some Hn Hn' Ee; try done.
    + destruct (Hs Hn) as ([_ Hu] & _). symmetry in Ee. by destruct (Hu _ _ E' Hn').
    + destruct (Hs Hn') as ([_ Hu] & _). by destruct (Hu _ _ E Hn).
    + by eapply wo_inj0.
Qed.

(** A surface and its blocks are given back. *)
Lemma world_ok_delete ω p s h :
  world_ok ω → w_surfaces ω !! p = Some s → alloc_inv h →
  (∀ q j, owns ω q j → q ≠ p → (needfree s → q ≠ s_pixels s) → alloc_owns h q j) →
  world_ok (World (w_mem ω) h (delete p (w_surfaces ω))).
Proof.
  intros Hok Hs Hh Hm. pose proof Hok as []. split; try done; cbn.
  - intros q t [Hne E]%lookup_delete_Some. destruct (wo_surface0 q t E) as (k & ? & ?).
    exists k. split; [|done]. apply Hm; [done | done |]. intros Hn ->.
    rewrite (wo_apart0 p s) in E by done. done.
  - intros q t [Hne E]%lookup_delete_Some Hn. destruct (wo_pixels0 q t E Hn) as (k & ? & ?).
    exists k. split; [|done]. apply Hm; [done | |].
    + intros Ep. pose proof (wo_apart0 q t E Hn). congruence.
    + intros Hn' Ep. by apply Hne, (wo_inj0 p s q t).
  - intros q t [Hne E]%lookup_delete_Some Hn. apply lookup_delete_None. right. by apply (wo_apart0 q t).
  - intros q t q' t' [Hne E]%lookup_delete_Some [Hne' E']%lookup_delete_Some. by apply wo_inj0.
Qed.

Variable uninit : pixel_info.

(** The surface [surface_alloc] makes. *)
Definition full_maps : surface_maps :=
  Maps (Some map_point_sw) (Some map_hline_sw) (Some map_vline_sw) (Some map_fill_sw)
       (Some map_blit_sw) (Some map_scale_sw) (Some map_rotate_sw).

Definition new_surface (w h : Z) (f : pixel_format) (flag : surface_pixels) (px : Z) : surface_t :=
  Surface (format_info f) w h (surface_pitch (format_info f) w) flag px (Rect 0 0 w h) full_maps.

Lemma header_eq w h f px flag :
  f ≠ PIXEL_FORMAT_GENERIC → 0 ≤ w < 536870912 → 0 ≤ h < 536870912 →
  set_pixels (surface_header uninit w h f) px flag = new_surface w h f flag px.
Proof.
  intros Hf Hw Hh. unfold surface_header. rewrite set_pixel_info_known by done. cbn. unfold new_surface, set_clip, set_pixels. cbn.
  by rewrite !s32_small by lia.
Qed.

Lemma format_bpp f :
  f ≠ PIXEL_FORMAT_GENERIC →
  1 ≤ bytes_per_pixel (format_info f) ≤ 4 ∧ 8 ≤ bits_per_pixel (format_info f).
Proof. intros Hf. by destruct f; cbn; try lia. Qed.

(** The rows hold their pixels and start at multiples of four bytes. *)
Lemma surface_pitch_spec f w :
  f ≠ PIXEL_FORMAT_GENERIC → 0 ≤ w < 536870912 →
  let n := w * bytes_per_pixel (format_info f) in
  surface_pitch (format_info f) w mod 4 = 0 ∧ n ≤ surface_pitch (format_info f) w < n + 4.
Proof.
  intros Hf Hw. destruct (format_bpp f Hf) as [Hk Hb]. cbn zeta. unfold surface_pitch.
  rewrite (proj2 (Z.eqb_neq _ 1)), (proj2 (Z.eqb_neq _ 4)) by lia.
  rewrite (u32_small (_ * _)), u32_small by nia.
  pose proof (align_up_pow2 (w * bytes_per_pixel (format_info f)) 2) as Ha. cbn zeta in Ha.
  change (2 ^ 2) with 4 in Ha. replace (_ + 4 - 1) with (w * bytes_per_pixel (format_info f) + 3) in Ha by lia.
  apply Ha; nia.
Qed.

Lemma new_surface_wf w h f flag px :
  f ≠ PIXEL_FORMAT_GENERIC → 0 ≤ w < 536870912 → 0 ≤ h < 536870912 → 0 < px →
  px + h * surface_pitch (format_info f) w < 4294967296 →
  surface_wf (new_surface w h f flag px).
Proof.
  intros Hf Hw Hh Hp Hb. destruct (format_bpp f Hf) as [Hk Hbits].
  destruct (surface_pitch_spec f w Hf Hw) as [Hm Hpi].
  split; unfold canvas_wf, clip_in; cbn [canvas_of new_surface cbase cpitch ck cw ch
    s_pixels s_pitch s_w s_h s_clip info rx ry rw rh]; try lia; done.
Qed.

(** [ω'] is [ω] with the surface [s] at [p], in blocks nobody owned, and its
    pixels white. *)
Record gains_surface ω ω' p s : Prop := {
  gs_ok : world_ok ω';
  gs_at : w_surfaces ω' = <[p := s]> (w_surfaces ω);
  gs_fresh k : ¬ owns ω p k;
  gs_fresh_px k : ¬ owns ω (s_pixels s) k;
  gs_owns : ∃ k1 k2, SURFACE_SIZE ≤ k1 ∧ s_h s * s_pitch s ≤ k2 ∧
    ∀ q j, owns ω' q j ↔ owns ω q j ∨ (q = p ∧ j = k1) ∨ (q = s_pixels s ∧ j = k2);
  gs_white : filled (w_mem ω) (w_mem ω') (s_pixels s) (s_h s * s_pitch s) 255;
  gs_wf : surface_wf s;
  gs_in : surface_in (w_mem ω') s;
}.

Lemma filled_bytes_ok m m' p n c : in_u8 c → bytes_ok m → filled m m' p n c → bytes_ok m'.
Proof. intros Hc Hm Hf a b Hb. rewrite Hf in Hb. case_decide; [by simplify_eq | by eapply Hm]. Qed.

Lemma filled_is_Some m m' p n c a : filled m m' p n c → is_Some (m !! a) → is_Some (m' !! a).
Proof. intros Hf Ha. rewrite Hf. by case_decide. Qed.

(** The state [surface_alloc] leaves, from what the two calls of the allocator
    and [memset] promise. *)
Lemma surface_gained ω w h f p px h1 h2 m' k1 k2 :
  let s := new_surface w h f SURFACE_PIXELS_NEEDFREE px in
  world_ok ω → f ≠ PIXEL_FORMAT_GENERIC → 0 < w < 536870912 → 0 < h < 536870912 →
  alloc_inv h1 → SURFACE_SIZE ≤ k1 → (∀ j, ¬ owns ω p j) →
  (∀ q j, alloc_owns h1 q j ↔ owns ω q j ∨ (q = p ∧ j = k1)) →
  alloc_inv h2 → s_h s * s_pitch s ≤ k2 → (∀ j, ¬ alloc_owns h1 px j) →
  (∀ q j, alloc_owns h2 q j ↔ alloc_owns h1 q j ∨ (q = px ∧ j = k2)) →
  filled (w_mem ω) m' px (s_h s * s_pitch s) 255 →
  gains_surface ω (World m' h2 (<[p := s]> (w_surfaces ω))) p s.
Proof using All.
  intros s Hok Hf Hw Hh Hi1 Hk1 Hf1 Ho1 Hi2 Hk2 Hf2 Ho2 Hfill. pose proof region_law as Hreg.
  assert (alloc_owns h2 px k2) as Hpx by (apply Ho2; by right).
  pose proof (owns_range_law _ _ _ Hi2 Hpx) as Hpxr.
  assert (∀ j, ¬ owns ω px j) as Hfpx by (intros j Hj; apply (Hf2 j), Ho1; by left).
  assert (p ≠ px) as Hne by (intros ->; apply (Hf2 k1), Ho1; by right).
  assert (bytes_ok m') as Hm' by (eapply filled_bytes_ok; [|apply (wo_bytes _ Hok)|done]; done).
  assert (world_ok (World m' h2 (w_surfaces ω))) as Hok'.
  { apply (world_ok_mem (World (w_mem ω) h2 (w_surfaces ω))); [|done |].
    - apply world_ok_grow; [done | done |]. intros q j Hq. apply Ho2. left. apply Ho1. by left.
    - intros a. by apply (filled_is_Some _ _ _ _ _ _ Hfill). }
  split; try done.
  - apply (world_ok_insert (World m' h2 (w_surfaces ω)) p s k1); try done.
    + apply Ho2. left. apply Ho1. by right.
    + by apply (unowned_unused ω).
    + intros _. split; [by apply (unowned_unused ω) |]. split; [by apply not_eq_sym |]. exists k2. done.
  - exists k1, k2. split_and!; try done. intros q j. unfold owns at 1. cbn. rewrite Ho2, Ho1. tauto.
  - apply new_surface_wf; try done; try lia. cbn in Hk2. lia.
  - split; [done |]. intros a Ha. rewrite Hfill. rewrite decide_True by done. by eexists.
Qed.

Lemma surface_request : 0 < SURFACE_SIZE ≤ alloc_max.
Proof. pose proof max_law. unfold SURFACE_SIZE. lia. Qed.

Lemma surface_alloc_spec ω w h f :
  world_ok ω → f ≠ PIXEL_FORMAT_GENERIC → 0 < w < 536870912 → 0 < h < 536870912 →
  h * surface_pitch (format_info f) w ≤ alloc_max →
  match surface_alloc uninit 0 w h f ω with
  | Some (p, ω') =>
      (p = 0 ∧ alloc SURFACE_SIZE (w_heap ω) = Some (0, w_heap ω') ∧
         world_ok ω' ∧ w_mem ω' = w_mem ω ∧ w_surfaces ω' = w_surfaces ω ∧
         ∀ q j, owns ω' q j ↔ owns ω q j) ∨
      (0 < p ∧ ∃ px h1, alloc SURFACE_SIZE (w_heap ω) = Some (p, h1) ∧
         alloc (h * surface_pitch (format_info f) w) h1 = Some (px, w_heap ω') ∧
         gains_surface ω ω' p (new_surface w h f SURFACE_PIXELS_NEEDFREE px))
  | None =>
      ∃ p h1 h2, alloc SURFACE_SIZE (w_heap ω) = Some (p, h1) ∧ 0 < p ∧
        alloc (h * surface_pitch (format_info f) w) h1 = Some (0, h2)
  end.
Proof using All.
  intros Hok Hf Hw Hh Hsz. destruct (surface_pitch_spec f w Hf ltac:(lia)) as [Hp4 Hpi].
  destruct (format_bpp f Hf) as [Hk _]. set (pitch := surface_pitch (format_info f) w) in *.
  assert (0 < h * pitch) as Hsz0 by nia. pose proof max_law as Hmax. unfold MAX_REQUEST in Hmax.
  unfold surface_alloc. rewrite (proj2 (Z.leb_gt w 0)) by lia. cbn [andb Z.eqb negb].
  destruct (wp_elim _ _ _ (alloc_law (w_heap ω) SURFACE_SIZE (wo_heap _ Hok) surface_request))
    as (p & h1 & E1 & Hi1 & [[-> Ho1]|(k1 & Hk1 & Hf1 & Ho1)]).
  { unfold bind. rewrite (on_heap_eq _ _ _ _ E1). cbn. left. split_and!; try done.
    apply world_ok_grow; [done | done |]. intros q j. apply Ho1. }
  assert (alloc_owns h1 p k1) as Hp by (apply Ho1; by right).
  pose proof (owns_range_law _ _ _ Hi1 Hp) as Hpr.
  unfold bind at 1. rewrite (on_heap_eq _ _ _ _ E1). rewrite (proj2 (Z.eqb_neq p 0)) by lia.
  assert (s_h (surface_header uninit w h f) *u s_pitch (surface_header uninit w h f) = h * pitch) as ->.
  { unfold surface_header. rewrite set_pixel_info_known by done. cbn. fold pitch. rewrite u32_small; lia. }
  destruct (wp_elim _ _ _ (alloc_law h1 (h * pitch) Hi1 ltac:(lia)))
    as (px & h2 & E2 & Hi2 & [[-> Ho2]|(k2 & Hk2 & Hf2 & Ho2)]).
  { unfold bind. rewrite (on_heap_eq _ (World _ h1 _) _ _ E2). cbn. exists p, h1, h2. split_and!; [done | lia | done]. }
  assert (alloc_owns h2 px k2) as Hpx by (apply Ho2; by right).
  pose proof (owns_range_law _ _ _ Hi2 Hpx) as Hpxr. pose proof region_law as Hreg.
  assert (mapped (w_mem ω) px (h * pitch)) as Hm.
  { eapply mapped_sub; [apply (wo_mapped _ Hok) | lia | lia]. }
  destruct (wp_elim _ _ _ (memset_spec px 255 (h * pitch) (w_mem ω) ltac:(lia) ltac:(lia) ltac:(lia) Hm))
    as (r & m' & Em & _ & Hfill).
  unfold bind at 1. rewrite (on_heap_eq _ (World _ h1 _) _ _ E2). rewrite (proj2 (Z.eqb_neq px 0)) by lia.
  unfold bind, on_mem. cbn [w_mem w_heap w_surfaces]. rewrite Em.
  unfold put_surface, ret. cbn [w_mem w_heap w_surfaces]. rewrite header_eq by (done || lia).
  right. split; [lia |]. exists px, h1. split; [done |]. split; [done |]. by apply (surface_gained ω w h f p px h1 h2 m' k1 k2).
Qed.

(** With the pixels given, one block is allocated. *)
Lemma surface_alloc_given_spec ω px w h f :
  world_ok ω → f ≠ PIXEL_FORMAT_GENERIC → 0 < w < 536870912 → 0 < h < 536870912 → px ≠ 0 →
  wp (surface_alloc uninit px w h f)
    (λ p ω', world_ok ω' ∧ w_mem ω' = w_mem ω ∧
       ((p = 0 ∧ granted (w_heap ω) SURFACE_SIZE = false ∧
         w_surfaces ω' = w_surfaces ω ∧ ∀ q j, owns ω' q j ↔ owns ω q j) ∨
        (0 < p ∧ granted (w_heap ω) SURFACE_SIZE = true ∧ (∀ j, ¬ owns ω p j) ∧
         w_surfaces ω' = <[p := new_surface w h f SURFACE_PIXELS_DONTFREE px]> (w_surfaces ω) ∧
         ∃ k, SURFACE_SIZE ≤ k ∧ ∀ q j, owns ω' q j ↔ owns ω q j ∨ (q = p ∧ j = k)))) ω.
Proof using All.
  intros Hok Hf Hw Hh Hpx. unfold surface_alloc. rewrite (proj2 (Z.leb_gt w 0)) by lia. cbn [andb].
  destruct (wp_elim _ _ _ (alloc_law (w_heap ω) SURFACE_SIZE (wo_heap _ Hok) surface_request))
    as (p & h1 & E & Hi1 & Hcase).
  apply wp_bind, wp_on_heap, (wp_intro _ _ _ p h1); [done |]. unfold granted. rewrite E.
  destruct Hcase as [[-> Ho1]|(k1 & Hk1 & Hf1 & Ho1)].
  { apply wp_ret. split; [|split; [done | by left]]. apply world_ok_grow; [done | done |]. intros q j. apply Ho1. }
  assert (alloc_owns h1 p k1) as Hp by (apply Ho1; by right).
  pose proof (owns_range_law _ _ _ Hi1 Hp) as Hpr. rewrite (proj2 (Z.eqb_neq p 0)) by lia.
  rewrite (proj2 (Z.eqb_neq px 0)) by lia. cbn [negb]. rewrite header_eq by (done || lia).
  apply wp_bind. unfold wp at 1, put_surface. cbn [w_mem w_heap w_surfaces]. apply wp_ret.
  split; [|split; [done | right; split_and!; try done; [lia | by exists k1]]].
  apply (world_ok_insert (World (w_mem ω) h1 (w_surfaces ω)) p _ k1); try done.
  - apply world_ok_grow; [done | done |]. intros q j Hq. apply Ho1. by left.
  - by apply (unowned_unused ω).
Qed.

Lemma surface_free_spec ω p s :
  world_ok ω → w_surfaces ω !! p = Some s →
  wp (surface_free p)
    (λ _ ω', world_ok ω' ∧ w_mem ω' = w_mem ω ∧ w_surfaces ω' = delete p (w_surfaces ω) ∧
       ∀ q j, owns ω' q j ↔ owns ω q j ∧ q ≠ p ∧ (needfree s → q ≠ s_pixels s)) ω.
Proof using All.
  intros Hok Hs. destruct (wo_surface _ Hok _ _ Hs) as (k & Hk & Hsz). pose proof (wo_heap _ Hok) as Hi.
  pose proof (owns_range_law _ _ _ Hi Hk) as Hpr.
  unfold surface_free. rewrite (proj2 (Z.eqb_neq p 0)) by lia. apply wp_bind.
  eapply wp_get_surface; [done |]. apply wp_bind.
  apply (wp_mono _ (λ _ ω1, w_mem ω1 = w_mem ω ∧ w_surfaces ω1 = w_surfaces ω ∧ alloc_inv (w_heap ω1) ∧
    ∀ q j, owns ω1 q j ↔ owns ω q j ∧ (needfree s → q ≠ s_pixels s))).
  { case_bool_decide as Hn.
    - destruct (wo_pixels _ Hok _ _ Hs Hn) as (j & Hj & _). pose proof (owns_range_law _ _ _ Hi Hj).
      rewrite (proj2 (Z.eqb_neq _ 0)) by lia. apply wp_on_heap. eapply wp_mono; [by eapply dealloc_law |].
      intros _ h1 (Hi1 & Ho1). split_and!; try done. intros q i. unfold owns at 1. cbn. rewrite Ho1. tauto.
    - rewrite andb_false_r. apply wp_ret. split_and!; try done. intros q i. unfold needfree. tauto. }
  intros _ ω1 (Em & Es & Hi1 & Ho1). apply wp_bind, wp_on_heap.
  assert (owns ω1 p k) as Hk1.
  { apply Ho1. split; [done |]. intros Hn ->. by rewrite (wo_apart _ Hok _ _ Hs Hn) in Hs. }
  eapply wp_mono; [by apply (dealloc_law _ p k) |]. intros _ h2 (Hi2 & Ho2).
  unfold wp, drop_surface. cbn [w_mem w_heap w_surfaces]. rewrite Em, Es.
  assert (∀ q j, alloc_owns h2 q j ↔ owns ω q j ∧ q ≠ p ∧ (needfree s → q ≠ s_pixels s)) as Ho.
  { intros q j. rewrite Ho2. fold (owns ω1 q j). rewrite Ho1. tauto. }
  split_and!; try done. apply (world_ok_delete ω p s); try done. intros q j Hq Hqp Hqx. by apply Ho.
Qed.

(** ** Properties *)

(** C13: [surface_alloc] of a positive size, in a format the board knows, whose
    pixels are a request the allocator takes.  If the allocator refuses the
    structure, the result is NULL and nothing changes; if it gives the structure
    and the pixels, the result is a surface of that size and format in these two
    blocks that the drawing functions can work on ([surface_wf], [surface_in]),
    in memory nobody owned, with every pixel white and every other byte of
    memory as it was.  If it gives the structure and refuses the pixels, the
    behaviour is undefined, and that is the only case. *)
Theorem surface_alloc_correct ω w h f :
  world_ok ω → f ≠ PIXEL_FORMAT_GENERIC → 0 < w < 536870912 → 0 < h < 536870912 →
  h * surface_pitch (format_info f) w ≤ alloc_max →
  match surface_alloc uninit 0 w h f ω with
  | Some (p, ω') =>
      (p = 0 ∧ alloc SURFACE_SIZE (w_heap ω) = Some (0, w_heap ω') ∧
         world_ok ω' ∧ w_mem ω' = w_mem ω ∧ w_surfaces ω' = w_surfaces ω ∧
         ∀ q j, owns ω' q j ↔ owns ω q j) ∨
      (0 < p ∧ ∃ px h1, alloc SURFACE_SIZE (w_heap ω) = Some (p, h1) ∧
         alloc (h * surface_pitch (format_info f) w) h1 = Some (px, w_heap ω') ∧
         gains_surface ω ω' p (new_surface w h f SURFACE_PIXELS_NEEDFREE px))
  | None =>
      ∃ p h1 h2, alloc SURFACE_SIZE (w_heap ω) = Some (p, h1) ∧ 0 < p ∧
        alloc (h * surface_pitch (format_info f) w) h1 = Some (0, h2)
  end.
Proof using All. apply surface_alloc_spec. Qed.

(** C14: [surface_free] undoes [surface_alloc]: it returns, and afterwards the
    surfaces and the owned blocks are those from before the allocation, all of
    them still valid.  Nothing leaks and nothing else is given back. *)
Theorem surface_free_correct ω w h f p ω' :
  world_ok ω → f ≠ PIXEL_FORMAT_GENERIC → 0 < w < 536870912 → 0 < h < 536870912 →
  h * surface_pitch (format_info f) w ≤ alloc_max →
  surface_alloc uninit 0 w h f ω = Some (p, ω') →
  wp (surface_free p)
    (λ _ ω'', world_ok ω'' ∧ w_surfaces ω'' = w_surfaces ω ∧ ∀ q j, owns ω'' q j ↔ owns ω q j) ω'.
Proof using All.
  intros Hok Hf Hw Hh Hsz E. pose proof (surface_alloc_spec ω w h f Hok Hf Hw Hh Hsz) as Hspec.
  rewrite E in Hspec. destruct Hspec as [(-> & _ & ? & _ & ? & ?)|(Hp & px & h1 & _ & _ & [Hok' Es Hfr Hfrx (k1 & k2 & _ & _ & Ho) _ _ _])].
  { by apply wp_ret. }
  eapply wp_mono; [apply (surface_free_spec _ p (new_surface w h f SURFACE_PIXELS_NEEDFREE px)); [done |]|].
  { rewrite Es. apply lookup_insert_eq. }
  intros _ ω'' (Hok'' & _ & Es' & Ho'). split_and!; [done | |].
  - rewrite Es', Es, delete_insert_id; [done |]. by eapply unowned_unused.
  - intros q j. rewrite Ho', Ho. unfold needfree. cbn. split.
    + intros ([?|[[-> _]|[-> _]]] & ? & Hx); [done | done |]. by destruct Hx.
    + intros Hq. split; [by left |]. split; [intros -> | intros _ ->]; [by eapply Hfr | by eapply Hfrx].
Qed.

(** [surface_alloc_from_gimage] makes a surface over the pixels of an image
    of 3 or 4 bytes per pixel.  Its rows are those of the image, whose pixels
    follow each other without padding, exactly if the length of a row of the
    image is a multiple of four: [surface_alloc] always rounds the pitch up. *)
Theorem surface_alloc_from_gimage_correct ω img :
  world_ok ω → g_bytes_per_pixel img = 3 ∨ g_bytes_per_pixel img = 4 →
  0 < g_width img < 536870912 → 1 < g_height img < 536870912 → g_pixels img ≠ 0 →
  wp (surface_alloc_from_gimage uninit (Some img))
    (λ p ω', p = 0 ∨
       ∃ s, w_surfaces ω' = <[p := s]> (w_surfaces ω) ∧ s_pixels s = g_pixels img ∧
         s_w s = g_width img ∧ s_h s = g_height img ∧ ¬ needfree s ∧
         ((∀ x y, in_canvas (canvas_of s) x y →
             px_addr (canvas_of s) x y =
               g_pixels img + (y * g_width img + x) * g_bytes_per_pixel img) ↔
          (g_width img * g_bytes_per_pixel img) mod 4 = 0)) ω.
Proof using All.
  intros Hok Hb Hw Hh Hpx. unfold surface_alloc_from_gimage.
  set (f := if g_bytes_per_pixel img =? 3 then PIXEL_FORMAT_BGR_888 else PIXEL_FORMAT_ABGR_8888).
  assert (f ≠ PIXEL_FORMAT_GENERIC) as Hf by (unfold f; by case_match).
  assert (bytes_per_pixel (format_info f) = g_bytes_per_pixel img) as Ek
    by (unfold f; destruct Hb as [-> | ->]; done).
  apply (wp_mono _ (λ p ω', p = 0 ∨ w_surfaces ω' =
      <[p := new_surface (g_width img) (g_height img) f SURFACE_PIXELS_DONTFREE (g_pixels img)]> (w_surfaces ω))).
  { pose proof (surface_alloc_given_spec ω (g_pixels img) (g_width img) (g_height img) f Hok Hf Hw
      ltac:(lia) Hpx) as Hspec.
    unfold f in *. destruct Hb as [E|E]; rewrite E in *; cbn [Z.eqb Pos.eqb] in *;
      (eapply wp_mono; [exact Hspec |]; intros p ω' (_ & _ & [[-> _]|(_ & _ & _ & -> & _)]); auto). }
  intros p ω' [->|Hs]; [by left | right].
  exists (new_surface (g_width img) (g_height img) f SURFACE_PIXELS_DONTFREE (g_pixels img)).
  split; [done |]. split_and!; try done.
  destruct (surface_pitch_spec f (g_width img) Hf ltac:(lia)) as [Hm4 Hpi].
  unfold in_canvas, px_addr. cbn [canvas_of new_surface cbase cpitch ck cw ch s_pixels s_pitch s_w s_h info].
  rewrite Ek in *. split.
  - intros Hrows. specialize (Hrows 0 1 ltac:(lia)). replace (g_width img * _) with (surface_pitch (format_info f) (g_width img)) by lia. done.
  - intros Hm x y Hxy. apply Z.mod_divide in Hm as [a Ha], Hm4 as [b Hb4]; [|done..].
    assert (surface_pitch (format_info f) (g_width img) = g_width img * g_bytes_per_pixel img) as -> by lia. lia.
Qed.
End correctness.

(** ** On the heap of [malloc.c] *)

#[local] Existing Instance example_layout.
#[local] Existing Instance example_layout_ok.

Definition example_world : world heap_state :=
  World (zeros heap (Z.to_nat SZ_16M)) heap_init ∅.

Lemma example_world_ok : world_ok example_world.
Proof.
  unfold example_world. split; cbn [w_mem w_heap w_surfaces].
  4-7: intros; simplify_map_eq.
  - exists []. apply heap_init_inv.
  - apply zeros_ok.
  - pose proof (zeros_mapped heap (Z.to_nat SZ_16M)) as Hz. rewrite Z2Nat.id in Hz by done. exact Hz.
Qed.

Definition no_info : pixel_info := PixelInfo 0 0 0 0 0 0 0 0 0 0 PIXEL_FORMAT_GENERIC.

(** An empty heap has room for both blocks. *)
Lemma example_grants :
  ∃ h1 h2, xmalloc SURFACE_SIZE heap_init = Some (0xc4000010, h1) ∧ xmalloc 192 h1 = Some (0xc4000080, h2).
Proof.
  assert (fst <$> xmalloc SURFACE_SIZE heap_init = Some 0xc4000010) as E1 by by vm_compute.
  assert (fst <$> bind (xmalloc SURFACE_SIZE) (λ _, xmalloc 192) heap_init = Some 0xc4000080) as E2 by by vm_compute.
  unfold bind in E2. destruct (xmalloc SURFACE_SIZE heap_init) as [[p h1]|]; [|done]. injection E1 as ->.
  destruct (xmalloc 192 h1) as [[q h2]|] eqn:E; [|done]. injection E2 as ->. by exists h1, h2.
Qed.

Lemma surface_alloc_correct_witness :
  ∃ ω', surface_alloc no_info 0 8 8 PIXEL_FORMAT_RGB_888 example_world = Some (0xc4000010, ω') ∧
    gains_surface example_world ω' 0xc4000010
      (new_surface 8 8 PIXEL_FORMAT_RGB_888 SURFACE_PIXELS_NEEDFREE 0xc4000080).
Proof.
  pose proof (surface_alloc_correct no_info example_world 8 8 PIXEL_FORMAT_RGB_888 example_world_ok
    ltac:(discriminate) ltac:(lia) ltac:(lia) ltac:(by vm_compute)) as Hspec.
  change (8 * surface_pitch (format_info PIXEL_FORMAT_RGB_888) 8) with 192 in Hspec.
  change (w_heap example_world) with heap_init in Hspec. change alloc with xmalloc in Hspec.
  destruct example_grants as (h1 & h2 & E1 & E2). rewrite E1 in Hspec.
  destruct (surface_alloc _ _ _ _ _ _) as [[p ω']|].
  - destruct Hspec as [(_ & E & _)|(_ & px & h1' & E & E' & Hg)]; [done |].
    injection E as <- <-. rewrite E2 in E'. injection E' as <- _. by exists ω'.
  - destruct Hspec as (p & h1' & h2' & E & _ & E'). injection E as _ <-. by rewrite E2 in E'.
Defined.

Lemma example_alloc_returns :
  is_Some (surface_alloc no_info 0 8 8 PIXEL_FORMAT_RGB_888 example_world).
Proof.
  pose proof (surface_alloc_spec no_info example_world 8 8 PIXEL_FORMAT_RGB_888 example_world_ok
    ltac:(discriminate) ltac:(lia) ltac:(lia) ltac:(by vm_compute)) as Hspec.
  destruct (surface_alloc _ _ _ _ _ _) as [[p ω']|]; [by eexists |].
  destruct Hspec as (p & h1 & h2 & E1 & _ & E2). destruct example_grants as (h1' & h2' & E1' & E2').
  change (xmalloc SURFACE_SIZE heap_init = Some (p, h1)) in E1. rewrite E1' in E1. injection E1 as _ <-.
  change (xmalloc 192 h1' = Some (0, h2)) in E2. by rewrite E2' in E2.
Qed.

Lemma surface_free_correct_witness :
  ∃ p ω', surface_alloc no_info 0 8 8 PIXEL_FORMAT_RGB_888 example_world = Some (p, ω') ∧
    wp (surface_free p)
      (λ _ ω'', world_ok ω'' ∧ w_surfaces ω'' = w_surfaces example_world ∧
         ∀ q j, owns ω'' q j ↔ owns example_world q j) ω'.
Proof.
  destruct example_alloc_returns as [[p ω'] E]. exists p, ω'. split; [exact E |].
  apply (surface_free_correct no_info example_world 8 8 PIXEL_FORMAT_RGB_888);
    [apply example_world_ok | discriminate | lia | lia | by vm_compute | exact E].
Defined.

Lemma surface_alloc_from_gimage_correct_witness :
  wp (surface_alloc_from_gimage no_info (Some (Gimage 5 2 3 8192)))
    (λ p ω', p = 0 ∨
       ∃ s, w_surfaces ω' = <[p := s]> (w_surfaces example_world) ∧ s_pixels s = 8192 ∧
         s_w s = 5 ∧ s_h s = 2 ∧ ¬ needfree s ∧
         ((∀ x y, in_canvas (canvas_of s) x y →
             px_addr (canvas_of s) x y = 8192 + (y * 5 + x) * 3) ↔ (5 * 3) mod 4 = 0)) example_world.
Proof.
  apply (surface_alloc_from_gimage_correct no_info example_world (Gimage 5 2 3 8192));
    [apply example_world_ok | by left | cbn; lia | cbn; lia | done].
Defined.

(** The guard of [surface_alloc] lets a surface of width zero through, and
    the request for its pixels, of zero bytes, is refused; so is a request that
    is larger than the heap.  Both runs end in the call of [free] on a block of
    the other heap. *)
Theorem surface_alloc_invalid_free :
  surface_alloc no_info 0 0 5 PIXEL_FORMAT_ARGB_8888 (World ∅ heap_init ∅) = None ∧
  surface_alloc no_info 0 4096 4096 PIXEL_FORMAT_ARGB_8888 (World ∅ heap_init ∅) = None.
Proof. split; by vm_compute. Qed.
