(* ===== verification/Transform.v ===== *)
(** * Scaling and rotation: [sw_scale.c], [sw_rotate.c]

    Both make a new surface whose pixels are pixels of a rectangle of another
    one.  The loops over the pixels are verified against the map from the
    coordinates of the result to those of the source; the functions around them
    against the interface of the allocator. *)

From stdpp Require Import prelude gmap.
From Stdlib Require Import ZArith Lia.
From S2P Require Import Prelude Prog Memory Rect Color Pixel Canvas Surface.
From S2P Require Import Malloc Heap HeapOps Allocator SurfaceAlloc.

Local Open Scope Z_scope.
Local Open Scope word_scope.

(** ** One pixel *)

(** [*p = *q] on pixels of one, two and four bytes, and the three assignments
    of the functions for three bytes. *)
Definition move1 (p q : Z) : prog mem unit := let* v := load8 q in store8 p v.

Definition move2 (p q : Z) : prog mem unit := let* v := load16 q in store16 p v.

Definition move3 (p q : Z) : prog mem unit :=
  let* v := load8 q in
  store8 p v ;;
  let* v := load8 (ptr_add q 1) in
  store8 (ptr_add p 1) v ;;
  let* v := load8 (ptr_add q 2) in
  store8 (ptr_add p 2) v.

Definition move4 (p q : Z) : prog mem unit := let* v := load32 q in store32 p v.

(** ** [sw_scale.c] *)

(** The body the four functions share.  [k] is the size of a pixel, [n] the
    distance of [dp[dx]] from [dp]. *)
Definition scale_loops (k : Z) (move : Z → Z → prog mem unit) (dst src : surface_t) (rect : rect_t)
    : prog mem unit :=
  let dw := s32 (s_w dst) in
  let dh := s32 (s_h dst) in
  let dpitch := s32 (s_pitch dst) in
  let spitch := s32 (s_pitch src) in
  let tx := Z.quot (s32 (Z.shiftl (rw rect) 16)) dw in
  let ty := Z.quot (s32 (Z.shiftl (rh rect) 16)) dh in
  let dp := s_pixels dst in
  let op := ptr_add (ptr_add (s_pixels src) (ry rect *s spitch)) (rx rect *s bytes_per_pixel (info src)) in
  for_to dh (λ _ '(dp, y),
    let tp := ptr_add op (Z.shiftr y 16 *s spitch) in
    let* _ := for_to dw (λ _ '(n, x),
      let sp := ptr_add tp (Z.shiftr x 16 * k) in
      move (ptr_add dp n) sp ;;
      ret (n + k, x +s tx)) (0, 0) in
    ret (ptr_add dp dpitch, y +s ty)) (dp, 0) ;; ret tt.

Definition software_scale_1byte : surface_t → surface_t → rect_t → prog mem unit := scale_loops 1 move1.
Definition software_scale_2byte : surface_t → surface_t → rect_t → prog mem unit := scale_loops 2 move2.
Definition software_scale_3byte : surface_t → surface_t → rect_t → prog mem unit := scale_loops 3 move3.
Definition software_scale_4byte : surface_t → surface_t → rect_t → prog mem unit := scale_loops 4 move4.

(** The part of the source a transformation works on: [rect], or all of it. *)
Definition source_rect (s : surface_t) (rect : option rect_t) : option rect_t :=
  let clipped := Rect 0 0 (s32 (s_w s)) (s32 (s_h s)) in
  match rect with
  | None => Some clipped
  | Some rect =>
      let '(hit, clipped) := rect_intersect rect clipped in if hit then Some clipped else None
  end.

(** ** [sw_rotate.c] *)

Inductive rotate_type :=
  | ROTATE_DEGREE_0 | ROTATE_DEGREE_90 | ROTATE_DEGREE_180 | ROTATE_DEGREE_270 | ROTATE_MIRROR_H | ROTATE_MIRROR_V.

Definition rotate_value (t : rotate_type) : Z :=
  match t with
  | ROTATE_DEGREE_0 => 0 | ROTATE_DEGREE_90 => 1 | ROTATE_DEGREE_180 => 2 | ROTATE_DEGREE_270 => 3
  | ROTATE_MIRROR_H => 4 | ROTATE_MIRROR_V => 5
  end.

Coercion rotate_value : rotate_type >-> Z.

(** [for (dy = 0; dy < dh; dy++) { memcpy(dp, sp, len); dp += dpitch; sp += sstep; }] *)
Definition rotate_copy (dh len dpitch sstep dp sp : Z) : prog mem unit :=
  for_to dh (λ _ '(dp, sp),
    memcpy dp sp len ;;
    ret (ptr_add dp dpitch, ptr_add sp sstep)) (dp, sp) ;; ret tt.

(** The same with the loop [for (dx = 0; dx < dw; dx++) { *p++ = *q; q += qstep; }]
    over a row. *)
Definition rotate_pixels (k : Z) (move : Z → Z → prog mem unit) (dh dw dpitch sstep qstep dp sp : Z)
    : prog mem unit :=
  for_to dh (λ _ '(dp, sp),
    let* _ := for_to dw (λ _ '(p, q),
      move p q ;;
      ret (ptr_add p k, ptr_add q qstep)) (dp, sp) in
    ret (ptr_add dp dpitch, ptr_add sp sstep)) (dp, sp) ;; ret tt.

(** The body the four functions share. *)
Definition rotate_loops (k : Z) (move : Z → Z → prog mem unit) (dst src : surface_t) (rect : rect_t)
    (type : Z) : prog mem unit :=
  let dw := s32 (s_w dst) in
  let dh := s32 (s_h dst) in
  let dpitch := s_pitch dst in
  let spitch := s_pitch src in
  let bytes_per_pixel := bytes_per_pixel (info src) in
  let len := u32 (bytes_per_pixel *s dw) in
  let x := rx rect in
  let y := ry rect in
  let dp := s_pixels dst in
  if type =? ROTATE_DEGREE_0 then
    rotate_copy dh len dpitch spitch dp (pixel_ptr src y (x *s bytes_per_pixel))
  else if type =? ROTATE_DEGREE_90 then
    rotate_pixels k move dh dw dpitch (- bytes_per_pixel) spitch
      dp (pixel_ptr src y ((x +s dh -s 1) *s bytes_per_pixel))
  else if type =? ROTATE_DEGREE_180 then
    rotate_pixels k move dh dw dpitch (- spitch) (- k)
      dp (pixel_ptr src (y +s dh -s 1) ((x +s dw -s 1) *s bytes_per_pixel))
  else if type =? ROTATE_DEGREE_270 then
    rotate_pixels k move dh dw dpitch bytes_per_pixel (- spitch)
      dp (pixel_ptr src (y +s dw -s 1) (x *s bytes_per_pixel))
  else if type =? ROTATE_MIRROR_H then
    rotate_pixels k move dh dw dpitch spitch (- k)
      dp (pixel_ptr src y ((x +s dw -s 1) *s bytes_per_pixel))
  else if type =? ROTATE_MIRROR_V then
    rotate_copy dh len dpitch (- spitch) dp (pixel_ptr src (y +s dh -s 1) (x *s bytes_per_pixel))
  else ret tt.

Definition software_rotate_1byte : surface_t → surface_t → rect_t → Z → prog mem unit := rotate_loops 1 move1.
Definition software_rotate_2byte : surface_t → surface_t → rect_t → Z → prog mem unit := rotate_loops 2 move2.
Definition software_rotate_3byte : surface_t → surface_t → rect_t → Z → prog mem unit := rotate_loops 3 move3.
Definition software_rotate_4byte : surface_t → surface_t → rect_t → Z → prog mem unit := rotate_loops 4 move4.

(** The size of the result. *)
Definition rotated_size (rect : rect_t) (type : Z) : option (Z * Z) :=
  if (type =? ROTATE_DEGREE_0) || (type =? ROTATE_DEGREE_180) || (type =? ROTATE_MIRROR_H) ||
     (type =? ROTATE_MIRROR_V)
  then Some (u32 (rw rect), u32 (rh rect))
  else if (type =? ROTATE_DEGREE_90) || (type =? ROTATE_DEGREE_270)
  then Some (u32 (rh rect), u32 (rw rect))
  else None.

Section operations.
Context {S : Type} `{Allocator S}.
Variable uninit : pixel_info.

Definition map_software_scale (surface : Z) (rect : option rect_t) (w h : Z) : prog (world S) Z :=
  if (w <=? 0) || (h <=? 0) then ret 0
  else if surface =? 0 then ret 0
  else
    let* s := get_surface surface in
    if s_pixels s =? 0 then ret 0
    else if bits_per_pixel (info s) <? 8 then ret 0
    else
      match source_rect s rect with
      | None => ret 0
      | Some rect =>
          let* scale := surface_alloc uninit 0 w h (fmt (info s)) in
          if scale =? 0 then ret 0
          else
            let* d := get_surface scale in
            let bpp := bytes_per_pixel (info s) in
            if bpp =? 1 then on_mem (software_scale_1byte d s rect) ;; ret scale
            else if bpp =? 2 then on_mem (software_scale_2byte d s rect) ;; ret scale
            else if bpp =? 3 then on_mem (software_scale_3byte d s rect) ;; ret scale
            else if bpp =? 4 then on_mem (software_scale_4byte d s rect) ;; ret scale
            else surface_free scale ;; ret 0
      end.

Definition map_software_rotate (surface : Z) (rect : option rect_t) (type : Z) : prog (world S) Z :=
  if surface =? 0 then ret 0
  else
    let* s := get_surface surface in
    if s_pixels s =? 0 then ret 0
    else if bits_per_pixel (info s) <? 8 then ret 0
    else
      match source_rect s rect with
      | None => ret 0
      | Some rect =>
          match rotated_size rect type with
          | None => ret 0
          | Some (w, h) =>
              let* rotate := surface_alloc uninit 0 w h (fmt (info s)) in
              if rotate =? 0 then ret 0
              else
                let* d := get_surface rotate in
                let bpp := bytes_per_pixel (info s) in
                if bpp =? 1 then on_mem (software_rotate_1byte d s rect type) ;; ret rotate
                else if bpp =? 2 then on_mem (software_rotate_2byte d s rect type) ;; ret rotate
                else if bpp =? 3 then on_mem (software_rotate_3byte d s rect type) ;; ret rotate
                else if bpp =? 4 then on_mem (software_rotate_4byte d s rect type) ;; ret rotate
                else surface_free rotate ;; ret 0
          end
      end.

(** Calls through the [scale] and [rotate] slots; a slot that holds a function
    of another type is undefined behaviour. *)
Definition surface_scale (surface : Z) (rect : option rect_t) (w h : Z) : prog (world S) Z :=
  if surface =? 0 then ret 0
  else
    let* s := get_surface surface in
    match maps_scale (s_maps s) with
    | None => ret 0
    | Some map_scale_sw => map_software_scale surface rect w h
    | Some _ => fault
    end.

Definition surface_rotate (surface : Z) (rect : option rect_t) (type : Z) : prog (world S) Z :=
  if surface =? 0 then ret 0
  else
    let* s := get_surface surface in
    match maps_rotate (s_maps s) with
    | None => ret 0
    | Some map_rotate_sw => map_software_rotate surface rect type
    | Some _ => fault
    end.
End operations.

(** ** Copying pixels *)

(** [move] copies the [k] bytes of a pixel. *)
Definition moves (k : Z) (move : Z → Z → prog mem unit) : Prop :=
  ∀ p q l m (Q : unit → mem → Prop),
    length l = Z.to_nat k → Forall in_u8 l → has_bytes m q l → mapped m p k →
    0 ≤ p → p + k < 4294967296 → 0 ≤ q → q + k < 4294967296 → (q + k ≤ p ∨ p + k ≤ q) →
    Q tt (write_bytes m p l) → wp (move p q) Q m.

Lemma moves_1 : moves 1 move1.
Proof.
  intros p q l m Q Hl Hu Hb Hm Hp Hp' Hq Hq' _ HQ. destruct l as [|b [|]]; try done.
  destruct Hb as [Hb _]. apply wp_bind. eapply wp_load8; [done |]. apply wp_store8; [apply Hm; lia |].
  apply Forall_cons in Hu as [Hu _]. by rewrite u8_small.
Qed.

Lemma moves_2 : moves 2 move2.
Proof.
  intros p q l m Q Hl Hu Hb Hm Hp Hp' Hq Hq' _ HQ. apply wp_bind.
  eapply wp_load16; [done | lia | done | done |]. apply wp_store16; [done | lia | done |].
  change 2%nat with (Z.to_nat 2). by rewrite <- Hl, le_bytes_val.
Qed.

Lemma moves_3 : moves 3 move3.
Proof.
  intros p q l m Q Hl Hu Hb Hm Hp Hp' Hq Hq' Hd HQ. destruct l as [|b0 [|b1 [|b2 [|]]]]; try done.
  destruct Hb as (Hb0 & Hb1 & Hb2 & _). rewrite !Forall_cons in Hu. destruct Hu as (U0 & U1 & U2 & _).
  unfold move3. rewrite !ptr_add_small by lia.
  apply wp_bind. eapply wp_load8; [done |]. apply wp_bind, wp_store8; [apply Hm; lia |].
  apply wp_bind. eapply wp_load8; [rewrite lookup_insert_ne by lia; done |].
  apply wp_bind, wp_store8; [apply lookup_insert_is_Some'; right; apply Hm; lia |].
  apply wp_bind. eapply wp_load8.
  { rewrite !lookup_insert_ne by lia. by replace (q + 2) with (q + 1 + 1) by lia. }
  apply wp_store8; [rewrite !lookup_insert_is_Some'; do 2 right; apply Hm; lia |].
  rewrite !u8_small by done. refine (eq_ind_r (Q tt) HQ _). cbn [write_bytes].
  apply map_eq. intros a. rewrite !lookup_insert. repeat case_decide; lia || done.
Qed.

Lemma moves_4 : moves 4 move4.
Proof.
  intros p q l m Q Hl Hu Hb Hm Hp Hp' Hq Hq' _ HQ. apply wp_bind.
  eapply wp_load32; [done | lia | done | done |]. apply wp_store32; [done | lia | done |].
  change 4%nat with (Z.to_nat 4). by rewrite <- Hl, le_bytes_val.
Qed.

Section transform.
Context (dst src : surface_t) (move : Z → Z → prog mem unit).
Hypothesis Hdst : surface_wf dst.
Hypothesis Hsrc : surface_wf src.
Hypothesis Hdisj : surf_disjoint dst src.
Hypothesis Hbpp : bytes_per_pixel (info src) = bytes_per_pixel (info dst).
Hypothesis Hmove : moves (bytes_per_pixel (info dst)) move.

Local Notation dcv := (canvas_of dst).
Local Notation scv := (canvas_of src).

(** Every pixel of [dst] gets the source pixel [F] gives for it. *)
Definition mapped_px (m : mem) (F : Z → Z → Z * Z) (x y : Z) : list Z := px_at m scv (F x y).1 (F x y).2.

Lemma mapped_px_ok m F x y :
  surface_in m src → in_canvas scv (F x y).1 (F x y).2 →
  length (mapped_px m F x y) = Z.to_nat (bytes_per_pixel (info dst)) ∧ Forall in_u8 (mapped_px m F x y).
Proof using Hsrc Hbpp. intros Hin Hc. rewrite <- Hbpp. by apply px_at_ok. Qed.

Lemma wp_move m m' D px F x y :
  surface_in m dst → surface_in m src →
  painted dcv m m' D px → (∀ x y, D x y → in_canvas dcv x y) →
  in_canvas dcv x y → in_canvas scv (F x y).1 (F x y).2 →
  wp (move (px_addr dcv x y) (px_addr scv (F x y).1 (F x y).2))
    (λ _ m'', m'' = write_bytes m' (px_addr dcv x y) (mapped_px m F x y)) m'.
Proof using Hdst Hsrc Hdisj Hbpp Hmove.
  intros Hind Hins Hp HD Hxy Hs.
  destruct (addr_small dst _ _ Hdst Hxy) as (_ & D1 & D2).
  destruct (addr_small src _ _ Hsrc Hs) as (_ & S1 & S2).
  pose proof (px_addr_bounds _ _ _ (wf_canvas _ Hdst) Hxy) as Bd.
  pose proof (px_addr_bounds _ _ _ (wf_canvas _ Hsrc) Hs) as Bs.
  destruct (mapped_px_ok m F x y Hins Hs) as [Hl Hu].
  destruct (painted_disjoint dst src m m' D px _ _ _ Hdst Hsrc Hdisj HD Hp Hs (px_bytes_at src Hsrc _ _ _ Hins Hs))
    as [_ Hb].
  unfold surf_disjoint in Hdisj. cbn in Bd, Bs. rewrite Hbpp in *.
  apply (Hmove _ _ (mapped_px m F x y)); try done; try lia.
  apply px_mapped; [done | by eapply painted_surface_in | done].
Qed.

(** The loops over rows and pixels, for source addresses that advance by
    [qstep] with each pixel of a row and by [sstep] with each row. *)
Lemma rotate_pixels_spec m F A0 sstep qstep :
  surface_in m dst → surface_in m src → 0 < s_w dst → 0 < s_h dst →
  (∀ x y, in_canvas dcv x y → in_canvas scv (F x y).1 (F x y).2 ∧
     px_addr scv (F x y).1 (F x y).2 = A0 + y * sstep + x * qstep) →
  wp (rotate_pixels (bytes_per_pixel (info dst)) move (s_h dst) (s_w dst) (s_pitch dst) sstep qstep
        (s_pixels dst) (u32 A0))
    (λ _ m', painted dcv m m' (in_canvas dcv) (mapped_px m F)) m.
Proof using Hdst Hsrc Hdisj Hbpp Hmove.
  intros Hind Hins Hw Hh HF. unfold rotate_pixels.
  pose proof (wf_canvas _ Hdst) as Hc. pose proof (wf_pixels _ Hdst). unfold canvas_wf in Hc. cbn in Hc.
  replace (s_pixels dst) with (u32 (px_addr dcv 0 0)) by (unfold px_addr; cbn; rewrite u32_small; nia).
  replace A0 with (A0 + 0 * sstep) by lia.
  eapply wp_mono; [apply (wp_raster_then dcv 0 0 (s_w dst) (s_h dst) (mapped_px m F) (wf_canvas _ Hdst)) with
    (inner := λ j i '(p, q), move p q ;; ret (ptr_add p (bytes_per_pixel (info dst)), ptr_add q qstep))
    (re := λ j _, ret (ptr_add (u32 (px_addr dcv 0 j)) (s_pitch dst), ptr_add (u32 (A0 + j * sstep)) sstep))
    (SA := λ j, (u32 (px_addr dcv 0 j), u32 (A0 + j * sstep)))
    (SB := λ j i, (u32 (px_addr dcv i j), u32 (A0 + j * sstep + i * qstep))) |].
  - cbn. lia.
  - cbn. lia.
  - intros x y Ha. apply mapped_px_ok; [done |]. apply HF. unfold in_area, in_canvas in *. cbn. lia.
  - apply Hind.
  - intros j Hj. cbn [fst snd]. do 3 f_equal. f_equal. lia.
  - intros j Hj. unfold ptr_add. rewrite !u32_add_l. do 3 f_equal; [unfold px_addr; cbn |]; lia.
  - intros j i m' Hj Hi Hp. rewrite !Z.add_0_l in *.
    assert (in_canvas dcv i j) as Hij by (unfold in_canvas; cbn; lia).
    destruct (HF i j Hij) as [Hs Ha]. destruct (addr_small dst i j Hdst Hij) as (Ed & _ & _).
    destruct (addr_small src _ _ Hsrc Hs) as (Es & _ & _). rewrite <- Ha, Ed, Es. apply wp_bind.
    eapply wp_mono; [eapply (wp_move m m' _ _ F i j); try done |].
    + intros x y. apply (raster_in_canvas dcv 0 0 (s_w dst) (s_h dst)); cbn; lia.
    + intros _ m'' ->. apply wp_ret. split; [|done]. unfold ptr_add. f_equal; f_equal.
      * unfold px_addr. cbn. lia.
      * rewrite Ha. lia.
  - intros r m' Hp. cbn beta in Hp.  eapply painted_iff; [|done]. unfold in_area, in_canvas. cbn. lia.
Qed.

(** The same for whole rows. *)
Lemma rotate_copy_spec m F A0 sstep :
  surface_in m dst → surface_in m src → 0 < s_w dst → 0 < s_h dst →
  (∀ x y, in_canvas dcv x y → in_canvas scv (F x y).1 (F x y).2 ∧
     px_addr scv (F x y).1 (F x y).2 = A0 + y * sstep + x * bytes_per_pixel (info dst)) →
  wp (rotate_copy (s_h dst) (s_w dst * bytes_per_pixel (info dst)) (s_pitch dst) sstep
        (s_pixels dst) (u32 A0))
    (λ _ m', painted dcv m m' (in_canvas dcv) (mapped_px m F)) m.
Proof using Hdst Hsrc Hdisj Hbpp.
  intros Hind Hins Hw Hh HF. unfold rotate_copy. apply wp_bind.
  pose proof (wf_canvas _ Hdst) as Hc. pose proof (wf_pixels _ Hdst). unfold canvas_wf in Hc. cbn in Hc.
  replace (s_pixels dst) with (u32 (px_addr dcv 0 0)) by (unfold px_addr; cbn; rewrite u32_small; nia).
  replace A0 with (A0 + 0 * sstep) by lia.
  apply (wp_for_to _ _ _ _ (λ j '(dp, sp) m', dp = u32 (px_addr dcv 0 j) ∧ sp = u32 (A0 + j * sstep) ∧
    painted dcv m m' (in_area 0 0 (s_w dst) j) (mapped_px m F))).
  - lia.
  - split_and!; [done | done |]. eapply painted_iff; [|apply painted_none, Hind]. unfold in_area. lia.
  - intros j [dp sp] m1 Hj (-> & -> & Hp).
    assert (∀ x, 0 ≤ x < s_w dst → in_canvas dcv x j) as Hin by (intros; unfold in_canvas; cbn; lia).
    pose proof (row_in (s_w dst) dst 0 j Hdst ltac:(lia) ltac:(lia) ltac:(lia) ltac:(lia)) as D.
    destruct (HF 0 j (Hin 0 ltac:(lia))) as [Hs0 E0].
    destruct (HF (s_w dst - 1) j (Hin (s_w dst - 1) ltac:(lia))) as [Hs1 E1].
    pose proof (px_addr_bounds _ _ _ (wf_canvas _ Hsrc) Hs0) as B0.
    pose proof (px_addr_bounds _ _ _ (wf_canvas _ Hsrc) Hs1) as B1.
    pose proof (wf_canvas _ Hsrc) as Hcs. pose proof (wf_pixels _ Hsrc). unfold canvas_wf in Hcs.
    cbn in B0, B1, Hcs. rewrite Hbpp in B0, B1, Hcs. rewrite E0 in B0. rewrite E1 in B1. rewrite !u32_small by lia.
    assert (surface_in m1 dst) as Hd1 by by eapply painted_surface_in.
    assert (surface_in m1 src) as Hsr1 by by eapply painted_surface_in.
    assert (mapped m1 (px_addr dcv 0 j) (s_w dst * bytes_per_pixel (info dst))) as Md
      by (apply (mapped_sub m1 (s_pixels dst) (s_h dst * s_pitch dst)); [apply Hd1 | lia | lia]).
    assert (mapped m1 (A0 + j * sstep) (s_w dst * bytes_per_pixel (info dst))) as Ms
      by (apply (mapped_sub m1 (s_pixels src) (s_h src * s_pitch src)); [apply Hsr1 | lia | lia]).
    apply wp_bind. eapply wp_mono.
    { apply memcpy_spec; try done; try lia; [apply Hd1 |]. unfold surf_disjoint in Hdisj. lia. }
    intros r m2 [_ Hcp]. apply wp_ret. split_and!.
    + unfold ptr_add. f_equal. unfold px_addr. cbn. lia.
    + unfold ptr_add. f_equal. lia.
    + apply (painted_copy_row dcv m m1 m2 0 0 (s_w dst) j _ (A0 + j * sstep)); try done; try (cbn; lia).
      intros x Hx. rewrite Z.add_0_l in *. destruct (HF x j (Hin x Hx)) as [Hs E].
      split; [by apply mapped_px_ok |].
      assert (∀ x y, in_area 0 0 (s_w dst) j x y → in_canvas dcv x y) as Ha
        by (unfold in_area, in_canvas; cbn; lia).
      destruct (painted_disjoint dst src m m1 _ _ _ _ _ Hdst Hsrc Hdisj Ha Hp Hs
        (px_bytes_at src Hsrc _ _ _ Hins Hs)) as [_ Hb].
      rewrite E in Hb. by replace (A0 + j * sstep + (x - 0) * ck dcv) with
        (A0 + j * sstep + x * bytes_per_pixel (info dst)) by (cbn; lia).
  - intros [dp sp] m1 (_ & _ & Hp). apply wp_ret. eapply painted_iff; [|done].
    unfold in_area, in_canvas. cbn. lia.
Qed.

(** *** Rotation *)

(** The pixel of the rectangle [r] of the source that goes to [(x, y)]. *)
Definition rotate_source (r : rect_t) (type x y : Z) : Z * Z :=
  if type =? ROTATE_DEGREE_0 then (rx r + x, ry r + y)
  else if type =? ROTATE_DEGREE_90 then (rx r + rw r - 1 - y, ry r + x)
  else if type =? ROTATE_DEGREE_180 then (rx r + rw r - 1 - x, ry r + rh r - 1 - y)
  else if type =? ROTATE_DEGREE_270 then (rx r + y, ry r + rh r - 1 - x)
  else if type =? ROTATE_MIRROR_H then (rx r + rw r - 1 - x, ry r + y)
  else (rx r + x, ry r + rh r - 1 - y).

(** A rectangle of pixels of the source. *)
Definition rect_of (s : surface_t) (r : rect_t) : Prop :=
  0 ≤ rx r ∧ 0 < rw r ∧ rx r + rw r ≤ s_w s ∧ 0 ≤ ry r ∧ 0 < rh r ∧ ry r + rh r ≤ s_h s.

Lemma pixel_ptr_addr s x y :
  pixel_ptr s y (x *s bytes_per_pixel (info s)) = u32 (px_addr (canvas_of s) x y).
Proof. unfold pixel_ptr, ptr_add, px_addr. cbn. autorewrite with words. f_equal; lia. Qed.

Lemma rotate_loops_spec m r type :
  surface_in m dst → surface_in m src → rect_of src r → 0 ≤ type ≤ 5 →
  rotated_size r type = Some (s_w dst, s_h dst) →
  wp (rotate_loops (bytes_per_pixel (info dst)) move dst src r type)
    (λ _ m', painted dcv m m' (in_canvas dcv) (mapped_px m (rotate_source r type))) m.
Proof using Hdst Hsrc Hdisj Hbpp Hmove.
  intros Hind Hins Hr Htype Hsize. unfold rect_of in Hr.
  pose proof (wf_w _ Hdst). pose proof (wf_h _ Hdst). pose proof (wf_w _ Hsrc). pose proof (wf_h _ Hsrc).
  pose proof (wf_bpp _ Hdst).
  unfold rotate_loops. rewrite (s32_small (s_w dst)), (s32_small (s_h dst)) by lia.
  assert (u32 (bytes_per_pixel (info src) *s s_w dst) = s_w dst * bytes_per_pixel (info dst)) as ->.
  { rewrite Hbpp, s32_small, u32_small; nia. }
  assert (type = 0 ∨ type = 1 ∨ type = 2 ∨ type = 3 ∨ type = 4 ∨ type = 5) as Ht by lia.
  destruct Ht as [->|[->|[->|[->|[->| ->]]]]];
    unfold rotated_size in *; cbn [rotate_value] in *;
    cbn [Z.eqb Pos.eqb orb] in *; rewrite !(u32_small (rw r)), !(u32_small (rh r)) in Hsize by lia;
    injection Hsize as Ew Eh; rewrite ?(s32_small (_ + _)), ?(s32_small (_ - 1)), ?pixel_ptr_addr by lia.
  all: (apply rotate_copy_spec || apply rotate_pixels_spec); try done; try lia;
    intros x y Hxy; unfold in_canvas, px_addr in *; cbn in *; split; nia.
Qed.

(** *** Scaling *)

(** The distance of source coordinates between neighbours, in 1/65536 pixels,
    and the coordinate [i] of the result comes from. *)
Definition scale_step (from to : Z) : Z := from * 65536 / to.

Definition scale_coord (from to i : Z) : Z := i * scale_step from to / 65536.

Definition scale_source (r : rect_t) (w h x y : Z) : Z * Z :=
  (rx r + scale_coord (rw r) w x, ry r + scale_coord (rh r) h y).

Lemma scale_step_bound from to i :
  0 < from → 0 < to → 0 ≤ i ≤ to → 0 ≤ i * scale_step from to ≤ from * 65536.
Proof.
  intros Hf Ht Hi. unfold scale_step. pose proof (Z.mul_div_le (from * 65536) to Ht).
  assert (0 ≤ from * 65536 / to) by (apply Z.div_pos; lia). nia.
Qed.

Lemma scale_coord_bound from to i :
  0 < from → 0 < to → 0 ≤ i < to → 0 ≤ scale_coord from to i < from.
Proof.
  intros Hf Ht Hi. pose proof (scale_step_bound from to i Hf Ht ltac:(lia)) as Hb. unfold scale_coord.
  split; [apply Z.div_pos; lia |]. apply Z.div_lt_upper_bound; [lia |].
  destruct (decide (scale_step from to = 0)) as [->|Hne]; [lia |].
  assert (0 < scale_step from to) by (unfold scale_step in *; pose proof (Z.div_pos (from * 65536) to); lia).
  pose proof (scale_step_bound from to to Hf Ht ltac:(lia)). nia.
Qed.

(** Nearest neighbour: the coordinate is that of the exact ratio, or the one
    before it. *)
Lemma scale_coord_near from to i :
  0 < from → 0 < to ≤ 65536 → 0 ≤ i < to →
  i * from / to - 1 ≤ scale_coord from to i ≤ i * from / to.
Proof.
  intros Hf Ht Hi. unfold scale_coord, scale_step.
  pose proof (Z.div_mod (from * 65536) to ltac:(lia)) as H1. pose proof (Z.mod_pos_bound (from * 65536) to ltac:(lia)) as H2.
  set (st := from * 65536 / to) in *. set (r := (from * 65536) mod to) in *.
  split.
  - apply Z.div_le_lower_bound; [lia |].
    pose proof (Z.mul_div_le (i * from) to ltac:(lia)). set (d := i * from / to) in *. nia.
  - apply Z.div_le_lower_bound; [lia |].
    pose proof (Z.mul_div_le (i * st) 65536 ltac:(lia)). set (e := i * st / 65536) in *. nia.
Qed.

Lemma u32_add_mul_s32 x y z : u32 (x + y * s32 z) = u32 (x + y * z).
Proof. by rewrite <- u32_add_r, <- u32_mul_r, u32_s32, u32_mul_r, u32_add_r. Qed.

Lemma step_eq from to :
  0 < from < 32768 → 0 < to → Z.quot (s32 (Z.shiftl from 16)) to = scale_step from to.
Proof.
  intros Hf Ht. rewrite Z.shiftl_mul_pow2 by lia. change (2 ^ 16) with 65536.
  rewrite s32_small by lia. unfold scale_step. apply Z.quot_div_nonneg; lia.
Qed.

Lemma scale_loops_spec m r :
  surface_in m dst → surface_in m src → rect_of src r → rw r < 32768 → rh r < 32768 →
  0 < s_w dst → 0 < s_h dst →
  wp (scale_loops (bytes_per_pixel (info dst)) move dst src r)
    (λ _ m', painted dcv m m' (in_canvas dcv) (mapped_px m (scale_source r (s_w dst) (s_h dst)))) m.
Proof using Hdst Hsrc Hdisj Hbpp Hmove.
  intros Hind Hins Hr Hrw Hrh Hw Hh. unfold rect_of in Hr.
  pose proof (wf_w _ Hdst). pose proof (wf_h _ Hdst). pose proof (wf_bpp _ Hdst).
  pose proof (wf_canvas _ Hdst) as Hc. pose proof (wf_pixels _ Hdst). unfold canvas_wf in Hc. cbn in Hc.
  unfold scale_loops. rewrite (s32_small (s_w dst)), (s32_small (s_h dst)), !step_eq by lia.
  set (op := ptr_add (ptr_add (s_pixels src) _) _).
  replace (s_pixels dst) with (u32 (px_addr dcv 0 0)) by (unfold px_addr; cbn; rewrite u32_small; nia).
  set (tx := scale_step (rw r) (s_w dst)). set (ty := scale_step (rh r) (s_h dst)).
  assert (∀ j k, ptr_add (ptr_add op (Z.shiftr (j * ty) 16 *s s32 (s_pitch src))) (Z.shiftr (k * tx) 16 * bytes_per_pixel (info dst)) =
    u32 (px_addr scv (scale_source r (s_w dst) (s_h dst) k j).1 (scale_source r (s_w dst) (s_h dst) k j).2)) as Hop.
  { intros j k. unfold op, ptr_add, px_addr, scale_source, scale_coord. cbn. rewrite !Z.shiftr_div_pow2 by lia.
    change (2 ^ 16) with 65536. fold tx ty. autorewrite with words. rewrite Hbpp.
    rewrite <- Z.add_assoc, u32_add_l.
    match goal with |- u32 ?a = _ =>
      replace a with (s_pixels src + (rx r + k * tx / 65536) * bytes_per_pixel (info dst) +
        (ry r + j * ty / 65536) * s32 (s_pitch src)) by lia
    end.
    rewrite u32_add_mul_s32. f_equal. lia. }
  clearbody op.
  assert (∀ x y, in_canvas dcv x y →
    in_canvas scv (scale_source r (s_w dst) (s_h dst) x y).1 (scale_source r (s_w dst) (s_h dst) x y).2) as Hsrc_in.
  { unfold in_canvas. cbn. intros x y [Hx Hy].
    pose proof (scale_coord_bound (rw r) (s_w dst) x). pose proof (scale_coord_bound (rh r) (s_h dst) y). lia. }
  eapply wp_mono; [apply (wp_raster_then dcv 0 0 (s_w dst) (s_h dst)
      (mapped_px m (scale_source r (s_w dst) (s_h dst))) (wf_canvas _ Hdst)) with
    (inner := λ j i '(n, x),
       move (ptr_add (u32 (px_addr dcv 0 j)) n)
         (ptr_add (ptr_add op (Z.shiftr (j * ty) 16 *s s32 (s_pitch src)))
            (Z.shiftr x 16 * bytes_per_pixel (info dst))) ;;
       ret (n + bytes_per_pixel (info dst), x +s tx))
    (re := λ j _, ret (ptr_add (u32 (px_addr dcv 0 j)) (s32 (s_pitch dst)), j * ty +s ty))
    (SA := λ j, (u32 (px_addr dcv 0 j), j * ty))
    (SB := λ j i, (i * bytes_per_pixel (info dst), i * tx)) |].
  - cbn. lia.
  - cbn. lia.
  - intros x y Ha. apply mapped_px_ok; [done |]. unfold in_area in Ha. by apply Hsrc_in.
  - apply Hind.
  - intros j Hj. done.
  - intros j Hj. unfold ptr_add. rewrite u32_add_l, u32_add_s32_r.
    pose proof (scale_step_bound (rh r) (s_h dst) (j + 1)) as Hb. fold ty in Hb.
    rewrite s32_small by lia. do 2 f_equal; [f_equal; unfold px_addr; cbn |]; lia.
  - intros j i m' Hj Hi Hp. rewrite !Z.add_0_l in *.
    assert (in_canvas dcv i j) as Hij by (unfold in_canvas; cbn; lia).
    destruct (addr_small dst i j Hdst Hij) as (Ed & _ & _). pose proof (Hsrc_in i j Hij) as Hs.
    destruct (addr_small src _ _ Hsrc Hs) as (Es & _ & _). rewrite Hop, Es.
    assert (ptr_add (u32 (px_addr dcv 0 j)) (i * bytes_per_pixel (info dst)) = px_addr dcv i j) as ->.
    { rewrite <- Ed. unfold ptr_add. rewrite u32_add_l. f_equal. unfold px_addr. cbn. lia. }
    apply wp_bind. eapply wp_mono; [eapply (wp_move m m' _ _ _ i j); try done |].
    + intros x y. apply (raster_in_canvas dcv 0 0 (s_w dst) (s_h dst)); cbn; lia.
    + intros _ m'' ->. apply wp_ret. split; [|done].
      pose proof (scale_step_bound (rw r) (s_w dst) (i + 1)) as Hb. fold tx in Hb.
      rewrite s32_small by lia. f_equal; lia.
  - intros u m' Hp. cbn beta in Hp. eapply painted_iff; [|done]. unfold in_area, in_canvas. cbn. lia.
Qed.
End transform.

(** ** The new surface *)

(** The rectangle the functions work on is the part of [rect] inside the
    surface. *)
Lemma source_rect_spec s rect r :
  surface_wf s → 0 < s_w s → 0 < s_h s → (∀ r0, rect = Some r0 → rect_small r0) →
  source_rect s rect = Some r →
  rect_of s r ∧
  ∀ x y, in_rect r x y ↔ in_canvas (canvas_of s) x y ∧ ∀ r0, rect = Some r0 → in_rect r0 x y.
Proof.
  intros Hwf Hw Hh Hsm. pose proof (full_rect_small s Hwf) as Hfull. pose proof (wf_w _ Hwf). pose proof (wf_h _ Hwf).
  unfold source_rect in *. rewrite !(s32_small (s_w s)), !(s32_small (s_h s)) in * by lia.
  destruct rect as [r0|].
  - specialize (Hsm r0 eq_refl). rewrite rect_intersect_eq by done. cbn [rx ry rw rh]. unfold rect_is_empty. cbn [rw rh].
    case_match eqn:E; [|done]. intros [= <-]. unfold rect_of, in_rect, in_canvas. cbn. split; [lia |].
    intros x y. split; [intros; split; [lia | intros ? [= <-]; lia] | intros [? Hr]; specialize (Hr r0 eq_refl); lia].
  - intros [= <-]. unfold rect_of, in_rect, in_canvas. cbn. split; [lia |]. intros x y. split; [|lia].
    intros ?. split; [lia | done].
Qed.

Lemma px_at_agree m m' cv x y :
  (∀ a, px_addr cv x y ≤ a < px_addr cv x y + ck cv → m' !! a = m !! a) →
  px_at m' cv x y = px_at m cv x y.
Proof.
  intros Ha. unfold px_at, bytes_at. apply map_ext_in. intros i Hi%in_seq. f_equal. apply Ha. lia.
Qed.

(** The pixel of the result given by its coordinates is the only one. *)
Ltac unique_pixel := split_and!; try lia; [f_equal; lia | intros ? ? [=]; lia].

(** A rotation permutes the pixels. *)
Lemma rotate_bijective r type w h :
  0 < rw r < 536870912 → 0 < rh r < 536870912 → 0 ≤ type ≤ 5 → rotated_size r type = Some (w, h) →
  0 < w < 536870912 ∧ 0 < h < 536870912 ∧
  (∀ x y, 0 ≤ x < w → 0 ≤ y < h → in_rect r (rotate_source r type x y).1 (rotate_source r type x y).2) ∧
  (∀ sx sy, in_rect r sx sy →
     ∃ x y, 0 ≤ x < w ∧ 0 ≤ y < h ∧ rotate_source r type x y = (sx, sy) ∧
       ∀ x' y', rotate_source r type x' y' = (sx, sy) → x' = x ∧ y' = y).
Proof.
  intros Hw Hh Ht. assert (type = 0 ∨ type = 1 ∨ type = 2 ∨ type = 3 ∨ type = 4 ∨ type = 5) as Ht' by lia.
  unfold rotated_size, rotate_source, in_rect. cbn [rotate_value].
  destruct Ht' as [->|[->|[->|[->|[->| ->]]]]]; cbn [Z.eqb Pos.eqb orb fst snd];
    rewrite !u32_small by lia; intros [= <- <-]; split_and!; try lia; intros sx sy Hs.
  - exists (sx - rx r), (sy - ry r). unique_pixel.
  - exists (sy - ry r), (rx r + rw r - 1 - sx). unique_pixel.
  - exists (rx r + rw r - 1 - sx), (ry r + rh r - 1 - sy). unique_pixel.
  - exists (ry r + rh r - 1 - sy), (sx - rx r). unique_pixel.
  - exists (rx r + rw r - 1 - sx), (sy - ry r). unique_pixel.
  - exists (sx - rx r), (ry r + rh r - 1 - sy). unique_pixel.
Qed.

Section new_surface.
Context {S : Type} `{AllocatorLaws S}.
Variable uninit : pixel_info.
Implicit Types (ω : world S) (src d : surface_t).

(** The pixels of a surface are a block of its own or outside the heap. *)
Definition pixels_apart src : Prop :=
  needfree src ∨ s_pixels src + s_h src * s_pitch src ≤ alloc_base ∨
  alloc_base + alloc_len ≤ s_pixels src.

(** A surface the functions can read. *)
Record readable ω (p : Z) src (f : pixel_format) : Prop := {
  rd_at : w_surfaces ω !! p = Some src;
  rd_wf : surface_wf src;
  rd_in : surface_in (w_mem ω) src;
  rd_apart : pixels_apart src;
  rd_size : 0 < s_w src ∧ 0 < s_h src;
  rd_info : info src = format_info f;
  rd_format : f ≠ PIXEL_FORMAT_GENERIC;
}.

(** [ω'] is [ω] with the new surface [d] at [q], whose pixel [(x, y)] is the
    pixel [F x y] of [src]; nothing else has changed. *)
Record transformed ω ω' (q : Z) d src (F : Z → Z → Z * Z) : Prop := {
  tr_ok : world_ok ω';
  tr_at : w_surfaces ω' = <[q := d]> (w_surfaces ω);
  tr_fresh k : ¬ owns ω q k ∧ ¬ owns ω (s_pixels d) k;
  tr_owns : ∃ k1 k2, SURFACE_SIZE ≤ k1 ∧ s_h d * s_pitch d ≤ k2 ∧
    ∀ p j, owns ω' p j ↔ owns ω p j ∨ (p = q ∧ j = k1) ∨ (p = s_pixels d ∧ j = k2);
  tr_wf : surface_wf d;
  tr_px x y : in_canvas (canvas_of d) x y →
    px_bytes (w_mem ω') (canvas_of d) x y (px_at (w_mem ω) (canvas_of src) (F x y).1 (F x y).2);
  tr_mem a : ¬ s_pixels d ≤ a < s_pixels d + s_h d * s_pitch d → w_mem ω' !! a = w_mem ω !! a;
}.

Lemma gains_disjoint ω ω' p src f q d :
  world_ok ω → readable ω p src f → gains_surface ω ω' q d → surf_disjoint d src.
Proof using All.
  intros Hok Hrd Hg. destruct (gs_owns _ _ _ _ Hg) as (k1 & k2 & _ & Hk2 & Ho).
  pose proof (wo_heap _ (gs_ok _ _ _ _ Hg)) as Hi.
  assert (owns ω' (s_pixels d) k2) as Hd by (apply Ho; by right; right).
  pose proof (owns_range_law _ _ _ Hi Hd) as Hr. unfold surf_disjoint.
  destruct (rd_apart _ _ _ _ Hrd) as [Hn|Hout]; [|lia].
  destruct (wo_pixels _ Hok _ _ (rd_at _ _ _ _ Hrd) Hn) as (k & Hk & Hsz).
  assert (owns ω' (s_pixels src) k) as Hs by (apply Ho; by left).
  destruct (owns_apart_law _ _ _ _ _ Hi Hd Hs) as [[E _]|Ha]; [|lia].
  rewrite <- E in Hk. by apply (gs_fresh_px _ _ _ _ Hg) in Hk.
Qed.

(** Making the surface and filling it with pixels of [src]. *)
Definition new_from (w h : Z) (f : pixel_format) (body : surface_t → prog mem unit) : prog (world S) Z :=
  let* q := surface_alloc uninit 0 w h f in
  if q =? 0 then ret 0
  else let* d := get_surface q in on_mem (body d) ;; ret q.

(** What [new_from] does: NULL and no change if the allocator refuses the
    structure, the new surface if it gives the structure and the pixels, and
    undefined behaviour, no result, if it refuses the pixels only. *)
Definition new_outcome ω src (w h : Z) (f : pixel_format) (F : Z → Z → Z * Z) (res : option (Z * world S)) : Prop :=
  match res with
  | Some (q, ω') =>
      (q = 0 ∧ alloc SURFACE_SIZE (w_heap ω) = Some (0, w_heap ω') ∧
         world_ok ω' ∧ w_mem ω' = w_mem ω ∧ w_surfaces ω' = w_surfaces ω ∧
         ∀ p j, owns ω' p j ↔ owns ω p j) ∨
      (0 < q ∧ ∃ px h1, alloc SURFACE_SIZE (w_heap ω) = Some (q, h1) ∧
         alloc (h * surface_pitch (format_info f) w) h1 = Some (px, w_heap ω') ∧
         transformed ω ω' q (new_surface w h f SURFACE_PIXELS_NEEDFREE px) src F)
  | None =>
      ∃ p h1 h2, alloc SURFACE_SIZE (w_heap ω) = Some (p, h1) ∧ 0 < p ∧
        alloc (h * surface_pitch (format_info f) w) h1 = Some (0, h2)
  end.

Lemma new_from_spec ω p src f w h body F :
  world_ok ω → readable ω p src f → 0 < w < 536870912 → 0 < h < 536870912 →
  h * surface_pitch (format_info f) w ≤ alloc_max →
  (∀ x y, 0 ≤ x < w → 0 ≤ y < h → in_canvas (canvas_of src) (F x y).1 (F x y).2) →
  (∀ d m, surface_wf d → surface_in m d → surface_in m src → surf_disjoint d src →
     info d = info src → s_w d = w → s_h d = h →
     wp (body d) (λ _ m', painted (canvas_of d) m m' (in_canvas (canvas_of d)) (mapped_px src m F)) m) →
  new_outcome ω src w h f F (new_from w h f body ω).
Proof using All.
  intros Hok Hrd Hw Hh Hsz HF Hbody. unfold new_from, new_outcome, bind at 1.
  pose proof (surface_alloc_spec uninit ω w h f Hok (rd_format _ _ _ _ Hrd) Hw Hh Hsz) as Hspec.
  destruct (surface_alloc _ _ _ _ _ _) as [[q ω1]|]; [|done].
  destruct Hspec as [(-> & Hsame)|(Hq & px & h1 & Ea & Ea' & Hg)]; [by left |].
  set (d := new_surface w h f SURFACE_PIXELS_NEEDFREE px) in *. rewrite (proj2 (Z.eqb_neq q 0)) by lia.
  pose proof (gains_disjoint _ _ _ _ _ _ _ Hok Hrd Hg) as Hdisj.
  pose proof Hrd as [Hat Hswf Hsin _ _ Hinfo Hf]. pose proof Hg as [Hok1 Hat1 Hf1 Hf2 Hown Hfill Hdwf Hdin].
  assert (∀ a, s_pixels src ≤ a < s_pixels src + s_h src * s_pitch src → w_mem ω1 !! a = w_mem ω !! a) as Hkeep.
  { intros a Ha. rewrite Hfill, decide_False; [done |]. unfold surf_disjoint in Hdisj. lia. }
  assert (surface_in (w_mem ω1) src) as Hsin1.
  { split; [apply Hdin |]. intros a Ha. rewrite Hkeep by lia. by apply Hsin. }
  destruct (wp_elim _ _ _ (Hbody d (w_mem ω1) Hdwf Hdin Hsin1 Hdisj (eq_sym Hinfo) eq_refl eq_refl))
    as ([] & m2 & Eb & Hp).
  unfold bind, get_surface. rewrite Hat1, lookup_insert_eq. unfold on_mem. rewrite Eb. unfold ret.
  right. split; [lia |]. exists px, h1. fold d. split; [done |]. split; [done |]. split; try done.
  - apply world_ok_mem; [done | apply Hp | apply Hp].
  - intros x y Hxy. cbn. destruct (painted_in _ _ _ _ _ Hp x y Hxy) as [Hl Hb].
    assert (mapped_px src (w_mem ω1) F x y = mapped_px src (w_mem ω) F x y) as E.
    { apply px_at_agree. intros a Ha. apply Hkeep.
      assert (in_canvas (canvas_of src) (F x y).1 (F x y).2) as Hs by (apply HF; apply Hxy).
      pose proof (px_addr_bounds _ _ _ (wf_canvas _ Hswf) Hs) as B. cbn in *. lia. }
    rewrite E in Hl, Hb. by split.
  - intros a Ha. cbn. rewrite (painted_out _ _ _ _ _ Hp).
    + rewrite Hfill, decide_False by done. done.
    + intros x y Hxy Hin. apply Ha. pose proof (px_addr_bounds _ _ _ (wf_canvas _ Hdwf) Hxy) as B.
      unfold in_px in Hin. cbn in *. lia.
Qed.

Lemma format_move f :
  f ≠ PIXEL_FORMAT_GENERIC →
  ∃ move, moves (bytes_per_pixel (format_info f)) move ∧
    (bytes_per_pixel (format_info f) = 1 ∧ move = move1 ∨ bytes_per_pixel (format_info f) = 2 ∧ move = move2 ∨
     bytes_per_pixel (format_info f) = 3 ∧ move = move3 ∨ bytes_per_pixel (format_info f) = 4 ∧ move = move4).
Proof.
  intros Hf. pose proof moves_1. pose proof moves_2. pose proof moves_3. pose proof moves_4.
  destruct f; try done; cbn; [exists move4 | exists move4 | exists move4 | exists move4 | exists move3 | exists move3
    | exists move2 | exists move2 | exists move1 | exists move1]; (split; [done | lia || tauto]).
Qed.

(** The tests in front of the work pass. *)
Lemma readable_tests ω p src f :
  world_ok ω → readable ω p src f →
  (p =? 0) = false ∧ get_surface p ω = Some (src, ω) ∧ (s_pixels src =? 0) = false ∧
  (bits_per_pixel (info src) <? 8) = false ∧ fmt (info src) = f.
Proof using All.
  intros Hok [Hat Hwf _ _ _ Hi Hf]. destruct (wo_surface _ Hok _ _ Hat) as (k & Hk & _).
  pose proof (owns_range_law _ _ _ (wo_heap _ Hok) Hk). pose proof (wf_pixels _ Hwf). pose proof (wf_bits _ Hwf).
  split_and!; try lia; [unfold get_surface; by rewrite Hat |]. rewrite Hi. by destruct f.
Qed.

Lemma scale_is_new_from ω p src f rect r w h :
  world_ok ω → readable ω p src f → source_rect src rect = Some r → 0 < w → 0 < h →
  ∃ move, moves (bytes_per_pixel (format_info f)) move ∧
    map_software_scale uninit p rect w h ω =
    new_from w h f (λ d, scale_loops (bytes_per_pixel (format_info f)) move d src r) ω.
Proof using All.
  intros Hok Hrd Hr Hw Hh. destruct (readable_tests _ _ _ _ Hok Hrd) as (T1 & T2 & T3 & T4 & T5).
  destruct (format_move f (rd_format _ _ _ _ Hrd)) as (move & Hmove & Hcase). exists move. split; [done |].
  unfold map_software_scale. rewrite (proj2 (Z.leb_gt w 0)), (proj2 (Z.leb_gt h 0)), T1 by lia. cbn [orb].
  unfold bind at 1. rewrite T2, T3, T4, Hr, T5. unfold new_from. rewrite (rd_info _ _ _ _ Hrd).
  destruct Hcase as [[-> ->]|[[-> ->]|[[-> ->]|[-> ->]]]]; done.
Qed.

Lemma rotate_is_new_from ω p src f rect r w h type :
  world_ok ω → readable ω p src f → source_rect src rect = Some r → rotated_size r type = Some (w, h) →
  ∃ move, moves (bytes_per_pixel (format_info f)) move ∧
    map_software_rotate uninit p rect type ω =
    new_from w h f (λ d, rotate_loops (bytes_per_pixel (format_info f)) move d src r type) ω.
Proof using All.
  intros Hok Hrd Hr Hsz. destruct (readable_tests _ _ _ _ Hok Hrd) as (T1 & T2 & T3 & T4 & T5).
  destruct (format_move f (rd_format _ _ _ _ Hrd)) as (move & Hmove & Hcase). exists move. split; [done |].
  unfold map_software_rotate. rewrite T1.
  unfold bind at 1. rewrite T2, T3, T4, Hr, Hsz, T5. unfold new_from. rewrite (rd_info _ _ _ _ Hrd).
  destruct Hcase as [[-> ->]|[[-> ->]|[[-> ->]|[-> ->]]]]; done.
Qed.

(** ** Properties *)

(** C16: If the allocator has room for it, scaling makes a surface of the size
    asked for in which pixel [(x, y)] is the source pixel at [scale_source]: the coordinate is [i * from / to], or
    one less for the rounding of the step to 1/65536, and never outside the
    source rectangle.  The source rectangle is [rect] clipped to the surface.
    If the allocator refuses the structure of the new surface, the result is
    NULL and nothing changes ([new_outcome]). *)
Theorem map_software_scale_correct ω p src f rect r w h :
  world_ok ω → readable ω p src f →
  (∀ r0, rect = Some r0 → rect_small r0) → source_rect src rect = Some r →
  rw r < 32768 → rh r < 32768 → 0 < w ≤ 65536 → 0 < h ≤ 65536 →
  h * surface_pitch (format_info f) w ≤ alloc_max →
  new_outcome ω src w h f (scale_source r w h) (map_software_scale uninit p rect w h ω) ∧
  ∀ x y, 0 ≤ x < w → 0 ≤ y < h →
    let '(sx, sy) := scale_source r w h x y in
    in_rect r sx sy ∧
    x * rw r / w - 1 ≤ sx - rx r ≤ x * rw r / w ∧ y * rh r / h - 1 ≤ sy - ry r ≤ y * rh r / h.
Proof using All.
  intros Hok Hrd Hsm Hr Hrw Hrh Hw Hh Hsz. pose proof Hrd as [_ Hwf _ _ [Hsw Hsh] Hi Hf].
  destruct (source_rect_spec src rect r Hwf Hsw Hsh Hsm Hr) as [Hof _]. pose proof Hof as Hof'. unfold rect_of in Hof'.
  assert (∀ x y, 0 ≤ x < w → 0 ≤ y < h → 0 ≤ scale_coord (rw r) w x < rw r ∧ 0 ≤ scale_coord (rh r) h y < rh r) as Hin
    by (intros; split; apply scale_coord_bound; lia).
  split.
  - destruct (scale_is_new_from ω p src f rect r w h) as (move & Hmove & ->); try done; try lia.
    apply (new_from_spec ω p); try done; try lia.
    + intros x y Hx Hy. specialize (Hin x y Hx Hy). unfold in_canvas. cbn. lia.
    + intros d m Hd Hdin Hsin Hdisj Ei <- <-. rewrite <- Hi, <- Ei in *.
      apply scale_loops_spec; try done; try lia. by rewrite Ei.
  - intros x y Hx Hy. specialize (Hin x y Hx Hy). unfold scale_source, in_rect.
    pose proof (scale_coord_near (rw r) w x). pose proof (scale_coord_near (rh r) h y). lia.
Qed.

(** C15: If the allocator has room for it, rotating by a multiple of 90
    degrees, or mirroring, makes a surface in which pixel [(x, y)] is the source pixel at [rotate_source], and
    [rotate_source] is one to one from the pixels of the result onto those of
    the source rectangle: no pixel is lost or repeated.  If the allocator
    refuses the structure of the new surface, the result is NULL and nothing
    changes ([new_outcome]). *)
Theorem map_software_rotate_correct ω p src f rect r w h type :
  world_ok ω → readable ω p src f →
  (∀ r0, rect = Some r0 → rect_small r0) → source_rect src rect = Some r →
  0 ≤ type ≤ 5 → rotated_size r type = Some (w, h) →
  h * surface_pitch (format_info f) w ≤ alloc_max →
  new_outcome ω src w h f (rotate_source r type) (map_software_rotate uninit p rect type ω) ∧
  (∀ x y, 0 ≤ x < w → 0 ≤ y < h → in_rect r (rotate_source r type x y).1 (rotate_source r type x y).2) ∧
  (∀ sx sy, in_rect r sx sy →
     ∃ x y, 0 ≤ x < w ∧ 0 ≤ y < h ∧ rotate_source r type x y = (sx, sy) ∧
       ∀ x' y', rotate_source r type x' y' = (sx, sy) → x' = x ∧ y' = y).
Proof using All.
  intros Hok Hrd Hsm Hr Htype Hsize Hsz. pose proof Hrd as [_ Hwf _ _ [Hsw Hsh] Hi Hf].
  destruct (source_rect_spec src rect r Hwf Hsw Hsh Hsm Hr) as [Hof _].
  pose proof (wf_w _ Hwf). pose proof (wf_h _ Hwf). pose proof Hof as Hof'. unfold rect_of in Hof'.
  destruct (rotate_bijective r type w h) as (Hw & Hh & Hin & Hbij); [lia .. | done |].
  split_and!; [|done | done].
  destruct (rotate_is_new_from ω p src f rect r w h type) as (move & Hmove & ->); try done.
  apply (new_from_spec ω p); try done; try lia.
  - intros x y Hx Hy. specialize (Hin x y Hx Hy). unfold in_canvas, in_rect in *. cbn. lia.
  - intros d m Hd Hdin Hsin Hdisj Ei <- <-. rewrite <- Hi, <- Ei in *.
    apply rotate_loops_spec; try done. by rewrite Ei.
Qed.
End new_surface.

(** ** Examples on the heap of [malloc.c] *)

#[local] Existing Instance example_layout.
#[local] Existing Instance example_layout_ok.

(** A surface of 2 by 2 pixels outside the heap. *)
Definition example_source : surface_t := example_at PIXEL_FORMAT_RGB_888 4096.

Definition source_world : world heap_state :=
  World (write_bytes (zeros heap (Z.to_nat SZ_16M)) 4096 (replicate 16 0)) example_heap
    {[ heap + 16 := example_source ]}.

Lemma source_world_ok : world_ok source_world.
Proof.
  unfold source_world. split; cbn [w_mem w_heap w_surfaces].
  - destruct example_heap_owned as (B & HB & _). by exists B.
  - apply bytes_ok_write; [apply zeros_ok |]. by apply Forall_replicate.
  - pose proof (zeros_mapped heap (Z.to_nat SZ_16M)) as Hz. rewrite Z2Nat.id in Hz by done.
    intros a Ha. apply write_bytes_mapped, Hz, Ha.
  - intros p s [<- <-]%lookup_singleton_Some. exists 112. split; [apply example_heap_owned | done].
  - intros p s [<- <-]%lookup_singleton_Some. done.
  - intros p s [<- <-]%lookup_singleton_Some. done.
  - intros p s q t [<- <-]%lookup_singleton_Some [<- <-]%lookup_singleton_Some. done.
Qed.

Lemma example_source_in m :
  bytes_ok m → surface_in (write_bytes m 4096 (replicate 16 0)) example_source.
Proof.
  intros Hm. split; [apply bytes_ok_write; [done | by apply Forall_replicate] |].
  apply (has_bytes_mapped _ _ (replicate 16 0)), has_bytes_write.
Qed.

Lemma source_world_readable : readable source_world (heap + 16) example_source PIXEL_FORMAT_RGB_888.
Proof.
  unfold source_world. split; cbn [w_mem w_heap w_surfaces].
  - apply lookup_singleton_eq.
  - by apply example_at_wf.
  - apply example_source_in, zeros_ok.
  - right. left. cbn. lia.
  - cbn. lia.
  - done.
  - discriminate.
Qed.

(** The heap has room for a surface with [n] bytes of pixels. *)
Lemma source_world_grants n :
  0 < fst (default (0, heap_init) (bind (xmalloc SURFACE_SIZE) (λ _, xmalloc n) example_heap)) →
  ∃ q h1 px h2, 0 < q ∧ xmalloc SURFACE_SIZE example_heap = Some (q, h1) ∧ 0 < px ∧ xmalloc n h1 = Some (px, h2).
Proof.
  assert (0 < fst (default (0, heap_init) (xmalloc SURFACE_SIZE example_heap))) as Hq by by vm_compute.
  unfold bind. destruct (xmalloc SURFACE_SIZE example_heap) as [[q h1]|]; [|done]. cbn in Hq.
  destruct (xmalloc n h1) as [[px h2]|] eqn:E; cbn; intros Hpx; [|lia]. by exists q, h1, px, h2.
Qed.

(** So the outcome is a surface. *)
Lemma source_world_outcome w h f F res :
  0 < fst (default (0, heap_init) (bind (xmalloc SURFACE_SIZE)
    (λ _, xmalloc (h * surface_pitch (format_info f) w)) example_heap)) →
  new_outcome source_world example_source w h f F res →
  ∃ q ω' px, res = Some (q, ω') ∧ 0 < q ∧
    transformed source_world ω' q (new_surface w h f SURFACE_PIXELS_NEEDFREE px) example_source F.
Proof.
  intros (q & h1 & px & h2 & Hq & E1 & Hpx & E2)%source_world_grants.
  assert (alloc SURFACE_SIZE (w_heap source_world) = Some (q, h1)) as E1' by exact E1. clear E1.
  unfold new_outcome. rewrite E1'. clear E1'. destruct res as [[q' ω']|].
  - intros [(_ & [= E _] & _)|(Hq' & px' & h1' & _ & _ & Ht)]; [lia |].
    exists q', ω', px'. split; [reflexivity |]. split; assumption.
  - intros (p' & h1' & h2' & [= _ <-] & _ & E'). change (xmalloc (h * surface_pitch (format_info f) w) h1 = Some (0, h2')) in E'.
    rewrite E2 in E'. injection E' as E' _. lia.
Qed.

Lemma map_software_scale_correct_witness :
  ∃ q ω' px, map_software_scale no_info (heap + 16) None 3 5 source_world = Some (q, ω') ∧ 0 < q ∧
    transformed source_world ω' q (new_surface 3 5 PIXEL_FORMAT_RGB_888 SURFACE_PIXELS_NEEDFREE px)
      example_source (scale_source (Rect 0 0 2 2) 3 5).
Proof.
  destruct (map_software_scale_correct no_info source_world (heap + 16) example_source PIXEL_FORMAT_RGB_888
    None (Rect 0 0 2 2) 3 5) as [Ho _];
    [apply source_world_ok | apply source_world_readable | done | done | done | done | lia | lia | by vm_compute |].
  revert Ho. apply source_world_outcome. by vm_compute.
Defined.

Lemma map_software_rotate_correct_witness :
  ∃ q ω' px,
    map_software_rotate no_info (heap + 16) (Some (Rect (-1) 1 10 4)) ROTATE_DEGREE_90 source_world = Some (q, ω') ∧
    0 < q ∧
    transformed source_world ω' q (new_surface 1 2 PIXEL_FORMAT_RGB_888 SURFACE_PIXELS_NEEDFREE px)
      example_source (rotate_source (Rect 0 1 2 1) 1).
Proof.
  destruct (map_software_rotate_correct no_info source_world (heap + 16) example_source PIXEL_FORMAT_RGB_888
    (Some (Rect (-1) 1 10 4)) (Rect 0 1 2 1) 1 2 ROTATE_DEGREE_90) as [Ho _];
    [apply source_world_ok | apply source_world_readable | | done | cbn [rotate_value]; lia | done | by vm_compute |].
  { intros ? [= <-]. unfold rect_small. cbn. lia. }
  revert Ho. apply source_world_outcome. by vm_compute.
Defined.
