(* ===== verification/Clk.v ===== *)
(** * Clocks: [exynos4412-clk.c]

    The rates of the clocks, computed from the registers of the clock
    controller into a table, and the look-up in the table by name.  The
    registers keep what is written to them, as those of the clock controller
    do for the fields used here. *)

From stdpp Require Import prelude strings.
From Stdlib Require Import ZArith Lia.
From S2P Require Import Prelude Prog CString.

Local Open Scope Z_scope.
Local Open Scope word_scope.

(** ** Registers *)

(** The registers of the clock controller. *)
Inductive clk_register :=
  | EXYNOS4412_CLK_SRC_LEFTBUS | EXYNOS4412_CLK_MUX_STAT_LEFTBUS | EXYNOS4412_CLK_DIV_LEFTBUS
  | EXYNOS4412_CLK_DIV_STAT_LEFTBUS | EXYNOS4412_CLK_GATE_IP_LEFTBUS | EXYNOS4412_CLK_GATE_IP_IMAGE
  | EXYNOS4412_CLKOUT_CMU_LEFTBUS | EXYNOS4412_CLKOUT_CMU_LEFTBUS_DIV_STAT
  | EXYNOS4412_CLK_SRC_RIGHTBUS | EXYNOS4412_CLK_MUX_STAT_RIGHTBUS | EXYNOS4412_CLK_DIV_RIGHTBUS
  | EXYNOS4412_CLK_DIV_STAT_RIGHTBUS | EXYNOS4412_CLK_GATE_IP_RIGHTBUS
  | EXYNOS4412_CLK_GATE_IP_PERIR | EXYNOS4412_CLKOUT_CMU_RIGHTBUS
  | EXYNOS4412_CLKOUT_CMU_RIGHTBUS_DIV_STAT | EXYNOS4412_EPLL_LOCK | EXYNOS4412_VPLL_LOCK
  | EXYNOS4412_EPLL_CON0 | EXYNOS4412_EPLL_CON1 | EXYNOS4412_EPLL_CON2 | EXYNOS4412_VPLL_CON0
  | EXYNOS4412_VPLL_CON1 | EXYNOS4412_VPLL_CON2 | EXYNOS4412_CLK_SRC_TOP0 | EXYNOS4412_CLK_SRC_TOP1
  | EXYNOS4412_CLK_SRC_CAM0 | EXYNOS4412_CLK_SRC_TV | EXYNOS4412_CLK_SRC_MFC
  | EXYNOS4412_CLK_SRC_G3D | EXYNOS4412_CLK_SRC_LCD | EXYNOS4412_CLK_SRC_ISP
  | EXYNOS4412_CLK_SRC_MAUDIO | EXYNOS4412_CLK_SRC_FSYS | EXYNOS4412_CLK_SRC_PERIL0
  | EXYNOS4412_CLK_SRC_PERIL1 | EXYNOS4412_CLK_SRC_CAM1 | EXYNOS4412_CLK_SRC_MASK_CAM0
  | EXYNOS4412_CLK_SRC_MASK_TV | EXYNOS4412_CLK_SRC_MASK_LCD | EXYNOS4412_CLK_SRC_MASK_ISP
  | EXYNOS4412_CLK_SRC_MASK_MAUDIO | EXYNOS4412_CLK_SRC_MASK_FSYS | EXYNOS4412_CLK_SRC_MASK_PERIL0
  | EXYNOS4412_CLK_SRC_MASK_PERIL1 | EXYNOS4412_CLK_SRC_MUX_STAT_TOP0
  | EXYNOS4412_CLK_SRC_MUX_STAT_TOP1 | EXYNOS4412_CLK_SRC_MUX_STAT_MFC
  | EXYNOS4412_CLK_SRC_MUX_STAT_G3D | EXYNOS4412_CLK_SRC_MUX_STAT_CAM1 | EXYNOS4412_CLK_DIV_TOP
  | EXYNOS4412_CLK_DIV_CAM0 | EXYNOS4412_CLK_DIV_TV | EXYNOS4412_CLK_DIV_MFC
  | EXYNOS4412_CLK_DIV_G3D | EXYNOS4412_CLK_DIV_LCD | EXYNOS4412_CLK_DIV_ISP
  | EXYNOS4412_CLK_DIV_MAUDIO | EXYNOS4412_CLK_DIV_FSYS0 | EXYNOS4412_CLK_DIV_FSYS1
  | EXYNOS4412_CLK_DIV_FSYS2 | EXYNOS4412_CLK_DIV_FSYS3 | EXYNOS4412_CLK_DIV_PERIL0
  | EXYNOS4412_CLK_DIV_PERIL1 | EXYNOS4412_CLK_DIV_PERIL2 | EXYNOS4412_CLK_DIV_PERIL3
  | EXYNOS4412_CLK_DIV_PERIL4 | EXYNOS4412_CLK_DIV_PERIL5 | EXYNOS4412_CLK_DIV_CAM1
  | EXYNOS4412_CLKDIV2_RATIO | EXYNOS4412_CLK_DIV_STAT_TOP | EXYNOS4412_CLK_DIV_STAT_CAM0
  | EXYNOS4412_CLK_DIV_STAT_TV | EXYNOS4412_CLK_DIV_STAT_MFC | EXYNOS4412_CLK_DIV_STAT_G3D
  | EXYNOS4412_CLK_DIV_STAT_LCD | EXYNOS4412_CLK_DIV_STAT_ISP | EXYNOS4412_CLK_DIV_STAT_MAUDIO
  | EXYNOS4412_CLK_DIV_STAT_FSYS0 | EXYNOS4412_CLK_DIV_STAT_FSYS1 | EXYNOS4412_CLK_DIV_STAT_FSYS2
  | EXYNOS4412_CLK_DIV_STAT_FSYS3 | EXYNOS4412_CLK_DIV_STAT_PERIL0 | EXYNOS4412_CLK_DIV_STAT_PERIL1
  | EXYNOS4412_CLK_DIV_STAT_PERIL2 | EXYNOS4412_CLK_DIV_STAT_PERIL3 | EXYNOS4412_CLK_DIV_STAT_PERIL4
  | EXYNOS4412_CLK_DIV_STAT_PERIL5 | EXYNOS4412_CLK_DIV_STAT_CAM1 | EXYNOS4412_CLKDIV2_STAT
  | EXYNOS4412_CLK_GATE_BUS_FSYS1 | EXYNOS4412_CLK_GATE_IP_CAM | EXYNOS4412_CLK_GATE_IP_TV
  | EXYNOS4412_CLK_GATE_IP_MFC | EXYNOS4412_CLK_GATE_IP_G3D | EXYNOS4412_CLK_GATE_IP_LCD
  | EXYNOS4412_CLK_GATE_IP_ISP | EXYNOS4412_CLK_GATE_IP_FSYS | EXYNOS4412_CLK_GATE_IP_GPS
  | EXYNOS4412_CLK_GATE_IP_PERIL | EXYNOS4412_CLK_GATE_IP_BLOCK | EXYNOS4412_CLKOUT_CMU_TOP
  | EXYNOS4412_CLKOUT_CMU_TOP_DIV_STAT | EXYNOS4412_MPLL_LOCK | EXYNOS4412_MPLL_CON0
  | EXYNOS4412_MPLL_CON1 | EXYNOS4412_CLK_SRC_DMC | EXYNOS4412_CLK_SRC_MASK_DMC
  | EXYNOS4412_CLK_SRC_MUX_STAT_DMC | EXYNOS4412_CLK_DIV_DMC0 | EXYNOS4412_CLK_DIV_DMC1
  | EXYNOS4412_CLK_DIV_STAT_DMC0 | EXYNOS4412_CLK_DIV_STAT_DMC1 | EXYNOS4412_CLK_DIV_BUS_DMC0
  | EXYNOS4412_CLK_DIV_BUS_DMC1 | EXYNOS4412_CLK_DIV_IP_DMC0 | EXYNOS4412_CLK_DIV_IP_DMC1
  | EXYNOS4412_CLKOUT_CMU_DMC | EXYNOS4412_CLKOUT_CMU_DMC_DIV_STAT | EXYNOS4412_DCGIDX_MAP0
  | EXYNOS4412_DCGIDX_MAP1 | EXYNOS4412_DCGIDX_MAP2 | EXYNOS4412_DCGPERF_MAP0
  | EXYNOS4412_DCGPERF_MAP1 | EXYNOS4412_DVCIDX_MAP | EXYNOS4412_FREQ_CPU | EXYNOS4412_FREQ_DPM
  | EXYNOS4412_DVSEMCLK_EN | EXYNOS4412_MAXPERF | EXYNOS4412_DMC_PAUSE_CTRL
  | EXYNOS4412_DDRPHY_LOCK_CTRL | EXYNOS4412_C2C_STATE | EXYNOS4412_APLL_LOCK | EXYNOS4412_APLL_CON0
  | EXYNOS4412_APLL_CON1 | EXYNOS4412_CLK_SRC_CPU | EXYNOS4412_CLK_SRC_MUX_STAT_CPU
  | EXYNOS4412_CLK_DIV_CPU0 | EXYNOS4412_CLK_DIV_CPU1 | EXYNOS4412_CLK_DIV_STAT_CPU0
  | EXYNOS4412_CLK_DIV_STAT_CPU1 | EXYNOS4412_CLK_GATE_IP_CPU | EXYNOS4412_CLKOUT_CMU_CPU
  | EXYNOS4412_CLKOUT_CMU_CPU_DIV_STAT | EXYNOS4412_ARMCLK_STOPCTRL | EXYNOS4412_ATCLK_STOPCTRL
  | EXYNOS4412_PWR_CTRL | EXYNOS4412_PWR_CTRL2 | EXYNOS4412_L2_STATUS | EXYNOS4412_CPU_STATUS
  | EXYNOS4412_PTM_STATUS | EXYNOS4412_CLK_DIV_ISP0 | EXYNOS4412_CLK_DIV_ISP1
  | EXYNOS4412_CLK_DIV_STAT_ISP0 | EXYNOS4412_CLK_DIV_STAT_ISP1 | EXYNOS4412_CLK_GATE_IP_ISP0
  | EXYNOS4412_CLK_GATE_IP_ISP1 | EXYNOS4412_CLKOUT_CMU_ISP | EXYNOS4412_CLKOUT_CMU_ISP_DIV_STAT
  | EXYNOS4412_CMU_ISP_SPARE0 | EXYNOS4412_CMU_ISP_SPARE1 | EXYNOS4412_CMU_ISP_SPARE2
  | EXYNOS4412_CMU_ISP_SPARE3.

Definition clk_address (r : clk_register) : Z :=
  match r with
  | EXYNOS4412_CLK_SRC_LEFTBUS => 0x10030000 + 0x4200
  | EXYNOS4412_CLK_MUX_STAT_LEFTBUS => 0x10030000 + 0x4400
  | EXYNOS4412_CLK_DIV_LEFTBUS => 0x10030000 + 0x4500
  | EXYNOS4412_CLK_DIV_STAT_LEFTBUS => 0x10030000 + 0x4600
  | EXYNOS4412_CLK_GATE_IP_LEFTBUS => 0x10030000 + 0x4800
  | EXYNOS4412_CLK_GATE_IP_IMAGE => 0x10030000 + 0x4930
  | EXYNOS4412_CLKOUT_CMU_LEFTBUS => 0x10030000 + 0x4A00
  | EXYNOS4412_CLKOUT_CMU_LEFTBUS_DIV_STAT => 0x10030000 + 0x4A04
  | EXYNOS4412_CLK_SRC_RIGHTBUS => 0x10030000 + 0x8200
  | EXYNOS4412_CLK_MUX_STAT_RIGHTBUS => 0x10030000 + 0x8400
  | EXYNOS4412_CLK_DIV_RIGHTBUS => 0x10030000 + 0x8500
  | EXYNOS4412_CLK_DIV_STAT_RIGHTBUS => 0x10030000 + 0x8600
  | EXYNOS4412_CLK_GATE_IP_RIGHTBUS => 0x10030000 + 0x8800
  | EXYNOS4412_CLK_GATE_IP_PERIR => 0x10030000 + 0x8960
  | EXYNOS4412_CLKOUT_CMU_RIGHTBUS => 0x10030000 + 0x8A00
  | EXYNOS4412_CLKOUT_CMU_RIGHTBUS_DIV_STAT => 0x10030000 + 0x8A04
  | EXYNOS4412_EPLL_LOCK => 0x10030000 + 0xC010 | EXYNOS4412_VPLL_LOCK => 0x10030000 + 0xC020
  | EXYNOS4412_EPLL_CON0 => 0x10030000 + 0xC110 | EXYNOS4412_EPLL_CON1 => 0x10030000 + 0xC114
  | EXYNOS4412_EPLL_CON2 => 0x10030000 + 0xC118 | EXYNOS4412_VPLL_CON0 => 0x10030000 + 0xC120
  | EXYNOS4412_VPLL_CON1 => 0x10030000 + 0xC124 | EXYNOS4412_VPLL_CON2 => 0x10030000 + 0xC128
  | EXYNOS4412_CLK_SRC_TOP0 => 0x10030000 + 0xC210 | EXYNOS4412_CLK_SRC_TOP1 => 0x10030000 + 0xC214
  | EXYNOS4412_CLK_SRC_CAM0 => 0x10030000 + 0xC220 | EXYNOS4412_CLK_SRC_TV => 0x10030000 + 0xC224
  | EXYNOS4412_CLK_SRC_MFC => 0x10030000 + 0xC228 | EXYNOS4412_CLK_SRC_G3D => 0x10030000 + 0xC22C
  | EXYNOS4412_CLK_SRC_LCD => 0x10030000 + 0xC234 | EXYNOS4412_CLK_SRC_ISP => 0x10030000 + 0xC238
  | EXYNOS4412_CLK_SRC_MAUDIO => 0x10030000 + 0xC23C
  | EXYNOS4412_CLK_SRC_FSYS => 0x10030000 + 0xC240
  | EXYNOS4412_CLK_SRC_PERIL0 => 0x10030000 + 0xC250
  | EXYNOS4412_CLK_SRC_PERIL1 => 0x10030000 + 0xC254
  | EXYNOS4412_CLK_SRC_CAM1 => 0x10030000 + 0xC258
  | EXYNOS4412_CLK_SRC_MASK_CAM0 => 0x10030000 + 0xC320
  | EXYNOS4412_CLK_SRC_MASK_TV => 0x10030000 + 0xC324
  | EXYNOS4412_CLK_SRC_MASK_LCD => 0x10030000 + 0xC334
  | EXYNOS4412_CLK_SRC_MASK_ISP => 0x10030000 + 0xC338
  | EXYNOS4412_CLK_SRC_MASK_MAUDIO => 0x10030000 + 0xC33C
  | EXYNOS4412_CLK_SRC_MASK_FSYS => 0x10030000 + 0xC340
  | EXYNOS4412_CLK_SRC_MASK_PERIL0 => 0x10030000 + 0xC350
  | EXYNOS4412_CLK_SRC_MASK_PERIL1 => 0x10030000 + 0xC354
  | EXYNOS4412_CLK_SRC_MUX_STAT_TOP0 => 0x10030000 + 0xC410
  | EXYNOS4412_CLK_SRC_MUX_STAT_TOP1 => 0x10030000 + 0xC414
  | EXYNOS4412_CLK_SRC_MUX_STAT_MFC => 0x10030000 + 0xC428
  | EXYNOS4412_CLK_SRC_MUX_STAT_G3D => 0x10030000 + 0xC42C
  | EXYNOS4412_CLK_SRC_MUX_STAT_CAM1 => 0x10030000 + 0xC458
  | EXYNOS4412_CLK_DIV_TOP => 0x10030000 + 0xC510 | EXYNOS4412_CLK_DIV_CAM0 => 0x10030000 + 0xC520
  | EXYNOS4412_CLK_DIV_TV => 0x10030000 + 0xC524 | EXYNOS4412_CLK_DIV_MFC => 0x10030000 + 0xC528
  | EXYNOS4412_CLK_DIV_G3D => 0x10030000 + 0xC52C | EXYNOS4412_CLK_DIV_LCD => 0x10030000 + 0xC534
  | EXYNOS4412_CLK_DIV_ISP => 0x10030000 + 0xC538 | EXYNOS4412_CLK_DIV_MAUDIO => 0x10030000 + 0xC53C
  | EXYNOS4412_CLK_DIV_FSYS0 => 0x10030000 + 0xC540
  | EXYNOS4412_CLK_DIV_FSYS1 => 0x10030000 + 0xC544
  | EXYNOS4412_CLK_DIV_FSYS2 => 0x10030000 + 0xC548
  | EXYNOS4412_CLK_DIV_FSYS3 => 0x10030000 + 0xC54C
  | EXYNOS4412_CLK_DIV_PERIL0 => 0x10030000 + 0xC550
  | EXYNOS4412_CLK_DIV_PERIL1 => 0x10030000 + 0xC554
  | EXYNOS4412_CLK_DIV_PERIL2 => 0x10030000 + 0xC558
  | EXYNOS4412_CLK_DIV_PERIL3 => 0x10030000 + 0xC55C
  | EXYNOS4412_CLK_DIV_PERIL4 => 0x10030000 + 0xC560
  | EXYNOS4412_CLK_DIV_PERIL5 => 0x10030000 + 0xC564
  | EXYNOS4412_CLK_DIV_CAM1 => 0x10030000 + 0xC568 | EXYNOS4412_CLKDIV2_RATIO => 0x10030000 + 0xC580
  | EXYNOS4412_CLK_DIV_STAT_TOP => 0x10030000 + 0xC610
  | EXYNOS4412_CLK_DIV_STAT_CAM0 => 0x10030000 + 0xC620
  | EXYNOS4412_CLK_DIV_STAT_TV => 0x10030000 + 0xC624
  | EXYNOS4412_CLK_DIV_STAT_MFC => 0x10030000 + 0xC628
  | EXYNOS4412_CLK_DIV_STAT_G3D => 0x10030000 + 0xC62C
  | EXYNOS4412_CLK_DIV_STAT_LCD => 0x10030000 + 0xC634
  | EXYNOS4412_CLK_DIV_STAT_ISP => 0x10030000 + 0xC638
  | EXYNOS4412_CLK_DIV_STAT_MAUDIO => 0x10030000 + 0xC63C
  | EXYNOS4412_CLK_DIV_STAT_FSYS0 => 0x10030000 + 0xC640
  | EXYNOS4412_CLK_DIV_STAT_FSYS1 => 0x10030000 + 0xC644
  | EXYNOS4412_CLK_DIV_STAT_FSYS2 => 0x10030000 + 0xC648
  | EXYNOS4412_CLK_DIV_STAT_FSYS3 => 0x10030000 + 0xC64C
  | EXYNOS4412_CLK_DIV_STAT_PERIL0 => 0x10030000 + 0xC650
  | EXYNOS4412_CLK_DIV_STAT_PERIL1 => 0x10030000 + 0xC654
  | EXYNOS4412_CLK_DIV_STAT_PERIL2 => 0x10030000 + 0xC658
  | EXYNOS4412_CLK_DIV_STAT_PERIL3 => 0x10030000 + 0xC65C
  | EXYNOS4412_CLK_DIV_STAT_PERIL4 => 0x10030000 + 0xC660
  | EXYNOS4412_CLK_DIV_STAT_PERIL5 => 0x10030000 + 0xC664
  | EXYNOS4412_CLK_DIV_STAT_CAM1 => 0x10030000 + 0xC668
  | EXYNOS4412_CLKDIV2_STAT => 0x10030000 + 0xC680
  | EXYNOS4412_CLK_GATE_BUS_FSYS1 => 0x10030000 + 0xC744
  | EXYNOS4412_CLK_GATE_IP_CAM => 0x10030000 + 0xC920
  | EXYNOS4412_CLK_GATE_IP_TV => 0x10030000 + 0xC924
  | EXYNOS4412_CLK_GATE_IP_MFC => 0x10030000 + 0xC928
  | EXYNOS4412_CLK_GATE_IP_G3D => 0x10030000 + 0xC92C
  | EXYNOS4412_CLK_GATE_IP_LCD => 0x10030000 + 0xC934
  | EXYNOS4412_CLK_GATE_IP_ISP => 0x10030000 + 0xC938
  | EXYNOS4412_CLK_GATE_IP_FSYS => 0x10030000 + 0xC940
  | EXYNOS4412_CLK_GATE_IP_GPS => 0x10030000 + 0xC94C
  | EXYNOS4412_CLK_GATE_IP_PERIL => 0x10030000 + 0xC950
  | EXYNOS4412_CLK_GATE_IP_BLOCK => 0x10030000 + 0xC970
  | EXYNOS4412_CLKOUT_CMU_TOP => 0x10030000 + 0xCA00
  | EXYNOS4412_CLKOUT_CMU_TOP_DIV_STAT => 0x10030000 + 0xCA04
  | EXYNOS4412_MPLL_LOCK => 0x10040000 + 0x0008 | EXYNOS4412_MPLL_CON0 => 0x10040000 + 0x0108
  | EXYNOS4412_MPLL_CON1 => 0x10040000 + 0x010C | EXYNOS4412_CLK_SRC_DMC => 0x10040000 + 0x0200
  | EXYNOS4412_CLK_SRC_MASK_DMC => 0x10040000 + 0x0300
  | EXYNOS4412_CLK_SRC_MUX_STAT_DMC => 0x10040000 + 0x0400
  | EXYNOS4412_CLK_DIV_DMC0 => 0x10040000 + 0x0500 | EXYNOS4412_CLK_DIV_DMC1 => 0x10040000 + 0x0504
  | EXYNOS4412_CLK_DIV_STAT_DMC0 => 0x10040000 + 0x0600
  | EXYNOS4412_CLK_DIV_STAT_DMC1 => 0x10040000 + 0x0604
  | EXYNOS4412_CLK_DIV_BUS_DMC0 => 0x10040000 + 0x0700
  | EXYNOS4412_CLK_DIV_BUS_DMC1 => 0x10040000 + 0x0704
  | EXYNOS4412_CLK_DIV_IP_DMC0 => 0x10040000 + 0x0900
  | EXYNOS4412_CLK_DIV_IP_DMC1 => 0x10040000 + 0x0904
  | EXYNOS4412_CLKOUT_CMU_DMC => 0x10040000 + 0x0A00
  | EXYNOS4412_CLKOUT_CMU_DMC_DIV_STAT => 0x10040000 + 0x0A04
  | EXYNOS4412_DCGIDX_MAP0 => 0x10040000 + 0x1000 | EXYNOS4412_DCGIDX_MAP1 => 0x10040000 + 0x1004
  | EXYNOS4412_DCGIDX_MAP2 => 0x10040000 + 0x1008 | EXYNOS4412_DCGPERF_MAP0 => 0x10040000 + 0x1020
  | EXYNOS4412_DCGPERF_MAP1 => 0x10040000 + 0x1024 | EXYNOS4412_DVCIDX_MAP => 0x10040000 + 0x1040
  | EXYNOS4412_FREQ_CPU => 0x10040000 + 0x1060 | EXYNOS4412_FREQ_DPM => 0x10040000 + 0x1064
  | EXYNOS4412_DVSEMCLK_EN => 0x10040000 + 0x1080 | EXYNOS4412_MAXPERF => 0x10040000 + 0x1084
  | EXYNOS4412_DMC_PAUSE_CTRL => 0x10040000 + 0x1094
  | EXYNOS4412_DDRPHY_LOCK_CTRL => 0x10040000 + 0x1098 | EXYNOS4412_C2C_STATE => 0x10040000 + 0x109C
  | EXYNOS4412_APLL_LOCK => 0x10040000 + 0x4000 | EXYNOS4412_APLL_CON0 => 0x10040000 + 0x4100
  | EXYNOS4412_APLL_CON1 => 0x10040000 + 0x4104 | EXYNOS4412_CLK_SRC_CPU => 0x10040000 + 0x4200
  | EXYNOS4412_CLK_SRC_MUX_STAT_CPU => 0x10040000 + 0x4400
  | EXYNOS4412_CLK_DIV_CPU0 => 0x10040000 + 0x4500 | EXYNOS4412_CLK_DIV_CPU1 => 0x10040000 + 0x4504
  | EXYNOS4412_CLK_DIV_STAT_CPU0 => 0x10040000 + 0x4600
  | EXYNOS4412_CLK_DIV_STAT_CPU1 => 0x10040000 + 0x4604
  | EXYNOS4412_CLK_GATE_IP_CPU => 0x10040000 + 0x4900
  | EXYNOS4412_CLKOUT_CMU_CPU => 0x10040000 + 0x4A00
  | EXYNOS4412_CLKOUT_CMU_CPU_DIV_STAT => 0x10040000 + 0x4A04
  | EXYNOS4412_ARMCLK_STOPCTRL => 0x10040000 + 0x5000
  | EXYNOS4412_ATCLK_STOPCTRL => 0x10040000 + 0x5004 | EXYNOS4412_PWR_CTRL => 0x10040000 + 0x5020
  | EXYNOS4412_PWR_CTRL2 => 0x10040000 + 0x5024 | EXYNOS4412_L2_STATUS => 0x10040000 + 0x5400
  | EXYNOS4412_CPU_STATUS => 0x10040000 + 0x5410 | EXYNOS4412_PTM_STATUS => 0x10040000 + 0x5420
  | EXYNOS4412_CLK_DIV_ISP0 => 0x10040000 + 0x8300 | EXYNOS4412_CLK_DIV_ISP1 => 0x10040000 + 0x8304
  | EXYNOS4412_CLK_DIV_STAT_ISP0 => 0x10040000 + 0x8400
  | EXYNOS4412_CLK_DIV_STAT_ISP1 => 0x10040000 + 0x8404
  | EXYNOS4412_CLK_GATE_IP_ISP0 => 0x10040000 + 0x8800
  | EXYNOS4412_CLK_GATE_IP_ISP1 => 0x10040000 + 0x8804
  | EXYNOS4412_CLKOUT_CMU_ISP => 0x10040000 + 0x8A00
  | EXYNOS4412_CLKOUT_CMU_ISP_DIV_STAT => 0x10040000 + 0x8A04
  | EXYNOS4412_CMU_ISP_SPARE0 => 0x10040000 + 0x8B00
  | EXYNOS4412_CMU_ISP_SPARE1 => 0x10040000 + 0x8B04
  | EXYNOS4412_CMU_ISP_SPARE2 => 0x10040000 + 0x8B08
  | EXYNOS4412_CMU_ISP_SPARE3 => 0x10040000 + 0x8B0C
  end.

Coercion clk_address : clk_register >-> Z.

Inductive EXYNOS4412_PLL := EXYNOS4412_APLL | EXYNOS4412_MPLL | EXYNOS4412_EPLL | EXYNOS4412_VPLL.

(** A null [name] is that of an entry that has not been set up. *)
Record clk_t := Clk {
  name : option string;
  rate : Z;
}.

Record clk_state := ClkState {
  regs : Z → Z;
  exynos4412_clocks : list clk_t;
}.

Definition readl (a : Z) : prog clk_state Z := λ s, Some (u32 (regs s a), s).

Definition writel (a v : Z) : prog clk_state unit := λ s,
  Some (tt, ClkState (λ b, if b =? a then u32 v else regs s b) (exynos4412_clocks s)).

(** Division of 64-bit numbers; a zero divisor is a fault. *)
Definition div64 (a b : Z) : prog clk_state Z := if b =? 0 then fault else ret (a / b).

(** ** The code *)

Definition exynos4412_get_pll_clk (fin : Z) (pll : EXYNOS4412_PLL) : prog clk_state Z :=
  match pll with
  | EXYNOS4412_APLL =>
      let* r := readl EXYNOS4412_APLL_CON0 in
      let m := Z.land (Z.shiftr r 16) 0x3ff in
      let p := Z.land (Z.shiftr r 8) 0x3f in
      let s := Z.land r 0x7 in
      let* q := div64 fin (p *u Z.shiftl 1 s) in
      ret (u64 (m * q))
  | EXYNOS4412_MPLL =>
      let* r := readl EXYNOS4412_MPLL_CON0 in
      let m := Z.land (Z.shiftr r 16) 0x3ff in
      let p := Z.land (Z.shiftr r 8) 0x3f in
      let s := Z.land r 0x7 in
      let* q := div64 fin (p *u Z.shiftl 1 s) in
      ret (u64 (m * q))
  | EXYNOS4412_EPLL =>
      let* r := readl EXYNOS4412_EPLL_CON0 in
      let* k := readl EXYNOS4412_EPLL_CON1 in
      let m := Z.land (Z.shiftr r 16) 0x1ff in
      let p := Z.land (Z.shiftr r 8) 0x3f in
      let s := Z.land r 0x7 in
      let k := Z.land k 0xffff in
      let* q := div64 fin (p *u Z.shiftl 1 s) in
      ret (u64 ((m +u k / 65536) * q))
  | EXYNOS4412_VPLL =>
      let* r := readl EXYNOS4412_VPLL_CON0 in
      let* k := readl EXYNOS4412_VPLL_CON1 in
      let m := Z.land (Z.shiftr r 16) 0x1ff in
      let p := Z.land (Z.shiftr r 8) 0x3f in
      let s := Z.land r 0x7 in
      let k := Z.land k 0xffff in
      let* q := div64 fin (p *u Z.shiftl 1 s) in
      ret (u64 ((m +u k / 65535) * q))
  end.

Definition exynos4412_get_mout_apll (fin : Z) : prog clk_state Z :=
  let* reg := readl EXYNOS4412_CLK_SRC_CPU in
  if Z.land (Z.shiftr reg 0) 0x1 =? 0x1 then exynos4412_get_pll_clk fin EXYNOS4412_APLL else ret fin.

Definition exynos4412_get_sclk_apll (fin : Z) : prog clk_state Z :=
  let* mout_apll := exynos4412_get_mout_apll fin in
  let* r := readl EXYNOS4412_CLK_DIV_CPU0 in
  let reg := Z.land (Z.shiftr r 24) 0x7 in
  div64 mout_apll (reg +u 1).

Definition exynos4412_get_mout_mpll (fin : Z) : prog clk_state Z :=
  let* reg := readl EXYNOS4412_CLK_SRC_CPU in
  if Z.land (Z.shiftr reg 24) 0x1 =? 0x1 then exynos4412_get_pll_clk fin EXYNOS4412_MPLL else ret fin.

Definition exynos4412_get_sclk_mpll (fin : Z) : prog clk_state Z := exynos4412_get_mout_mpll fin.

Definition exynos4412_get_sclk_mpll_user_c (fin : Z) : prog clk_state Z := exynos4412_get_sclk_mpll fin.

Definition exynos4412_get_sclk_mpll_user_t (fin : Z) : prog clk_state Z := exynos4412_get_sclk_mpll fin.

Definition exynos4412_get_mout_core (fin : Z) : prog clk_state Z :=
  let* reg := readl EXYNOS4412_CLK_SRC_CPU in
  if Z.land (Z.shiftr reg 16) 0x1 =? 0x1 then exynos4412_get_sclk_mpll_user_c fin
  else exynos4412_get_mout_apll fin.

Definition exynos4412_get_sclk_epll (fin : Z) : prog clk_state Z :=
  let* reg := readl EXYNOS4412_CLK_SRC_TOP0 in
  if Z.land (Z.shiftr reg 4) 0x1 =? 0x1 then exynos4412_get_pll_clk fin EXYNOS4412_EPLL else ret fin.

Definition exynos4412_get_sclk_vpll (fin : Z) : prog clk_state Z :=
  let* reg := readl EXYNOS4412_CLK_SRC_TOP0 in
  if Z.land (Z.shiftr reg 8) 0x1 =? 0x1 then exynos4412_get_pll_clk fin EXYNOS4412_VPLL else ret fin.

Definition exynos4412_get_armclk (fin : Z) : prog clk_state Z :=
  let* mout_core := exynos4412_get_mout_core fin in
  let* reg := readl EXYNOS4412_CLK_DIV_CPU0 in
  let core := Z.land (Z.shiftr reg 0) 0x7 in
  let core2 := Z.land (Z.shiftr reg 28) 0x7 in
  let* q := div64 mout_core (core +u 1) in
  div64 q (core2 +u 1).

Definition exynos4412_get_sclk_uart (fin ch : Z) : prog clk_state Z :=
  if (ch <? 0) || (ch >? 4) then ret 0
  else
    let* r := readl EXYNOS4412_CLK_SRC_PERIL0 in
    let reg := Z.land (Z.shiftr r (ch *u 4)) 0xf in
    let* mout_uart :=
      (if reg =? 0x6 then exynos4412_get_sclk_mpll_user_t fin
       else if reg =? 0x7 then exynos4412_get_sclk_epll fin
       else if reg =? 0x8 then exynos4412_get_sclk_vpll fin
       else ret fin) in
    let* r := readl EXYNOS4412_CLK_DIV_PERIL0 in
    let reg := Z.land (Z.shiftr r (ch *u 4)) 0xf in
    div64 mout_uart (reg +u 1).

Definition set_clock (i : nat) (n : string) (r : Z) : prog clk_state unit := λ s,
  Some (tt, ClkState (regs s) (<[i := Clk (Some n) r]> (exynos4412_clocks s))).

Definition exynos4412_setup_clocks (xtal : Z) : prog clk_state unit :=
  set_clock 0 "xtal" xtal ;;
  let* r := exynos4412_get_sclk_apll xtal in set_clock 1 "sclk_apll" r ;;
  let* r := exynos4412_get_sclk_mpll xtal in set_clock 2 "sclk_mpll" r ;;
  let* r := exynos4412_get_sclk_epll xtal in set_clock 3 "sclk_epll" r ;;
  let* r := exynos4412_get_sclk_vpll xtal in set_clock 4 "sclk_vpll" r ;;
  let* r := exynos4412_get_armclk xtal in set_clock 5 "armclk" r ;;
  let* r := exynos4412_get_sclk_uart xtal 0 in set_clock 6 "sclk_uart0" r ;;
  let* r := exynos4412_get_sclk_uart xtal 1 in set_clock 7 "sclk_uart1" r ;;
  let* r := exynos4412_get_sclk_uart xtal 2 in set_clock 8 "sclk_uart2" r ;;
  let* r := exynos4412_get_sclk_uart xtal 3 in set_clock 9 "sclk_uart3" r ;;
  let* r := exynos4412_get_sclk_uart xtal 4 in set_clock 10 "sclk_uart4" r ;;
  set_clock 11 "fimd" (800 * 1000 * 1000) ;;
  set_clock 12 "pclk" (100 * 1000 * 1000).

Definition exynos4412_clk_initial : prog clk_state unit :=
  let* r := readl EXYNOS4412_CLK_SRC_LCD in
  writel EXYNOS4412_CLK_SRC_LCD (Z.lor (Z.land r (not32 0xf)) (Z.shiftl 0x6 0)) ;;
  let* r := readl EXYNOS4412_CLK_DIV_LCD in
  writel EXYNOS4412_CLK_DIV_LCD (Z.lor (Z.land r (not32 0xf)) (Z.shiftl 0x0 0)) ;;
  exynos4412_setup_clocks (24 * 1000 * 1000).

(** [exynos4412_clocks[11].rate = clk] *)
Definition exynos4412_fix_fimd (clk : Z) : prog clk_state unit := λ s,
  match exynos4412_clocks s !! 11%nat with
  | Some c => Some (tt, ClkState (regs s) (<[11%nat := Clk (name c) clk]> (exynos4412_clocks s)))
  | None => None
  end.

(** The loop of [clk_get_rate]; [rate] is the caller's variable, [None] a null
    pointer, and [strcmp] of a null name is a fault. *)
Fixpoint find_rate (clocks : list clk_t) (nm : string) (rt : option Z) : prog clk_state (bool * option Z) :=
  match clocks with
  | [] => ret (false, rt)
  | c :: clocks' =>
      match name c with
      | None => fault
      | Some n =>
          if strcmp n nm =? 0
          then ret (true, match rt with Some _ => Some (rate c) | None => None end)
          else find_rate clocks' nm rt
      end
  end.

Definition clk_get_rate (nm : string) (rt : option Z) : prog clk_state (bool * option Z) :=
  let* s := get_state in find_rate (exynos4412_clocks s) nm rt.

(** ** The clock tree *)

(** Bits [pos .. pos + width - 1] of a register. *)
Definition bits (r pos width : Z) : Z := r / 2 ^ pos mod 2 ^ width.

Section clock_tree.
Variable R : Z → Z.
Variable fin : Z.

(** Multiplier, divider and scaler of a PLL. *)
Definition CON0 (pll : EXYNOS4412_PLL) : Z :=
  match pll with
  | EXYNOS4412_APLL => u32 (R EXYNOS4412_APLL_CON0)
  | EXYNOS4412_MPLL => u32 (R EXYNOS4412_MPLL_CON0)
  | EXYNOS4412_EPLL => u32 (R EXYNOS4412_EPLL_CON0)
  | EXYNOS4412_VPLL => u32 (R EXYNOS4412_VPLL_CON0)
  end.

Definition MDIV (pll : EXYNOS4412_PLL) : Z :=
  bits (CON0 pll) 16 (match pll with EXYNOS4412_APLL | EXYNOS4412_MPLL => 10 | _ => 9 end).

Definition PDIV (pll : EXYNOS4412_PLL) : Z := bits (CON0 pll) 8 6.
Definition SDIV (pll : EXYNOS4412_PLL) : Z := bits (CON0 pll) 0 3.

(** The fraction, in 1/65536. *)
Definition KDIV (pll : EXYNOS4412_PLL) : Z :=
  match pll with
  | EXYNOS4412_EPLL => bits (u32 (R EXYNOS4412_EPLL_CON1)) 0 16
  | EXYNOS4412_VPLL => bits (u32 (R EXYNOS4412_VPLL_CON1)) 0 16
  | _ => 0
  end.

(** The output of a PLL by the formulas in the comments of the source, rounded
    down to hertz: [MDIV * FIN / (PDIV * 2^SDIV)] for the first two,
    [(MDIV + K / 65536) * FIN / (PDIV * 2^SDIV)] for [EPLL], and the same with
    65535 for [VPLL]. *)
Definition pll_fout (pll : EXYNOS4412_PLL) : Z :=
  let d := PDIV pll * 2 ^ SDIV pll in
  match pll with
  | EXYNOS4412_APLL | EXYNOS4412_MPLL => MDIV pll * fin / d
  | EXYNOS4412_EPLL => (65536 * MDIV pll + KDIV pll) * fin / (65536 * d)
  | EXYNOS4412_VPLL => (65535 * MDIV pll + KDIV pll) * fin / (65535 * d)
  end.

(** What the code computes: the comparison frequency of a PLL, rounded down,
    times its integer multiplier. *)
Definition pll_out (pll : EXYNOS4412_PLL) : Z :=
  let m := match pll with EXYNOS4412_VPLL => MDIV pll + KDIV pll / 65535 | _ => MDIV pll end in
  m * (fin / (PDIV pll * 2 ^ SDIV pll)).

(** The clock tree over the outputs of the PLLs. *)
Variable out : EXYNOS4412_PLL → Z.

(** A multiplexer: a PLL if its bit is set, else the crystal. *)
Definition mux (reg pos : Z) (pll : EXYNOS4412_PLL) : Z :=
  if bits (u32 (R reg)) pos 1 =? 1 then out pll else fin.

Definition apll : Z := mux EXYNOS4412_CLK_SRC_CPU 0 EXYNOS4412_APLL.
Definition mpll : Z := mux EXYNOS4412_CLK_SRC_CPU 24 EXYNOS4412_MPLL.
Definition epll : Z := mux EXYNOS4412_CLK_SRC_TOP0 4 EXYNOS4412_EPLL.
Definition vpll : Z := mux EXYNOS4412_CLK_SRC_TOP0 8 EXYNOS4412_VPLL.

Definition arm : Z :=
  (if bits (u32 (R EXYNOS4412_CLK_SRC_CPU)) 16 1 =? 1 then mpll else apll) /
  ((bits (u32 (R EXYNOS4412_CLK_DIV_CPU0)) 0 3 + 1) * (bits (u32 (R EXYNOS4412_CLK_DIV_CPU0)) 28 3 + 1)).

Definition uart (ch : Z) : Z :=
  let sel := bits (u32 (R EXYNOS4412_CLK_SRC_PERIL0)) (4 * ch) 4 in
  (if sel =? 6 then mpll else if sel =? 7 then epll else if sel =? 8 then vpll else fin) /
  (bits (u32 (R EXYNOS4412_CLK_DIV_PERIL0)) (4 * ch) 4 + 1).

(** The rate of every clock by its name. *)
Definition rate_table : list (string * Z) :=
  [("xtal", fin);
   ("sclk_apll", apll / (bits (u32 (R EXYNOS4412_CLK_DIV_CPU0)) 24 3 + 1));
   ("sclk_mpll", mpll); ("sclk_epll", epll); ("sclk_vpll", vpll); ("armclk", arm);
   ("sclk_uart0", uart 0); ("sclk_uart1", uart 1); ("sclk_uart2", uart 2); ("sclk_uart3", uart 3);
   ("sclk_uart4", uart 4); ("fimd", 800000000); ("pclk", 100000000)].
End clock_tree.

(** The rates the clocks have. *)
Definition clock_table (R : Z → Z) (fin : Z) : list (string * Z) := rate_table R fin (pll_fout R fin).

(** The rates the code computes. *)
Definition computed_table (R : Z → Z) (fin : Z) : list (string * Z) := rate_table R fin (pll_out R fin).

Fixpoint lookup_clock (t : list (string * Z)) (nm : string) : option Z :=
  match t with
  | [] => None
  | (n, r) :: t' => if decide (n = nm) then Some r else lookup_clock t' nm
  end.

(** No PLL divides by zero. *)
Definition plls_ok (R : Z → Z) : Prop := ∀ pll, PDIV R pll ≠ 0.

(** ** What the code computes *)

(** Running [c] in [s] gives [v] and leaves the state as it is. *)
Definition gives {A} (s : clk_state) (c : prog clk_state A) (v : A) : Prop := c s = Some (v, s).

Lemma gives_bind {A B} s (c : prog clk_state A) (k : A → prog clk_state B) v w :
  gives s c v → gives s (k v) w → gives s (bind c k) w.
Proof. unfold gives, bind. by intros ->. Qed.

Lemma gives_ret {A} s (v : A) : gives s (ret v) v.
Proof. done. Qed.

Lemma gives_readl s a : gives s (readl a) (u32 (regs s a)).
Proof. done. Qed.

Lemma gives_div64 s a b : b ≠ 0 → gives s (div64 a b) (a / b).
Proof. intros Hb. unfold gives, div64. by rewrite (proj2 (Z.eqb_neq b 0)). Qed.

Lemma land_bits r pos w : 0 ≤ pos → 0 ≤ w → Z.land (Z.shiftr r pos) (2 ^ w - 1) = bits r pos w.
Proof.
  intros Hp Hw. unfold bits. rewrite Z.sub_1_r, <- Z.ones_equiv, Z.land_ones, Z.shiftr_div_pow2 by lia. done.
Qed.

Lemma land_bits0 r w : 0 ≤ w → Z.land r (2 ^ w - 1) = bits r 0 w.
Proof. intros Hw. rewrite <- land_bits by lia. by rewrite Z.shiftr_0_r. Qed.

(** The masks of the code. *)
Ltac mask c w :=
  repeat match goal with |- context [Z.land ?a c] => change (Z.land a c) with (Z.land a (2 ^ w - 1)) end.

Ltac masks :=
  mask 0x3ff 10; mask 0x1ff 9; mask 0x3f 6; mask 0xf 4; mask 0x7 3; mask 0x1 1; mask 0xffff 16;
  rewrite ?land_bits, ?land_bits0 by lia.

Lemma bits_range r pos w : 0 ≤ w → 0 ≤ bits r pos w < 2 ^ w.
Proof. intros Hw. apply Z.mod_pos_bound. apply Z.pow_pos_nonneg; lia. Qed.

Lemma pll_divider R pll :
  PDIV R pll ≠ 0 → PDIV R pll *u Z.shiftl 1 (SDIV R pll) = PDIV R pll * 2 ^ SDIV R pll ∧
  0 < PDIV R pll * 2 ^ SDIV R pll.
Proof.
  intros Hp. pose proof (bits_range (CON0 R pll) 8 6 ltac:(lia)) as H1. pose proof (bits_range (CON0 R pll) 0 3 ltac:(lia)) as H2.
  fold (PDIV R pll) in H1. fold (SDIV R pll) in H2. cbn in H1, H2.
  rewrite Z.shiftl_1_l. assert (0 < 2 ^ SDIV R pll ≤ 2 ^ 7).
  { split; [apply Z.pow_pos_nonneg; lia | apply Z.pow_le_mono_r; lia]. }
  change (2 ^ 7) with 128 in *. rewrite u32_small by nia. nia.
Qed.

Section reads.
Context (s : clk_state) (fin : Z).
Hypothesis Hfin : 0 ≤ fin < 4294967296.
Hypothesis Hplls : plls_ok (regs s).

Lemma gives_pll_tail pll m :
  0 ≤ m ≤ 1024 →
  gives s (let* q := div64 fin (PDIV (regs s) pll *u Z.shiftl 1 (SDIV (regs s) pll)) in ret (u64 (m * q)))
    (m * (fin / (PDIV (regs s) pll * 2 ^ SDIV (regs s) pll))).
Proof using Hfin Hplls.
  intros Hm. destruct (pll_divider (regs s) pll (Hplls pll)) as [-> Hd].
  eapply gives_bind; [apply gives_div64; lia |]. unfold gives, ret. do 2 f_equal. apply u64_small.
  set (d := PDIV _ _ * _) in *.
  assert (0 ≤ fin / d ≤ fin) by (split; [apply Z.div_pos; lia | apply Z.div_le_upper_bound; nia]). nia.
Qed.

Lemma gives_pll pll : gives s (exynos4412_get_pll_clk fin pll) (pll_out (regs s) fin pll).
Proof using Hfin Hplls.
  pose proof (bits_range (CON0 (regs s) pll) 16 (match pll with EXYNOS4412_APLL | EXYNOS4412_MPLL => 10 | _ => 9 end)
    ltac:(destruct pll; lia)) as Hm. fold (MDIV (regs s) pll) in Hm.
  assert (0 ≤ KDIV (regs s) pll < 65536) as Hk by (destruct pll; cbn; try lia; apply (bits_range _ 0 16); lia).
  pose proof (gives_pll_tail pll) as Ht. unfold PDIV, SDIV in Ht.
  destruct pll; unfold exynos4412_get_pll_clk; repeat (eapply gives_bind; [apply gives_readl |]); cbv zeta;
    cbn [CON0] in *; masks; unfold pll_out; cbn beta iota zeta; unfold PDIV, SDIV; cbn [CON0].
  - apply Ht. cbn in Hm. lia.
  - apply Ht. cbn in Hm. lia.
  - change (bits (u32 (regs s EXYNOS4412_EPLL_CON1)) 0 16) with (KDIV (regs s) EXYNOS4412_EPLL).
    change (bits (u32 (regs s EXYNOS4412_EPLL_CON0)) 16 9) with (MDIV (regs s) EXYNOS4412_EPLL).
    change (2 ^ 9) with 512 in Hm. rewrite (Z.div_small (KDIV _ _)), Z.add_0_r, (u32_small (MDIV _ _)) by lia. apply Ht. lia.
  - change (bits (u32 (regs s EXYNOS4412_VPLL_CON1)) 0 16) with (KDIV (regs s) EXYNOS4412_VPLL).
    change (bits (u32 (regs s EXYNOS4412_VPLL_CON0)) 16 9) with (MDIV (regs s) EXYNOS4412_VPLL).
    assert (0 ≤ KDIV (regs s) EXYNOS4412_VPLL / 65535 ≤ 1)
      by (split; [apply Z.div_pos; lia | apply Z.div_le_upper_bound; lia]).
    change (2 ^ 9) with 512 in Hm. rewrite (u32_small (MDIV _ _ + _)) by lia.
    apply Ht. lia.
Qed.

Lemma gives_mux reg pos pll :
  0 ≤ pos →
  gives s (let* r := readl reg in
           if Z.land (Z.shiftr r pos) 0x1 =? 0x1 then exynos4412_get_pll_clk fin pll else ret fin)
    (mux (regs s) fin (pll_out (regs s) fin) reg pos pll).
Proof using Hfin Hplls.
  intros Hpos. eapply gives_bind; [apply gives_readl |]. masks. unfold mux. case_match; [apply gives_pll | done].
Qed.

Lemma gives_apll : gives s (exynos4412_get_mout_apll fin) (apll (regs s) fin (pll_out (regs s) fin)).
Proof using Hfin Hplls. by apply gives_mux. Qed.

Lemma gives_mpll : gives s (exynos4412_get_sclk_mpll fin) (mpll (regs s) fin (pll_out (regs s) fin)).
Proof using Hfin Hplls. by apply gives_mux. Qed.

Lemma gives_epll : gives s (exynos4412_get_sclk_epll fin) (epll (regs s) fin (pll_out (regs s) fin)).
Proof using Hfin Hplls. by apply gives_mux. Qed.

Lemma gives_vpll : gives s (exynos4412_get_sclk_vpll fin) (vpll (regs s) fin (pll_out (regs s) fin)).
Proof using Hfin Hplls. by apply gives_mux. Qed.

Lemma divider_small r pos w : 0 ≤ w ≤ 4 → bits r pos w +u 1 = bits r pos w + 1 ∧ bits r pos w + 1 ≠ 0.
Proof.
  intros Hw. pose proof (bits_range r pos w ltac:(lia)) as Hb.
  assert (2 ^ w ≤ 2 ^ 4) by (apply Z.pow_le_mono_r; lia). change (2 ^ 4) with 16 in *. rewrite u32_small; lia.
Qed.

Lemma gives_sclk_apll :
  gives s (exynos4412_get_sclk_apll fin)
    (apll (regs s) fin (pll_out (regs s) fin) / (bits (u32 (regs s EXYNOS4412_CLK_DIV_CPU0)) 24 3 + 1)).
Proof using Hfin Hplls.
  eapply gives_bind; [apply gives_apll |]. eapply gives_bind; [apply gives_readl |]. cbv zeta. masks.
  destruct (divider_small (u32 (regs s EXYNOS4412_CLK_DIV_CPU0)) 24 3) as [-> ?]; [lia |]. by apply gives_div64.
Qed.

Lemma gives_armclk : gives s (exynos4412_get_armclk fin) (arm (regs s) fin (pll_out (regs s) fin)).
Proof using Hfin Hplls.
  apply (gives_bind _ _ _ (if bits (u32 (regs s EXYNOS4412_CLK_SRC_CPU)) 16 1 =? 1
           then mpll (regs s) fin (pll_out (regs s) fin) else apll (regs s) fin (pll_out (regs s) fin))).
  { eapply gives_bind; [apply gives_readl |]. masks. case_match; [apply gives_mpll | apply gives_apll]. }
  eapply gives_bind; [apply gives_readl |]. cbv zeta. masks.
  set (r := u32 (regs s EXYNOS4412_CLK_DIV_CPU0)).
  destruct (divider_small r 0 3) as [-> ?]; [lia |]. destruct (divider_small r 28 3) as [-> ?]; [lia |].
  eapply gives_bind; [by apply gives_div64 |]. unfold arm. fold r.
  pose proof (bits_range r 0 3 ltac:(lia)). pose proof (bits_range r 28 3 ltac:(lia)).
  rewrite <- Z.div_div by lia. by apply gives_div64.
Qed.

Lemma gives_uart ch :
  0 ≤ ch ≤ 4 → gives s (exynos4412_get_sclk_uart fin ch) (uart (regs s) fin (pll_out (regs s) fin) ch).
Proof using Hfin Hplls.
  intros Hch. unfold exynos4412_get_sclk_uart.
  rewrite (proj2 (Z.ltb_ge ch 0)), Z.gtb_ltb, (proj2 (Z.ltb_ge 4 ch)) by lia. cbn [orb].
  rewrite (u32_small (ch * 4)), (Z.mul_comm ch 4) by lia.
  eapply gives_bind; [apply gives_readl |]. cbv zeta. masks. set (sel := bits _ _ 4).
  apply (gives_bind _ _ _ (if sel =? 6 then mpll (regs s) fin (pll_out (regs s) fin) else if sel =? 7 then epll (regs s) fin (pll_out (regs s) fin)
           else if sel =? 8 then vpll (regs s) fin (pll_out (regs s) fin) else fin)).
  { repeat case_match; [apply gives_mpll | apply gives_epll | apply gives_vpll | done]. }
  eapply gives_bind; [apply gives_readl |]. masks.
  destruct (divider_small (u32 (regs s EXYNOS4412_CLK_DIV_PERIL0)) (4 * ch) 4) as [-> ?]; [lia |].
  by apply gives_div64.
Qed.
End reads.

(** The table once it is set up. *)
Definition table_entry (e : string * Z) : clk_t := Clk (Some e.1) e.2.

Lemma bind_gives {A B} s (c : prog clk_state A) (k : A → prog clk_state B) v :
  gives s c v → bind c k s = k v s.
Proof. unfold gives, bind. by intros ->. Qed.

Lemma bind_set_clock {B} i n r (k : unit → prog clk_state B) s :
  bind (set_clock i n r) k s = k tt (ClkState (regs s) (<[i := Clk (Some n) r]> (exynos4412_clocks s))).
Proof. done. Qed.

(** One entry: its rate is computed, then stored. *)
Ltac set_next H :=
  erewrite bind_gives; [|apply H; (assumption || lia)]; rewrite bind_set_clock; cbn [regs exynos4412_clocks].

Lemma setup_clocks_spec s xtal :
  0 ≤ xtal < 4294967296 → plls_ok (regs s) → length (exynos4412_clocks s) = 13%nat →
  exynos4412_setup_clocks xtal s =
    Some (tt, ClkState (regs s) (table_entry <$> computed_table (regs s) xtal)).
Proof.
  intros Hx Hp Hl. destruct s as [R l]. cbn [regs exynos4412_clocks] in *. unfold exynos4412_setup_clocks.
  rewrite bind_set_clock. cbn [regs exynos4412_clocks].
  set_next gives_sclk_apll. set_next gives_mpll. set_next gives_epll. set_next gives_vpll. set_next gives_armclk.
  do 5 set_next gives_uart.
  rewrite bind_set_clock. unfold set_clock. cbn [regs exynos4412_clocks]. do 3 f_equal.
  do 13 (destruct l as [|? l]; [done |]). by destruct l.
Qed.

Lemma find_rate_spec t nm rt s :
  c_string nm = true → Forall (λ e, c_string e.1 = true) t →
  find_rate (table_entry <$> t) nm (Some rt) s =
    Some (match lookup_clock t nm with Some r => (true, Some r) | None => (false, Some rt) end, s).
Proof.
  intros Hn Ht. induction Ht as [|[n r] t Hc _ IH]; [done |]. cbn in *.
  pose proof (strcmp_zero n nm Hc Hn) as Hs. destruct (Z.eqb_spec (strcmp n nm) 0) as [E|E].
  - by rewrite decide_True by by apply Hs.
  - rewrite decide_False by (intros ->; by apply E, Hs). done.
Qed.

Lemma computed_table_names R fin : Forall (λ e, c_string e.1 = true) (computed_table R fin).
Proof. unfold computed_table, rate_table. repeat constructor. Qed.

(** The registers [exynos4412_clk_initial] writes are not those of the table. *)
Lemma clk_initial_spec s :
  plls_ok (regs s) → length (exynos4412_clocks s) = 13%nat →
  wp exynos4412_clk_initial
    (λ _ s', exynos4412_clocks s' = table_entry <$> computed_table (regs s) 24000000) s.
Proof.
  intros Hp Hl. unfold wp, exynos4412_clk_initial, bind at 1 2 3 4, readl, writel.
  cbn [regs exynos4412_clocks]. rewrite setup_clocks_spec; [done | lia | | done].
  intros pll. specialize (Hp pll). by destruct pll.
Qed.

(** The fractions of the PLLs are zero and their comparison frequencies whole
    numbers of hertz. *)
Definition plls_whole (R : Z → Z) (fin : Z) : Prop :=
  ∀ pll, KDIV R pll = 0 ∧ fin mod (PDIV R pll * 2 ^ SDIV R pll) = 0.

Lemma rate_table_ext R fin out out' :
  (∀ pll, out pll = out' pll) → rate_table R fin out = rate_table R fin out'.
Proof. intros E. unfold rate_table, arm, uart, apll, mpll, epll, vpll, mux. by rewrite !E. Qed.

(** Then the code computes the rates of the formulas. *)
Lemma computed_exact R fin : plls_ok R → plls_whole R fin → computed_table R fin = clock_table R fin.
Proof.
  intros Hok Hw. apply rate_table_ext. intros pll. destruct (Hw pll) as [HK Hm].
  destruct (pll_divider R pll (Hok pll)) as [_ Hd]. unfold pll_out, pll_fout. rewrite HK.
  set (d := PDIV R pll * _) in *. apply Z.mod_divide in Hm as [q ->]; [| lia].
  rewrite Z.div_mul by lia. set (m := MDIV R pll). destruct pll; rewrite ?Z.add_0_r; symmetry.
  - rewrite Z.mul_assoc. apply Z.div_mul. lia.
  - rewrite Z.mul_assoc. apply Z.div_mul. lia.
  - replace (65536 * m * (q * d)) with (m * q * (65536 * d)) by lia. apply Z.div_mul. lia.
  - replace (65535 * m * (q * d)) with (m * q * (65535 * d)) by lia. rewrite Z.div_mul by lia. done.
Qed.

(** ** Properties *)


(** Registers with every PLL selected and running. *)
Definition example_regs (a : Z) : Z :=
  if a =? EXYNOS4412_APLL_CON0 then 0xA0FA0400          (* m = 250, p = 4, s = 0 *)
  else if a =? EXYNOS4412_MPLL_CON0 then 0xA0640300     (* m = 100, p = 3, s = 0 *)
  else if a =? EXYNOS4412_EPLL_CON0 then 0xA0400203     (* m = 64, p = 2, s = 3 *)
  else if a =? EXYNOS4412_VPLL_CON0 then 0xA06F0302     (* m = 111, p = 3, s = 2 *)
  else if a =? EXYNOS4412_CLK_SRC_CPU then 0x01000001
  else if a =? EXYNOS4412_CLK_SRC_TOP0 then 0x110
  else if a =? EXYNOS4412_CLK_SRC_PERIL0 then 0x00066666
  else if a =? EXYNOS4412_CLK_DIV_PERIL0 then 0x00077777
  else 0.

Definition example_clk : clk_state := ClkState example_regs (replicate 13 (Clk None 0)).

Lemma example_plls : plls_ok example_regs.
Proof. by intros []. Qed.

Lemma example_whole : plls_whole example_regs 24000000.
Proof. by intros []. Qed.


(** The rate computed for a PLL with integer multiplier, [APLL] or [MPLL],
    is that of the formula [FOUT = MDIV * FIN / (PDIV * 2^SDIV)] rounded down to
    a multiple of [MDIV]: never above it, at most [MDIV] hertz below it, and
    equal to it when the divider divides [FIN]. *)
Theorem pll_clk_documented s fin pll :
  pll = EXYNOS4412_APLL ∨ pll = EXYNOS4412_MPLL →
  0 ≤ fin < 4294967296 → plls_ok (regs s) →
  ∃ fout, exynos4412_get_pll_clk fin pll s = Some (fout, s) ∧
    let m := MDIV (regs s) pll in
    let d := PDIV (regs s) pll * 2 ^ SDIV (regs s) pll in
    fout ≤ m * fin / d ≤ fout + m ∧ (fin mod d = 0 → fout = m * fin / d).
Proof.
  intros Hpll Hfin Hp. exists (pll_out (regs s) fin pll). split; [by apply gives_pll |].
  destruct (pll_divider (regs s) pll (Hp pll)) as [_ Hd]. cbn zeta.
  assert (pll_out (regs s) fin pll = MDIV (regs s) pll * (fin / (PDIV (regs s) pll * 2 ^ SDIV (regs s) pll))) as ->
    by (by destruct Hpll as [-> | ->]).
  assert (0 ≤ MDIV (regs s) pll) as Hm by (apply bits_range; destruct Hpll as [-> | ->]; lia).
  set (d := PDIV _ _ * _) in *. set (m := MDIV _ _) in *.
  pose proof (Z.div_mod fin d ltac:(lia)) as E. pose proof (Z.mod_pos_bound fin d Hd) as Hr. split.
  - split; [apply Z.div_le_lower_bound; nia |]. apply Z.lt_succ_r, Z.div_lt_upper_bound; nia.
  - intros E0. rewrite E at 2. rewrite E0, Z.add_0_r, Z.mul_assoc, (Z.mul_comm m d), <- Z.mul_assoc, (Z.mul_comm d), Z.div_mul; lia.
Qed.

Lemma pll_clk_documented_witness :
  ∃ fout, exynos4412_get_pll_clk 24000000 EXYNOS4412_APLL example_clk = Some (fout, example_clk) ∧
    fout = 250 * 24000000 / (4 * 2 ^ 0).
Proof.
  destruct (pll_clk_documented example_clk 24000000 EXYNOS4412_APLL) as (fout & E & _ & Hd);
    [by left | lia | apply example_plls |].
  exists fout. split; [exact E |]. exact (Hd eq_refl).
Defined.

(** The fraction of the two fractional PLLs is lost: with
    [FOUT = (MDIV + K / 65536) * FIN / (PDIV * 2^SDIV)] the code divides [K], which
    is below 65536, as an integer.  The rate computed for [EPLL] is the same for
    every [K], and that of [VPLL] for every [K] but 65535. *)
Theorem pll_fraction_lost s fin k k' :
  0 ≤ fin < 4294967296 → plls_ok (regs s) → 0 ≤ k < 65536 → 0 ≤ k' < 65536 →
  let with_k con1 v := ClkState (λ b, if b =? con1 then v else regs s b) (exynos4412_clocks s) in
  fst <$> exynos4412_get_pll_clk fin EXYNOS4412_EPLL (with_k EXYNOS4412_EPLL_CON1 k) =
  fst <$> exynos4412_get_pll_clk fin EXYNOS4412_EPLL (with_k EXYNOS4412_EPLL_CON1 k') ∧
  (k < 65535 → k' < 65535 →
   fst <$> exynos4412_get_pll_clk fin EXYNOS4412_VPLL (with_k EXYNOS4412_VPLL_CON1 k) =
   fst <$> exynos4412_get_pll_clk fin EXYNOS4412_VPLL (with_k EXYNOS4412_VPLL_CON1 k')).
Proof.
  intros Hfin Hp Hk Hk' with_k.
  assert (∀ con1 v, con1 = EXYNOS4412_EPLL_CON1 ∨ con1 = EXYNOS4412_VPLL_CON1 → plls_ok (regs (with_k con1 v))) as Hok.
  { intros con1 v Hc pll. specialize (Hp pll). by destruct Hc as [-> | ->], pll. }
  split; [|intros Hlt Hlt'].
  { by rewrite !(gives_pll _ fin Hfin (Hok EXYNOS4412_EPLL_CON1 _ (or_introl eq_refl))). }
  rewrite !(gives_pll _ fin Hfin (Hok EXYNOS4412_VPLL_CON1 _ (or_intror eq_refl))).
  cbn. f_equal. unfold pll_out. do 2 f_equal. unfold KDIV, bits, with_k. cbn [regs].
  rewrite Z.eqb_refl, !(u32_small k), !(u32_small k'), !Z.div_1_r by lia. change (2 ^ 16) with 65536.
  rewrite !Z.mod_small, !Z.div_small; lia.
Qed.

Lemma pll_fraction_lost_witness :
  fst <$> exynos4412_get_pll_clk 24000000 EXYNOS4412_EPLL
    (ClkState (λ b, if b =? EXYNOS4412_EPLL_CON1 then 0 else example_regs b) (exynos4412_clocks example_clk)) =
  fst <$> exynos4412_get_pll_clk 24000000 EXYNOS4412_EPLL
    (ClkState (λ b, if b =? EXYNOS4412_EPLL_CON1 then 32768 else example_regs b) (exynos4412_clocks example_clk)).
Proof.
  exact (proj1 (pll_fraction_lost example_clk 24000000 0 32768 ltac:(lia) example_plls ltac:(lia) ltac:(lia))).
Defined.
