(* ===== verification/Fb.v ===== *)
(** * Display controller: [exynos4412-fb.c]

    The registers of the display controller (FIMD) and of the port it drives
    a panel through: output path, polarity, timing, dot clock, window 0 and
    its buffer; the exchange of the two buffers; and the five panels the board
    knows.  The registers are those of [Clk], which keep what is written to
    them; drawing on the screen is in [Screen]. *)

From stdpp Require Import prelude strings.
From Stdlib Require Import ZArith Lia.
From S2P Require Import Prelude Prog CString Rect Pixel Surface Clk.

Local Open Scope Z_scope.
Local Open Scope word_scope.

(** ** Registers *)

Definition EXYNOS4412_LCD_BASE : Z := 0x11C00000.

(** The registers of the controller with their offsets. *)
Inductive lcd_register :=
  | VIDCON0 | VIDCON1 | VIDCON2 | VIDCON3 | VIDTCON0 | VIDTCON1 | VIDTCON2 | VIDTCON3 | WINCON0
  | WINCON1 | WINCON2 | WINCON3 | WINCON4 | SHADOWCON | WINCHMAP2 | VIDOSD0A | VIDOSD0B | VIDOSD0C
  | VIDOSD1A | VIDOSD1B | VIDOSD1C | VIDOSD1D | VIDOSD2A | VIDOSD2B | VIDOSD2C | VIDOSD2D | VIDOSD3A
  | VIDOSD3B | VIDOSD3C | VIDOSD4A | VIDOSD4B | VIDOSD4C | VIDW00ADD0B0 | VIDW00ADD0B1
  | VIDW00ADD0B2 | VIDW01ADD0B0 | VIDW01ADD0B1 | VIDW01ADD0B2 | VIDW02ADD0B0 | VIDW02ADD0B1
  | VIDW02ADD0B2 | VIDW03ADD0B0 | VIDW03ADD0B1 | VIDW03ADD0B2 | VIDW04ADD0B0 | VIDW04ADD0B1
  | VIDW04ADD0B2 | VIDW00ADD1B0 | VIDW00ADD1B1 | VIDW00ADD1B2 | VIDW01ADD1B0 | VIDW01ADD1B1
  | VIDW01ADD1B2 | VIDW02ADD1B0 | VIDW02ADD1B1 | VIDW02ADD1B2 | VIDW03ADD1B0 | VIDW03ADD1B1
  | VIDW03ADD1B2 | VIDW04ADD1B0 | VIDW04ADD1B1 | VIDW04ADD1B2 | VIDW00ADD2 | VIDW01ADD2 | VIDW02ADD2
  | VIDW03ADD2 | VIDW04ADD2 | VIDINTCON0 | VIDINTCON1 | W1KEYCON0 | W1KEYCON1 | W2KEYCON0
  | W2KEYCON1 | W3KEYCON0 | W3KEYCON1 | W4KEYCON0 | W4KEYCON1 | W1KEYALPHA | W2KEYALPHA | W3KEYALPHA
  | W4KEYALPHA | DITHMODE | WIN0MAP | WIN1MAP | WIN2MAP | WIN3MAP | WIN4MAP | WPALCON_H | WPALCON_L
  | TRIGCON | I80IFCONA0 | I80IFCONA1 | I80IFCONB0 | I80IFCONB1 | COLORGAINCON | LDI_CMDCON0
  | LDI_CMDCON1 | SIFCCON0 | SIFCCON1 | SIFCCON2 | HUECOEF_CR_1 | HUECOEF_CR_2 | HUECOEF_CR_3
  | HUECOEF_CR_4 | HUECOEF_CB_1 | HUECOEF_CB_2 | HUECOEF_CB_3 | HUECOEF_CB_4 | HUEOFFSET
  | VIDW0ALPHA0 | VIDW0ALPHA1 | VIDW1ALPHA0 | VIDW1ALPHA1 | VIDW2ALPHA0 | VIDW2ALPHA1 | VIDW3ALPHA0
  | VIDW3ALPHA1 | VIDW4ALPHA0 | VIDW4ALPHA1 | BLENDEQ1 | BLENDEQ2 | BLENDEQ3 | BLENDEQ4 | BLENDCON
  | W0RTQOSCON | W1RTQOSCON | W2RTQOSCON | W3RTQOSCON | W4RTQOSCON | LDI_CMD0 | LDI_CMD1 | LDI_CMD2
  | LDI_CMD3 | LDI_CMD4 | LDI_CMD5 | LDI_CMD6 | LDI_CMD7 | LDI_CMD8 | LDI_CMD9 | LDI_CMD10
  | LDI_CMD11 | SHD_VIDW00ADD0 | SHD_VIDW01ADD0 | SHD_VIDW02ADD0 | SHD_VIDW03ADD0 | SHD_VIDW04ADD0
  | SHD_VIDW00ADD1 | SHD_VIDW01ADD1 | SHD_VIDW02ADD1 | SHD_VIDW03ADD1 | SHD_VIDW04ADD1
  | SHD_VIDW00ADD2 | SHD_VIDW01ADD2 | SHD_VIDW02ADD2 | SHD_VIDW03ADD2 | SHD_VIDW04ADD2.

Definition lcd_offset (r : lcd_register) : Z :=
  match r with
  | VIDCON0 => 0x0000 | VIDCON1 => 0x0004 | VIDCON2 => 0x0008 | VIDCON3 => 0x000C
  | VIDTCON0 => 0x0010 | VIDTCON1 => 0x0014 | VIDTCON2 => 0x0018 | VIDTCON3 => 0x001C
  | WINCON0 => 0x0020 | WINCON1 => 0x0024 | WINCON2 => 0x0028 | WINCON3 => 0x002C
  | WINCON4 => 0x0030 | SHADOWCON => 0x0034 | WINCHMAP2 => 0x003C | VIDOSD0A => 0x0040
  | VIDOSD0B => 0x0044 | VIDOSD0C => 0x0048 | VIDOSD1A => 0x0050 | VIDOSD1B => 0x0054
  | VIDOSD1C => 0x0058 | VIDOSD1D => 0x005C | VIDOSD2A => 0x0060 | VIDOSD2B => 0x0064
  | VIDOSD2C => 0x0068 | VIDOSD2D => 0x006C | VIDOSD3A => 0x0070 | VIDOSD3B => 0x0074
  | VIDOSD3C => 0x0078 | VIDOSD4A => 0x0080 | VIDOSD4B => 0x0084 | VIDOSD4C => 0x0088
  | VIDW00ADD0B0 => 0x00A0 | VIDW00ADD0B1 => 0x00A4 | VIDW00ADD0B2 => 0x20A0
  | VIDW01ADD0B0 => 0x00A8 | VIDW01ADD0B1 => 0x00AC | VIDW01ADD0B2 => 0x20A8
  | VIDW02ADD0B0 => 0x00B0 | VIDW02ADD0B1 => 0x00B4 | VIDW02ADD0B2 => 0x20B0
  | VIDW03ADD0B0 => 0x00B8 | VIDW03ADD0B1 => 0x00BC | VIDW03ADD0B2 => 0x20B8
  | VIDW04ADD0B0 => 0x00C0 | VIDW04ADD0B1 => 0x00C4 | VIDW04ADD0B2 => 0x20C0
  | VIDW00ADD1B0 => 0x00D0 | VIDW00ADD1B1 => 0x00D4 | VIDW00ADD1B2 => 0x20D0
  | VIDW01ADD1B0 => 0x00D8 | VIDW01ADD1B1 => 0x00DC | VIDW01ADD1B2 => 0x20D8
  | VIDW02ADD1B0 => 0x00E0 | VIDW02ADD1B1 => 0x00E4 | VIDW02ADD1B2 => 0x20E0
  | VIDW03ADD1B0 => 0x00E8 | VIDW03ADD1B1 => 0x00EC | VIDW03ADD1B2 => 0x20E8
  | VIDW04ADD1B0 => 0x00F0 | VIDW04ADD1B1 => 0x00F4 | VIDW04ADD1B2 => 0x20F0 | VIDW00ADD2 => 0x0100
  | VIDW01ADD2 => 0x0104 | VIDW02ADD2 => 0x0108 | VIDW03ADD2 => 0x010C | VIDW04ADD2 => 0x0110
  | VIDINTCON0 => 0x0130 | VIDINTCON1 => 0x0134 | W1KEYCON0 => 0x0140 | W1KEYCON1 => 0x0144
  | W2KEYCON0 => 0x0148 | W2KEYCON1 => 0x014C | W3KEYCON0 => 0x0150 | W3KEYCON1 => 0x0154
  | W4KEYCON0 => 0x0158 | W4KEYCON1 => 0x015C | W1KEYALPHA => 0x0160 | W2KEYALPHA => 0x0164
  | W3KEYALPHA => 0x0168 | W4KEYALPHA => 0x016C | DITHMODE => 0x0170 | WIN0MAP => 0x0180
  | WIN1MAP => 0x0184 | WIN2MAP => 0x0188 | WIN3MAP => 0x018C | WIN4MAP => 0x0190
  | WPALCON_H => 0x019C | WPALCON_L => 0x01A0 | TRIGCON => 0x01A4 | I80IFCONA0 => 0x01B0
  | I80IFCONA1 => 0x01B4 | I80IFCONB0 => 0x01B8 | I80IFCONB1 => 0x01BC | COLORGAINCON => 0x01C0
  | LDI_CMDCON0 => 0x01D0 | LDI_CMDCON1 => 0x01D4 | SIFCCON0 => 0x01E0 | SIFCCON1 => 0x01E4
  | SIFCCON2 => 0x01E8 | HUECOEF_CR_1 => 0x01EC | HUECOEF_CR_2 => 0x01F0 | HUECOEF_CR_3 => 0x01F4
  | HUECOEF_CR_4 => 0x01F8 | HUECOEF_CB_1 => 0x01FC | HUECOEF_CB_2 => 0x0200
  | HUECOEF_CB_3 => 0x0204 | HUECOEF_CB_4 => 0x0208 | HUEOFFSET => 0x020C | VIDW0ALPHA0 => 0x021C
  | VIDW0ALPHA1 => 0x0220 | VIDW1ALPHA0 => 0x0224 | VIDW1ALPHA1 => 0x0228 | VIDW2ALPHA0 => 0x022C
  | VIDW2ALPHA1 => 0x0230 | VIDW3ALPHA0 => 0x0234 | VIDW3ALPHA1 => 0x0238 | VIDW4ALPHA0 => 0x023C
  | VIDW4ALPHA1 => 0x0240 | BLENDEQ1 => 0x0244 | BLENDEQ2 => 0x0248 | BLENDEQ3 => 0x024C
  | BLENDEQ4 => 0x0250 | BLENDCON => 0x0260 | W0RTQOSCON => 0x0264 | W1RTQOSCON => 0x0268
  | W2RTQOSCON => 0x026C | W3RTQOSCON => 0x0270 | W4RTQOSCON => 0x0274 | LDI_CMD0 => 0x0280
  | LDI_CMD1 => 0x0284 | LDI_CMD2 => 0x0288 | LDI_CMD3 => 0x028C | LDI_CMD4 => 0x0290
  | LDI_CMD5 => 0x0294 | LDI_CMD6 => 0x0298 | LDI_CMD7 => 0x029C | LDI_CMD8 => 0x02A0
  | LDI_CMD9 => 0x02A4 | LDI_CMD10 => 0x02A8 | LDI_CMD11 => 0x02AC | SHD_VIDW00ADD0 => 0x40A0
  | SHD_VIDW01ADD0 => 0x40A8 | SHD_VIDW02ADD0 => 0x40B0 | SHD_VIDW03ADD0 => 0x40B8
  | SHD_VIDW04ADD0 => 0x40C0 | SHD_VIDW00ADD1 => 0x40D0 | SHD_VIDW01ADD1 => 0x40D8
  | SHD_VIDW02ADD1 => 0x40E0 | SHD_VIDW03ADD1 => 0x40E8 | SHD_VIDW04ADD1 => 0x40F0
  | SHD_VIDW00ADD2 => 0x4100 | SHD_VIDW01ADD2 => 0x4104 | SHD_VIDW02ADD2 => 0x4108
  | SHD_VIDW03ADD2 => 0x410C | SHD_VIDW04ADD2 => 0x4110
  end.

Coercion lcd_offset : lcd_register >-> Z.

Definition VIDCON0_VIDOUT_MASK : Z := Z.shiftl 0x7 26.

(** The fields of the registers: a value cut to its width, at its position. *)
Inductive lcd_field :=
  | VIDCON0_CLKVAL_F | VIDTCON0_VBPDE | VIDTCON0_VBPD | VIDTCON0_VFPD | VIDTCON0_VSPW |
  VIDTCON1_VFPDE | VIDTCON1_HBPD | VIDTCON1_HFPD | VIDTCON1_HSPW | VIDTCON2_LINEVAL |
  VIDTCON2_HOZVAL | SHADOWCON_PROTECT | VIDADDR_OFFSIZE | VIDADDR_PAGEWIDTH | VIDOSD_LEFT_X |
  VIDOSD_TOP_Y | VIDOSD_RIGHT_X | VIDOSD_BOTTOM_Y | VIDOSD_SIZE.

Definition lcd_field_value (f : lcd_field) (x : Z) : Z :=
  match f with
  | VIDCON0_CLKVAL_F => Z.shiftl (Z.land x 0xff) 6
  | VIDTCON0_VBPDE => Z.shiftl (Z.land x 0xff) 24
  | VIDTCON0_VBPD => Z.shiftl (Z.land x 0xff) 16
  | VIDTCON0_VFPD => Z.shiftl (Z.land x 0xff) 8
  | VIDTCON0_VSPW => Z.shiftl (Z.land x 0xff) 0
  | VIDTCON1_VFPDE => Z.shiftl (Z.land x 0xff) 24
  | VIDTCON1_HBPD => Z.shiftl (Z.land x 0xff) 16
  | VIDTCON1_HFPD => Z.shiftl (Z.land x 0xff) 8
  | VIDTCON1_HSPW => Z.shiftl (Z.land x 0xff) 0
  | VIDTCON2_LINEVAL => Z.shiftl (Z.land x 0x7ff) 11
  | VIDTCON2_HOZVAL => Z.shiftl (Z.land x 0x7ff) 0
  | SHADOWCON_PROTECT => Z.shiftl (Z.land (Z.shiftl 1 x) 0x1f) 10
  | VIDADDR_OFFSIZE => Z.shiftl (Z.land x 0x1fff) 13
  | VIDADDR_PAGEWIDTH => Z.shiftl (Z.land x 0x1fff) 0
  | VIDOSD_LEFT_X => Z.shiftl (Z.land x 0x7ff) 11
  | VIDOSD_TOP_Y => Z.shiftl (Z.land x 0x7ff) 0
  | VIDOSD_RIGHT_X => Z.shiftl (Z.land x 0x7ff) 11
  | VIDOSD_BOTTOM_Y => Z.shiftl (Z.land x 0x7ff) 0
  | VIDOSD_SIZE => Z.shiftl (Z.land x 0xffffff) 0
  end.

Coercion lcd_field_value : lcd_field >-> Funclass.

(** The ports and the registers of a port ([reg-gpio.h]). *)
Inductive gpio_port :=
  | EXYNOS4412_GPA0_BASE | EXYNOS4412_GPA1_BASE | EXYNOS4412_GPB_BASE | EXYNOS4412_GPC0_BASE |
  EXYNOS4412_GPC1_BASE | EXYNOS4412_GPD0_BASE | EXYNOS4412_GPD1_BASE | EXYNOS4412_GPF0_BASE |
  EXYNOS4412_GPF1_BASE | EXYNOS4412_GPF2_BASE | EXYNOS4412_GPF3_BASE | EXYNOS4412_GPJ0_BASE |
  EXYNOS4412_GPJ1_BASE | EXYNOS4412_GPK0_BASE | EXYNOS4412_GPK1_BASE | EXYNOS4412_GPK2_BASE |
  EXYNOS4412_GPK3_BASE | EXYNOS4412_GPL0_BASE | EXYNOS4412_GPL1_BASE | EXYNOS4412_GPL2_BASE |
  EXYNOS4412_GPY0_BASE | EXYNOS4412_GPY1_BASE | EXYNOS4412_GPY2_BASE | EXYNOS4412_GPY3_BASE |
  EXYNOS4412_GPY4_BASE | EXYNOS4412_GPY5_BASE | EXYNOS4412_GPY6_BASE | EXYNOS4412_GPM0_BASE |
  EXYNOS4412_GPM1_BASE | EXYNOS4412_GPM2_BASE | EXYNOS4412_GPM3_BASE | EXYNOS4412_GPM4_BASE |
  EXYNOS4412_GPX0_BASE | EXYNOS4412_GPX1_BASE | EXYNOS4412_GPX2_BASE | EXYNOS4412_GPX3_BASE |
  EXYNOS4412_GPZ_BASE | EXYNOS4412_GPV0_BASE | EXYNOS4412_GPV1_BASE | EXYNOS4412_GPV2_BASE |
  EXYNOS4412_GPV3_BASE | EXYNOS4412_GPV4_BASE.

Definition gpio_port_base (p : gpio_port) : Z :=
  match p with
  | EXYNOS4412_GPA0_BASE => 0x11400000 + 0x0000 | EXYNOS4412_GPA1_BASE => 0x11400000 + 0x0020
  | EXYNOS4412_GPB_BASE => 0x11400000 + 0x0040 | EXYNOS4412_GPC0_BASE => 0x11400000 + 0x0060
  | EXYNOS4412_GPC1_BASE => 0x11400000 + 0x0080 | EXYNOS4412_GPD0_BASE => 0x11400000 + 0x00A0
  | EXYNOS4412_GPD1_BASE => 0x11400000 + 0x00C0 | EXYNOS4412_GPF0_BASE => 0x11400000 + 0x0180
  | EXYNOS4412_GPF1_BASE => 0x11400000 + 0x01A0 | EXYNOS4412_GPF2_BASE => 0x11400000 + 0x01C0
  | EXYNOS4412_GPF3_BASE => 0x11400000 + 0x01E0 | EXYNOS4412_GPJ0_BASE => 0x11400000 + 0x0240
  | EXYNOS4412_GPJ1_BASE => 0x11400000 + 0x0260 | EXYNOS4412_GPK0_BASE => 0x11000000 + 0x0040
  | EXYNOS4412_GPK1_BASE => 0x11000000 + 0x0060 | EXYNOS4412_GPK2_BASE => 0x11000000 + 0x0080
  | EXYNOS4412_GPK3_BASE => 0x11000000 + 0x00A0 | EXYNOS4412_GPL0_BASE => 0x11000000 + 0x00C0
  | EXYNOS4412_GPL1_BASE => 0x11000000 + 0x00E0 | EXYNOS4412_GPL2_BASE => 0x11000000 + 0x0100
  | EXYNOS4412_GPY0_BASE => 0x11000000 + 0x0120 | EXYNOS4412_GPY1_BASE => 0x11000000 + 0x0140
  | EXYNOS4412_GPY2_BASE => 0x11000000 + 0x0160 | EXYNOS4412_GPY3_BASE => 0x11000000 + 0x0180
  | EXYNOS4412_GPY4_BASE => 0x11000000 + 0x01A0 | EXYNOS4412_GPY5_BASE => 0x11000000 + 0x01C0
  | EXYNOS4412_GPY6_BASE => 0x11000000 + 0x01E0 | EXYNOS4412_GPM0_BASE => 0x11000000 + 0x0260
  | EXYNOS4412_GPM1_BASE => 0x11000000 + 0x0280 | EXYNOS4412_GPM2_BASE => 0x11000000 + 0x02A0
  | EXYNOS4412_GPM3_BASE => 0x11000000 + 0x02C0 | EXYNOS4412_GPM4_BASE => 0x11000000 + 0x02E0
  | EXYNOS4412_GPX0_BASE => 0x11000000 + 0x0C00 | EXYNOS4412_GPX1_BASE => 0x11000000 + 0x0C20
  | EXYNOS4412_GPX2_BASE => 0x11000000 + 0x0C40 | EXYNOS4412_GPX3_BASE => 0x11000000 + 0x0C60
  | EXYNOS4412_GPZ_BASE => 0x03860000 + 0x0000 | EXYNOS4412_GPV0_BASE => 0x106E0000 + 0x0000
  | EXYNOS4412_GPV1_BASE => 0x106E0000 + 0x0020 | EXYNOS4412_GPV2_BASE => 0x106E0000 + 0x0060
  | EXYNOS4412_GPV3_BASE => 0x106E0000 + 0x0080 | EXYNOS4412_GPV4_BASE => 0x106E0000 + 0x00C0
  end.

Coercion gpio_port_base : gpio_port >-> Z.

Inductive gpio_word :=
  | EXYNOS4412_GPIO_CON | EXYNOS4412_GPIO_DAT | EXYNOS4412_GPIO_PUD | EXYNOS4412_GPIO_DRV |
  EXYNOS4412_GPIO_CONPDN | EXYNOS4412_GPIO_PUDPDN.

Definition gpio_word_offset (w : gpio_word) : Z :=
  match w with
  | EXYNOS4412_GPIO_CON => 0x00 | EXYNOS4412_GPIO_DAT => 0x04 | EXYNOS4412_GPIO_PUD => 0x08
  | EXYNOS4412_GPIO_DRV => 0x0C | EXYNOS4412_GPIO_CONPDN => 0x10 | EXYNOS4412_GPIO_PUDPDN => 0x14
  end.

Coercion gpio_word_offset : gpio_word >-> Z.

Definition EXYNOS4412_LCDBLK_CFG : Z := 0x10010210.
Definition EXYNOS4412_LCDBLK_CFG2 : Z := 0x10010214.

(** ** Data *)

Inductive exynos4412_fb_output_t :=
  | EXYNOS4412_FB_OUTPUT_RGB | EXYNOS4412_FB_OUTPUT_I80LDI0 | EXYNOS4412_FB_OUTPUT_I80LDI1
  | EXYNOS4412_FB_OUTPUT_WB_RGB | EXYNOS4412_FB_OUTPUT_WB_I80LDI0 | EXYNOS4412_FB_OUTPUT_WB_I80LDI1.

Definition EXYNOS4412_FB_MODE_BGR_P : Z := 1.
Definition EXYNOS4412_FB_BPP_MODE_32BPP : Z := 0xd.

Inductive fb_swap_flag :=
  | EXYNOS4412_FB_SWAP_WORD | EXYNOS4412_FB_SWAP_HWORD | EXYNOS4412_FB_SWAP_BYTE | EXYNOS4412_FB_SWAP_BIT.

Definition fb_swap_value (f : fb_swap_flag) : Z :=
  match f with
  | EXYNOS4412_FB_SWAP_WORD => Z.shiftl 0x1 0 | EXYNOS4412_FB_SWAP_HWORD => Z.shiftl 0x1 1
  | EXYNOS4412_FB_SWAP_BYTE => Z.shiftl 0x1 2 | EXYNOS4412_FB_SWAP_BIT => Z.shiftl 0x1 3
  end.

Coercion fb_swap_value : fb_swap_flag >-> Z.

Record fb_rgba := Rgba {
  r_mask : Z; r_field : Z; g_mask : Z; g_field : Z; b_mask : Z; b_field : Z; a_mask : Z; a_field : Z;
}.

Record fb_timing := Timing {
  h_fp : Z; h_bp : Z; h_sw : Z; v_fp : Z; v_fpe : Z; v_bp : Z; v_bpe : Z; v_sw : Z;
}.

Record fb_polarity := Polarity { rise_vclk : bool; inv_hsync : bool; inv_vsync : bool; inv_vden : bool }.

(** The [init] and [backlight] pointers are null or to [lcd_init] and
    [lcd_backlight]: [true] is the latter. *)
Record exynos4412_fb_data_t := FbData {
  regbase : Z;
  d_width : Z;
  d_height : Z;
  d_bits_per_pixel : Z;
  d_bytes_per_pixel : Z;
  freq : Z;
  output : exynos4412_fb_output_t;
  rgb_mode : Z;
  bpp_mode : Z;
  swap : Z;
  rgba : fb_rgba;
  timing : fb_timing;
  polarity : fb_polarity;
  vram_front : Z;
  vram_back : Z;
  d_init : bool;
  d_backlight : bool;
}.

Record fb_t := Fb {
  fb_surface : surface_t;
  fb_dat : exynos4412_fb_data_t;
}.

(** ** The controller *)

(** [writel(a, (readl(a) & ~clear) | set)] *)
Definition update (a clear set : Z) : prog clk_state unit :=
  let* r := readl a in writel a (Z.lor (Z.land r (not32 clear)) set).

Definition exynos4412_fb_set_output (dat : exynos4412_fb_data_t) : prog clk_state bool :=
  let* cfg := readl (regbase dat + VIDCON0) in
  let cfg := Z.land cfg (not32 VIDCON0_VIDOUT_MASK) in
  let cfg := Z.lor cfg
    match output dat with
    | EXYNOS4412_FB_OUTPUT_RGB => Z.shiftl 0x0 26
    | EXYNOS4412_FB_OUTPUT_I80LDI0 => Z.shiftl 0x2 26
    | EXYNOS4412_FB_OUTPUT_I80LDI1 => Z.shiftl 0x3 26
    | EXYNOS4412_FB_OUTPUT_WB_RGB => Z.shiftl 0x4 26
    | EXYNOS4412_FB_OUTPUT_WB_I80LDI0 => Z.shiftl 0x6 26
    | EXYNOS4412_FB_OUTPUT_WB_I80LDI1 => Z.shiftl 0x7 26
    end in
  writel (regbase dat + VIDCON0) cfg ;;
  let* cfg := readl (regbase dat + VIDCON2) in
  let cfg := Z.lor cfg (Z.shiftl 0x3 14) in
  writel (regbase dat + VIDCON2) cfg ;;
  ret true.

Definition exynos4412_fb_set_display_mode (dat : exynos4412_fb_data_t) : prog clk_state bool :=
  let* cfg := readl (regbase dat + VIDCON0) in
  let cfg := Z.land cfg (not32 (Z.shiftl 3 17)) in
  let cfg := Z.lor cfg (Z.shiftl (rgb_mode dat) 17) in
  writel (regbase dat + VIDCON0) cfg ;;
  ret true.

Definition exynos4412_fb_display_on (dat : exynos4412_fb_data_t) : prog clk_state bool :=
  let* cfg := readl (regbase dat + VIDCON0) in
  let cfg := Z.lor cfg (Z.shiftl 0x3 0) in
  writel (regbase dat + VIDCON0) cfg ;;
  ret true.

Definition exynos4412_fb_display_off (dat : exynos4412_fb_data_t) : prog clk_state bool :=
  let* cfg := readl (regbase dat + VIDCON0) in
  let cfg := Z.land cfg (not32 (Z.shiftl 1 1)) in
  writel (regbase dat + VIDCON0) cfg ;;
  let cfg := Z.land cfg (not32 (Z.shiftl 1 0)) in
  writel (regbase dat + VIDCON0) cfg ;;
  ret true.

(** The product of the frame rate and the sizes of a frame is a signed 32-bit
    number that is then converted. *)
Definition pixel_clock (dat : exynos4412_fb_data_t) : Z :=
  let t := timing dat in
  u64 (freq dat *s (h_fp t +s h_bp t +s h_sw t +s d_width dat) *s (v_fp t +s v_bp t +s v_sw t +s d_height dat)).

Definition exynos4412_fb_set_clock (dat : exynos4412_fb_data_t) : prog clk_state bool :=
  let* (found, fimd) := clk_get_rate "fimd" (Some 0) in
  if negb found then ret false
  else
    let fimd := default 0 fimd in
    let* q := div64 fimd (pixel_clock dat) in
    let div := u32 q in
    let div := if fimd mod pixel_clock dat >? 0 then div +u 1 else div in
    let* cfg := readl (regbase dat + VIDCON0) in
    let cfg := Z.land cfg (not32 (Z.lor (Z.shiftl 1 16) (Z.shiftl 1 5))) in
    let cfg := Z.lor cfg (VIDCON0_CLKVAL_F (div -u 1)) in
    writel (regbase dat + VIDCON0) cfg ;;
    ret true.

(** [if (c) cfg |= v;] *)
Definition set_if (c : bool) (v cfg : Z) : Z := if c then Z.lor cfg v else cfg.

Definition exynos4412_fb_set_polarity (dat : exynos4412_fb_data_t) : prog clk_state bool :=
  let p := polarity dat in
  let cfg := 0 in
  let cfg := set_if (rise_vclk p) (Z.shiftl 1 7) cfg in
  let cfg := set_if (inv_hsync p) (Z.shiftl 1 6) cfg in
  let cfg := set_if (inv_vsync p) (Z.shiftl 1 5) cfg in
  let cfg := set_if (inv_vden p) (Z.shiftl 1 4) cfg in
  writel (regbase dat + VIDCON1) cfg ;;
  ret true.

Definition exynos4412_fb_set_timing (dat : exynos4412_fb_data_t) : prog clk_state bool :=
  let t := timing dat in
  let cfg := VIDTCON0_VBPDE (v_bpe t -s 1) in
  let cfg := Z.lor cfg (VIDTCON0_VBPD (v_bp t -s 1)) in
  let cfg := Z.lor cfg (VIDTCON0_VFPD (v_fp t -s 1)) in
  let cfg := Z.lor cfg (VIDTCON0_VSPW (v_sw t -s 1)) in
  writel (regbase dat + VIDTCON0) cfg ;;
  let cfg := VIDTCON1_VFPDE (v_fpe t -s 1) in
  let cfg := Z.lor cfg (VIDTCON1_HBPD (h_bp t -s 1)) in
  let cfg := Z.lor cfg (VIDTCON1_HFPD (h_fp t -s 1)) in
  let cfg := Z.lor cfg (VIDTCON1_HSPW (h_sw t -s 1)) in
  writel (regbase dat + VIDTCON1) cfg ;;
  ret true.

Definition exynos4412_fb_set_lcd_size (dat : exynos4412_fb_data_t) : prog clk_state bool :=
  let cfg := VIDTCON2_HOZVAL (d_width dat -s 1) in
  let cfg := Z.lor cfg (VIDTCON2_LINEVAL (d_height dat -s 1)) in
  writel (regbase dat + VIDTCON2) cfg ;;
  ret true.

Definition exynos4412_fb_set_buffer_address (dat : exynos4412_fb_data_t) (id vram : Z) : prog clk_state bool :=
  let start := vram in
  let end_ := Z.land (start +u u32 (d_width dat *s (d_height dat *s d_bytes_per_pixel dat))) 0x00ffffff in
  let* shw := readl (regbase dat + SHADOWCON) in
  writel (regbase dat + SHADOWCON) (Z.lor shw (SHADOWCON_PROTECT id)) ;;
  match id with
  | 0 =>
      writel (regbase dat + VIDW00ADD0B0) start ;;
      writel (regbase dat + VIDW00ADD1B0) end_
  | 1 =>
      writel (regbase dat + VIDW01ADD0B0) start ;;
      writel (regbase dat + VIDW01ADD1B0) end_
  | 2 =>
      writel (regbase dat + VIDW02ADD0B0) start ;;
      writel (regbase dat + VIDW02ADD1B0) end_
  | 3 =>
      writel (regbase dat + VIDW03ADD0B0) start ;;
      writel (regbase dat + VIDW03ADD1B0) end_
  | 4 =>
      writel (regbase dat + VIDW04ADD0B0) start ;;
      writel (regbase dat + VIDW04ADD1B0) end_
  | _ => ret tt
  end ;;
  let* shw := readl (regbase dat + SHADOWCON) in
  writel (regbase dat + SHADOWCON) (Z.land shw (not32 (SHADOWCON_PROTECT id))) ;;
  ret true.

Definition exynos4412_fb_set_buffer_size (dat : exynos4412_fb_data_t) (id : Z) : prog clk_state bool :=
  let cfg := VIDADDR_PAGEWIDTH (d_width dat *s d_bytes_per_pixel dat) in
  let cfg := Z.lor cfg (VIDADDR_OFFSIZE 0) in
  match id with
  | 0 => writel (regbase dat + VIDW00ADD2) cfg ;; ret true
  | 1 => writel (regbase dat + VIDW01ADD2) cfg ;; ret true
  | 2 => writel (regbase dat + VIDW02ADD2) cfg ;; ret true
  | 3 => writel (regbase dat + VIDW03ADD2) cfg ;; ret true
  | 4 => writel (regbase dat + VIDW04ADD2) cfg ;; ret true
  | _ => ret false
  end.

Definition exynos4412_fb_set_window_position (dat : exynos4412_fb_data_t) (id : Z) : prog clk_state bool :=
  let top := Z.lor (VIDOSD_LEFT_X 0) (VIDOSD_TOP_Y 0) in
  let bottom := Z.lor (VIDOSD_RIGHT_X (d_width dat -s 1)) (VIDOSD_BOTTOM_Y (d_height dat -s 1)) in
  let* shw := readl (regbase dat + SHADOWCON) in
  writel (regbase dat + SHADOWCON) (Z.lor shw (SHADOWCON_PROTECT id)) ;;
  match id with
  | 0 => writel (regbase dat + VIDOSD0A) top ;; writel (regbase dat + VIDOSD0B) bottom
  | 1 => writel (regbase dat + VIDOSD1A) top ;; writel (regbase dat + VIDOSD1B) bottom
  | 2 => writel (regbase dat + VIDOSD2A) top ;; writel (regbase dat + VIDOSD2B) bottom
  | 3 => writel (regbase dat + VIDOSD3A) top ;; writel (regbase dat + VIDOSD3B) bottom
  | 4 => writel (regbase dat + VIDOSD4A) top ;; writel (regbase dat + VIDOSD4B) bottom
  | _ => ret tt
  end ;;
  let* shw := readl (regbase dat + SHADOWCON) in
  writel (regbase dat + SHADOWCON) (Z.land shw (not32 (SHADOWCON_PROTECT id))) ;;
  ret true.

Definition exynos4412_fb_set_window_size (dat : exynos4412_fb_data_t) (id : Z) : prog clk_state bool :=
  if id >? 2 then ret false
  else
    let cfg := VIDOSD_SIZE (d_width dat *s d_height dat) in
    match id with
    | 0 => writel (regbase dat + VIDOSD0C) cfg ;; ret true
    | 1 => writel (regbase dat + VIDOSD1D) cfg ;; ret true
    | 2 => writel (regbase dat + VIDOSD2D) cfg ;; ret true
    | _ => ret false
    end.

Definition exynos4412_fb_window0_enable (dat : exynos4412_fb_data_t) : prog clk_state bool :=
  let has b := negb (Z.land (swap dat) b =? 0) in
  let* cfg := readl (regbase dat + WINCON0) in
  let cfg := Z.land cfg (not32
    (Z.lor (Z.lor (Z.lor (Z.lor (Z.lor (Z.lor (Z.lor (Z.lor
      (Z.shiftl 1 18) (Z.shiftl 1 17)) (Z.shiftl 1 16)) (Z.shiftl 1 15))
      (Z.shiftl 3 9)) (Z.shiftl 0xf 2)) (Z.shiftl 1 13)) (Z.shiftl 1 22)) (Z.shiftl 1 1))) in
  let cfg := Z.lor cfg (Z.shiftl 0 1) in
  let cfg := Z.lor cfg (Z.shiftl 0 13) in
  let cfg := Z.lor cfg (Z.shiftl 0 22) in
  let cfg := Z.lor cfg (Z.shiftl 1 0) in
  let cfg := set_if (has EXYNOS4412_FB_SWAP_WORD) (Z.shiftl 1 15) cfg in
  let cfg := set_if (has EXYNOS4412_FB_SWAP_HWORD) (Z.shiftl 1 16) cfg in
  let cfg := set_if (has EXYNOS4412_FB_SWAP_BYTE) (Z.shiftl 1 17) cfg in
  let cfg := set_if (has EXYNOS4412_FB_SWAP_BIT) (Z.shiftl 1 18) cfg in
  let cfg := Z.lor cfg (Z.shiftl (bpp_mode dat) 2) in
  writel (regbase dat + WINCON0) cfg ;;
  let* cfg := readl (regbase dat + SHADOWCON) in
  writel (regbase dat + SHADOWCON) (Z.lor cfg (Z.shiftl 1 0)) ;;
  ret true.

(** ** The panel *)

Definition lcd_init : prog clk_state unit :=
  update (EXYNOS4412_GPD0_BASE + EXYNOS4412_GPIO_CON) (Z.shiftl 0xf 0) (Z.shiftl 0x1 0) ;;
  update (EXYNOS4412_GPD0_BASE + EXYNOS4412_GPIO_PUD) (Z.shiftl 0x3 0) (Z.shiftl 0x2 0) ;;
  update (EXYNOS4412_GPD0_BASE + EXYNOS4412_GPIO_DAT) (Z.shiftl 0x1 0) (Z.shiftl 0x1 0) ;;
  update (EXYNOS4412_GPX3_BASE + EXYNOS4412_GPIO_CON) (Z.shiftl 0xf 20) (Z.shiftl 0x1 20) ;;
  update (EXYNOS4412_GPX3_BASE + EXYNOS4412_GPIO_PUD) (Z.shiftl 0x3 10) (Z.shiftl 0x2 10) ;;
  update (EXYNOS4412_GPX3_BASE + EXYNOS4412_GPIO_DAT) (Z.shiftl 0x1 5) (Z.shiftl 0x0 5).

Definition lcd_backlight (brightness : Z) : prog clk_state unit :=
  if negb (brightness =? 0) then
    update (EXYNOS4412_GPD0_BASE + EXYNOS4412_GPIO_DAT) (Z.shiftl 0x1 0) (Z.shiftl 0x0 0) ;;
    update (EXYNOS4412_GPX3_BASE + EXYNOS4412_GPIO_DAT) (Z.shiftl 0x1 5) (Z.shiftl 0x1 5)
  else
    update (EXYNOS4412_GPD0_BASE + EXYNOS4412_GPIO_DAT) (Z.shiftl 0x1 0) (Z.shiftl 0x1 0) ;;
    update (EXYNOS4412_GPX3_BASE + EXYNOS4412_GPIO_DAT) (Z.shiftl 0x1 5) (Z.shiftl 0x0 5).

(** [writel(a, readl(a) & ~clear)] *)
Definition clear_bits (a clear : Z) : prog clk_state unit :=
  let* r := readl a in writel a (Z.land r (not32 clear)).

Definition fb_init (dat : exynos4412_fb_data_t) : prog clk_state unit :=
  writel (EXYNOS4412_GPF0_BASE + EXYNOS4412_GPIO_CON) 0x22222222 ;;
  writel (EXYNOS4412_GPF0_BASE + EXYNOS4412_GPIO_DRV) 0xffffffff ;;
  writel (EXYNOS4412_GPF0_BASE + EXYNOS4412_GPIO_PUD) 0x0 ;;
  writel (EXYNOS4412_GPF1_BASE + EXYNOS4412_GPIO_CON) 0x22222222 ;;
  writel (EXYNOS4412_GPF1_BASE + EXYNOS4412_GPIO_DRV) 0xffffffff ;;
  writel (EXYNOS4412_GPF1_BASE + EXYNOS4412_GPIO_PUD) 0x0 ;;
  writel (EXYNOS4412_GPF2_BASE + EXYNOS4412_GPIO_CON) 0x22222222 ;;
  writel (EXYNOS4412_GPF2_BASE + EXYNOS4412_GPIO_DRV) 0xffffffff ;;
  writel (EXYNOS4412_GPF2_BASE + EXYNOS4412_GPIO_PUD) 0x0 ;;
  update (EXYNOS4412_GPF3_BASE + EXYNOS4412_GPIO_CON) (Z.shiftl 0xffff 0) (Z.shiftl 0x2222 0) ;;
  update (EXYNOS4412_GPF3_BASE + EXYNOS4412_GPIO_DRV) (Z.shiftl 0xff 0) (Z.shiftl 0xff 0) ;;
  update (EXYNOS4412_GPF3_BASE + EXYNOS4412_GPIO_PUD) (Z.shiftl 0xff 0) (Z.shiftl 0x00 0) ;;
  (if d_init dat then lcd_init else ret tt) ;;
  update EXYNOS4412_LCDBLK_CFG (Z.shiftl 0x3 0) (Z.shiftl 0x2 0) ;;
  update EXYNOS4412_LCDBLK_CFG2 (Z.shiftl 0x1 0) (Z.shiftl 0x1 0) ;;
  clear_bits (regbase dat + WINCON0) 0x1 ;;
  clear_bits (regbase dat + WINCON1) 0x1 ;;
  clear_bits (regbase dat + WINCON2) 0x1 ;;
  clear_bits (regbase dat + WINCON3) 0x1 ;;
  clear_bits (regbase dat + WINCON4) 0x1 ;;
  clear_bits (regbase dat + WIN0MAP) (Z.shiftl 1 24) ;;
  clear_bits (regbase dat + WIN1MAP) (Z.shiftl 1 24) ;;
  clear_bits (regbase dat + WIN2MAP) (Z.shiftl 1 24) ;;
  clear_bits (regbase dat + WIN3MAP) (Z.shiftl 1 24) ;;
  clear_bits (regbase dat + WIN4MAP) (Z.shiftl 1 24) ;;
  clear_bits (regbase dat + W1KEYCON0) (Z.shiftl 3 25) ;;
  clear_bits (regbase dat + W2KEYCON0) (Z.shiftl 3 25) ;;
  clear_bits (regbase dat + W3KEYCON0) (Z.shiftl 3 25) ;;
  clear_bits (regbase dat + W4KEYCON0) (Z.shiftl 3 25) ;;
  exynos4412_fb_set_output dat ;;
  exynos4412_fb_set_display_mode dat ;;
  exynos4412_fb_display_off dat ;;
  exynos4412_fb_set_polarity dat ;;
  exynos4412_fb_set_timing dat ;;
  exynos4412_fb_set_lcd_size dat ;;
  exynos4412_fb_set_clock dat ;;
  exynos4412_fb_set_buffer_size dat 0 ;;
  exynos4412_fb_set_window_position dat 0 ;;
  exynos4412_fb_set_window_size dat 0 ;;
  exynos4412_fb_window0_enable dat ;;
  exynos4412_fb_display_on dat ;;
  ret tt.

(** ** The frame buffer *)

Record fb_state := FbState {
  fs_fb : fb_t;
  fs_clk : clk_state;
}.

Definition on_clk {A} (c : prog clk_state A) : prog fb_state A := λ s,
  match c (fs_clk s) with
  | Some (a, k) => Some (a, FbState (fs_fb s) k)
  | None => None
  end.

Definition set_vram (dat : exynos4412_fb_data_t) (front back : Z) : exynos4412_fb_data_t :=
  FbData (regbase dat) (d_width dat) (d_height dat) (d_bits_per_pixel dat) (d_bytes_per_pixel dat)
    (freq dat) (output dat) (rgb_mode dat) (bpp_mode dat) (swap dat) (rgba dat) (timing dat)
    (polarity dat) front back (d_init dat) (d_backlight dat).

(** [surface.pixels = pixels] *)
Definition set_surface_pixels (s : surface_t) (pixels : Z) : surface_t :=
  Surface (info s) (s_w s) (s_h s) (s_pitch s) (s_flag s) pixels (s_clip s) (s_maps s).

Definition fb_swap : prog fb_state unit := λ s,
  let dat := fb_dat (fs_fb s) in
  let vram := vram_front dat in
  let dat := set_vram dat (vram_back dat) vram in
  Some (tt, FbState (Fb (set_surface_pixels (fb_surface (fs_fb s)) (vram_front dat)) dat) (fs_clk s)).

Definition fb_flush : prog fb_state unit :=
  let* s := get_state in
  let dat := fb_dat (fs_fb s) in
  on_clk (exynos4412_fb_set_buffer_address dat 0 (vram_front dat)) ;;
  ret tt.

Definition fb_backlight (brightness : Z) : prog fb_state unit :=
  let* s := get_state in
  if d_backlight (fb_dat (fs_fb s)) then on_clk (lcd_backlight brightness) else ret tt.

Definition exynos4412_screen_surface : prog fb_state surface_t :=
  let* s := get_state in ret (fb_surface (fs_fb s)).
Definition exynos4412_screen_swap : prog fb_state unit := fb_swap.
Definition exynos4412_screen_flush : prog fb_state unit := fb_flush.
Definition exynos4412_screen_backlight (brightness : Z) : prog fb_state unit := fb_backlight brightness.

(** ** The panels *)

(** The size of one of the two buffers. *)
Definition VRAM_SIZE : Z := 1920 * 1200 * 32 / 8.

Section panels.
(** [&vram[0][0]] *)
Variable vram : Z.

Definition vs070cxn : exynos4412_fb_data_t :=
  FbData EXYNOS4412_LCD_BASE 1024 600 32 4 60
    EXYNOS4412_FB_OUTPUT_RGB EXYNOS4412_FB_MODE_BGR_P EXYNOS4412_FB_BPP_MODE_32BPP
    EXYNOS4412_FB_SWAP_WORD
    (Rgba 8 0 8 8 8 16 8 24)
    (Timing 160 140 20 12 1 20 1 3)
    (Polarity false true true false)
    vram (vram + VRAM_SIZE) true true.

Definition ek070tn93 : exynos4412_fb_data_t :=
  FbData EXYNOS4412_LCD_BASE 800 480 32 4 60
    EXYNOS4412_FB_OUTPUT_RGB EXYNOS4412_FB_MODE_BGR_P EXYNOS4412_FB_BPP_MODE_32BPP
    EXYNOS4412_FB_SWAP_WORD
    (Rgba 8 0 8 8 8 16 8 24)
    (Timing 210 38 10 22 1 18 1 7)
    (Polarity false true true false)
    vram (vram + VRAM_SIZE) true true.

Definition vga_1024_768 : exynos4412_fb_data_t :=
  FbData EXYNOS4412_LCD_BASE 1024 768 32 4 60
    EXYNOS4412_FB_OUTPUT_RGB EXYNOS4412_FB_MODE_BGR_P EXYNOS4412_FB_BPP_MODE_32BPP
    EXYNOS4412_FB_SWAP_WORD
    (Rgba 8 0 8 8 8 16 8 24)
    (Timing 24 160 136 3 1 29 1 6)
    (Polarity true false false false)
    vram (vram + VRAM_SIZE) true true.

Definition vga_1440_900 : exynos4412_fb_data_t :=
  FbData EXYNOS4412_LCD_BASE 1440 900 32 4 60
    EXYNOS4412_FB_OUTPUT_RGB EXYNOS4412_FB_MODE_BGR_P EXYNOS4412_FB_BPP_MODE_32BPP
    EXYNOS4412_FB_SWAP_WORD
    (Rgba 8 0 8 8 8 16 8 24)
    (Timing 48 80 32 3 1 17 1 6)
    (Polarity true true false false)
    vram (vram + VRAM_SIZE) true true.

Definition vga_1280_1024 : exynos4412_fb_data_t :=
  FbData EXYNOS4412_LCD_BASE 1280 1024 32 4 60
    EXYNOS4412_FB_OUTPUT_RGB EXYNOS4412_FB_MODE_BGR_P EXYNOS4412_FB_BPP_MODE_32BPP
    EXYNOS4412_FB_SWAP_WORD
    (Rgba 8 0 8 8 8 16 8 24)
    (Timing 48 248 112 1 1 38 1 3)
    (Polarity true true true false)
    vram (vram + VRAM_SIZE) true true.

(** The panel the boot argument asks for. *)
Definition fb_panel (commandline : string) : exynos4412_fb_data_t :=
  if strstr commandline "lcd=vga-1024x768" then vga_1024_768
  else if strstr commandline "lcd=vga-1440x900" then vga_1440_900
  else if strstr commandline "lcd=vga-1280x1024" then vga_1280_1024
  else if strstr commandline "lcd=ek070tn93" then ek070tn93
  else vs070cxn.
End panels.

(** ** Fields of registers *)

Lemma bits_bit r pos w k :
  0 ≤ pos → 0 ≤ w → 0 ≤ k → Z.testbit (bits r pos w) k = (k <? w) && Z.testbit r (pos + k).
Proof.
  intros Hp Hw Hk. unfold bits. destruct (Z.ltb_spec k w).
  - rewrite Z.mod_pow2_bits_low, Z.div_pow2_bits by lia. cbn. f_equal. lia.
  - by rewrite Z.mod_pow2_bits_high by lia.
Qed.

Lemma bits_ext r r' pos pos' w :
  0 ≤ pos → 0 ≤ pos' → 0 ≤ w →
  (∀ k, 0 ≤ k < w → Z.testbit r (pos + k) = Z.testbit r' (pos' + k)) → bits r pos w = bits r' pos' w.
Proof.
  intros Hp Hp' Hw Hb. apply Z.bits_inj'. intros k Hk. rewrite !bits_bit by done.
  destruct (Z.ltb_spec k w); [| done]. cbn. apply Hb. lia.
Qed.

Lemma bits_lor a b p w :
  0 ≤ p → 0 ≤ w → Z.lor (bits a p w) (bits b 0 w) = bits (Z.lor (Z.shiftr a p) b) 0 w.
Proof.
  intros Hp Hw. apply Z.bits_inj'. intros k Hk. rewrite Z.lor_spec, !bits_bit by done.
  rewrite Z.lor_spec, Z.shiftr_spec, Z.add_0_l, (Z.add_comm k) by lia. by destruct (k <? w).
Qed.

Lemma bits_small v w : 0 ≤ v < 2 ^ w → bits v 0 w = v.
Proof. intros Hv. unfold bits. rewrite Z.pow_0_r, Z.div_1_r. by apply Z.mod_small. Qed.

Lemma set_if_testbit c v cfg i : Z.testbit (set_if c v cfg) i = Z.testbit cfg i || (c && Z.testbit v i).
Proof. destruct c; cbn; [apply Z.lor_spec | by rewrite orb_false_r]. Qed.

Lemma has_bit v i : 0 ≤ i → negb (Z.land v (Z.shiftl 1 i) =? 0) = Z.testbit v i.
Proof.
  intros Hi. rewrite Z.shiftl_1_l. destruct (Z.testbit v i) eqn:E; [apply negb_true_iff, Z.eqb_neq | apply negb_false_iff, Z.eqb_eq].
  - intros H0. assert (Z.testbit (Z.land v (2 ^ i)) i = true) as H1 by by rewrite Z.land_spec, E, Z.pow2_bits_true.
    by rewrite H0, Z.testbit_0_l in H1.
  - apply Z.bits_inj'. intros k Hk. rewrite Z.land_spec, Z.testbit_0_l, Z.pow2_bits_eqb by done.
    destruct (Z.eqb_spec i k) as [<- |]; [by rewrite E | apply andb_false_r].
Qed.

(** The bit of an expression at a given place. *)
Ltac bit_at :=
  repeat first
    [ rewrite u32_testbit by lia | rewrite not32_testbit by lia | rewrite Z.lor_spec | rewrite Z.land_spec
    | rewrite Z.shiftl_spec by lia | rewrite Z.shiftr_spec by lia | rewrite set_if_testbit ].

(** ** Running register code *)

(** [s'] is [s] with register [a] written. *)
Definition written (s s' : clk_state) (a v : Z) : Prop :=
  (∀ b, regs s' b = if b =? a then u32 v else regs s b) ∧ exynos4412_clocks s' = exynos4412_clocks s.

Lemma wp_writel a v Q s : (∀ s', written s s' a v → Q tt s') → wp (writel a v) Q s.
Proof. intros HQ. by apply HQ. Qed.

Lemma wp_readl a (Q : Z → clk_state → Prop) s : Q (u32 (regs s a)) s → wp (readl a) Q s.
Proof. done. Qed.

Ltac run_step :=
  lazymatch goal with
  | |- wp (bind _ _) _ _ => apply wp_bind
  | |- wp (ret _) _ _ => apply wp_ret
  | |- wp (readl _) _ _ => apply wp_readl
  | |- wp (writel _ _) _ _ => apply wp_writel; let s := fresh "s" in let W := fresh "W" in intros s W
  end; cbn beta.

(** A panel whose sizes and timing the fields of the controller can hold. *)
Record panel_ok (dat : exynos4412_fb_data_t) : Prop := {
  po_regbase : regbase dat = EXYNOS4412_LCD_BASE;
  po_width : 1 ≤ d_width dat ≤ 2048;
  po_height : 1 ≤ d_height dat ≤ 2048;
  po_pitch : 1 ≤ d_width dat * d_bytes_per_pixel dat < 8192;
  po_area : d_width dat * d_height dat < 16777216;
  po_mode : 0 ≤ rgb_mode dat < 4;
  po_bpp : 0 ≤ bpp_mode dat < 16;
  po_vertical : 1 ≤ v_fp (timing dat) ≤ 256 ∧ 1 ≤ v_bp (timing dat) ≤ 256 ∧ 1 ≤ v_sw (timing dat) ≤ 256;
  po_vertical_even : 1 ≤ v_fpe (timing dat) ≤ 256 ∧ 1 ≤ v_bpe (timing dat) ≤ 256;
  po_horizontal : 1 ≤ h_fp (timing dat) ≤ 256 ∧ 1 ≤ h_bp (timing dat) ≤ 256 ∧ 1 ≤ h_sw (timing dat) ≤ 256;
  po_freq : 1 ≤ freq dat ≤ 100;
}.


(** The code that takes the value of an output path. *)
Definition output_code (o : exynos4412_fb_output_t) : Z :=
  match o with
  | EXYNOS4412_FB_OUTPUT_RGB => 0
  | EXYNOS4412_FB_OUTPUT_I80LDI0 => 2
  | EXYNOS4412_FB_OUTPUT_I80LDI1 => 3
  | EXYNOS4412_FB_OUTPUT_WB_RGB => 4
  | EXYNOS4412_FB_OUTPUT_WB_I80LDI0 => 6
  | EXYNOS4412_FB_OUTPUT_WB_I80LDI1 => 7
  end.

(** The dots of a frame, blanking included, times the frames of a second. *)
Definition dot_rate (dat : exynos4412_fb_data_t) : Z :=
  let t := timing dat in
  freq dat * (h_fp t + h_bp t + h_sw t + d_width dat) * (v_fp t + v_bp t + v_sw t + d_height dat).

(** The least divider for which the dot clock is not too fast. *)
Definition clock_divider (dat : exynos4412_fb_data_t) (fimd : Z) : Z :=
  (fimd + dot_rate dat - 1) / dot_rate dat.

Lemma dot_rate_bounds dat : panel_ok dat → dot_rate dat < 2147483648 → 
  0 < dot_rate dat ∧ pixel_clock dat = dot_rate dat.
Proof.
  intros Hp Hd. destruct Hp as [_ Hw Hh _ _ _ _ (?&?&?) _ (?&?&?) Hf].
  unfold dot_rate, pixel_clock in *. cbn zeta in *.
  set (a := h_fp (timing dat) + h_bp (timing dat) + h_sw (timing dat) + d_width dat) in *.
  set (b := v_fp (timing dat) + v_bp (timing dat) + v_sw (timing dat) + d_height dat) in *.
  assert (4 ≤ a ≤ 2816) by lia. assert (4 ≤ b ≤ 2816) by lia.
  assert (0 < freq dat * a ≤ 281600) by nia. split; [nia |].
  rewrite !(s32_small (h_fp _ + _)), !(s32_small (h_fp _ + _ + _)), !(s32_small (h_fp _ + _ + _ + _)) by lia.
  rewrite !(s32_small (v_fp _ + _)), !(s32_small (v_fp _ + _ + _)), !(s32_small (v_fp _ + _ + _ + _)) by lia.
  fold a b. rewrite (s32_small (freq dat * a)), s32_small by nia. apply u64_small. nia.
Qed.

Lemma divider_computed dat fimd :
  0 < dot_rate dat → 0 < fimd < 2 ^ 32 →
  (if fimd mod dot_rate dat >? 0 then u32 (fimd / dot_rate dat) +u 1 else u32 (fimd / dot_rate dat)) =
  clock_divider dat fimd ∧ 0 < clock_divider dat fimd < 2 ^ 32.
Proof.
  intros Hd Hf. unfold clock_divider. set (d := dot_rate dat) in *.
  assert (0 ≤ fimd / d ≤ fimd) by (split; [apply Z.div_pos; lia | apply Z.div_le_upper_bound; nia]).
  pose proof (Z.div_mod fimd d ltac:(lia)) as E. pose proof (Z.mod_pos_bound fimd d ltac:(lia)) as Hm.
  rewrite (u32_small (fimd / d)) by lia. rewrite Z.gtb_ltb. destruct (Z.ltb_spec 0 (fimd mod d)) as [H0|H0].
  - assert ((fimd + d - 1) / d = fimd / d + 1) as ->.
    { symmetry. apply (Z.div_unique _ _ _ (fimd mod d - 1)); lia. }
    assert (fimd / d < fimd) by (destruct (decide (d = 1)) as [->|]; [rewrite Z.mod_1_r in H0; lia | apply Z.div_lt; lia]).
    rewrite u32_small by lia. lia.
  - assert (fimd mod d = 0) as E0 by lia. rewrite E0 in *.
    assert ((fimd + d - 1) / d = fimd / d) as ->.
    { symmetry. apply (Z.div_unique _ _ _ (d - 1)); lia. }
    split; [done |]. assert (fimd / d ≠ 0) by nia. lia.
Qed.

Definition reg (R : Z → Z) (r : Z) : Z := R (EXYNOS4412_LCD_BASE + r).

(** The controller with registers [R] shows the panel through window 0. *)
Record panel_shown (dat : exynos4412_fb_data_t) (R : Z → Z) : Prop := {
  ps_on : bits (reg R VIDCON0) 0 2 = 3;
  ps_output : bits (reg R VIDCON0) 26 3 = output_code (output dat);
  ps_mode : bits (reg R VIDCON0) 17 2 = rgb_mode dat;
  ps_polarity :
    bits (reg R VIDCON1) 7 1 = Z.b2z (rise_vclk (polarity dat)) ∧
    bits (reg R VIDCON1) 6 1 = Z.b2z (inv_hsync (polarity dat)) ∧
    bits (reg R VIDCON1) 5 1 = Z.b2z (inv_vsync (polarity dat)) ∧
    bits (reg R VIDCON1) 4 1 = Z.b2z (inv_vden (polarity dat));
  ps_vertical :
    bits (reg R VIDTCON0) 16 8 = v_bp (timing dat) - 1 ∧ bits (reg R VIDTCON0) 8 8 = v_fp (timing dat) - 1 ∧
    bits (reg R VIDTCON0) 0 8 = v_sw (timing dat) - 1 ∧ bits (reg R VIDTCON0) 24 8 = v_bpe (timing dat) - 1;
  ps_horizontal :
    bits (reg R VIDTCON1) 16 8 = h_bp (timing dat) - 1 ∧ bits (reg R VIDTCON1) 8 8 = h_fp (timing dat) - 1 ∧
    bits (reg R VIDTCON1) 0 8 = h_sw (timing dat) - 1 ∧ bits (reg R VIDTCON1) 24 8 = v_fpe (timing dat) - 1;
  ps_size : bits (reg R VIDTCON2) 0 11 = d_width dat - 1 ∧ bits (reg R VIDTCON2) 11 11 = d_height dat - 1;
  ps_position :
    reg R VIDOSD0A = 0 ∧
    bits (reg R VIDOSD0B) 11 11 = d_width dat - 1 ∧ bits (reg R VIDOSD0B) 0 11 = d_height dat - 1;
  ps_area : bits (reg R VIDOSD0C) 0 24 = d_width dat * d_height dat;
  ps_pitch : bits (reg R VIDW00ADD2) 0 13 = d_width dat * d_bytes_per_pixel dat ∧
    bits (reg R VIDW00ADD2) 13 13 = 0;
  ps_window0 : bits (reg R WINCON0) 0 1 = 1 ∧ bits (reg R WINCON0) 2 4 = bpp_mode dat ∧
    bits (reg R SHADOWCON) 0 1 = 1 ∧ bits (reg R SHADOWCON) 10 1 = 0;
  ps_swap i : 0 ≤ i < 4 → Z.testbit (reg R WINCON0) (15 + i) = Z.testbit (swap dat) i;
  ps_others : bits (reg R WINCON1) 0 1 = 0 ∧ bits (reg R WINCON2) 0 1 = 0 ∧
    bits (reg R WINCON3) 0 1 = 0 ∧ bits (reg R WINCON4) 0 1 = 0;
}.

(** What does not touch these registers but to protect and release a window
    keeps the panel shown. *)
Lemma panel_shown_ext dat R R' :
  (∀ r, 0 ≤ r → r ≠ SHADOWCON → r ≠ VIDW00ADD0B0 → r ≠ VIDW00ADD1B0 → reg R' r = reg R r) →
  bits (reg R' SHADOWCON) 0 1 = bits (reg R SHADOWCON) 0 1 → bits (reg R' SHADOWCON) 10 1 = 0 →
  panel_shown dat R → panel_shown dat R'.
Proof.
  intros E E0 E10 []. split; rewrite ?E by done; try done. by destruct ps_window1 as (? & ? & ? & ?); rewrite E0.
Qed.

(** The back light is on. *)
Definition lit (R : Z → Z) : Prop :=
  bits (R (EXYNOS4412_GPD0_BASE + EXYNOS4412_GPIO_DAT)) 0 1 = 0 ∧
  bits (R (EXYNOS4412_GPX3_BASE + EXYNOS4412_GPIO_DAT)) 5 1 = 1.

(** Code that leaves the controller alone. *)
Lemma lcd_init_frame (b : bool) s :
  wp (if b then lcd_init else ret tt)
     (λ _ s', (∀ r, 0 ≤ r → reg (regs s') r = reg (regs s) r) ∧ exynos4412_clocks s' = exynos4412_clocks s) s.
Proof.
  destruct b; [| by apply wp_ret]. unfold lcd_init, update. repeat run_step.
  repeat match goal with W : written _ _ _ _ |- _ => destruct W as [?W ?C] end.
  split; [| congruence]. intros r Hr. unfold reg.
  repeat match goal with W : ∀ b, regs ?s b = _ |- context [regs ?s ?x] =>
    rewrite (W x); clear W;
    rewrite (proj2 (Z.eqb_neq x _)) by (unfold EXYNOS4412_LCD_BASE; cbn [gpio_port_base gpio_word_offset]; lia) end.
  done.
Qed.

Lemma clk_get_rate_same nm rt r s s' :
  exynos4412_clocks s' = exynos4412_clocks s →
  clk_get_rate nm rt s = Some (r, s) → clk_get_rate nm rt s' = Some (r, s').
Proof.
  unfold clk_get_rate, bind, get_state. intros ->. generalize (exynos4412_clocks s) as cs.
  intros cs. induction cs as [|c cs IH]; cbn; [by intros [= <-] |].
  destruct (name c); [| done]. destruct (strcmp _ nm =? 0); [by intros [= <-] | done].
Qed.

(** Reads a register of the controller after the writes of a run. *)
Ltac reg_read :=
  repeat match goal with
  | W : written _ ?s ?a _ |- context [regs ?s ?x] =>
      rewrite (proj1 W x); let c := eval vm_compute in (x =? a) in change (x =? a) with c; cbn iota
  | F : ∀ r, 0 ≤ r → reg (regs ?s) r = _ |- context [regs ?s (EXYNOS4412_LCD_BASE + ?r)] =>
      change (regs s (EXYNOS4412_LCD_BASE + r)) with (reg (regs s) r); rewrite (F r) by done; unfold reg
  end.


(** Evaluates bits at given places and closes the equation between them. *)
Ltac bits_done :=
  bit_at;
  repeat match goal with
  | |- context [Z.testbit ?x (Z.neg ?n)] => change (Z.testbit x (Z.neg n)) with false
  | |- context [Z.testbit (Z.pos ?n) ?i] =>
      let b := eval compute in (Z.testbit (Z.pos n) i) in change (Z.testbit (Z.pos n) i) with b
  | |- context [Z.testbit 0 ?i] => change (Z.testbit 0 i) with false
  | |- context [Z.testbit (Z.shiftl ?a ?b) ?i] => rewrite (Z.shiftl_spec a b i) by lia
  | |- context [Z.testbit ?x ?i] => let j := eval compute in i in progress change i with j
  | H : ∀ j, _ ≤ j → Z.testbit ?x j = false |- context [Z.testbit ?x ?i] => rewrite (H i) by lia
  end;
  repeat match goal with |- context [Z.testbit ?x ?i] => destruct (Z.testbit x i) end;
  reflexivity.

Ltac bits_eq :=
  apply bits_ext; [lia | lia | lia |]; apply seqZ_forall; cbv [seqZ fmap list_fmap seq Z.to_nat Pos.to_nat Pos.iter_op Nat.add];
  repeat (apply Forall_cons; split; [bits_done |]); apply Forall_nil; exact I.

(** Runs register code to the end. *)
Ltac run :=
  repeat lazymatch goal with
  | |- wp (if d_init _ then _ else _) _ _ =>
      eapply wp_mono; [apply lcd_init_frame |];
      let s := fresh "s" in let F := fresh "F" in let C := fresh "C" in intros [] s [F C]
  | |- _ => run_step
  end.

(** The clocks are as they were before a run. *)
Ltac same_clocks :=
  repeat match goal with W : written _ _ _ _ |- _ => apply proj2 in W end; congruence.

Ltac forget_run :=
  repeat match goal with
  | W : written _ _ _ _ |- _ => clear W
  | F : ∀ r, 0 ≤ r → reg (regs _) r = _ |- _ => clear F
  | C : exynos4412_clocks _ = _ |- _ => clear C
  | s : clk_state |- _ => clear s
  end.

(** A field of a register at the end of a run. *)
Ltac field :=
  unfold reg; reg_read; forget_run;
  unfold VIDCON0_VIDOUT_MASK; cbn [lcd_field_value];
  match goal with |- bits ?e _ ?w = ?v => transitivity (bits v 0 w); [bits_eq | apply bits_small; first [lia | nia]] end.

Lemma polarity_bits a b c d :
  let cfg := u32 (set_if d (Z.shiftl 1 4) (set_if c (Z.shiftl 1 5) (set_if b (Z.shiftl 1 6)
               (set_if a (Z.shiftl 1 7) 0)))) in
  bits cfg 7 1 = Z.b2z a ∧ bits cfg 6 1 = Z.b2z b ∧ bits cfg 5 1 = Z.b2z c ∧ bits cfg 4 1 = Z.b2z d.
Proof. by destruct a, b, c, d. Qed.

Lemma output_shift o :
  match o with
  | EXYNOS4412_FB_OUTPUT_RGB => Z.shiftl 0x0 26
  | EXYNOS4412_FB_OUTPUT_I80LDI0 => Z.shiftl 0x2 26
  | EXYNOS4412_FB_OUTPUT_I80LDI1 => Z.shiftl 0x3 26
  | EXYNOS4412_FB_OUTPUT_WB_RGB => Z.shiftl 0x4 26
  | EXYNOS4412_FB_OUTPUT_WB_I80LDI0 => Z.shiftl 0x6 26
  | EXYNOS4412_FB_OUTPUT_WB_I80LDI1 => Z.shiftl 0x7 26
  end = Z.shiftl (output_code o) 26.
Proof. by destruct o. Qed.

Lemma fb_init_spec dat s fimd :
  panel_ok dat → dot_rate dat < 2147483648 → 0 < fimd < 2 ^ 32 →
  clk_get_rate "fimd" (Some 0) s = Some ((true, Some fimd), s) →
  wp (fb_init dat) (λ _ s', panel_shown dat (regs s') ∧
    bits (reg (regs s') VIDCON0) 6 8 =
    Z.lor (bits (reg (regs s) VIDCON0) 6 8) (bits (clock_divider dat fimd - 1) 0 8)) s.
Proof.
  intros Hp Hd Hf Hc. destruct (dot_rate_bounds dat Hp Hd) as [Hd0 Epc].
  destruct (divider_computed dat fimd Hd0 Hf) as [Ediv Hdiv].
  pose proof Hp as [Hb Hw Hh Hpi Har Hmo Hbpp (?&?&?) [??] (?&?&?) _].
  assert (0 ≤ output_code (output dat) < 2 ^ 3) as Hout by by destruct (output dat).
  assert (∀ j, 2 ≤ j → Z.testbit (rgb_mode dat) j = false) by (intros; by apply (testbit_above _ 2)).
  assert (∀ j, 4 ≤ j → Z.testbit (bpp_mode dat) j = false) by (intros; by apply (testbit_above _ 4)).
  unfold fb_init, exynos4412_fb_set_output, exynos4412_fb_set_display_mode, exynos4412_fb_display_off,
    exynos4412_fb_set_polarity, exynos4412_fb_set_timing, exynos4412_fb_set_lcd_size, update, clear_bits.
  rewrite output_shift, Hb, !(s32_small (_ - 1)) by lia. run.
  unfold exynos4412_fb_set_clock at 1. apply wp_bind. eapply wp_intro.
  { apply (clk_get_rate_same _ _ _ s); [same_clocks | exact Hc]. }
  cbn [negb default]. rewrite Epc. unfold div64. rewrite (proj2 (Z.eqb_neq _ 0)) by lia.
  apply wp_bind, wp_ret. cbv beta zeta delta [id]. rewrite Ediv, Hb, u32_small by lia.
  unfold exynos4412_fb_set_buffer_size, exynos4412_fb_set_window_position, exynos4412_fb_set_window_size,
    exynos4412_fb_window0_enable, exynos4412_fb_display_on. cbn [Z.gtb Z.compare].
  cbn [fb_swap_value].
  rewrite Hb, !has_bit by lia. rewrite !(s32_small (_ - 1)), !s32_small by nia. run.
  split; [split |].
  4: { unfold reg. reg_read. apply polarity_bits. }
  all: try (split_and?; field).
  - split_and!; [unfold reg; reg_read; reflexivity | field | field].
  - apply seqZ_forall with (w := 4). unfold reg. reg_read. forget_run. repeat (apply Forall_cons; split; [bits_done |]). by apply Forall_nil.
  - rewrite bits_lor by done. unfold reg. reg_read. forget_run. unfold VIDCON0_VIDOUT_MASK; cbn [lcd_field_value]. bits_eq.
Qed.

(** The five panels can be programmed, and a frame of each fits in a buffer. *)
Lemma fb_panel_ok vram commandline :
  let dat := fb_panel vram commandline in
  panel_ok dat ∧ dot_rate dat < 2147483648 ∧
  d_width dat * d_height dat * d_bytes_per_pixel dat ≤ VRAM_SIZE ∧
  d_bits_per_pixel dat = 32 ∧ d_bytes_per_pixel dat = 4 ∧
  vram_front dat = vram ∧ vram_back dat = vram + VRAM_SIZE ∧
  rgba dat = Rgba 8 0 8 8 8 16 8 24 ∧ d_backlight dat = true.
Proof.
  cbn zeta. unfold fb_panel. repeat case_match; (split; [split; cbn; lia || done |]); by split_and!; vm_compute.
Qed.

Lemma lcd_backlight_spec b s :
  wp (lcd_backlight b) (λ _ s', (∀ r, 0 ≤ r → reg (regs s') r = reg (regs s) r) ∧ (b ≠ 0 → lit (regs s'))) s.
Proof.
  unfold lcd_backlight, update. destruct (b =? 0) eqn:Eb; cbn [negb]; repeat run_step; (split; [|intros Hb]);
    try lia; try by (intros r Hr; unfold reg; repeat match goal with W : written _ ?s _ _ |- context [regs ?s ?x] =>
      rewrite (proj1 W x), (proj2 (Z.eqb_neq x _)) by (unfold EXYNOS4412_LCD_BASE; cbn [gpio_port_base gpio_word_offset]; lia) end).
  split; field.
Qed.

(** ** The two buffers *)

Lemma wp_on_clk {A} (c : prog clk_state A) (Q : A → fb_state → Prop) s :
  wp c (λ a k, Q a (FbState (fs_fb s) k)) (fs_clk s) → wp (on_clk c) Q s.
Proof. unfold wp, on_clk. by destruct (c (fs_clk s)) as [[a k]|]. Qed.


(** What the calls of the two functions make of the frame buffer. *)
Inductive fb_op := Swap | Flush.

#[export] Instance fb_op_eq_dec : EqDecision fb_op.
Proof. solve_decision. Defined.

Definition fb_run_op (o : fb_op) : prog fb_state unit :=
  match o with Swap => exynos4412_screen_swap | Flush => exynos4412_screen_flush end.

Fixpoint fb_run (ops : list fb_op) : prog fb_state unit :=
  match ops with
  | [] => ret tt
  | o :: ops => fb_run_op o ;; fb_run ops
  end.

(** The address the controller fetches window 0 from. *)
Definition displayed (s : fb_state) : Z := reg (regs (fs_clk s)) VIDW00ADD0B0.

Record buffers_ok (vram : Z) (s : fb_state) : Prop := {
  bo_regbase : regbase (fb_dat (fs_fb s)) = EXYNOS4412_LCD_BASE;
  bo_vram : (vram_front (fb_dat (fs_fb s)) = vram ∧ vram_back (fb_dat (fs_fb s)) = vram + VRAM_SIZE) ∨
            (vram_front (fb_dat (fs_fb s)) = vram + VRAM_SIZE ∧ vram_back (fb_dat (fs_fb s)) = vram);
  bo_surface : s_pixels (fb_surface (fs_fb s)) = vram_front (fb_dat (fs_fb s));
}.

Lemma fb_swap_spec vram s :
  buffers_ok vram s →
  wp fb_swap (λ _ s', buffers_ok vram s' ∧ displayed s' = displayed s ∧
    vram_front (fb_dat (fs_fb s')) = vram_back (fb_dat (fs_fb s))) s.
Proof. intros [Hb Hv Hs]. unfold wp, fb_swap. cbn. split_and!; [| done | done]. split; cbn; [done | tauto | done]. Qed.

Lemma buffer_address_spec dat a s :
  regbase dat = EXYNOS4412_LCD_BASE → 0 ≤ a < 4294967296 →
  wp (exynos4412_fb_set_buffer_address dat 0 a)
    (λ _ s', reg (regs s') VIDW00ADD0B0 = a ∧
       ∀ dat, panel_shown dat (regs s) → panel_shown dat (regs s')) s.
Proof.
  intros Hb Ha. unfold exynos4412_fb_set_buffer_address. rewrite Hb. repeat run_step.
  split; [unfold reg; reg_read; by apply u32_small |].
  intros d. apply panel_shown_ext.
  - intros r Hr H1 H2 H3. unfold reg. repeat match goal with W : written _ ?s _ _ |- context [regs ?s ?x] =>
      rewrite (proj1 W x), (proj2 (Z.eqb_neq x _)) by lia end. done.
  - unfold reg. reg_read. forget_run. cbn [lcd_field_value]. bits_eq.
  - field.
Qed.

Lemma fb_flush_spec vram s :
  0 ≤ vram → vram + 2 * VRAM_SIZE < 2 ^ 32 → buffers_ok vram s →
  wp fb_flush (λ _ s', buffers_ok vram s' ∧ fs_fb s' = fs_fb s ∧
    displayed s' = vram_front (fb_dat (fs_fb s)) ∧
    ∀ dat, panel_shown dat (regs (fs_clk s)) → panel_shown dat (regs (fs_clk s'))) s.
Proof.
  intros H0 H1 [Hb Hv Hs]. unfold fb_flush. apply wp_bind. unfold get_state, wp at 1. apply wp_bind.
  apply wp_on_clk. eapply wp_mono; [apply (buffer_address_spec _ _ _ Hb) |].
  - change VRAM_SIZE with 9216000 in *. change (2 ^ 32) with 4294967296 in *.
    destruct Hv as [[-> _] | [-> _]]; lia.
  - intros b k [Hk Hp]. apply wp_ret. split_and!; [by split | done | done | done].
Qed.

(** ** Properties *)

(** C34: [fb_init] programs the display controller for a panel: every field of
    polarity, timing, size, position, pitch, pixel format and output path has
    the value of the panel description, only window 0 is on, and the display
    is on.  The divider of the dot clock is or-ed into its field: if the field
    was zero the dot clock is the fastest one that is not above the rate of the
    panel. *)
Theorem fb_init_correct dat s fimd :
  panel_ok dat → dot_rate dat < 2147483648 → 0 < fimd < 2 ^ 32 →
  clk_get_rate "fimd" (Some 0) s = Some ((true, Some fimd), s) →
  wp (fb_init dat) (λ _ s', let CLKVAL R := bits (reg R VIDCON0) 6 8 in
    panel_shown dat (regs s') ∧
    CLKVAL (regs s') = Z.lor (CLKVAL (regs s)) (bits (clock_divider dat fimd - 1) 0 8) ∧
    (CLKVAL (regs s) = 0 → clock_divider dat fimd ≤ 256 →
       fimd ≤ (CLKVAL (regs s') + 1) * dot_rate dat < fimd + dot_rate dat)) s.
Proof.
  intros Hp Hd Hf Hc. eapply wp_mono; [by eapply fb_init_spec |]. intros [] s' [Hs Hk].
  split_and!; [done | done |]. intros H0 Hle. rewrite Hk, H0, Z.lor_0_l.
  destruct (dot_rate_bounds dat Hp Hd) as [Hd0 _]. destruct (divider_computed dat fimd Hd0 Hf) as [_ Hr].
  rewrite bits_small by lia. unfold clock_divider in *.
  pose proof (Z.div_mod (fimd + dot_rate dat - 1) (dot_rate dat) ltac:(lia)) as E.
  pose proof (Z.mod_pos_bound (fimd + dot_rate dat - 1) (dot_rate dat) ltac:(lia)). nia.
Qed.

Definition example_fimd : clk_state := ClkState (λ _, 0) [Clk (Some "fimd") 800000000].

(** The 1024 by 600 panel gets 50 MHz from 800 MHz. *)
Lemma fb_init_correct_witness :
  wp (fb_init (vs070cxn 0x44000000)) (λ _ s', bits (reg (regs s') VIDCON0) 6 8 = 15) example_fimd.
Proof.
  eapply wp_mono.
  - apply (fb_init_correct (vs070cxn 0x44000000) example_fimd 800000000).
    + apply (fb_panel_ok 0x44000000 EmptyString).
    + by vm_compute.
    + lia.
    + by vm_compute.
  - intros u s' (_ & Hk & _). rewrite Hk. by vm_compute.
Defined.

(** The number of swaps in a sequence of calls. *)
Definition swaps (ops : list fb_op) : nat := length (filter (λ o, o = Swap) ops).

Lemma swaps_replicate n : swaps (replicate n Swap) = n.
Proof. unfold swaps. induction n as [|n IH]; [done |]. cbn [replicate]. rewrite filter_cons_True by done. cbn. by rewrite IH. Qed.

(** The front buffer after [n] swaps. *)
Definition front_after (s : fb_state) (n : nat) : Z :=
  if Nat.even n then vram_front (fb_dat (fs_fb s)) else vram_back (fb_dat (fs_fb s)).

Lemma fb_run_app ops ops' Q s :
  wp (fb_run ops) (λ _ s1, wp (fb_run ops') Q s1) s → wp (fb_run (ops ++ ops')) Q s.
Proof.
  revert s. induction ops as [|o ops IH]; intros s; cbn [fb_run app]; [by unfold wp, ret |].
  unfold wp, bind. destruct (fb_run_op o s) as [[[] s1]|]; [apply IH | done].
Qed.

Lemma front_after_swap s s' n :
  vram_front (fb_dat (fs_fb s')) = vram_back (fb_dat (fs_fb s)) →
  vram_back (fb_dat (fs_fb s')) = vram_front (fb_dat (fs_fb s)) →
  front_after s' n = front_after s (S n).
Proof.
  intros E1 E2. unfold front_after. rewrite E1, E2, Nat.even_succ, <- Nat.negb_even. by destruct (Nat.even n).
Qed.

(** Drawing goes to the buffer that the number of swaps gives. *)
Lemma fb_run_spec vram ops s :
  0 ≤ vram → vram + 2 * VRAM_SIZE < 2 ^ 32 → buffers_ok vram s →
  wp (fb_run ops) (λ _ s1, buffers_ok vram s1 ∧ (∀ n, front_after s1 n = front_after s (swaps ops + n)) ∧
    (Flush ∉ ops → displayed s1 = displayed s)) s.
Proof.
  intros H0 H1. revert s. induction ops as [|o ops IH]; intros s Hs; cbn [fb_run]; [by apply wp_ret |].
  apply wp_bind. destruct o; cbn [fb_run_op].
  - eapply wp_mono; [by eapply fb_swap_spec |]. intros [] s1 (Hs1 & Ed & Ef).
    assert (vram_back (fb_dat (fs_fb s1)) = vram_front (fb_dat (fs_fb s))) as Eb
      by (destruct (bo_vram _ _ Hs), (bo_vram _ _ Hs1); lia).
    eapply wp_mono; [by apply IH |]. intros [] s2 (Hs2 & Hf & Hd). split_and!; [done | |].
    + intros n. rewrite Hf, (front_after_swap s) by done. done.
    + intros Hno. rewrite Hd, Ed; [done |]. by intros Hin; apply Hno; right.
  - eapply wp_mono; [by eapply fb_flush_spec |]. intros [] s1 (Hs1 & Ef & _).
    eapply wp_mono; [by apply IH |]. intros [] s2 (Hs2 & Hf & _). split_and!; [done | |].
    + intros n. rewrite Hf. unfold front_after. by rewrite Ef.
    + intros []. left.
Qed.

(** C35: In every sequence of calls of [exynos4412_screen_swap] and
    [exynos4412_screen_flush], drawing goes to the buffer given by the parity of
    the number of swaps, and the controller shows the buffer that drawing went to
    at the last flush.  So after an even number [n] of swaps since the last
    flush the buffer drawn to is the one shown, and after an odd number, in
    particular right after one swap, it is the other one, which does not overlap
    the one shown. *)
Theorem buffers_safe vram ops n s :
  0 ≤ vram → vram + 2 * VRAM_SIZE < 2 ^ 32 → buffers_ok vram s →
  wp (fb_run (ops ++ Flush :: replicate n Swap)) (λ _ s1,
    let drawn := s_pixels (fb_surface (fs_fb s1)) in
    buffers_ok vram s1 ∧
    drawn = front_after s (swaps ops + n) ∧ displayed s1 = front_after s (swaps ops) ∧
    if Nat.even n then displayed s1 = drawn
    else displayed s1 + VRAM_SIZE ≤ drawn ∨ drawn + VRAM_SIZE ≤ displayed s1) s.
Proof.
  intros H0 H1 Hs. apply fb_run_app. eapply wp_mono; [by apply (fb_run_spec vram) |]. intros [] s1 (Hs1 & Hf1 & _).
  cbn [fb_run fb_run_op]. apply wp_bind. eapply wp_mono; [by eapply fb_flush_spec |]. intros [] s2 (Hs2 & Ef & Ed & _).
  eapply wp_mono; [by apply (fb_run_spec vram) |]. intros [] s3 (Hs3 & Hf3 & Hd3).
  rewrite Hd3, Ed by (intros Hin%elem_of_replicate_inv; done).
  assert (s_pixels (fb_surface (fs_fb s3)) = front_after s1 n) as Edraw.
  { rewrite (bo_surface _ _ Hs3). change (vram_front (fb_dat (fs_fb s3))) with (front_after s3 0).
    rewrite Hf3, swaps_replicate, Nat.add_0_r. unfold front_after. by rewrite Ef. }
  cbn zeta. rewrite Edraw. split_and!; [done | apply Hf1 | |].
  - specialize (Hf1 0%nat). rewrite Nat.add_0_r in Hf1. by rewrite <- Hf1.
  - unfold front_after. destruct (Nat.even n); [done |].
    destruct (bo_vram _ _ Hs1) as [[-> ->] | [-> ->]]; [left | right]; lia.
Qed.

Definition example_fb : fb_state :=
  FbState (Fb (Surface (format_info PIXEL_FORMAT_ABGR_8888) 1024 600 4096 SURFACE_PIXELS_DONTFREE 0x44000000 (Rect 0 0 1024 600)
                 (Maps None None None None None None None)) (vs070cxn 0x44000000)) example_fimd.

Lemma buffers_safe_witness :
  wp (fb_run [Flush; Swap; Swap; Flush; Swap])
    (λ _ s1, s_pixels (fb_surface (fs_fb s1)) = 0x44000000 + VRAM_SIZE ∧ displayed s1 = 0x44000000) example_fb.
Proof.
  eapply wp_mono.
  - apply (buffers_safe 0x44000000 [Flush; Swap; Swap] 1 example_fb).
    + done.
    + by vm_compute.
    + split; [done | by left | done].
  - intros u s1 (_ & Hdraw & Hshown & _). split; [exact Hdraw | exact Hshown].
Defined.
