(* ===== verification/Frame.v ===== *)
(** Registers that display code leaves alone: a program keeps a set of registers
    if it ends with the values it found there, and with the same table of
    clocks.  [fb_init] keeps the clock controller and the ports of the lamps and
    the key; flushing and the backlight keep the register of the dot clock as
    well. *)

From stdpp Require Import prelude.
From S2P Require Import Prelude Prog CString Clk Fb.

Local Open Scope Z_scope.

(** ** Keeping registers *)

Definition kept (P : Z → bool) (s s' : clk_state) : Prop :=
  (∀ a, P a = true → regs s' a = regs s a) ∧ exynos4412_clocks s' = exynos4412_clocks s.

Definition keeps (P : Z → bool) {A} (c : prog clk_state A) : Prop :=
  ∀ s x s', c s = Some (x, s') → kept P s s'.

#[export] Instance kept_preorder P : PreOrder (kept P).
Proof.
  split; [by intros s; split |]. intros s1 s2 s3 [R12 C12] [R23 C23].
  split; [intros a Ha; by rewrite R23, R12 | by rewrite C23].
Qed.

Create HintDb keeps.

Section keeps.
Variable P : Z → bool.

Lemma keeps_ret {A} (x : A) : keeps P (ret x).
Proof. by intros s y s' [= _ <-]. Qed.

Lemma keeps_bind {A B} (c : prog clk_state A) (k : A → prog clk_state B) :
  keeps P c → (∀ x, keeps P (k x)) → keeps P (bind c k).
Proof.
  intros Hc Hk s y s'. unfold bind. destruct (c s) as [[x s1] |] eqn:E; [| done]. intros E'.
  etrans; [by eapply Hc | by eapply Hk].
Qed.

Lemma keeps_readl a : keeps P (readl a).
Proof. by intros s y s' [= _ <-]. Qed.

Lemma keeps_writel a v : P a = false → keeps P (writel a v).
Proof.
  intros Ha s y s' [= _ <-]. split; [| done]. intros b Hb. cbn. destruct (Z.eqb_spec b a); congruence.
Qed.

Lemma keeps_update a clear set : P a = false → keeps P (update a clear set).
Proof. intros Ha. apply keeps_bind; [apply keeps_readl |]. intros r. by apply keeps_writel. Qed.

Lemma keeps_clear_bits a clear : P a = false → keeps P (clear_bits a clear).
Proof. intros Ha. apply keeps_bind; [apply keeps_readl |]. intros r. by apply keeps_writel. Qed.

Lemma keeps_div64 a b : keeps P (div64 a b).
Proof. unfold div64. destruct (b =? 0); [done | apply keeps_ret]. Qed.

Lemma keeps_clk_get_rate nm rt : keeps P (clk_get_rate nm rt).
Proof.
  intros s y s'. unfold clk_get_rate, bind, get_state. generalize (exynos4412_clocks s) as cs.
  intros cs. induction cs as [|c cs IH]; cbn; [by intros [= _ <-] |].
  destruct (name c); [| done]. destruct (strcmp _ nm =? 0); [by intros [= _ <-] | done].
Qed.

Lemma keeps_wp {A} (c : prog clk_state A) Q s : keeps P c → wp c Q s → wp c (λ x s', Q x s' ∧ kept P s s') s.
Proof. intros Hc. unfold wp. destruct (c s) as [[x s'] |] eqn:E; [| done]. intros HQ. split; [done | by eapply Hc]. Qed.
End keeps.

#[export] Hint Resolve keeps_ret keeps_readl keeps_div64 keeps_clk_get_rate : keeps.

(** Goes through a program; the addresses of its writes are evaluated. *)
Ltac keep :=
  repeat lazymatch goal with
  | |- keeps _ (bind _ _) => apply keeps_bind; [| intros ?]
  | |- keeps _ (writel _ _) => apply keeps_writel; reflexivity
  | |- keeps _ (update _ _ _) => apply keeps_update; reflexivity
  | |- keeps _ (clear_bits _ _) => apply keeps_clear_bits; reflexivity
  | |- keeps _ (if ?b then _ else _) => destruct b
  | |- keeps _ (let '(_, _) := ?p in _) => destruct p
  | |- keeps _ _ => solve [auto with keeps]
  end.

(** ** Display code *)

(** The clock controller and the ports X1 and X2. *)
Definition quiet_block (a : Z) : bool :=
  ((0x10030000 <=? a) && (a <? 0x10050000)) || ((0x11000C20 <=? a) && (a <? 0x11000C60)).

(** These and the register with the divider of the dot clock. *)
Definition quiet_registers (a : Z) : bool := quiet_block a || (a =? EXYNOS4412_LCD_BASE + VIDCON0).

Lemma clk_address_block (r : clk_register) : quiet_block r = true.
Proof. by destruct r. Qed.

Lemma lcd_init_keeps : keeps quiet_registers lcd_init.
Proof. unfold lcd_init. keep. Qed.

Lemma lcd_backlight_keeps brightness : keeps quiet_registers (lcd_backlight brightness).
Proof. unfold lcd_backlight. keep. Qed.

Lemma buffer_address_keeps dat vram :
  regbase dat = EXYNOS4412_LCD_BASE → keeps quiet_registers (exynos4412_fb_set_buffer_address dat 0 vram).
Proof. intros E. unfold exynos4412_fb_set_buffer_address. rewrite E. keep. Qed.

Lemma kept_weaken (P P' : Z → bool) s s' : (∀ a, P' a = true → P a = true) → kept P s s' → kept P' s s'.
Proof. intros HP [HR HC]. split; auto. Qed.

Lemma keeps_weaken (P P' : Z → bool) {A} (c : prog clk_state A) :
  (∀ a, P' a = true → P a = true) → keeps P c → keeps P' c.
Proof. intros HP Hc s x s' E. by eapply kept_weaken, Hc. Qed.

Lemma fb_init_keeps dat : regbase dat = EXYNOS4412_LCD_BASE → keeps quiet_block (fb_init dat).
Proof.
  intros E. assert (keeps quiet_block lcd_init) as Hi.
  { eapply keeps_weaken; [| apply lcd_init_keeps]. intros a. unfold quiet_registers. by intros ->. }
  unfold fb_init, exynos4412_fb_set_output, exynos4412_fb_set_display_mode, exynos4412_fb_display_off,
    exynos4412_fb_set_polarity, exynos4412_fb_set_timing, exynos4412_fb_set_lcd_size, exynos4412_fb_set_clock,
    exynos4412_fb_set_buffer_size, exynos4412_fb_set_window_position, exynos4412_fb_set_window_size,
    exynos4412_fb_window0_enable, exynos4412_fb_display_on.
  rewrite E. keep.
Qed.
