(* ===== verification/Gpio.v ===== *)
(** General purpose pins: [arch/arm/cpu/armv7/exynos/gpio.c] with the port
    numbers of [asm/arch-exynos/gpio.h].  The registers are those of the clock
    and display code; the file adds the pointer [GPIO_pBase] to their block,
    whose struct is a list of named members.  The functions of a port are shown
    to change exactly the field of the pin; those of the interrupt groups, which
    are 29 copies of one text with other constants, exactly the three fields of
    the interrupt, and where the copies differ by mistake what they miss. *)

From stdpp Require Import prelude strings pretty.
From S2P Require Import Prelude Prog Clk Fb.

Local Open Scope Z_scope.
Local Open Scope word_scope.

(** ** The register block *)

(** A port is the offset of its registers. *)
Inductive GPIO_eId :=
  | eGPIO_J0 | eGPIO_J1 | eGPIO_K0 | eGPIO_K1 | eGPIO_K2 | eGPIO_K3 | eGPIO_L0 | eGPIO_L1
  | eGPIO_L2 | eGPIO_MP0_0 | eGPIO_MP0_1 | eGPIO_MP0_2 | eGPIO_MP0_3 | eGPIO_MP0_4 | eGPIO_MP0_5
  | eGPIO_MP0_6 | eGPIO_X0 | eGPIO_X1 | eGPIO_X2 | eGPIO_X3 | eETC6 | eETC8 | eGPIO_A0 | eGPIO_A1
  | eGPIO_B | eGPIO_C0 | eGPIO_C1 | eGPIO_D0 | eGPIO_D1 | eGPIO_E0 | eGPIO_E1 | eGPIO_E2
  | eGPIO_E3 | eGPIO_E4 | eGPIO_F0 | eGPIO_F1 | eGPIO_F2 | eGPIO_F3 | eETC0 | eETC1.

Definition gpio_offset (id : GPIO_eId) : Z :=
  match id with
  | eGPIO_J0 => 0x000 | eGPIO_J1 => 0x020 | eGPIO_K0 => 0x040 | eGPIO_K1 => 0x060
  | eGPIO_K2 => 0x080 | eGPIO_K3 => 0x0A0 | eGPIO_L0 => 0x0C0 | eGPIO_L1 => 0x0E0
  | eGPIO_L2 => 0x100 | eGPIO_MP0_0 => 0x120 | eGPIO_MP0_1 => 0x140 | eGPIO_MP0_2 => 0x160
  | eGPIO_MP0_3 => 0x180 | eGPIO_MP0_4 => 0x1A0 | eGPIO_MP0_5 => 0x1C0 | eGPIO_MP0_6 => 0x1E0
  | eGPIO_X0 => 0xC00 | eGPIO_X1 => 0xC20 | eGPIO_X2 => 0xC40 | eGPIO_X3 => 0xC60 | eETC6 => 0x208
  | eETC8 => 0x228 | eGPIO_A0 => 0x400000 | eGPIO_A1 => 0x400020 | eGPIO_B => 0x400040
  | eGPIO_C0 => 0x400060 | eGPIO_C1 => 0x400080 | eGPIO_D0 => 0x4000A0 | eGPIO_D1 => 0x4000C0
  | eGPIO_E0 => 0x4000E0 | eGPIO_E1 => 0x400100 | eGPIO_E2 => 0x400120 | eGPIO_E3 => 0x400140
  | eGPIO_E4 => 0x400160 | eGPIO_F0 => 0x400180 | eGPIO_F1 => 0x4001A0 | eGPIO_F2 => 0x4001C0
  | eGPIO_F3 => 0x4001E0 | eETC0 => 0x400208 | eETC1 => 0x400228
  end.

Coercion gpio_offset : GPIO_eId >-> Z.

Inductive FLT_eTYPE := eDisFLT | eEnFLT | eDLYFLT | eDIGFLT.

Definition flt_value (f : FLT_eTYPE) : Z :=
  match f with eDisFLT => 0x0 | eEnFLT => 0x1 | eDLYFLT => 0x2 | eDIGFLT => 0x3 end.

Coercion flt_value : FLT_eTYPE >-> Z.

(** A member of [oGPIO_REGS]: a register, or an array that is not used. *)
Inductive member := Reg (name : string) | Res (name : string) (words : Z).

Definition right_top_ports : list member :=
  [Reg "rGPIOJ0CON"; Reg "rGPIOJ0DAT"; Reg "rGPIOJ0PUD"; Reg "rGPIOJ0DRV_SR"; Reg "rGPIOJ0CONPDN";
   Reg "rGPIOJ0PUDPDN"; Res "reservedJ0" 2; Reg "rGPIOJ1CON"; Reg "rGPIOJ1DAT"; Reg "rGPIOJ1PUD";
   Reg "rGPIOJ1DRV_SR"; Reg "rGPIOJ1CONPDN"; Reg "rGPIOJ1PUDPDN"; Res "reservedJ1" 2;
   Reg "rGPIOK0CON"; Reg "rGPIOK0DAT"; Reg "rGPIOK0PUD"; Reg "rGPIOK0DRV_SR"; Reg "rGPIOK0CONPDN";
   Reg "rGPIOK0PUDPDN"; Res "reservedK0" 2; Reg "rGPIOK1CON"; Reg "rGPIOK1DAT"; Reg "rGPIOK1PUD";
   Reg "rGPIOK1DRV_SR"; Reg "rGPIOK1CONPDN"; Reg "rGPIOK1PUDPDN"; Res "reservedK1" 2;
   Reg "rGPIOK2CON"; Reg "rGPIOK2DAT"; Reg "rGPIOK2PUD"; Reg "rGPIOK2DRV_SR"; Reg "rGPIOK2CONPDN";
   Reg "rGPIOK2PUDPDN"; Res "reservedK2" 2; Reg "rGPIOK3CON"; Reg "rGPIOK3DAT"; Reg "rGPIOK3PUD";
   Reg "rGPIOK3DRV_SR"; Reg "rGPIOK3CONPDN"; Reg "rGPIOK3PUDPDN"; Res "reservedK3" 2;
   Reg "rGPIOL0CON"; Reg "rGPIOL0DAT"; Reg "rGPIOL0PUD"; Reg "rGPIOL0DRV_SR"; Reg "rGPIOL0CONPDN";
   Reg "rGPIOL0PUDPDN"; Res "reservedL0" 2; Reg "rGPIOL1CON"; Reg "rGPIOL1DAT"; Reg "rGPIOL1PUD";
   Reg "rGPIOL1DRV_SR"; Reg "rGPIOL1CONPDN"; Reg "rGPIOL1PUDPDN"; Res "reservedL1" 2;
   Reg "rGPIOL2CON"; Reg "rGPIOL2DAT"; Reg "rGPIOL2PUD"; Reg "rGPIOL2DRV_SR"; Reg "rGPIOL2CONPDN";
   Reg "rGPIOL2PUDPDN"; Res "reservedL2" 2; Reg "rGPIOMP0CON"; Reg "rGPIOMP0DAT";
   Reg "rGPIOMP0PUD"; Reg "rGPIOMP0DRV_SR"; Reg "rGPIOMP0CONPDN"; Reg "rGPIOMP0PUDPDN";
   Res "reservedMP0" 2; Reg "rGPIOMP1CON"; Reg "rGPIOMP1DAT"; Reg "rGPIOMP1PUD";
   Reg "rGPIOMP1DRV_SR"; Reg "rGPIOMP1CONPDN"; Reg "rGPIOMP1PUDPDN"; Res "reservedMP1" 2;
   Reg "rGPIOMP2CON"; Reg "rGPIOMP2DAT"; Reg "rGPIOMP2PUD"; Reg "rGPIOMP2DRV_SR";
   Reg "rGPIOMP2CONPDN"; Reg "rGPIOMP2PUDPDN"; Res "reservedMP2" 2; Reg "rGPIOMP3CON";
   Reg "rGPIOMP3DAT"; Reg "rGPIOMP3PUD"; Reg "rGPIOMP3DRVSR"; Reg "rGPIOMP3CONPDN";
   Reg "rGPIOMP3PUDPDN"; Res "reservedMP3" 2; Reg "rGPIOMP4CON"; Reg "rGPIOMP4DAT";
   Reg "rGPIOMP4PUD"; Reg "rGPIOMP4DRV_SR"; Reg "rGPIOMP4CONPDN"; Reg "rGPIOMP4PUDPDN";
   Res "reservedMP4" 2; Reg "rGPIOMP5CON"; Reg "rGPIOMP5DAT"; Reg "rGPIOMP5PUD";
   Reg "rGPIOMP5DRV_SR"; Reg "rGPIOMP5CONPDN"; Reg "rGPIOMP5PUDPDN"; Res "reservedMP5" 2;
   Reg "rGPIOMP6CON"; Reg "rGPIOMP6DAT"; Reg "rGPIOMP6PUD"; Reg "rGPIOMP6DRV_SR";
   Reg "rGPIOMP6CONPDN"; Reg "rGPIOMP6PUDPDN"; Res "reservedMP6" 2; Res "reservedETC6_1" 2;
   Reg "rGPIOETC6PUD"; Reg "rGPIOETC6DRV_SR"; Res "reservedETC6_2" 4; Res "reservedETC8_1" 2;
   Reg "rGPIOETC8PUD"; Reg "rGPIOETC8DRV_SR"; Res "reservedETC8_2" 4; Res "reserved1" 304].

Definition right_top_eint : list member :=
  [Reg "rEINT21CON"; Reg "rEINT22CON"; Reg "rEINT23CON"; Reg "rEINT24CON"; Reg "rEINT25CON";
   Reg "rEINT26CON"; Reg "rEINT27CON"; Reg "rEINT28CON"; Reg "rEINT29CON";
   Res "reservedEINTCON_1" 55; Reg "rEINT21FLTCON0"; Reg "rEINT21FLTCON1"; Reg "rEINT22FLTCON0";
   Reg "rEINT22FLTCON1"; Reg "rEINT23FLTCON0"; Reg "rEINT23FLTCON1"; Reg "rEINT24FLTCON0";
   Reg "rEINT24FLTCON1"; Reg "rEINT25FLTCON0"; Reg "rEINT25FLTCON1"; Reg "rEINT26FLTCON0";
   Reg "rEINT26FLTCON1"; Reg "rEINT27FLTCON0"; Reg "rEINT27FLTCON1"; Reg "rEINT28FLTCON0";
   Reg "rEINT28FLTCON1"; Reg "rEINT29FLTCON0"; Reg "rEINT29FLTCON1"; Res "reserveEINTFLTCON" 46;
   Reg "rEINT21MASK"; Reg "rEINT22MASK"; Reg "rEINT23MASK"; Reg "rEINT24MASK"; Reg "rEINT25MASK";
   Reg "rEINT26MASK"; Reg "rEINT27MASK"; Reg "rEINT28MASK"; Reg "rEINT29MASK";
   Res "reservedEINTMASK_1" 55; Reg "rEINT21PEND"; Reg "rEINT22PEND"; Reg "rEINT23PEND";
   Reg "rEINT24PEND"; Reg "rEINT25PEND"; Reg "rEINT26PEND"; Reg "rEINT27PEND"; Reg "rEINT28PEND";
   Reg "rEINT29PEND"; Res "reservedEINTPEND" 55; Reg "rEINTGRPPRIXB"; Reg "rEINTPRIORITYXB";
   Reg "rEINTSERVICEXB"; Reg "rEINTSERVICEPENDXB"; Reg "rEINTGRPFIXPRIXB"; Reg "rEINT21FIXPRI";
   Reg "rEINT22FIXPRI"; Reg "rEINT23FIXPRI"; Reg "rEINT24FIXPRI"; Reg "rEINT25FIXPRI";
   Reg "rEINT26FIXPRI"; Reg "rEINT27FIXPRI"; Reg "rEINT28FIXPRI"; Reg "rEINT29FIXPRI";
   Res "reservedEINTFIXPRI" 50; Reg "rGPIOX0CON"; Reg "rGPIOX0DAT"; Reg "rGPIOX0PUD";
   Reg "rGPIOX0DRV_SR"; Res "reservedGPIOX0" 4; Reg "rGPIOX1CON"; Reg "rGPIOX1DAT";
   Reg "rGPIOX1PUD"; Reg "rGPIOX1DRV_SR"; Res "reservedGPIOX1" 4; Reg "rGPIOX2CON";
   Reg "rGPIOX2DAT"; Reg "rGPIOX2PUD"; Reg "rGPIOX2DRV_SR"; Res "reservedGPIOX2" 4;
   Reg "rGPIOX3CON"; Reg "rGPIOX3DAT"; Reg "rGPIOX3PUD"; Reg "rGPIOX3DRV_SR";
   Res "reservedGPIOX3_1" 4; Res "reservedGPIOX3_2" 96; Reg "rEINT40CON"; Reg "rEINT41CON";
   Reg "rEINT42CON"; Reg "rEINT43CON"; Res "reservedEINTCON_2" 28; Reg "rEINT40FLTCON0";
   Reg "rEINT40FLTCON1"; Reg "rEINT41FLTCON0"; Reg "rEINT41FLTCON1"; Reg "rEINT42FLTCON0";
   Reg "rEINT42FLTCON1"; Reg "rEINT43FLTCON0"; Reg "rEINT43FLTCON1"; Res "reservedEINTFLTCON" 24;
   Reg "rEINT40MASK"; Reg "rEINT41MASK"; Reg "rEINT42MASK"; Reg "rEINT43MASK";
   Res "reservedEINTMASK_2" 12; Reg "rEINT40PEND"; Reg "rEINT41PEND"; Reg "rEINT42PEND";
   Reg "rEINT43PEND"; Res "reservedRT" 1047596].

Definition left_bottom_ports : list member :=
  [Reg "rGPIOA0CON"; Reg "rGPIOA0DAT"; Reg "rGPIOA0PUD"; Reg "rGPIOA0DRV_SR"; Reg "rGPIOA0CONPDN";
   Reg "rGPIOA0PUDPDN"; Res "reservedA0" 2; Reg "rGPIOA1CON"; Reg "rGPIOA1DAT"; Reg "rGPIOA1PUD";
   Reg "rGPIOA1DRV_SR"; Reg "rGPIOA1CONPDN"; Reg "rGPIOA1PUDPDN"; Res "reservedA1" 2;
   Reg "rGPIOBCON"; Reg "rGPIOBDAT"; Reg "rGPIOBPUD"; Reg "rGPIOBDRV_SR"; Reg "rGPIOBCONPDN";
   Reg "rGPIOBPUDPDN"; Res "reservedB" 2; Reg "rGPIOC0CON"; Reg "rGPIOC0DAT"; Reg "rGPIOC0PUD";
   Reg "rGPIOC0DRV_SR"; Reg "rGPIOC0CONPDN"; Reg "rGPIOC0PUDPDN"; Res "reservedC0" 2;
   Reg "rGPIOC1CON"; Reg "rGPIOC1DAT"; Reg "rGPIOC1PUD"; Reg "rGPIOC1DRV_SR"; Reg "rGPIOC1CONPDN";
   Reg "rGPIOC1PUDPDN"; Res "reservedC1" 2; Reg "rGPIOD0CON"; Reg "rGPIOD0DAT"; Reg "rGPIOD0PUD";
   Reg "rGPIOD0DRV_SR"; Reg "rGPIOD0CONPDN"; Reg "rGPIOD0PUDPDN"; Res "reservedD0" 2;
   Reg "rGPIOD1CON"; Reg "rGPIOD1DAT"; Reg "rGPIOD1PUD"; Reg "rGPIOD1DRV_SR"; Reg "rGPIOD1CONPDN";
   Reg "rGPIOD1PUDPDN"; Res "reservedD1" 2; Reg "rGPIOE0CON"; Reg "rGPIOE0DAT"; Reg "rGPIOE0PUD";
   Reg "rGPIOE0DRV_SR"; Reg "rGPIOE0CONPDN"; Reg "rGPIOE0PUDPDN"; Res "reservedE0" 2;
   Reg "rGPIOE1CON"; Reg "rGPIOE1DAT"; Reg "rGPIOE1PUD"; Reg "rGPIOE1DRV_SR"; Reg "rGPIOE1CONPDN";
   Reg "rGPIOE1PUDPDN"; Res "reservedE1" 2; Reg "rGPIOE2CON"; Reg "rGPIOE2DAT"; Reg "rGPIOE2PUD";
   Reg "rGPIOE2DRV_SR"; Reg "rGPIOE2CONPDN"; Reg "rGPIOE2PUDPDN"; Res "reservedE2" 2;
   Reg "rGPIOE3CON"; Reg "rGPIOE3DAT"; Reg "rGPIOE3PUD"; Reg "rGPIOE3DRV_SR"; Reg "rGPIOE3CONPDN";
   Reg "rGPIOE3PUDPDN"; Res "reservedE3" 2; Reg "rGPIOE4CON"; Reg "rGPIOE4DAT"; Reg "rGPIOE4PUD";
   Reg "rGPIOE4DRV_SR"; Reg "rGPIOE4CONPDN"; Reg "rGPIOE4PUDPDN"; Res "reservedE4" 2;
   Reg "rGPIOF0CON"; Reg "rGPIOF0DAT"; Reg "rGPIOF0PUD"; Reg "rGPIOF0DRV_SR"; Reg "rGPIOF0CONPDN";
   Reg "rGPIOF0PUDPDN"; Res "reservedF0" 2; Reg "rGPIOF1CON"; Reg "rGPIOF1DAT"; Reg "rGPIOF1PUD";
   Reg "rGPIOF1DRV_SR"; Reg "rGPIOF1CONPDN"; Reg "rGPIOF1PUDPDN"; Res "reservedF1" 2;
   Reg "rGPIOF2CON"; Reg "rGPIOF2DAT"; Reg "rGPIOF2PUD"; Reg "rGPIOF2DRV_SR"; Reg "rGPIOF2CONPDN";
   Reg "rGPIOF2PUDPDN"; Res "reservedF2" 2; Reg "rGPIOF3CON"; Reg "rGPIOF3DAT"; Reg "rGPIOF3PUD";
   Reg "rGPIOF3DRV_SR"; Reg "rGPIOF3CONPDN"; Reg "rGPIOF3PUDPDN"; Res "reservedF3" 2;
   Res "reservedETC0_1" 2; Reg "rGPIOETC0PUD"; Reg "rGPIOETC0DRV_SR"; Res "reservedETC0_2" 4;
   Res "reservedETC1_1" 2; Reg "rGPIOETC1PUD"; Reg "rGPIOETC1DRV_SR"; Res "reservedETC1_2" 4;
   Res "reservedETC" 304].

Definition left_bottom_eint : list member :=
  [Reg "rEINT1CON"; Reg "rEINT2CON"; Reg "rEINT3CON"; Reg "rEINT4CON"; Reg "rEINT5CON";
   Reg "rEINT6CON"; Reg "rEINT7CON"; Reg "rEINT8CON"; Reg "rEINT9CON"; Reg "rEINT10CON";
   Reg "rEINT11CON"; Reg "rEINT12CON"; Reg "rEINT13CON"; Reg "rEINT14CON"; Reg "rEINT15CON";
   Reg "rEINT16CON"; Res "reservedEINTCON_3" 48; Reg "rEINT1FLTCON0"; Reg "rEINT1FLTCON1";
   Reg "rEINT2FLTCON0"; Reg "rEINT2FLTCON1"; Reg "rEINT3FLTCON0"; Reg "rEINT3FLTCON1";
   Reg "rEINT4FLTCON0"; Reg "rEINT4FLTCON1"; Reg "rEINT5FLTCON0"; Reg "rEINT5FLTCON1";
   Reg "rEINT6FLTCON0"; Reg "rEINT6FLTCON1"; Reg "rEINT7FLTCON0"; Reg "rEINT7FLTCON1";
   Reg "rEINT8FLTCON0"; Reg "rEINT8FLTCON1"; Reg "rEINT9FLTCON0"; Reg "rEINT9FLTCON1";
   Reg "rEINT10FLTCON0"; Reg "rEINT10FLTCON1"; Reg "rEINT11FLTCON0"; Reg "rEINT11FLTCON1";
   Reg "rEINT12FLTCON0"; Reg "rEINT12FLTCON1"; Reg "rEINT13FLTCON0"; Reg "rEINT13FLTCON1";
   Reg "rEINT14FLTCON0"; Reg "rEINT14FLTCON1"; Reg "rEINT15FLTCON0"; Reg "rEINT15FLTCON1";
   Reg "rEINT16FLTCON0"; Reg "rEINT16FLTCON1"; Res "reservedFLTCON" 32; Reg "rEINT1MASK";
   Reg "rEINT2MASK"; Reg "rEINT3MASK"; Reg "rEINT4MASK"; Reg "rEINT5MASK"; Reg "rEINT6MASK";
   Reg "rEINT7MASK"; Reg "rEINT8MASK"; Reg "rEINT9MASK"; Reg "rEINT10MASK"; Reg "rEINT11MASK";
   Reg "rEINT12MASK"; Reg "rEINT13MASK"; Reg "rEINT14MASK"; Reg "rEINT15MASK"; Reg "rEINT16MASK";
   Res "reservedMASK" 48; Reg "rEINT1PEND"; Reg "rEINT2PEND"; Reg "rEINT3PEND"; Reg "rEINT4PEND";
   Reg "rEINT5PEND"; Reg "rEINT6PEND"; Reg "rEINT7PEND"; Reg "rEINT8PEND"; Reg "rEINT9PEND";
   Reg "rEINT10PEND"; Reg "rEINT11PEND"; Reg "rEINT12PEND"; Reg "rEINT13PEND"; Reg "rEINT14PEND";
   Reg "rEINT15PEND"; Reg "rEINT16PEND"; Res "reservedPEND" 48; Reg "rEINTGRPPRIXA";
   Reg "rEINTPRIORITYXA"; Reg "rEINTSERVICEXA"; Reg "rEINTSERVICEPENDXA"; Reg "rEINTGRPFIXPRIXA";
   Reg "rEINT1FIXPRI"; Reg "rEINT2FIXPRI"; Reg "rEINT3FIXPRI"; Reg "rEINT4FIXPRI";
   Reg "rEINT5FIXPRI"; Reg "rEINT6FIXPRI"; Reg "rEINT7FIXPRI"; Reg "rEINT8FIXPRI";
   Reg "rEINT9FIXPRI"; Reg "rEINT10FIXPRI"; Reg "rEINT11FIXPRI"; Reg "rEINT12FIXPRI";
   Reg "rEINT13FIXPRI"; Reg "rEINT14FIXPRI"; Reg "rEINT15FIXPRI"; Reg "rEINT16FIXPRI";
   Res "reservedFIXPRI" 267].

Definition oGPIO_REGS : list member :=
  right_top_ports ++ right_top_eint ++ left_bottom_ports ++ left_bottom_eint.

Definition member_name (m : member) : string := match m with Reg n | Res n _ => n end.
Definition member_size (m : member) : Z := match m with Reg _ => 4 | Res _ w => 4 * w end.

Fixpoint offset_in (n : string) (l : list member) (o : Z) : option Z :=
  match l with
  | [] => None
  | m :: l' => if decide (member_name m = n) then Some o else offset_in n l' (o + member_size m)
  end.

Definition member_offset (n : string) : option Z := offset_in n oGPIO_REGS 0.

Definition GPIO_BASE : Z := 0x11000000.

Record gpio_state := GpioState {
  GPIO_pBase : Z;
  gpio_io : clk_state;
}.

Definition on_io {A} (c : prog clk_state A) : prog gpio_state A := λ s,
  match c (gpio_io s) with Some (x, io) => Some (x, GpioState (GPIO_pBase s) io) | None => None end.

(** [&(GPIO_REG->n)] *)
Definition gpio_member (n : string) : prog gpio_state Z := λ s,
  match member_offset n with Some o => Some (GPIO_pBase s +u o, s) | None => None end.

(** [v << n], which is undefined for an [n] that is not a bit of the word. *)
Definition shl (v n : Z) : prog gpio_state Z :=
  if (0 <=? n) && (n <? 32) then ret (u32 (Z.shiftl v n)) else fault.

(** [*a = ( *a & ~(mask << n)) | (v << n)] *)
Definition gpio_field (a mask v n : Z) : prog gpio_state unit :=
  let* m := shl mask n in
  let* x := shl v n in
  on_io (update a m x).

(** ** Ports *)

Definition GPIO_Init : prog gpio_state unit := λ s, Some (tt, GpioState GPIO_BASE (gpio_io s)).

(** The address of register [k] of a port, counted in words. *)
Definition gpio_register (id : GPIO_eId) (k : Z) : prog gpio_state Z :=
  let uOffset := Z.land id 0xFFFFFF in
  let* pGPIO_Base_Addr := gpio_member "rGPIOJ0CON" in
  ret (pGPIO_Base_Addr +u 4 * (uOffset / 4 + k)).

Definition GPIO_SetFunctionEach (id : GPIO_eId) (eBitPos uFunction : Z) : prog gpio_state unit :=
  let* r := gpio_register id 0 in gpio_field r 0xF uFunction (4 * eBitPos).

Definition GPIO_SetFunctionAll (id : GPIO_eId) (uValue0 : Z) : prog gpio_state unit :=
  let* r := gpio_register id 0 in on_io (writel r uValue0).

Definition GPIO_SetDataEach (id : GPIO_eId) (eBitPos uValue : Z) : prog gpio_state unit :=
  let* r := gpio_register id 1 in gpio_field r 0x1 uValue eBitPos.

Definition GPIO_SetDataAll (id : GPIO_eId) (uValue : Z) : prog gpio_state unit :=
  let* r := gpio_register id 1 in on_io (writel r uValue).

Definition GPIO_GetDataEach (id : GPIO_eId) (eBitPos : Z) : prog gpio_state Z :=
  let* r := gpio_register id 1 in
  let* v := on_io (readl r) in
  let* m := shl 1 eBitPos in
  ret (if Z.land v m =? 0 then 0 else 1).

Definition GPIO_GetDataAll (id : GPIO_eId) : prog gpio_state Z :=
  let* r := gpio_register id 1 in let* v := on_io (readl r) in ret (s32 v).

Definition GPIO_SetPullUpDownEach (id : GPIO_eId) (eBitPos uValue : Z) : prog gpio_state unit :=
  let* r := gpio_register id (1 + 1) in gpio_field r 0x3 uValue (2 * eBitPos).

Definition GPIO_SetPullUpDownAll (id : GPIO_eId) (uValue : Z) : prog gpio_state unit :=
  let* r := gpio_register id (1 + 1) in on_io (writel r uValue).

Definition ETC_SetPullUpDownEach (id : GPIO_eId) (eBitPos uValue : Z) : prog gpio_state unit :=
  let* r := gpio_register id 0 in gpio_field r 0x3 uValue (2 * eBitPos).

Definition ETC_SetPullUpDownAll (id : GPIO_eId) (uValue : Z) : prog gpio_state unit :=
  let* r := gpio_register id 0 in on_io (writel r uValue).

Definition GPIO_SetDSEach (id : GPIO_eId) (eBitPos uValue : Z) : prog gpio_state unit :=
  let* r := gpio_register id (1 + 1 + 1) in gpio_field r 0x3 uValue (2 * eBitPos).

Definition GPIO_SetDSAll (id : GPIO_eId) (uValue : Z) : prog gpio_state unit :=
  let* r := gpio_register id (1 + 1 + 1) in on_io (update r 0xffff uValue).

Definition GPIO_SetConRegPDNAll (id : GPIO_eId) (uValue : Z) : prog gpio_state unit :=
  let* r := gpio_register id (1 + 1 + 1 + 1) in on_io (writel r uValue).

Definition GPIO_SetPullUDPDNAll (id : GPIO_eId) (uValue : Z) : prog gpio_state unit :=
  let* r := gpio_register id (1 + 1 + 1 + 1 + 1) in on_io (writel r uValue).

(** ** External interrupts *)

(** The constants in which the functions of a group differ: whether
    [GPIO_SetEint] sets [GPIO_pBase] first, the registers, the last interrupt,
    the port, the last interrupt of the first filter register, that of the
    second one, and the place of the filter type. *)
Record eint_group := EintGroup {
  eg_base : bool;
  eg_con : string;
  eg_last : Z;
  eg_port : GPIO_eId;
  eg_last0 : Z;
  eg_flt0 : string;
  eg_flt1 : option (Z * string);
  eg_type : Z;
  eg_pend : string;
  eg_mask : string;
}.

(** [*a = ( *a & ~(0xFF << 8t)) | ((width << 8t) | (type << 8t + k))] *)
Definition set_filter (a t width type k : Z) : prog gpio_state unit :=
  let* m := shl 0xFF (8 * t) in
  let* w := shl width (8 * t) in
  let* y := shl type (8 * t + k) in
  on_io (update a m (Z.lor w y)).

(** Numbers and widths that are too large are reported on the console, which
    does not end the function. *)
Definition GPIO_SetEint (g : eint_group) (uEINT_No uIntType : Z) (eFltType : FLT_eTYPE) (uFltWidth : Z) :
    prog gpio_state unit :=
  (if eg_base g then GPIO_Init else ret tt) ;;
  let* pEINTx_Reg := gpio_member (eg_con g) in
  (if uEINT_No <=? eg_last g then gpio_field pEINTx_Reg 0xF uIntType (4 * uEINT_No) else ret tt) ;;
  (if uEINT_No <=? eg_last g then GPIO_SetFunctionEach (eg_port g) uEINT_No 0xf else ret tt) ;;
  if uEINT_No <=? eg_last0 g then
    let* pFLTx_Reg := gpio_member (eg_flt0 g) in
    set_filter pFLTx_Reg uEINT_No uFltWidth eFltType (eg_type g)
  else match eg_flt1 g with
  | Some (last, n) =>
      if (3 <? uEINT_No) && (uEINT_No <=? last) then
        let* pFLTx_Reg := gpio_member n in
        set_filter pFLTx_Reg (uEINT_No - 4) uFltWidth eFltType (eg_type g)
      else ret tt
  | None => ret tt
  end.

Definition GPIO_EINTClrPend (g : eint_group) (uEINT_No : Z) : prog gpio_state unit :=
  let* pEINTPEND := gpio_member (eg_pend g) in
  let* v := shl 1 uEINT_No in
  on_io (writel pEINTPEND v).

Definition GPIO_EINTUnMask (g : eint_group) (uEINT_No : Z) : prog gpio_state unit :=
  let* pMASK_Reg := gpio_member (eg_mask g) in
  let* m := shl 0x1 uEINT_No in
  on_io (update pMASK_Reg m 0).

Definition GPIO_EINTMask (g : eint_group) (uEINT_No : Z) : prog gpio_state unit :=
  let* pMASK_Reg := gpio_member (eg_mask g) in
  gpio_field pMASK_Reg 0x1 1 uEINT_No.

Definition Eint1 : eint_group :=
  EintGroup false "rEINT1CON" 7 eGPIO_A0 3 "rEINT1FLTCON0" (Some (7, "rEINT1FLTCON1")) 7 "rEINT1PEND" "rEINT1MASK".

Definition Eint2 : eint_group :=
  EintGroup true "rEINT2CON" 5 eGPIO_A1 3 "rEINT2FLTCON0" (Some (5, "rEINT2FLTCON1")) 7 "rEINT2PEND" "rEINT2MASK".

Definition Eint3 : eint_group :=
  EintGroup true "rEINT3CON" 7 eGPIO_B 3 "rEINT3FLTCON0" (Some (7, "rEINT3FLTCON1")) 7 "rEINT3PEND" "rEINT3MASK".

Definition Eint4 : eint_group :=
  EintGroup true "rEINT4CON" 4 eGPIO_C0 3 "rEINT4FLTCON0" (Some (4, "rEINT4FLTCON1")) 7 "rEINT4PEND" "rEINT4MASK".

Definition Eint5 : eint_group :=
  EintGroup true "rEINT5CON" 4 eGPIO_C1 3 "rEINT5FLTCON0" (Some (4, "rEINT5FLTCON1")) 7 "rEINT5PEND" "rEINT5MASK".

Definition Eint6 : eint_group :=
  EintGroup true "rEINT6CON" 3 eGPIO_D0 3 "rEINT6FLTCON0" None 6 "rEINT6PEND" "rEINT6MASK".

Definition Eint7 : eint_group :=
  EintGroup true "rEINT7CON" 3 eGPIO_D1 3 "rEINT7FLTCON0" None 7 "rEINT7PEND" "rEINT7MASK".

Definition Eint8 : eint_group :=
  EintGroup true "rEINT8CON" 4 eGPIO_E0 3 "rEINT8FLTCON0" (Some (4, "rEINT8FLTCON1")) 7 "rEINT8PEND" "rEINT8MASK".

Definition Eint9 : eint_group :=
  EintGroup true "rEINT9CON" 7 eGPIO_E1 3 "rEINT9FLTCON0" (Some (7, "rEINT9FLTCON1")) 7 "rEINT9PEND" "rEINT9MASK".

Definition Eint10 : eint_group :=
  EintGroup true "rEINT10CON" 5 eGPIO_E2 3 "rEINT10FLTCON0" (Some (5, "rEINT10FLTCON1")) 7 "rEINT10PEND" "rEINT10MASK".

Definition Eint11 : eint_group :=
  EintGroup true "rEINT11CON" 7 eGPIO_E3 3 "rEINT11FLTCON0" (Some (7, "rEINT11FLTCON1")) 7 "rEINT11PEND" "rEINT11MASK".

Definition Eint12 : eint_group :=
  EintGroup true "rEINT12CON" 7 eGPIO_E4 3 "rEINT12FLTCON0" (Some (7, "rEINT12FLTCON1")) 7 "rEINT12PEND" "rEINT12MASK".

Definition Eint13 : eint_group :=
  EintGroup true "rEINT13CON" 7 eGPIO_F0 3 "rEINT13FLTCON0" (Some (5, "rEINT13FLTCON1")) 7 "rEINT13PEND" "rEINT13MASK".

Definition Eint14 : eint_group :=
  EintGroup true "rEINT14CON" 7 eGPIO_F1 3 "rEINT14FLTCON0" (Some (7, "rEINT14FLTCON1")) 7 "rEINT14PEND" "rEINT14MASK".

Definition Eint15 : eint_group :=
  EintGroup true "rEINT15CON" 7 eGPIO_F2 3 "rEINT15FLTCON0" (Some (7, "rEINT15FLTCON1")) 7 "rEINT15PEND" "rEINT15MASK".

Definition Eint16 : eint_group :=
  EintGroup true "rEINT16CON" 5 eGPIO_F3 3 "rEINT16FLTCON0" (Some (5, "rEINT16FLTCON1")) 7 "rEINT16PEND" "rEINT16MASK".

Definition Eint21 : eint_group :=
  EintGroup true "rEINT21CON" 7 eGPIO_J0 3 "rEINT21FLTCON0" (Some (7, "rEINT21FLTCON1")) 7 "rEINT21PEND" "rEINT21MASK".

Definition Eint22 : eint_group :=
  EintGroup true "rEINT22CON" 4 eGPIO_J1 3 "rEINT22FLTCON0" (Some (4, "rEINT22FLTCON1")) 7 "rEINT22PEND" "rEINT22MASK".

Definition Eint23 : eint_group :=
  EintGroup true "rEINT23CON" 6 eGPIO_K0 3 "rEINT23FLTCON0" (Some (6, "rEINT23FLTCON1")) 7 "rEINT23PEND" "rEINT23MASK".

Definition Eint24 : eint_group :=
  EintGroup true "rEINT24CON" 6 eGPIO_K1 3 "rEINT24FLTCON0" (Some (6, "rEINT24FLTCON1")) 7 "rEINT24PEND" "rEINT24MASK".

Definition Eint25 : eint_group :=
  EintGroup true "rEINT25CON" 6 eGPIO_K2 3 "rEINT25FLTCON0" (Some (6, "rEINT25FLTCON1")) 7 "rEINT25PEND" "rEINT25MASK".

Definition Eint26 : eint_group :=
  EintGroup true "rEINT26CON" 6 eGPIO_K3 3 "rEINT26FLTCON0" (Some (6, "rEINT26FLTCON1")) 7 "rEINT26PEND" "rEINT26MASK".

Definition Eint27 : eint_group :=
  EintGroup true "rEINT27CON" 7 eGPIO_L0 3 "rEINT27FLTCON0" (Some (7, "rEINT27FLTCON1")) 7 "rEINT27PEND" "rEINT27MASK".

Definition Eint28 : eint_group :=
  EintGroup true "rEINT28CON" 2 eGPIO_L1 2 "rEINT28FLTCON0" None 7 "rEINT28PEND" "rEINT28MASK".

Definition Eint29 : eint_group :=
  EintGroup true "rEINT29CON" 7 eGPIO_L2 3 "rEINT29FLTCON0" (Some (6, "rEINT29FLTCON1")) 7 "rEINT29PEND" "rEINT29MASK".

Definition Eint40 : eint_group :=
  EintGroup true "rEINT40CON" 7 eGPIO_X0 3 "rEINT40FLTCON0" (Some (7, "rEINT40FLTCON1")) 6 "rEINT40PEND" "rEINT40MASK".

Definition Eint41 : eint_group :=
  EintGroup true "rEINT41CON" 7 eGPIO_X1 3 "rEINT41FLTCON0" (Some (7, "rEINT41FLTCON1")) 6 "rEINT41PEND" "rEINT41MASK".

Definition Eint42 : eint_group :=
  EintGroup true "rEINT42CON" 7 eGPIO_X2 3 "rEINT42FLTCON0" (Some (7, "rEINT42FLTCON1")) 6 "rEINT42PEND" "rEINT42MASK".

Definition Eint43 : eint_group :=
  EintGroup true "rEINT43CON" 7 eGPIO_X3 3 "rEINT43FLTCON0" (Some (7, "rEINT43FLTCON1")) 6 "rEINT43PEND" "rEINT43MASK".

(** The groups by their numbers. *)
Definition eint_groups : list (Z * eint_group) :=
  [(1, Eint1); (2, Eint2); (3, Eint3); (4, Eint4); (5, Eint5); (6, Eint6); (7, Eint7); (8, Eint8);
   (9, Eint9); (10, Eint10); (11, Eint11); (12, Eint12); (13, Eint13); (14, Eint14); (15, Eint15);
   (16, Eint16); (21, Eint21); (22, Eint22); (23, Eint23); (24, Eint24); (25, Eint25); (26,
   Eint26); (27, Eint27); (28, Eint28); (29, Eint29); (40, Eint40); (41, Eint41); (42, Eint42);
   (43, Eint43)].

(** The functions on priorities exist for the groups of both blocks. *)
Inductive eint_block := XA | XB.

Definition in_block (x : eint_block) (n : string) : string := n +:+ match x with XA => "XA" | XB => "XB" end.

Definition EINT_GRPPRI (x : eint_block) (uPriType : Z) : prog gpio_state unit :=
  let* pEINT_GrpPri := gpio_member (in_block x "rEINTGRPPRI") in on_io (update pEINT_GrpPri 0x1 uPriType).

Definition EINT_PRIORITY (x : eint_block) (uEINT_No : Z) : prog gpio_state unit :=
  let* pEINT_Priority := gpio_member (in_block x "rEINTPRIORITY") in gpio_field pEINT_Priority 0x1 1 (uEINT_No - 1).

Definition Get_EINTSVC (x : eint_block) : prog gpio_state Z :=
  let* r := gpio_member (in_block x "rEINTSERVICE") in let* v := on_io (readl r) in ret (s32 v).

Definition Get_EINTSVCPEND (x : eint_block) : prog gpio_state Z :=
  let* r := gpio_member (in_block x "rEINTSERVICEPEND") in let* v := on_io (readl r) in ret (s32 v).

Definition EINT_GRPFIXPRI (x : eint_block) (uEINT_No : Z) : prog gpio_state unit :=
  let* r := gpio_member (in_block x "rEINTGRPFIXPRI") in on_io (update r 0x1 uEINT_No).

Definition EINT_FIXPRI_XA (uEINT_Grp_No uEINT_No : Z) : prog gpio_state unit :=
  if (0 <? uEINT_Grp_No) && (uEINT_Grp_No <? 17) then
    let* pEINT_Grp1_FixPri := gpio_member "rEINT1FIXPRI" in
    on_io (update (pEINT_Grp1_FixPri +u 4 * (uEINT_Grp_No - 1)) 0x7 uEINT_No)
  else ret tt.

Definition EINT_FIXPRI_XB (uEINT_Grp_No uEINT_No : Z) : prog gpio_state unit :=
  if (20 <? uEINT_Grp_No) && (uEINT_Grp_No <? 30) then
    let* pEINT_Grp21_FixPri := gpio_member "rEINT21FIXPRI" in
    on_io (update (pEINT_Grp21_FixPri +u 4 * (uEINT_Grp_No - 1)) 0x7 uEINT_No)
  else ret tt.

(** ** Fields of registers *)

Definition gregs (s : gpio_state) : Z → Z := regs (gpio_io s).

(** The [n] bits from [p] and the [w] bits from [pos] have no bit in common. *)
Definition apart (p n pos w : Z) : Prop := p + n ≤ pos ∨ pos + w ≤ p.

(** [R'] is [R] but for the [w] bits from [pos] of register [a], which are [v]. *)
Record field_set (R R' : Z → Z) (a pos w v : Z) : Prop := {
  fs_value : bits (R' a) pos w = v;
  fs_rest : ∀ p n, 0 ≤ p → 0 ≤ n → p + n ≤ 32 → apart p n pos w → bits (R' a) p n = bits (R a) p n;
  fs_others : ∀ b, b ≠ a → R' b = R b;
}.

Lemma field_set_keeps R R' a pos w v b p n :
  field_set R R' a pos w v → 0 ≤ p → 0 ≤ n → p + n ≤ 32 → (b = a → apart p n pos w) →
  bits (R' b) p n = bits (R b) p n.
Proof.
  intros [_ Hrest Hothers] Hp Hn Hpn Ha. destruct (decide (b = a)) as [-> | Hb].
  - apply Hrest; auto.
  - by rewrite Hothers.
Qed.

(** The state after a write of [v] to the field. *)
Definition field_step (s s' : gpio_state) (a pos w v : Z) : Prop :=
  GPIO_pBase s' = GPIO_pBase s ∧ exynos4412_clocks (gpio_io s') = exynos4412_clocks (gpio_io s) ∧
  field_set (gregs s) (gregs s') a pos w v.

Lemma update_bits r mask x pos w v i :
  0 ≤ pos → 0 ≤ w → pos + w ≤ 32 → 0 ≤ i < 32 →
  mask = u32 (Z.shiftl (Z.ones w) pos) → (∀ j, 0 ≤ j < 32 → Z.testbit x j = Z.testbit (Z.shiftl v pos) j) →
  0 ≤ v < 2 ^ w →
  Z.testbit (u32 (Z.lor (Z.land (u32 r) (not32 mask)) x)) i =
  if (pos <=? i) && (i <? pos + w) then Z.testbit v (i - pos) else Z.testbit r i.
Proof.
  intros Hpos Hw Hpw Hi -> Hx Hv. bit_at. rewrite Hx by done. bit_at.
  destruct (Z.leb_spec pos i), (Z.ltb_spec i (pos + w)); cbn.
  - rewrite Z.ones_spec_low by lia. by rewrite andb_false_r.
  - rewrite Z.ones_spec_high, (testbit_above v w) by lia. by rewrite andb_true_r, orb_false_r.
  - rewrite !(Z.testbit_neg_r _ (i - pos)) by lia. by rewrite andb_true_r, orb_false_r.
  - lia.
Qed.

Lemma field_set_intro R R' a pos w v :
  0 ≤ pos → 0 ≤ w → pos + w ≤ 32 → 0 ≤ v < 2 ^ w →
  (∀ i, 0 ≤ i < 32 →
    Z.testbit (R' a) i = if (pos <=? i) && (i <? pos + w) then Z.testbit v (i - pos) else Z.testbit (R a) i) →
  (∀ b, b ≠ a → R' b = R b) → field_set R R' a pos w v.
Proof.
  intros Hpos Hw Hpw Hv Hbit Hb. split; [| | done].
  - transitivity (bits v 0 w); [| by apply bits_small]. apply bits_ext; [lia.. |]. intros k Hk.
    rewrite Hbit by lia. destruct (Z.leb_spec pos (pos + k)), (Z.ltb_spec (pos + k) (pos + w)); try lia.
    cbn. f_equal. lia.
  - intros p n Hp Hn Hpn Hap. apply bits_ext; [lia.. |]. intros k Hk. rewrite Hbit by lia.
    unfold apart in Hap.
    destruct (Z.leb_spec pos (p + k)), (Z.ltb_spec (p + k) (pos + w)); [lia | done..].
Qed.

Lemma wp_update a mask x pos w v (Q : unit → gpio_state → Prop) s :
  0 ≤ pos → 0 ≤ w → pos + w ≤ 32 → mask = u32 (Z.shiftl (Z.ones w) pos) →
  (∀ j, 0 ≤ j < 32 → Z.testbit x j = Z.testbit (Z.shiftl v pos) j) → 0 ≤ v < 2 ^ w →
  (∀ s', field_step s s' a pos w v → Q tt s') → wp (on_io (update a mask x)) Q s.
Proof.
  intros Hpos Hw Hpw Hmask Hx Hv HQ. apply HQ. split_and!; [done | done |].
  apply field_set_intro; [done.. | |]; unfold gregs; cbn.
  - intros i Hi. rewrite Z.eqb_refl. by eapply update_bits.
  - intros b Hb. by destruct (Z.eqb_spec b a).
Qed.

Lemma wp_shl v n (Q : Z → gpio_state → Prop) s : 0 ≤ n < 32 → Q (u32 (Z.shiftl v n)) s → wp (shl v n) Q s.
Proof. intros Hn HQ. unfold shl. by rewrite (proj2 (Z.leb_le 0 n)), (proj2 (Z.ltb_lt n 32)) by lia. Qed.

Lemma wp_gpio_field a mask v pos w (Q : unit → gpio_state → Prop) s :
  mask = Z.ones w → 0 ≤ pos → 0 < w → pos + w ≤ 32 → 0 ≤ v < 2 ^ w →
  (∀ s', field_step s s' a pos w v → Q tt s') → wp (gpio_field a mask v pos) Q s.
Proof.
  intros -> Hpos Hw Hpw Hv HQ. unfold gpio_field.
  apply wp_bind, wp_shl; [lia |]. apply wp_bind, wp_shl; [lia |].
  eapply (wp_update _ _ _ pos w v); [lia.. | done | | done | done].
  intros j Hj. by apply u32_testbit.
Qed.

(** ** Ports *)

(** Register [k] of a port. *)
Definition port_address (id : GPIO_eId) (k : Z) : Z := GPIO_BASE + gpio_offset id + 4 * k.

Lemma wp_gpio_register id k (Q : Z → gpio_state → Prop) s :
  GPIO_pBase s = GPIO_BASE → 0 ≤ k ≤ 5 → Q (port_address id k) s → wp (gpio_register id k) Q s.
Proof.
  intros Hb Hk HQ. unfold gpio_register. apply wp_bind.
  assert (member_offset "rGPIOJ0CON" = Some 0) as Hm by by vm_compute.
  unfold wp, gpio_member. rewrite Hm, Hb. cbn beta iota. unfold wp, ret.
  replace (u32 (u32 (GPIO_BASE + 0) + 4 * (Z.land id 0xFFFFFF / 4 + k))) with (port_address id k); [done |].
  assert (Z.land id 0xFFFFFF / 4 * 4 = id ∧ 0 ≤ id < 0x400300) as [E Hr] by (destruct id; by vm_compute).
  unfold port_address, GPIO_BASE in *. 
  rewrite (u32_small (0x11000000 + 0)) by lia. rewrite u32_small; lia.
Qed.

Lemma wp_set_port id k mask v pos w (Q : unit → gpio_state → Prop) s :
  GPIO_pBase s = GPIO_BASE → 0 ≤ k ≤ 5 →
  mask = Z.ones w → 0 ≤ pos → 0 < w → pos + w ≤ 32 → 0 ≤ v < 2 ^ w →
  (∀ s', field_step s s' (port_address id k) pos w v → Q tt s') →
  wp (let* r := gpio_register id k in gpio_field r mask v pos) Q s.
Proof.
  intros Hb Hk Hm Hpos Hw Hpw Hv HQ. apply wp_bind, wp_gpio_register; [done.. |].
  by eapply wp_gpio_field.
Qed.

Lemma bits_one r pos : 0 ≤ pos → bits r pos 1 = Z.b2z (Z.testbit r pos).
Proof. intros Hp. symmetry. by apply Z.testbit_spec'. Qed.

Lemma wp_get_pin id pos v (Q : Z → gpio_state → Prop) s :
  GPIO_pBase s = GPIO_BASE → 0 ≤ pos < 8 → bits (gregs s (port_address id 1)) pos 1 = v →
  Q v s → wp (GPIO_GetDataEach id pos) Q s.
Proof.
  intros Hb Hp <- HQ. unfold GPIO_GetDataEach. apply wp_bind, wp_gpio_register; [done | lia |].
  apply wp_bind. unfold wp at 1, on_io, readl. apply wp_bind, wp_shl; [lia |]. apply wp_ret.
  rewrite (u32_small (Z.shiftl 1 pos)).
  2:{ rewrite Z.shiftl_1_l. split; [lia |]. transitivity (2 ^ 8); [apply Z.pow_lt_mono_r; lia | done]. }
  pose proof (has_bit (u32 (gregs s (port_address id 1))) pos ltac:(lia)) as Hbit.
  rewrite u32_testbit in Hbit by lia. rewrite bits_one in HQ by lia. unfold gregs in *.
  destruct (Z.land _ _ =? 0); cbn in Hbit; rewrite <- Hbit in HQ; by destruct s.
Qed.

(** ** The layout of the block *)

Definition port_name (id : GPIO_eId) : string :=
  match id with
  | eGPIO_J0 => "J0" | eGPIO_J1 => "J1" | eGPIO_K0 => "K0" | eGPIO_K1 => "K1" | eGPIO_K2 => "K2"
  | eGPIO_K3 => "K3" | eGPIO_L0 => "L0" | eGPIO_L1 => "L1" | eGPIO_L2 => "L2"
  | eGPIO_MP0_0 => "MP0" | eGPIO_MP0_1 => "MP1" | eGPIO_MP0_2 => "MP2" | eGPIO_MP0_3 => "MP3"
  | eGPIO_MP0_4 => "MP4" | eGPIO_MP0_5 => "MP5" | eGPIO_MP0_6 => "MP6" | eGPIO_X0 => "X0"
  | eGPIO_X1 => "X1" | eGPIO_X2 => "X2" | eGPIO_X3 => "X3" | eETC6 => "ETC6" | eETC8 => "ETC8"
  | eGPIO_A0 => "A0" | eGPIO_A1 => "A1" | eGPIO_B => "B" | eGPIO_C0 => "C0" | eGPIO_C1 => "C1"
  | eGPIO_D0 => "D0" | eGPIO_D1 => "D1" | eGPIO_E0 => "E0" | eGPIO_E1 => "E1" | eGPIO_E2 => "E2"
  | eGPIO_E3 => "E3" | eGPIO_E4 => "E4" | eGPIO_F0 => "F0" | eGPIO_F1 => "F1" | eGPIO_F2 => "F2"
  | eGPIO_F3 => "F3" | eETC0 => "ETC0" | eETC1 => "ETC1"
  end.

(** The members of a port in the order in which the functions count them. *)
Definition port_members (id : GPIO_eId) : list string :=
  (λ suffix, "rGPIO" +:+ port_name id +:+ suffix) <$>
  match id with
  | eETC6 | eETC8 | eETC0 | eETC1 => ["PUD"; "DRV_SR"]
  | eGPIO_X0 | eGPIO_X1 | eGPIO_X2 | eGPIO_X3 => ["CON"; "DAT"; "PUD"; "DRV_SR"]
  | eGPIO_MP0_3 => ["CON"; "DAT"; "PUD"; "DRVSR"; "CONPDN"; "PUDPDN"]
  | _ => ["CON"; "DAT"; "PUD"; "DRV_SR"; "CONPDN"; "PUDPDN"]
  end.

(** The addresses in the comments of the struct, three apart that are not those
    of their members: 0x1100_F50 for 0x11000F50, and 0x11000B00 and 0x11000B14 for
    registers at 0x11400B00 and 0x11400B14. *)
Definition documented : list (string * Z) :=
  [("rGPIOJ0CON", 0x11000000); ("reservedJ0", 0x11000018); ("rGPIOJ1CON", 0x11000020);
   ("rGPIOK0CON", 0x11000040); ("rGPIOK1CON", 0x11000060); ("rGPIOK2CON", 0x11000080);
   ("rGPIOK3CON", 0x110000A0); ("rGPIOL0CON", 0x110000C0); ("rGPIOL1CON", 0x110000E0);
   ("rGPIOL2CON", 0x11000100); ("rGPIOMP0CON", 0x11000120); ("rGPIOMP1CON", 0x11000140);
   ("rGPIOMP2CON", 0x11000160); ("rGPIOMP3CON", 0x11000180); ("rGPIOMP4CON", 0x110001A0);
   ("rGPIOMP5CON", 0x110001C0); ("rGPIOMP6CON", 0x110001E0); ("rGPIOETC6PUD", 0x11000208);
   ("rGPIOETC8PUD", 0x11000228); ("reserved1", 0x11000240); ("rEINT21CON", 0x11000700);
   ("rEINT21FLTCON0", 0x11000800); ("rEINT21MASK", 0x11000900); ("rEINT21PEND", 0x11000A00);
   ("rEINTGRPPRIXB", 0x11000B00); ("rGPIOX0CON", 0x11000C00); ("rGPIOX1CON", 0x11000C20);
   ("rGPIOX2CON", 0x11000C40); ("rGPIOX3CON", 0x11000C60); ("rEINT40CON", 0x11000E00);
   ("rEINT40FLTCON0", 0x11000E80); ("rEINT40MASK", 0x11000F00); ("rEINT40PEND", 0x11000F40);
   ("rGPIOA0CON", 0x11400000); ("reservedA0", 0x11400018); ("rGPIOA1CON", 0x11400020);
   ("rGPIOBCON", 0x11400040); ("rGPIOC0CON", 0x11400060); ("rGPIOC1CON", 0x11400080);
   ("rGPIOD0CON", 0x114000A0); ("rGPIOD1CON", 0x114000C0); ("rGPIOE0CON", 0x114000E0);
   ("rGPIOE1CON", 0x11400100); ("rGPIOE2CON", 0x11400120); ("rGPIOE3CON", 0x11400140);
   ("rGPIOE4CON", 0x11400160); ("rGPIOF0CON", 0x11400180); ("rGPIOF1CON", 0x114001A0);
   ("rGPIOF2CON", 0x114001C0); ("rGPIOF3CON", 0x114001E0); ("rGPIOETC0PUD", 0x11400208);
   ("rGPIOETC1PUD", 0x11400228); ("reservedETC", 0x11400240); ("rEINT1CON", 0x11400700);
   ("reservedEINTCON_3", 0x11400740); ("rEINT1FLTCON0", 0x11400800);
   ("reservedFLTCON", 0x11400880); ("rEINT1MASK", 0x11400900); ("reservedMASK", 0x11400940);
   ("rEINT1PEND", 0x11400A00); ("reservedPEND", 0x11400A40); ("reservedFIXPRI", 0x11400B54)].

Lemma port_members_offset id :
  Forall (λ km, member_offset km.2 = Some (gpio_offset id + 4 * km.1)) (zip (seqZ 0 6) (port_members id)).
Proof. destruct id; apply (bool_decide_unpack _); by vm_compute. Qed.

(** The address arithmetic of the functions agrees with the struct: the
    registers of a port lie in the order in which the functions count them from
    the offset that is the number of the port, and each of the members of
    [documented] is where its comment says, in a block of 0x400F80 bytes without two
    members of one name. *)
Theorem gpio_layout :
  (∀ id k m, port_members id !! k = Some m → member_offset m = Some (gpio_offset id + 4 * Z.of_nat k)) ∧
  Forall (λ na, member_offset na.1 = Some (na.2 - GPIO_BASE)) documented ∧
  NoDup (member_name <$> oGPIO_REGS) ∧
  foldr Z.add 0 (member_size <$> oGPIO_REGS) = 0x400F80.
Proof.
  split_and!; [| apply (bool_decide_unpack _); by vm_compute.. | by vm_compute].
  intros id k m Hm. pose proof (port_members_offset id) as HF. rewrite Forall_lookup in HF.
  apply (HF k (Z.of_nat k, m)), lookup_zip_Some. split; [| done].
  apply lookup_lt_Some in Hm. apply lookup_seqZ. split; [done |].
  assert (length (port_members id) ≤ 6)%nat by (destruct id; vm_compute; lia). lia.
Qed.

(** ** Interrupt groups *)

(** The registers of a group by its number: the two blocks of the ports and the
    block of the wake-up interrupts. *)
Definition eint_register (n first : Z) (wake : Z) (size : Z) : Z :=
  if n <? 20 then GPIO_BASE + 0x400000 + first + size * (n - 1)
  else if n <? 40 then GPIO_BASE + first + size * (n - 21)
  else GPIO_BASE + wake + size * (n - 40).

Definition con_address (n : Z) : Z := eint_register n 0x700 0xE00 4.
Definition flt_address (n no : Z) : Z := eint_register n 0x800 0xE80 8 + 4 * (no / 4).
Definition mask_address (n : Z) : Z := eint_register n 0x900 0xF00 4.
Definition pend_address (n : Z) : Z := eint_register n 0xA00 0xF40 4.

(** The type of a filter is above its width: one bit in the groups of the ports
    and two for the wake-up interrupts. *)
Definition type_bit (n : Z) : Z := if n <? 40 then 7 else 6.

(** The interrupts whose filter [GPIO_SetEint] does not reach. *)
Definition forgotten (n no : Z) : bool :=
  ((n =? 13) && (6 <=? no)) || ((n =? 29) && (7 <=? no)).

(** What the constants of a group are. *)
Definition group_facts (n : Z) (g : eint_group) : Prop :=
  (1 ≤ n ∧ n ≤ 43 ∧ eg_base g = negb (n =? 1) ∧ 0 ≤ eg_last g ∧ eg_last g ≤ 7) ∧
  (member_offset (eg_con g) = Some (con_address n - GPIO_BASE) ∧
   member_offset (eg_mask g) = Some (mask_address n - GPIO_BASE) ∧
   member_offset (eg_pend g) = Some (pend_address n - GPIO_BASE) ∧
   member_offset (eg_flt0 g) = Some (flt_address n 0 - GPIO_BASE)) ∧
  eg_last0 g = Z.min 3 (eg_last g) ∧
  (eg_last g ≤ 3 ∨
   (λ ln, member_offset ln.2) <$> eg_flt1 g = Some (Some (flt_address n 4 - GPIO_BASE)) ∧
   Forall (λ no, (λ ln, no <=? ln.1) <$> eg_flt1 g = Some (negb (forgotten n no)))
     (filter (λ no, 4 ≤ no ∧ no ≤ eg_last g) (seqZ 0 8))) ∧
  eg_type g = (if n =? 6 then 6 else type_bit n) ∧
  con_address n ≠ port_address (eg_port g) 0 ∧
  Forall (λ no, flt_address n no ≠ port_address (eg_port g) 0 ∧ flt_address n no ≠ con_address n) (seqZ 0 8).

Lemma eint_group_facts n g : (n, g) ∈ eint_groups → group_facts n g.
Proof.
  assert (Forall (λ ng, group_facts ng.1 ng.2) eint_groups) as HF.
  { apply (bool_decide_unpack _). by vm_compute. }
  rewrite Forall_forall in HF. intros Hin. exact (HF (n, g) Hin).
Qed.

Lemma wp_member m a (Q : Z → gpio_state → Prop) s :
  GPIO_pBase s = GPIO_BASE → member_offset m = Some (a - GPIO_BASE) → 0 ≤ a < 4294967296 → Q a s →
  wp (gpio_member m) Q s.
Proof.
  intros Hb Hm Ha HQ. unfold wp, gpio_member. rewrite Hm, Hb.
  replace (GPIO_BASE + (a - GPIO_BASE)) with a by lia. by rewrite u32_small.
Qed.

Lemma lor_shift w f k : 0 ≤ k → 0 ≤ w < 2 ^ k → Z.lor w (Z.shiftl f k) = w + f * 2 ^ k.
Proof.
  intros Hk Hw. rewrite <- Z.shiftl_mul_pow2, <- Z.add_lor_land by done.
  enough (Z.land w (Z.shiftl f k) = 0) by lia. apply Z.bits_inj'. intros i Hi.
  rewrite Z.land_spec, Z.testbit_0_l, Z.shiftl_spec by done. destruct (Z.ltb_spec i k).
  - rewrite (Z.testbit_neg_r f) by lia. apply andb_false_r.
  - by rewrite (testbit_above w k).
Qed.

Lemma lor_range a b n : 0 ≤ n → 0 ≤ a < 2 ^ n → 0 ≤ b < 2 ^ n → 0 ≤ Z.lor a b < 2 ^ n.
Proof.
  intros Hn Ha Hb. replace (Z.lor a b) with (Z.lor a b mod 2 ^ n).
  - apply Z.mod_pos_bound, Z.pow_pos_nonneg; lia.
  - apply Z.bits_inj'. intros i Hi. destruct (Z.ltb_spec i n); [by apply Z.mod_pow2_bits_low |].
    rewrite Z.mod_pow2_bits_high, Z.lor_spec by lia. by rewrite !(testbit_above _ n i).
Qed.

Lemma wp_set_filter a t width type k (Q : unit → gpio_state → Prop) s :
  0 ≤ t ≤ 3 → 0 ≤ k ≤ 7 → 0 ≤ Z.lor width (Z.shiftl type k) < 256 →
  (∀ s', field_step s s' a (8 * t) 8 (Z.lor width (Z.shiftl type k)) → Q tt s') →
  wp (set_filter a t width type k) Q s.
Proof.
  intros Ht Hk Hv HQ. unfold set_filter. do 3 (apply wp_bind, wp_shl; [lia |]).
  eapply (wp_update _ _ _ (8 * t) 8); [lia.. | done | | done | done].
  intros j Hj. bit_at. destruct (Z.ltb_spec j (8 * t)).
  - by rewrite !Z.testbit_neg_r by lia.
  - bit_at. do 2 f_equal. lia.
Qed.

(** A register is not in the fields that [GPIO_SetEint] sets. *)
Definition untouched (n : Z) (g : eint_group) (no a p k : Z) : Prop :=
  (a = con_address n → apart p k (4 * no) 4) ∧
  (a = port_address (eg_port g) 0 → apart p k (4 * no) 4) ∧
  (a = flt_address n no → forgotten n no = false → apart p k (8 * (no mod 4)) 8).

(** The filter as [GPIO_SetEint] leaves it. *)
Definition filter_after (n no old width type : Z) : Z :=
  if forgotten n no then old
  else if n =? 6 then Z.lor width (Z.shiftl type 6)
  else width + type * 2 ^ type_bit n.

Lemma filter_value n no k width (type : FLT_eTYPE) :
  k = (if n =? 6 then 6 else type_bit n) → 0 ≤ width < 2 ^ type_bit n → type < 2 ^ (8 - type_bit n) →
  0 ≤ Z.lor width (Z.shiftl type k) < 256 ∧
  (forgotten n no = false → Z.lor width (Z.shiftl type k) = filter_after n no 0 width type).
Proof.
  intros -> Hw Hty. assert (0 ≤ type) by (by destruct type). unfold filter_after.
  destruct (Z.eqb_spec n 6) as [-> | Hn].
  - change (2 ^ type_bit 6) with 128 in Hw. change (2 ^ (8 - type_bit 6)) with 2 in Hty. split; [| done].
    apply (lor_range _ _ 8); [done.. | cbn; lia |]. rewrite Z.shiftl_mul_pow2 by done. cbn. lia.
  - assert (type_bit n = 7 ∨ type_bit n = 6) as Hk by (unfold type_bit; destruct (n <? 40); auto).
    split; [| intros ->; apply lor_shift; lia].
    rewrite lor_shift by lia. destruct Hk as [E | E]; rewrite E in *; cbn in *; lia.
Qed.

(** The part of [GPIO_SetEint] that sets the filter. *)
Lemma wp_filter_part n g no width (type : FLT_eTYPE) s :
  (n, g) ∈ eint_groups → GPIO_pBase s = GPIO_BASE → 0 ≤ no ≤ eg_last g →
  0 ≤ width < 2 ^ type_bit n → type < 2 ^ (8 - type_bit n) →
  wp (if no <=? eg_last0 g then
        let* pFLTx_Reg := gpio_member (eg_flt0 g) in set_filter pFLTx_Reg no width type (eg_type g)
      else match eg_flt1 g with
      | Some (last, n) =>
          if (3 <? no) && (no <=? last) then
            let* pFLTx_Reg := gpio_member n in set_filter pFLTx_Reg (no - 4) width type (eg_type g)
          else ret tt
      | None => ret tt
      end)
    (λ _ s', (forgotten n no = true ∧ s' = s) ∨
      (forgotten n no = false ∧
       field_step s s' (flt_address n no) (8 * (no mod 4)) 8 (filter_after n no 0 width type))) s.
Proof.
  intros Hin Hb Hno Hw Hty.
  pose proof (eint_group_facts n g Hin) as ((H1 & H43 & _ & _ & Hl7) & (_ & _ & _ & Hf0) & Hl0 & Hf1 & Hk & _).
  assert (no mod 4 = if no <? 4 then no else no - 4) as Hmod.
  { destruct (Z.ltb_spec no 4); [apply Z.mod_small; lia |]. symmetry. apply (Z.mod_unique no 4 1); lia. }
  assert (∀ i, (i <? 4) = (no <? 4) → 0 ≤ i ≤ 7 → flt_address n i = flt_address n no ∧ 0 ≤ flt_address n i < 4294967296) as Ha.
  { intros i Ei Hi. unfold flt_address, eint_register, GPIO_BASE.
    pose proof (Z.div_mod i 4 ltac:(lia)). pose proof (Z.mod_pos_bound i 4 ltac:(lia)).
    pose proof (Z.div_mod no 4 ltac:(lia)). pose proof (Z.mod_pos_bound no 4 ltac:(lia)).
    destruct (Z.ltb_spec i 4), (Z.ltb_spec no 4); try done; destruct (n <? 20), (n <? 40); lia. }
  assert (0 ≤ Z.lor width (Z.shiftl type (eg_type g)) < 256 ∧
    (forgotten n no = false → Z.lor width (Z.shiftl type (eg_type g)) = filter_after n no 0 width type)) as [Hv Hval].
  { apply filter_value; try done; lia. }
  destruct (Z.leb_spec no (eg_last0 g)) as [Hle | Hgt].
  - destruct (Ha 0) as [Ea ?]; [by destruct (Z.ltb_spec no 4); lia | lia |].
    assert (forgotten n no = false) as Hfg.
    { unfold forgotten. destruct (Z.leb_spec 6 no), (Z.leb_spec 7 no); lia. }
    apply wp_bind. eapply wp_member; [done | exact Hf0 | done |]. rewrite Ea.
    apply wp_set_filter; [lia | | done |].
    { rewrite Hk. unfold type_bit. destruct (n =? 6), (n <? 40); lia. }
    intros s' Hs'. right. rewrite Hval, Hmod in * by done. rewrite (proj2 (Z.ltb_lt no 4)) by lia. auto.
  - destruct Hf1 as [? | [Hm HF]]; [lia |]. destruct (Ha 4) as [Ea ?]; [by destruct (Z.ltb_spec no 4); lia | lia |].
    rewrite Forall_forall in HF. specialize (HF no). rewrite list_elem_of_filter, elem_of_seqZ in HF.
    specialize (HF ltac:(lia)).
    destruct (eg_flt1 g) as [[last m] |]; [| done]. injection Hm as Hm. injection HF as HF.
    rewrite (proj2 (Z.ltb_lt 3 no)) by lia. cbn in HF. cbn [andb]. rewrite HF.
    destruct (forgotten n no) eqn:Hfg; cbn [negb]; [apply wp_ret; by left |].
    apply wp_bind. eapply wp_member; [done | exact Hm | done |]. rewrite Ea.
    apply wp_set_filter; [lia | | done |].
    { rewrite Hk. unfold type_bit. destruct (n =? 6), (n <? 40); lia. }
    intros s' Hs'. right. rewrite Hval, Hmod in * by done. rewrite (proj2 (Z.ltb_ge no 4)) by lia. auto.
Qed.

(** Goes back over the write of another field. *)
Ltac keeps H := rewrite (field_set_keeps _ _ _ _ _ _ _ _ _ H); [| first [lia | (intros ?; exfalso; congruence) | auto]..].

(** ** Theorems *)

(** C32: The functions on a pin of a port change exactly the field of the pin: its
    function, its output, its pull resistor and its drive strength; the output
    reads back. *)
Theorem gpio_pin_correct id pos s :
  GPIO_pBase s = GPIO_BASE → 0 ≤ pos < 8 →
  (∀ f, 0 ≤ f < 16 →
    wp (GPIO_SetFunctionEach id pos f) (λ _ s', field_step s s' (port_address id 0) (4 * pos) 4 f) s) ∧
  (∀ v, 0 ≤ v < 2 →
    wp (GPIO_SetDataEach id pos v ;; GPIO_GetDataEach id pos)
      (λ x s', x = v ∧ field_step s s' (port_address id 1) pos 1 v) s) ∧
  (∀ v, 0 ≤ v < 4 →
    wp (GPIO_SetPullUpDownEach id pos v) (λ _ s', field_step s s' (port_address id 2) (2 * pos) 2 v) s) ∧
  (∀ v, 0 ≤ v < 4 →
    wp (GPIO_SetDSEach id pos v) (λ _ s', field_step s s' (port_address id 3) (2 * pos) 2 v) s).
Proof.
  intros Hb Hp. split_and!; intros v Hv.
  - by apply (wp_set_port id 0 _ _ _ 4); [done | lia | done | lia.. |].
  - apply wp_bind. apply (wp_set_port id 1 _ _ _ 1); [done | lia | done | lia.. |].
    intros s' Hs'. eapply (wp_get_pin _ _ v); [| done | | done].
    + by rewrite (proj1 Hs').
    + apply Hs'.
  - by apply (wp_set_port id 2 _ _ _ 2); [done | lia | done | lia.. |].
  - by apply (wp_set_port id 3 _ _ _ 2); [done | lia | done | lia.. |].
Qed.

(** C33: [GPIO_SetEint] of an interrupt of a group sets its signal type, gives the
    pin to the interrupt controller and sets the filter, and changes no other
    bit of any register.  The copies of three groups are wrong about the filter:
    group 6 puts the type one bit too low, so that the filter is not switched
    on, and groups 13 and 29 leave out the filters of their last interrupts. *)
Theorem GPIO_SetEint_correct n g no type (flt : FLT_eTYPE) width s :
  (n, g) ∈ eint_groups → (n = 1 → GPIO_pBase s = GPIO_BASE) →
  0 ≤ no ≤ eg_last g → 0 ≤ type < 16 → 0 ≤ width < 2 ^ type_bit n → flt < 2 ^ (8 - type_bit n) →
  wp (GPIO_SetEint g no type flt width) (λ _ s',
    GPIO_pBase s' = GPIO_BASE ∧ exynos4412_clocks (gpio_io s') = exynos4412_clocks (gpio_io s) ∧
    bits (gregs s' (con_address n)) (4 * no) 4 = type ∧
    bits (gregs s' (port_address (eg_port g) 0)) (4 * no) 4 = 15 ∧
    bits (gregs s' (flt_address n no)) (8 * (no mod 4)) 8 =
      filter_after n no (bits (gregs s (flt_address n no)) (8 * (no mod 4)) 8) width flt ∧
    ∀ a p k, 0 ≤ p → 0 ≤ k → p + k ≤ 32 → untouched n g no a p k →
      bits (gregs s' a) p k = bits (gregs s a) p k) s.
Proof.
  intros Hin H1 Hno Hty Hw Hf.
  pose proof (eint_group_facts n g Hin) as ((_ & _ & Hbase & _ & Hl7) & (Hcon & _) & _ & _ & _ & Hcp & Hfp).
  assert (0 ≤ con_address n < 4294967296) as Hca.
  { unfold con_address, eint_register, GPIO_BASE. pose proof (eint_group_facts n g Hin).
    unfold group_facts in *. destruct (n <? 20), (n <? 40); lia. }
  unfold GPIO_SetEint. rewrite (proj2 (Z.leb_le no (eg_last g))) by lia.
  apply wp_bind, (wp_mono _ (λ _ s1, GPIO_pBase s1 = GPIO_BASE ∧ gpio_io s1 = gpio_io s)).
  { rewrite Hbase. destruct (Z.eqb_spec n 1); [split; auto | done]. }
  intros [] s1 [Hb1 Hio]. apply wp_bind. eapply wp_member; [done | exact Hcon | done |].
  apply wp_bind, (wp_gpio_field _ _ _ _ 4); [done | lia.. |]. intros s2 (Hb2 & Hc2 & HR2).
  apply wp_bind, (wp_set_port _ 0 _ _ _ 4); [congruence | lia | done | lia.. |]. intros s3 (Hb3 & Hc3 & HR3).
  eapply wp_mono; [apply (wp_filter_part n); [done | congruence | done..] |].
  intros [] s4 Hfilter. assert (gregs s1 = gregs s) as E1 by (unfold gregs; by rewrite Hio). rewrite E1 in HR2.
  rewrite Forall_forall in Hfp. destruct (Hfp no) as [Hfp1 Hfp2]; [apply elem_of_seqZ; lia |].
  assert (0 ≤ no mod 4 < 4) by (apply Z.mod_pos_bound; lia).
  destruct Hfilter as [[Hfg ->] | [Hfg (Hb4 & Hc4 & HR4)]]; unfold filter_after; rewrite Hfg.
  - split_and!; [congruence | congruence | keeps HR3; apply HR2 | apply HR3 | keeps HR3; by keeps HR2 |].
    intros a p k Hp Hk Hpk (U1 & U2 & _). keeps HR3. by keeps HR2.
  - split_and!; [congruence | congruence | keeps HR4; keeps HR3; apply HR2 | keeps HR4; apply HR3 | |].
    + rewrite (fs_value _ _ _ _ _ _ HR4). unfold filter_after. by rewrite Hfg.
    + intros a p k Hp Hk Hpk (U1 & U2 & U3). keeps HR4. keeps HR3. by keeps HR2.
Qed.

(** Masking, unmasking and acknowledging an interrupt change its bit only; to
    acknowledge, a one is written to it and zeros to the others. *)
Lemma GPIO_EINTMask_correct n g no s :
  (n, g) ∈ eint_groups → GPIO_pBase s = GPIO_BASE → 0 ≤ no ≤ eg_last g →
  wp (GPIO_EINTMask g no) (λ _ s', field_step s s' (mask_address n) no 1 1) s ∧
  wp (GPIO_EINTUnMask g no) (λ _ s', field_step s s' (mask_address n) no 1 0) s ∧
  wp (GPIO_EINTClrPend g no) (λ _ s', ∀ a, gregs s' a = if a =? pend_address n then 2 ^ no else gregs s a) s.
Proof.
  intros Hin Hb Hno.
  pose proof (eint_group_facts n g Hin) as ((H1 & H43 & _ & _ & Hl7) & (_ & Hm & Hp & _) & _).
  assert (0 ≤ mask_address n < 4294967296 ∧ 0 ≤ pend_address n < 4294967296) as [? ?].
  { unfold mask_address, pend_address, eint_register, GPIO_BASE. destruct (n <? 20), (n <? 40); lia. }
  split_and!; apply wp_bind; (eapply wp_member; [done | eassumption | done |]).
  - by apply (wp_gpio_field _ _ _ _ 1); [done | lia.. |].
  - apply wp_bind, wp_shl; [lia |]. apply (wp_update _ _ _ no 1 0); [lia.. | done | | done | done].
    intros j Hj. by rewrite Z.shiftl_0_l, Z.testbit_0_l.
  - apply wp_bind, wp_shl; [lia |]. intros a. unfold gregs. cbn -[Z.shiftl]. destruct (a =? _); [| done].
    rewrite u32_idemp, Z.shiftl_1_l. apply u32_small. split; [lia |].
    transitivity (2 ^ 8); [apply Z.pow_lt_mono_r; lia | done].
Qed.

(** The fixed priority register of a group. *)
Definition fixpri_address (grp : Z) : Z :=
  if grp <? 20 then GPIO_BASE + 0x400B14 + 4 * (grp - 1) else GPIO_BASE + 0xB14 + 4 * (grp - 21).

Lemma fixpri_members :
  Forall (λ grp, member_offset ("rEINT" +:+ pretty grp +:+ "FIXPRI") = Some (fixpri_address grp - GPIO_BASE))
    (seqZ 1 16 ++ seqZ 21 9).
Proof. apply (bool_decide_unpack _). by vm_compute. Qed.

(** [EINT_FIXPRI_XA] sets the priority of the group it is called for.
    [EINT_FIXPRI_XB] counts from group 1 although the registers start with group
    21: it writes twenty words behind the register of the group, which keeps its
    priority. *)
Theorem EINT_FIXPRI_correct no s :
  GPIO_pBase s = GPIO_BASE → 0 ≤ no < 8 →
  (∀ grp, 1 ≤ grp ≤ 16 → wp (EINT_FIXPRI_XA grp no) (λ _ s', field_step s s' (fixpri_address grp) 0 3 no) s) ∧
  (∀ grp, 21 ≤ grp ≤ 29 →
    wp (EINT_FIXPRI_XB grp no) (λ _ s', field_step s s' (fixpri_address grp + 4 * 20) 0 3 no ∧
      gregs s' (fixpri_address grp) = gregs s (fixpri_address grp)) s).
Proof.
  intros Hb Hno. split; intros grp Hgrp; unfold EINT_FIXPRI_XA, EINT_FIXPRI_XB, fixpri_address.
  - rewrite (proj2 (Z.ltb_lt 0 grp)), (proj2 (Z.ltb_lt grp 17)), (proj2 (Z.ltb_lt grp 20)) by lia. cbn [andb].
    apply wp_bind, (wp_member _ (GPIO_BASE + 0x400B14)); [done | by vm_compute | done |].
    rewrite u32_small by (unfold GPIO_BASE; lia).
    apply (wp_update _ _ _ 0 3 no); [done.. | | done | done]. intros j Hj. by rewrite Z.shiftl_0_r.
  - rewrite (proj2 (Z.ltb_lt 20 grp)), (proj2 (Z.ltb_lt grp 30)), (proj2 (Z.ltb_ge grp 20)) by lia. cbn [andb].
    apply wp_bind, (wp_member _ (GPIO_BASE + 0xB14)); [done | by vm_compute | done |].
    replace (GPIO_BASE + 0xB14 +u 4 * (grp - 1)) with (GPIO_BASE + 0xB14 + 4 * (grp - 21) + 4 * 20)
      by (rewrite u32_small; unfold GPIO_BASE; lia).
    apply (wp_update _ _ _ 0 3 no); [done.. | | done |]; [intros j Hj; by rewrite Z.shiftl_0_r |].
    intros s' Hs'. split; [done |]. apply Hs'. lia.
Qed.

(** ** Examples *)

Definition zero_gpio : gpio_state := GpioState GPIO_BASE (ClkState (λ _, 0) []).

Lemma gpio_pin_witness :
  wp (GPIO_SetDataEach eGPIO_X1 6 1 ;; GPIO_GetDataEach eGPIO_X1 6)
    (λ x s', x = 1 ∧ field_step zero_gpio s' (port_address eGPIO_X1 1) 6 1 1) zero_gpio.
Proof. refine (proj1 (proj2 (gpio_pin_correct eGPIO_X1 6 zero_gpio eq_refl _)) 1 _); lia. Defined.

(** The filter of interrupt 7 of group 13 stays off. *)
Lemma GPIO_SetEint_witness :
  wp (GPIO_SetEint Eint13 7 3 eEnFLT 0x10)
    (λ _ s', bits (gregs s' (con_address 13)) (4 * 7) 4 = 3 ∧
       bits (gregs s' (flt_address 13 7)) (8 * (7 mod 4)) 8 = 0) zero_gpio.
Proof.
  eapply wp_mono; [apply (GPIO_SetEint_correct 13 Eint13 7 3 eEnFLT 0x10) |]; try done.
  - by apply (list_elem_of_lookup_2 _ 12).
  - intros ? s' (_ & _ & Hcon & _ & Hflt & _). split; [exact Hcon | exact Hflt].
Defined.

Lemma EINT_FIXPRI_witness :
  wp (EINT_FIXPRI_XB 21 5)
    (λ _ s', field_step zero_gpio s' (fixpri_address 21 + 4 * 20) 0 3 5 ∧
       gregs s' (fixpri_address 21) = 0) zero_gpio.
Proof. refine (proj2 (EINT_FIXPRI_correct 5 zero_gpio eq_refl _) 21 _); lia. Defined.
