(* ===== verification/Screen.v ===== *)
(** * The screen: start-up, logo, progress bar and messages of [exynos4412-fb.c]

    The code that puts the other components together: it picks the panel,
    programs the controller, makes the frame buffer a surface, and draws on it
    through the drawing functions, a surface from the heap and the text
    functions.  The state has the byte memory, the heap, the surfaces in it
    ([SurfaceAlloc]), and the frame buffer with the registers ([Fb]). *)

From stdpp Require Import prelude gmap strings.
From Stdlib Require Import ZArith Lia Ascii.
From S2P Require Import Prelude Prog Memory CString Rect Color Pixel Layout Canvas Surface Fill BlitReplace Blit.
From S2P Require Import Number Printf Malloc Chain Heap HeapOps Allocator SurfaceAlloc Clk Fb Frame Font.

Local Open Scope Z_scope.
Local Open Scope word_scope.

(** ** The state *)

Record screen_state (S : Type) := ScreenState {
  sc_world : world S;
  sc_display : fb_state;
}.
Arguments ScreenState {S}.
Arguments sc_world {S}.
Arguments sc_display {S}.

Definition on_world {S A} (c : prog (world S) A) : prog (screen_state S) A := λ s,
  match c (sc_world s) with
  | Some (a, ω) => Some (a, ScreenState ω (sc_display s))
  | None => None
  end.

Definition on_display {S A} (c : prog fb_state A) : prog (screen_state S) A := λ s,
  match c (sc_display s) with
  | Some (a, d) => Some (a, ScreenState (sc_world s) d)
  | None => None
  end.

Definition on_pixels {S A} (c : prog mem A) : prog (screen_state S) A := on_world (on_mem c).

(** [exynos4412_screen_surface()] and the assignments to what it points to. *)
Definition screen_surface {S} : prog (screen_state S) surface_t := on_display exynos4412_screen_surface.

Definition set_screen_surface {S} (t : surface_t) : prog (screen_state S) unit := λ s,
  Some (tt, ScreenState (sc_world s)
              (FbState (Fb t (fb_dat (fs_fb (sc_display s)))) (fs_clk (sc_display s)))).

Definition set_fb {S} (f : fb_t) : prog (screen_state S) unit := λ s,
  Some (tt, ScreenState (sc_world s) (FbState f (fs_clk (sc_display s)))).

(** ** The code *)

Section code.
Context {S : Type} `{Allocator S}.

(** What the bytes of a new [struct pixel_info] hold, [&vram[0][0]], and the
    address of the pixels of the logo. *)
Context (uninit : pixel_info) (vram logo_pixels : Z).

Definition default_logo : gimage := Gimage 88 100 4 logo_pixels.

(** What follows once the logo is the surface at [logo]. *)
Definition draw_logo (screen : surface_t) (c logo : Z) : prog (screen_state S) unit :=
  let screen := default screen (surface_set_clip_rect (Some screen) None).2 in
  set_screen_surface screen ;;
  let* l := on_world (get_surface logo) in
  let l := default l (surface_set_clip_rect (Some l) None).2 in
  on_world (put_surface logo l) ;;
  let rect := default (Rect 0 0 0 0) (rect_align (Some (s_clip screen)) (Some (s_clip l)) ALIGN_CENTER) in
  let '(hit, rect) := rect_intersect (s_clip screen) rect in
  if negb hit then on_world (surface_free logo)
  else
    on_pixels (surface_fill (Some screen) (Some (s_clip screen)) c BLEND_MODE_REPLACE) ;;
    on_pixels (surface_blit (Some screen) (Some rect) (Some l) (Some (s_clip l)) BLEND_MODE_ALPHA) ;;
    on_world (surface_free logo).

Definition exynos4412_display_logo : prog (screen_state S) unit :=
  on_display exynos4412_screen_flush ;;
  let* screen := screen_surface in
  let c := surface_map_color (Some screen) (Some (get_named_color "black")) in
  on_pixels (surface_fill (Some screen) (Some (s_clip screen)) c BLEND_MODE_REPLACE) ;;
  let* logo := on_world (surface_alloc_from_gimage uninit (Some default_logo)) in
  if logo =? 0 then ret tt else draw_logo screen c logo.

(** The surface over the front buffer of a panel. *)
Definition panel_surface (dat : exynos4412_fb_data_t) : surface_t :=
  let c := rgba dat in
  let info := PixelInfo (d_bits_per_pixel dat) (d_bytes_per_pixel dat)
    (r_mask c) (r_field c) (g_mask c) (g_field c) (b_mask c) (b_field c) (a_mask c) (a_field c)
    PIXEL_FORMAT_GENERIC in
  let info := PixelInfo (d_bits_per_pixel dat) (d_bytes_per_pixel dat)
    (r_mask c) (r_field c) (g_mask c) (g_field c) (b_mask c) (b_field c) (a_mask c) (a_field c)
    (get_pixel_format info) in
  Surface info (u32 (d_width dat)) (u32 (d_height dat)) (u32 (d_width dat *s d_bytes_per_pixel dat))
    SURFACE_PIXELS_DONTFREE (vram_front dat) (Rect 0 0 (d_width dat) (d_height dat))
    (default (Maps None None None None None None None)
       (surface_set_maps (Some (Maps None None None None None None None))).2).

(** It runs once, at start-up, with the panel descriptions as they are declared. *)
Definition exynos4412_fb_initial (commandline : string) : prog (screen_state S) unit :=
  let dat := fb_panel vram commandline in
  if negb (d_bits_per_pixel dat =? 16) && negb (d_bits_per_pixel dat =? 24) &&
     negb (d_bits_per_pixel dat =? 32)
  then ret tt
  else
    set_fb (Fb (panel_surface dat) dat) ;;
    on_display (on_clk (fb_init dat)) ;;
    exynos4412_display_logo ;;
    (if d_backlight dat then on_display (on_clk (lcd_backlight 255)) else ret tt).

(** [history] keeps its initial value: nothing assigns to it. *)
Definition history : Z := -1.

(** The bar in a surface of its own, and [rect] afterwards. *)
Definition draw_progress (obj : surface_t) (w h fc bc percent : Z) : prog mem rect_t :=
  surface_fill (Some obj) None bc BLEND_MODE_REPLACE ;;
  for_do h (λ i,
    surface_point (Some obj) 0 i fc BLEND_MODE_REPLACE ;;
    surface_point (Some obj) (w -s 1) i fc BLEND_MODE_REPLACE ;; ret tt) ;;
  for_do w (λ i,
    surface_point (Some obj) i 0 fc BLEND_MODE_REPLACE ;;
    surface_point (Some obj) i (h -s 1) fc BLEND_MODE_REPLACE ;; ret tt) ;;
  let rect := Rect (0 + 2) (0 + 3) (Z.quot ((w -s 4) *s percent) 100) (h -s 6) in
  surface_fill (Some obj) (Some rect) fc BLEND_MODE_REPLACE ;;
  ret rect.

(** What follows once there is the surface [obj] for the bar. *)
Definition show_progress (screen : surface_t) (obj x y w h fc bc percent : Z) : prog (screen_state S) unit :=
  let* o := on_world (get_surface obj) in
  let* rect := on_pixels (draw_progress o w h fc bc percent) in
  let rect := Rect x y (rw rect) (rh rect) in
  on_pixels (surface_blit (Some screen) (Some rect) (Some o) None BLEND_MODE_REPLACE) ;;
  on_world (surface_free obj) ;;
  on_pixels (lcd_print screen (u32 (x +s w +s 8)) (u32 (y +s 2)) fc bc (chars "%3d%%") [Word percent]).

Definition exynos4412_set_progress (percent : Z) : prog (screen_state S) unit :=
  if history =? percent then ret tt
  else
    let* screen := screen_surface in
    let x := 40 in
    let y := s32 (s_h screen -u 50) in
    let w := s32 (s_w screen -u 120) in
    let h := 8 + 10 in
    let fc := surface_map_color (Some screen) (Some (get_named_color "white")) in
    let bc := surface_map_color (Some screen) (Some (get_named_color "black")) in
    let* obj := on_world (surface_alloc uninit 0 (u32 w) (u32 h) PIXEL_FORMAT_ABGR_8888) in
    if obj =? 0 then ret tt
    else show_progress screen obj x y w h fc bc percent.

(** The buffer was filled with spaces; the terminating zero of the text stays. *)
Definition message_buf (text : list Z) : list Z := text ++ 0 :: replicate (1023 - length text) (ch " ").

Definition exynos4412_set_messge (fmt : list Z) (args : list arg) : prog (screen_state S) unit :=
  let* screen := screen_surface in
  let x := 40 in
  let y := s32 (s_h screen -u 50 -u 18) in
  let w := s32 (s_w screen -u 120) in
  let fc := surface_map_color (Some screen) (Some (get_named_color "white")) in
  let bc := surface_map_color (Some screen) (Some (get_named_color "black")) in
  let* text := on_pixels (format_text fmt args) in
  let len := Z.quot w 8 in
  on_pixels (lcd_textout screen x (u32 y) fc bc (message_buf text) (u32 len)).
End code.

(** ** Rules for the lifted programs *)

Definition set_mem {S} (s : screen_state S) (m : mem) : screen_state S :=
  ScreenState (World m (w_heap (sc_world s)) (w_surfaces (sc_world s))) (sc_display s).

Lemma wp_on_world {S A} (c : prog (world S) A) (Q : A → screen_state S → Prop) s :
  wp c (λ a ω, Q a (ScreenState ω (sc_display s))) (sc_world s) → wp (on_world c) Q s.
Proof. unfold wp, on_world. by destruct (c (sc_world s)) as [[a ω]|]. Qed.

Lemma wp_on_display {S A} (c : prog fb_state A) (Q : A → screen_state S → Prop) s :
  wp c (λ a d, Q a (ScreenState (sc_world s) d)) (sc_display s) → wp (on_display c) Q s.
Proof. unfold wp, on_display. by destruct (c (sc_display s)) as [[a d]|]. Qed.

Lemma wp_on_pixels {S A} (c : prog mem A) (Q : A → screen_state S → Prop) s :
  wp c (λ a m, Q a (set_mem s m)) (w_mem (sc_world s)) → wp (on_pixels c) Q s.
Proof. intros Hc. by apply wp_on_world, wp_on_mem. Qed.

Lemma wp_screen_surface {S} (Q : surface_t → screen_state S → Prop) s :
  Q (fb_surface (fs_fb (sc_display s))) s → wp screen_surface Q s.
Proof. by destruct s. Qed.

(** ** The screen as a surface *)

Definition screen_of (w h px : Z) : surface_t :=
  Surface (format_info PIXEL_FORMAT_ABGR_8888) w h (4 * w) SURFACE_PIXELS_DONTFREE px (Rect 0 0 w h) full_maps.

Lemma panel_surface_eq vram commandline :
  let dat := fb_panel vram commandline in
  panel_surface dat = screen_of (d_width dat) (d_height dat) (vram_front dat).
Proof. cbn zeta. unfold fb_panel. repeat case_match; reflexivity. Qed.

Lemma panel_size vram commandline :
  let dat := fb_panel vram commandline in
  200 ≤ d_width dat ≤ 2048 ∧ 100 ≤ d_height dat ≤ 2048 ∧ d_width dat * d_height dat * 4 ≤ VRAM_SIZE.
Proof. cbn zeta. unfold fb_panel. repeat case_match; by split_and!; vm_compute. Qed.

(** Surfaces of the format of the screen that are not too large and not clipped. *)
Record screen_shape (scr : surface_t) : Prop := {
  sh_info : info scr = format_info PIXEL_FORMAT_ABGR_8888;
  sh_clip : s_clip scr = whole scr;
  sh_maps : s_maps scr = full_maps;
  sh_w : 0 < s_w scr ≤ 2048;
  sh_h : 0 < s_h scr ≤ 2048;
}.

Lemma shape_small scr : screen_shape scr → rect_small (whole scr).
Proof. intros [_ _ _ Hw Hh]. unfold rect_small, whole. cbn. lia. Qed.

Lemma screen_of_shape w h px : 0 < w ≤ 2048 → 0 < h ≤ 2048 → screen_shape (screen_of w h px).
Proof. by intros Hw Hh. Qed.

Lemma screen_of_wf w h px :
  0 < w ≤ 2048 → 0 < h ≤ 2048 → 0 < px → px + w * h * 4 < 4294967296 → surface_wf (screen_of w h px).
Proof.
  intros Hw Hh Hp Hb. split; unfold canvas_wf, clip_in; cbn; try lia. by rewrite Z.mul_comm, Z.mod_mul.
Qed.

(** ** The logo *)

Definition black (scr : surface_t) : Z := surface_map_color (Some scr) (Some (get_named_color "black")).
Definition white (scr : surface_t) : Z := surface_map_color (Some scr) (Some (get_named_color "white")).

Section logo.
Context (logo_pixels : Z).

Definition logo_surface : surface_t := screen_of 88 100 logo_pixels.

(** Where the logo is on the screen. *)
Definition logo_rect (scr : surface_t) : rect_t := Rect ((s_w scr - 88) / 2) ((s_h scr - 100) / 2) 88 100.

(** The screen with the logo, if there was memory for its structure. *)
Definition logo_px (m : mem) (scr : surface_t) (loaded : bool) (x y : Z) : list Z :=
  let r := logo_rect scr in
  if loaded && bool_decide (in_rect r x y) then
    alpha_px scr (px_dec logo_surface (px_at m (canvas_of logo_surface) (x - rx r) (y - ry r)))
      (px_enc scr (black scr))
  else px_enc scr (black scr).

Lemma logo_rect_eq scr :
  screen_shape scr → 88 ≤ s_w scr → 100 ≤ s_h scr →
  rect_align (Some (s_clip scr)) (Some (s_clip logo_surface)) ALIGN_CENTER = Some (logo_rect scr) ∧
  rect_intersect (s_clip scr) (logo_rect scr) = (true, logo_rect scr).
Proof.
  intros [_ -> _ Hw Hh] Hw' Hh'. unfold logo_rect, whole.
  set (w := s_w scr) in *. set (h := s_h scr) in *. clearbody w h.
  assert (0 ≤ (w - 88) / 2 ∧ 2 * ((w - 88) / 2) ≤ w - 88) by (Z.to_euclidean_division_equations; lia).
  assert (0 ≤ (h - 100) / 2 ∧ 2 * ((h - 100) / 2) ≤ h - 100) by (Z.to_euclidean_division_equations; lia).
  split.
  - cbn. rewrite !(s32_small (_ - 88)), !(s32_small (_ - 100)) by lia.
    rewrite !Z.shiftr_div_pow2 by lia. change (2 ^ 1) with 2. change (0 +s (0 -s 0)) with 0. by rewrite !s32_small by lia.
  - rewrite rect_intersect_eq by (unfold rect_small; cbn [rx ry rw rh]; lia). cbn [rx ry rw rh].
    rewrite !Z.max_r, !Z.min_r by lia.
    replace ((w - 88) / 2 + 88 - (w - 88) / 2) with 88 by lia.
    by replace ((h - 100) / 2 + 100 - (h - 100) / 2) with 100 by lia.
Qed.
End logo.

(** Nothing changes when the clip rectangle is reset. *)
Lemma screen_reclip scr :
  screen_shape scr → default scr (surface_set_clip_rect (Some scr) None).2 = scr.
Proof.
  intros [_ Hc _ Hw Hh]. cbn. unfold set_clip. rewrite !s32_small by lia. fold (whole scr). rewrite <- Hc. by destruct scr.
Qed.

(** Filling the screen, and copying from a surface like it. *)
Lemma fill_screen_spec m scr rect c :
  screen_shape scr → surface_wf scr → surface_in m scr → rect_small (default (whole scr) rect) →
  wp (surface_fill (Some scr) rect c BLEND_MODE_REPLACE)
    (λ _ m', painted (canvas_of scr) m m' (λ x y, in_rect (whole scr) x y ∧ in_rect (default (whole scr) rect) x y)
       (λ _ _, px_enc scr c)) m.
Proof.
  intros Hscr Hwf Hin Hr. pose proof (sh_w _ Hscr). pose proof (sh_h _ Hscr).
  unfold surface_fill. rewrite (sh_maps _ Hscr). cbn [maps_fill full_maps].
  eapply wp_mono; [apply map_software_fill_spec; [done | done | by left |] |].
  - destruct rect; [done |]. rewrite (sh_clip _ Hscr). unfold rect_is_empty, whole. cbn. lia.
  - intros ok m' [_ Hp]. eapply painted_iff; [|exact Hp]. intros x y. unfold fill_area.
    rewrite (sh_clip _ Hscr). destruct rect; cbn; tauto.
Qed.

Lemma fill_whole_spec m scr c :
  screen_shape scr → surface_wf scr → surface_in m scr →
  wp (surface_fill (Some scr) (Some (s_clip scr)) c BLEND_MODE_REPLACE)
    (λ _ m', painted (canvas_of scr) m m' (in_rect (whole scr)) (λ _ _, px_enc scr c)) m.
Proof.
  intros Hscr Hwf Hin. rewrite (sh_clip _ Hscr).
  eapply wp_mono; [apply fill_screen_spec; [done..|by apply shape_small] |].
  intros ok m' Hp. eapply painted_iff; [|exact Hp]. cbn. tauto.
Qed.

Lemma blit_screen_spec m scr src r :
  screen_shape scr → screen_shape src → surface_wf scr → surface_wf src → surf_disjoint scr src →
  surface_in m scr → surface_in m src → rect_small r →
  wp (surface_blit (Some scr) (Some r) (Some src) (Some (s_clip src)) BLEND_MODE_ALPHA)
    (λ _ m', painted (canvas_of scr) m m' (blit_area scr r src (whole src))
       (λ x y, alpha_px scr (px_dec src (blit_source m src r (whole src) x y)) (px_at m (canvas_of scr) x y))) m.
Proof.
  intros Hscr Hsrc Hwf Hwf' Hd Hin Hin' Hr. pose proof (sh_w _ Hsrc). pose proof (sh_h _ Hsrc).
  unfold surface_blit. rewrite (sh_maps _ Hscr), (sh_clip _ Hsrc). cbn [maps_blit full_maps].
  eapply wp_mono; [apply map_software_blit_alpha_spec; try done |].
  - by rewrite (sh_info _ Hscr), (sh_info _ Hsrc).
  - split; [by apply shape_small |]. cbn. lia.
  - by intros ok m' [_ Hp].
Qed.

Lemma copy_screen_spec m scr src r :
  screen_shape scr → screen_shape src → surface_wf scr → surface_wf src → surf_disjoint scr src →
  surface_in m scr → surface_in m src → rect_small r →
  wp (surface_blit (Some scr) (Some r) (Some src) None BLEND_MODE_REPLACE)
    (λ _ m', painted (canvas_of scr) m m' (blit_area scr r src (whole src))
       (λ x y, blit_source m src r (whole src) x y)) m.
Proof.
  intros Hscr Hsrc Hwf Hwf' Hd Hin Hin' Hr. pose proof (sh_w _ Hsrc). pose proof (sh_h _ Hsrc).
  unfold surface_blit. rewrite (sh_maps _ Hscr). cbn [maps_blit full_maps].
  eapply wp_mono; [apply (map_software_blit_spec _ _ _ _ _ PIXEL_FORMAT_ABGR_8888 PIXEL_FORMAT_ABGR_8888); try done |].
  - apply (sh_info _ Hscr).
  - apply (sh_info _ Hsrc).
  - split; [by apply shape_small |]. cbn. lia.
  - by intros ok m' [_ Hp].
Qed.

(** ** The progress bar *)

(** What stands behind the bar. *)
Definition percent_text (percent : Z) : list Z := format_number percent 10 3 (-1) SIGN ++ [ch "%"].

Lemma percent_printed m percent :
  0 ≤ percent ≤ 100 →
  vsprintf m (chars "%3d%%") [Word percent] = Some (percent_text percent, []) ∧
  Z.of_nat (length (percent_text percent)) = 4 ∧ Forall (λ c, 0 ≤ c < 128) (percent_text percent).
Proof.
  intros Hp. split.
  - set (items := [INum (Lay [] (Some 3) None) QNone ConvD percent; IPercent]).
    change (vsprintf m _ _) with
      (vsprintf_loop 5 m [] [] (concat (map item_text items)) (concat (map item_args items) ++ [])).
    rewrite vsprintf_loop_items; [| repeat constructor; cbn; lia | done].
    cbn [items map concat item_printed l_width l_precision l_flags default from_option id app conversion_base value_of signed].
    unfold percent_text. by rewrite s32_small, u64_small by lia.
  - assert (check_below 101 (λ p, (Z.of_nat (length (percent_text p)) =? 4) &&
      bool_decide (Forall (λ c, 0 ≤ c < 128) (percent_text p))) = true) as Hall by by vm_compute.
    pose proof (check_below_spec _ _ Hall percent ltac:(lia)) as Hc. cbv beta in Hc.
    apply andb_prop in Hc as [H1 H2]. apply Z.eqb_eq in H1. apply bool_decide_eq_true in H2. exact (conj H1 H2).
Qed.

Definition is_bar (w h n x y : Z) : bool :=
  (x =? 0) || (x =? w - 1) || (y =? 0) || (y =? h - 1) ||
  ((2 <=? x) && (x <? 2 + n) && (3 <=? y) && (y <? h - 3)).

Section bar.
Context (o : surface_t) (fc bc : Z).
Hypothesis Hshape : screen_shape o.
Hypothesis Hwf : surface_wf o.

Notation two_colors m m' f :=
  (painted (canvas_of o) m m' (in_rect (whole o)) (λ X Y, px_enc o (if f X Y then fc else bc))).

Lemma whole_in x y : in_rect (whole o) x y → in_canvas (canvas_of o) x y.
Proof using. done. Qed.

Lemma point_over m m1 (f f' : Z → Z → bool) x y :
  surface_in m o → two_colors m m1 f → in_rect (whole o) x y →
  (∀ X Y, in_rect (whole o) X Y → f' X Y = f X Y || (X =? x) && (Y =? y)) →
  wp (surface_point (Some o) x y fc BLEND_MODE_REPLACE) (λ _ m2, two_colors m m2 f') m1.
Proof using Hshape Hwf.
  intros Hin Hp Hxy Hf. unfold surface_point. rewrite (sh_maps _ Hshape). cbn [maps_point full_maps].
  eapply wp_mono; [apply map_software_point_spec; [done | by eapply painted_surface_in] |].
  intros ok m2 [Hok P2]. rewrite (sh_clip _ Hshape) in *. rewrite (Hok Hxy), bool_decide_true in P2 by by left.
  eapply (painted_over _ _ _ _ _ _ _ _ _ (wf_canvas _ Hwf) whole_in); [| |exact Hp | exact P2 | |].
  - by intros X Y (-> & -> & _).
  - intros X Y. unfold in_rect. apply _.
  - intros X Y (-> & -> & _). rewrite Hf, !Z.eqb_refl, orb_true_r by done. done.
  - intros X Y HXY Hn. rewrite Hf by done. destruct ((X =? x) && (Y =? y)) eqn:E; [|by rewrite orb_false_r].
    exfalso. apply Hn. apply andb_prop in E as [->%Z.eqb_eq ->%Z.eqb_eq]. done.
Qed.

(** Two opposite ends of a row or a column. *)
Lemma points_over m m1 (f f' : Z → Z → bool) x y x' y' :
  surface_in m o → two_colors m m1 f → in_rect (whole o) x y → in_rect (whole o) x' y' →
  (∀ X Y, in_rect (whole o) X Y → f' X Y = f X Y || (X =? x) && (Y =? y) || (X =? x') && (Y =? y')) →
  wp (surface_point (Some o) x y fc BLEND_MODE_REPLACE ;;
      surface_point (Some o) x' y' fc BLEND_MODE_REPLACE ;; ret tt) (λ _ m2, two_colors m m2 f') m1.
Proof using Hshape Hwf.
  intros Hin Hp Hxy Hxy' Hf. apply wp_bind. eapply wp_mono.
  { by apply (point_over m m1 f (λ X Y, f X Y || (X =? x) && (Y =? y)) x y). }
  intros ok m2 Hp2. apply wp_bind. eapply wp_mono; [by apply (point_over m m2 _ f' x' y' Hin Hp2) |].
  intros ok' m3 Hp3. by apply wp_ret.
Qed.

Lemma draw_progress_spec m percent :
  surface_in m o → 4 ≤ s_w o → s_h o = 18 → 0 ≤ percent ≤ 100 →
  let n := (s_w o - 4) * percent / 100 in
  wp (draw_progress o (s_w o) 18 fc bc percent)
    (λ r m', r = Rect 2 3 n 12 ∧ two_colors m m' (is_bar (s_w o) 18 n)) m.
Proof using Hshape Hwf.
  intros Hin Hw4 Hh Hpc n. pose proof (sh_w _ Hshape) as Hw.
  assert (0 ≤ n ≤ 2044) as Hn by (subst n; split; [apply Z.div_pos | apply Z.div_le_upper_bound]; nia).
  unfold draw_progress. rewrite !(s32_small (s_w o - _)), (s32_small (_ * _)), Z.quot_div_nonneg by nia.
  change (18 -s 1) with 17. change (18 -s 6) with 12. fold n.
  apply wp_bind. eapply wp_mono; [by apply fill_screen_spec; [..|apply shape_small] |]. intros ok m1 P1.
  apply wp_bind. set (f1 := λ i X Y : Z, ((X =? 0) || (X =? s_w o - 1)) && (Y <? i)).
  set (f2 := λ i X Y : Z, f1 18 X Y || ((Y =? 0) || (Y =? 17)) && (X <? i)).
  apply (wp_for_do _ _ _ (λ i m', two_colors m m' (f1 i))); [done | | |].
  { eapply painted_iff; [|eapply painted_ext; [|exact P1]]; [cbn; tauto |].
    intros X Y [HX _]. unfold f1. rewrite (proj2 (Z.ltb_ge _ _)), andb_false_r; [done |]. apply HX. }
  { intros i m2 Hi P2. eapply points_over; [done | exact P2 | unfold in_rect; cbn; lia | unfold in_rect; cbn; lia |].
    intros X Y HX. unfold f1. unfold in_rect in HX. cbn in HX. lia. }
  intros m2 P2. apply wp_bind.
  apply (wp_for_do _ _ _ (λ i m', two_colors m m' (f2 i))); [lia | | |].
  { eapply painted_ext; [|exact P2]. intros X Y HX. unfold f2, in_rect in *. cbn in HX.
    rewrite (proj2 (Z.ltb_ge X _)), andb_false_r, orb_false_r by lia. done. }
  { intros i m3 Hi P3. eapply points_over; [done | exact P3 | unfold in_rect; cbn; lia | unfold in_rect; cbn; lia |].
    intros X Y HX. unfold f2, f1, in_rect in *. cbn in HX. lia. }
  intros m3 P3. apply wp_bind. eapply wp_mono.
  { apply fill_screen_spec; [done | done | by eapply painted_surface_in | unfold rect_small; cbn; lia]. }
  intros ok' m4 P4. apply wp_ret. split; [done |]. cbn [default from_option id] in P4.
  eapply (painted_over _ _ _ _ _ _ _ _ _ (wf_canvas _ Hwf) whole_in); [| | exact P3 | exact P4 | |].
  - by intros X Y [? _].
  - intros X Y. unfold in_rect. apply _.
  - intros X Y [_ HX]. replace (is_bar (s_w o) 18 n X Y) with true; [done |].
    unfold is_bar, in_rect in *. cbn in HX. lia.
  - intros X Y HX Hn'. replace (is_bar (s_w o) 18 n X Y) with (f2 (s_w o) X Y); [done |].
    unfold is_bar, f2, f1, in_rect in *. cbn in HX, Hn'. lia.
Qed.
End bar.

(** What [exynos4412_set_progress] leaves on the screen. *)
Definition bar_rect (scr : surface_t) : rect_t := Rect 40 (s_h scr - 50) (s_w scr - 120) 18.
Definition text_rect (scr : surface_t) : rect_t := Rect (s_w scr - 72) (s_h scr - 48) 32 16.
Definition bar_len (scr : surface_t) (percent : Z) : Z := (s_w scr - 124) * percent / 100.

Definition progress_px (m : mem) (scr : surface_t) (percent x y : Z) : list Z :=
  if bool_decide (in_rect (text_rect scr) x y) then
    px_enc scr (cell_color (s_w scr - 72) (s_h scr - 48) (white scr) (black scr) (percent_text percent) x y)
  else if bool_decide (in_rect (bar_rect scr) x y) then
    px_enc scr (if is_bar (s_w scr - 120) 18 (bar_len scr percent) (x - 40) (y - (s_h scr - 50))
                then white scr else black scr)
  else px_at m (canvas_of scr) x y.

(** Every cell of the text is drawn. *)
Lemma percent_cells scr percent x y :
  0 ≤ percent ≤ 100 →
  cells (s_w scr - 72) (s_h scr - 48) (percent_text percent) 4 x y ↔ in_rect (text_rect scr) x y.
Proof.
  intros Hp. destruct (percent_printed ∅ percent Hp) as (_ & Hlen & Hall). unfold cells, in_rect, in_area. cbn [text_rect rx ry rw rh].
  split; [lia |]. intros Hxy. split; [lia |]. 
  assert (0 ≤ (x - (s_w scr - 72)) / 8 < 4) as Hi by (split; [apply Z.div_pos | apply Z.div_lt_upper_bound]; lia).
  destruct (lookup_lt_is_Some_2 (percent_text percent) (Z.to_nat ((x - (s_w scr - 72)) / 8))) as [c Hc]; [lia |].
  exists c. split; [done |]. apply (proj1 (Forall_lookup _ _) Hall _ _ Hc).
Qed.

(** Bytes outside of a surface are not written by painting it. *)
Lemma painted_outside t m m' D px a :
  surface_wf t → (∀ x y, D x y → in_canvas (canvas_of t) x y) → painted (canvas_of t) m m' D px →
  ¬ (s_pixels t ≤ a < s_pixels t + s_h t * s_pitch t) → m' !! a = m !! a.
Proof.
  intros Hwf HD Hp Ha. apply (painted_out _ _ _ _ _ Hp). intros x y Hxy%HD Hin.
  pose proof (px_addr_bounds _ _ _ (wf_canvas _ Hwf) Hxy) as Hb. unfold in_px in Hin. cbn in *. lia.
Qed.

(** ** The invariant of the screen *)

(** ** What drawing leaves alone *)

Section frame.
Context {S : Type} `{Allocator S}.

(** Drawing keeps the panel description and the registers of the clocks. *)
Definition display_kept (s s' : screen_state S) : Prop :=
  fb_dat (fs_fb (sc_display s')) = fb_dat (fs_fb (sc_display s)) ∧
  kept quiet_registers (fs_clk (sc_display s)) (fs_clk (sc_display s')).

Definition display_keeps {A} (c : prog (screen_state S) A) : Prop :=
  ∀ s x s', regbase (fb_dat (fs_fb (sc_display s))) = EXYNOS4412_LCD_BASE → c s = Some (x, s') → display_kept s s'.

Lemma display_keeps_bind {A B} (c : prog (screen_state S) A) (k : A → prog (screen_state S) B) :
  display_keeps c → (∀ x, display_keeps (k x)) → display_keeps (bind c k).
Proof.
  intros Hc Hk s y s' Hs. unfold bind. destruct (c s) as [[x s1] |] eqn:E; [| done]. intros E'.
  destruct (Hc s x s1 Hs E) as [D1 K1]. destruct (Hk x s1 y s') as [D2 K2]; [by rewrite D1 | done |].
  split; [by rewrite D2 | by etrans].
Qed.

Lemma display_keeps_same {A} (c : prog (screen_state S) A) :
  (∀ s x s', c s = Some (x, s') →
    fb_dat (fs_fb (sc_display s')) = fb_dat (fs_fb (sc_display s)) ∧
    fs_clk (sc_display s') = fs_clk (sc_display s)) → display_keeps c.
Proof. intros Hc s x s' _ E. destruct (Hc s x s' E) as [? Ek]. split; [done |]. by rewrite Ek. Qed.

Lemma display_keeps_world {A} (c : prog (world S) A) : display_keeps (on_world c).
Proof.
  apply display_keeps_same. intros s x s'. unfold on_world.
  destruct (c (sc_world s)) as [[y ω] |]; [| done]. by intros [= _ <-].
Qed.

Lemma display_keeps_flush : display_keeps (on_display exynos4412_screen_flush).
Proof.
  intros s x s' Hs. unfold on_display, exynos4412_screen_flush, fb_flush, bind, get_state, on_clk.
  destruct (exynos4412_fb_set_buffer_address _ _ _ _) as [[y k] |] eqn:E; [| done]. intros [= _ <-].
  split; [done |]. by eapply buffer_address_keeps.
Qed.

Lemma display_logo_keeps uninit logo_pixels : display_keeps (exynos4412_display_logo uninit logo_pixels).
Proof.
  assert (∀ t, display_keeps (set_screen_surface t)) as Hset.
  { intros t. apply display_keeps_same. by intros s x s' [= _ <-]. }
  assert (display_keeps screen_surface) as Hget by (apply display_keeps_same; by intros s x s' [= _ <-]).
  assert (display_keeps (ret tt)) as Hret by (apply display_keeps_same; by intros s x s' [= _ <-]).
  unfold exynos4412_display_logo, draw_logo, on_pixels.
  repeat lazymatch goal with
  | |- display_keeps (bind _ _) => apply display_keeps_bind; [| intros ?]
  | |- display_keeps (on_world _) => apply display_keeps_world
  | |- display_keeps (if ?b then _ else _) => destruct b
  | |- display_keeps (let '(_, _) := ?p in _) => destruct p
  | |- _ => first [done | apply display_keeps_flush]
  end.
Qed.

Lemma display_keeps_wp {A} (c : prog (screen_state S) A) Q s :
  display_keeps c → regbase (fb_dat (fs_fb (sc_display s))) = EXYNOS4412_LCD_BASE → wp c Q s →
  wp c (λ x s', Q x s' ∧ display_kept s s') s.
Proof.
  intros Hc Hs. unfold wp. destruct (c s) as [[x s'] |] eqn:E; [| done]. intros HQ.
  split; [done | by eapply Hc].
Qed.
End frame.

Section correctness.
Context {S : Type} `{AllocatorLaws S}.
Context (uninit : pixel_info) (vram logo_pixels : Z).
Hypothesis Hvram : 0 < vram ∧ vram + 2 * VRAM_SIZE < 2 ^ 32.
Hypothesis Hheap : vram + 2 * VRAM_SIZE ≤ alloc_base ∨ alloc_base + alloc_len ≤ vram.
Implicit Types s : screen_state S.

Notation dat_of s := (fb_dat (fs_fb (sc_display s))).
Notation mem_of s := (w_mem (sc_world s)).
Notation screen_at s := (fb_surface (fs_fb (sc_display s))).

(** The state the drawing code works in: heap and surfaces are valid, and the
    screen is a surface over the front one of the two buffers. *)
Record screen_ok s : Prop := {
  so_world : world_ok (sc_world s);
  so_buffers : buffers_ok vram (sc_display s);
  so_screen : screen_at s = screen_of (d_width (dat_of s)) (d_height (dat_of s)) (vram_front (dat_of s));
  so_width : 200 ≤ d_width (dat_of s) ≤ 2048;
  so_height : 100 ≤ d_height (dat_of s) ≤ 2048;
  so_fits : d_width (dat_of s) * d_height (dat_of s) * 4 ≤ VRAM_SIZE;
  so_mapped : mapped (mem_of s) vram (2 * VRAM_SIZE);
}.

Lemma vram_bounds : VRAM_SIZE = 9216000 ∧ 0 < vram ∧ vram + 18432000 < 4294967296.
Proof using Hvram.
  change (2 ^ 32) with 4294967296 in Hvram. change VRAM_SIZE with 9216000 in *. lia.
Qed.

(** Where the pixels of the screen are. *)
Lemma screen_range s :
  screen_ok s →
  vram ≤ s_pixels (screen_at s) ∧
  s_pixels (screen_at s) + s_h (screen_at s) * s_pitch (screen_at s) ≤ vram + 2 * VRAM_SIZE.
Proof using Hvram.
  intros Hs. destruct vram_bounds as (E & ? & ?). pose proof (so_fits _ Hs). rewrite (so_screen _ Hs). cbn.
  destruct (bo_vram _ _ (so_buffers _ Hs)) as [[-> _] | [-> _]]; lia.
Qed.

Lemma screen_wf s : screen_ok s → surface_wf (screen_at s).
Proof using Hvram.
  intros Hs. pose proof (screen_range s Hs) as Hr. destruct vram_bounds as (E & ? & ?).
  pose proof (so_width _ Hs). pose proof (so_height _ Hs). rewrite (so_screen _ Hs) in *. cbn in Hr.
  apply screen_of_wf; lia.
Qed.

Lemma screen_in s : screen_ok s → surface_in (mem_of s) (screen_at s).
Proof using Hvram.
  intros Hs. pose proof (screen_range s Hs) as Hr. split; [apply (so_world _ Hs) |].
  eapply mapped_sub; [apply (so_mapped _ Hs) | lia | lia].
Qed.

Lemma screen_size s : screen_ok s → 200 ≤ s_w (screen_at s) ≤ 2048 ∧ 100 ≤ s_h (screen_at s) ≤ 2048.
Proof using. intros Hs. rewrite (so_screen _ Hs). split; [apply (so_width _ Hs) | apply (so_height _ Hs)]. Qed.

Lemma screen_has_shape s : screen_ok s → screen_shape (screen_at s).
Proof using.
  intros Hs. pose proof (so_width _ Hs). pose proof (so_height _ Hs). rewrite (so_screen _ Hs).
  apply screen_of_shape; clear Hvram Hheap; lia.
Qed.

(** Code that writes pixels, of the screen or others, keeps the state valid. *)
Lemma screen_ok_mem s m :
  screen_ok s → bytes_ok m → (∀ a, is_Some (mem_of s !! a) → is_Some (m !! a)) → screen_ok (set_mem s m).
Proof using.
  intros [] Hb Hm. split; cbn; try done; [by apply world_ok_mem |]. intros a Ha. by apply Hm, so_mapped0.
Qed.

Lemma screen_ok_painted s cv m D px :
  screen_ok s → painted cv (mem_of s) m D px → screen_ok (set_mem s m).
Proof using.
  intros Hs Hp. apply screen_ok_mem; [done | apply (painted_ok _ _ _ _ _ Hp) | apply (painted_mapped _ _ _ _ _ Hp)].
Qed.

(** The world after heap operations, which keep or write the memory. *)
Lemma screen_ok_grown s ω :
  screen_ok s → world_ok ω → (∀ a, is_Some (mem_of s !! a) → is_Some (w_mem ω !! a)) →
  screen_ok (ScreenState ω (sc_display s)).
Proof using. intros [] Hω Hm. split; cbn; try done. intros a Ha. by apply Hm, so_mapped0. Qed.

Lemma screen_ok_world s ω :
  screen_ok s → world_ok ω → w_mem ω = mem_of s → screen_ok (ScreenState ω (sc_display s)).
Proof using. intros Hs Hω Em. apply screen_ok_grown; [done..|]. by rewrite Em. Qed.


(** What was drawn and what was not: the screen is painted all over, and the
    surfaces and the blocks in use are those of before. *)
Record redrawn s s' (px : Z → Z → list Z) : Prop := {
  rd_ok : screen_ok s';
  rd_fb : fs_fb (sc_display s') = fs_fb (sc_display s);
  rd_surfaces : w_surfaces (sc_world s') = w_surfaces (sc_world s);
  rd_owns q k : owns (sc_world s') q k ↔ owns (sc_world s) q k;
  rd_painted : painted (canvas_of (screen_at s)) (mem_of s) (mem_of s') (in_rect (whole (screen_at s))) px;
}.

Lemma screen_ok_display s d :
  screen_ok s → buffers_ok vram d → fs_fb d = fs_fb (sc_display s) → screen_ok (ScreenState (sc_world s) d).
Proof using. intros [] Hd E. split; cbn; by rewrite ?E. Qed.

Section with_logo.
Hypothesis Hlogo : 0 < logo_pixels ∧ logo_pixels + 35200 < 4294967296.
Hypothesis Hapart : vram + 2 * VRAM_SIZE ≤ logo_pixels ∨ logo_pixels + 35200 ≤ vram.

Lemma logo_wf : surface_wf (logo_surface logo_pixels).
Proof using Hlogo. apply screen_of_wf; lia. Qed.

Lemma logo_disjoint s : screen_ok s → surf_disjoint (screen_at s) (logo_surface logo_pixels).
Proof using Hvram Hapart.
  intros Hs. pose proof (screen_range s Hs) as Hr. unfold surf_disjoint. cbn. lia.
Qed.

(** The logo over the black screen. *)
Lemma logo_over_black s m1 m2 m3 :
  let scr := screen_at s in
  screen_ok s → mapped (mem_of s) logo_pixels 35200 →
  painted (canvas_of scr) (mem_of s) m1 (in_rect (whole scr)) (λ _ _, px_enc scr (black scr)) →
  painted (canvas_of scr) m1 m2 (in_rect (whole scr)) (λ _ _, px_enc scr (black scr)) →
  painted (canvas_of scr) m2 m3 (blit_area scr (logo_rect scr) (logo_surface logo_pixels) (whole (logo_surface logo_pixels)))
    (λ x y, alpha_px scr (px_dec (logo_surface logo_pixels) (blit_source m2 (logo_surface logo_pixels)
               (logo_rect scr) (whole (logo_surface logo_pixels)) x y)) (px_at m2 (canvas_of scr) x y)) →
  painted (canvas_of scr) (mem_of s) m3 (in_rect (whole scr)) (logo_px logo_pixels (mem_of s) scr true).
Proof using All.
  intros scr Hs Hm P1 P2 P3. pose proof (screen_wf s Hs) as Hwf. fold scr in Hwf. pose proof (wf_canvas _ Hwf) as Hcv.
  assert (∀ x y, in_rect (whole scr) x y → in_canvas (canvas_of scr) x y) as Hw by done.
  assert (painted (canvas_of scr) (mem_of s) m2 (in_rect (whole scr)) (λ _ _, px_enc scr (black scr))) as P12.
  { eapply painted_iff; [|by apply (painted_trans _ _ _ _ _ _ _ _ (λ _ _, px_enc scr (black scr)) Hcv Hw Hw _ P1 P2)].
    intros. tauto. }
  set (r := logo_rect scr) in *. set (D := blit_area _ _ _ _) in P3.
  assert (∀ x y, D x y ↔ in_rect (whole scr) x y ∧ in_rect r x y) as HD.
  { intros x y. subst D. unfold blit_area, in_canvas, in_rect, whole, scr. rewrite (so_screen s Hs). cbn. lia. }
  eapply painted_iff with (D := λ x y, in_rect (whole scr) x y ∨ D x y); [intros; rewrite HD; tauto |].
  eapply (painted_trans _ _ _ _ _ _ _ _ _ Hcv Hw); [by intros x y [? _]%HD; auto | apply _ | exact P12 | exact P3 | |].
  - intros x y [Hxy Hr]%HD. unfold logo_px. fold r. rewrite bool_decide_true by done. cbn [andb].
    rewrite (px_at_eq _ _ _ _ _ (painted_in _ _ _ _ _ P12 x y Hxy)). do 2 f_equal.
    unfold blit_source. cbn [whole rx ry]. rewrite !Z.add_0_r. symmetry. apply px_at_eq.
    assert (in_canvas (canvas_of (logo_surface logo_pixels)) (x - rx r) (y - ry r)).
    { unfold in_canvas, in_rect in *. cbn in Hr |- *. lia. }
    eapply (painted_disjoint scr); [done | apply logo_wf | by apply logo_disjoint | exact Hw | exact P12 | done |].
    apply (px_bytes_at _ logo_wf); [|done]. split; [apply (so_world s Hs) | done].
  - intros x y Hxy Hn. unfold logo_px. fold r. rewrite bool_decide_false; [done |]. intros Hr. by apply Hn, HD.
Qed.

(** Drawing the logo, whose structure is at [p], and freeing it. *)
Lemma draw_logo_spec s p :
  screen_ok s → mapped (mem_of s) logo_pixels 35200 →
  w_surfaces (sc_world s) !! p = Some (logo_surface logo_pixels) →
  let scr := screen_at s in
  let logo := logo_surface logo_pixels in
  wp (draw_logo scr (black scr) p)
    (λ _ s', screen_ok s' ∧ sc_display s' = sc_display s ∧
       w_surfaces (sc_world s') = delete p (w_surfaces (sc_world s)) ∧
       (∀ q j, owns (sc_world s') q j ↔ owns (sc_world s) q j ∧ q ≠ p) ∧
       ∃ m, painted (canvas_of scr) (mem_of s) m (in_rect (whole scr)) (λ _ _, px_enc scr (black scr)) ∧
         painted (canvas_of scr) m (mem_of s') (blit_area scr (logo_rect scr) logo (whole logo))
           (λ x y, alpha_px scr (px_dec logo (blit_source m logo (logo_rect scr) (whole logo) x y))
                     (px_at m (canvas_of scr) x y))) s.
Proof using All.
  intros Hs Hm Hp scr logo. pose proof (screen_has_shape _ Hs) as Hshape. pose proof (screen_wf _ Hs) as Hwf.
  pose proof (screen_in _ Hs) as Hin. pose proof (screen_size _ Hs) as Hsz. fold scr in Hshape, Hwf, Hin, Hsz.
  assert (screen_shape logo) as Hlogo' by (apply screen_of_shape; lia).
  destruct (logo_rect_eq logo_pixels scr Hshape) as [Hal Hhit]; [lia .. |].
  unfold draw_logo. rewrite (screen_reclip _ Hshape). apply wp_bind.
  assert (set_screen_surface scr s = Some (tt, s)) as E by by destruct s as [? [[] ?]].
  unfold wp at 1. rewrite E. apply wp_bind, wp_on_world. eapply wp_get_surface; [exact Hp |]. fold logo.
  rewrite (screen_reclip _ Hlogo'). apply wp_bind, wp_on_world. unfold put_surface, wp at 1. cbn [sc_display sc_world].
  rewrite insert_id by exact Hp. unfold logo. rewrite Hal. cbn [default from_option id]. rewrite Hhit. cbn [negb]. fold logo.
  apply wp_bind, wp_on_pixels. eapply wp_mono; [by apply fill_whole_spec |]. intros ok1 m1 P1.
  assert (∀ a, is_Some (mem_of s !! a) → is_Some (m1 !! a)) as M1 by apply (painted_mapped _ _ _ _ _ P1).
  apply wp_bind, wp_on_pixels. eapply wp_mono.
  { apply blit_screen_spec; try done; [apply logo_wf | by apply logo_disjoint | | |].
    - split; [apply (painted_ok _ _ _ _ _ P1) |]. intros a Ha. by apply M1, Hin.
    - split; [apply (painted_ok _ _ _ _ _ P1) |]. intros a Ha. by apply M1, Hm.
    - unfold rect_small, logo_rect. cbn. Z.to_euclidean_division_equations; lia. }
  intros ok2 m2 P2. apply wp_on_world.
  pose proof (screen_ok_painted _ _ _ _ _ Hs P1) as Hs1.
  pose proof (screen_ok_painted (set_mem s m1) _ _ _ _ Hs1 P2) as Hs2.
  eapply wp_mono; [apply (surface_free_spec uninit _ p logo); [apply (so_world _ Hs2) | exact Hp] |].
  intros [] ω (Hω & Em & Esf & How). split_and!; [|done|done| |].
  - by apply (screen_ok_world _ _ Hs2).
  - intros q j. rewrite How. split; [tauto |]. intros [? ?]. split_and!; [done | done |]. by intros [=].
  - exists m1. split; [exact P1 |]. cbn. by rewrite Em.
Qed.

(** The screen is black, and the logo is drawn if there is memory for it. *)
Lemma exynos4412_display_logo_spec s :
  screen_ok s → mapped (mem_of s) logo_pixels 35200 →
  wp (exynos4412_display_logo uninit logo_pixels)
    (λ _ s', redrawn s s' (logo_px logo_pixels (mem_of s) (screen_at s) (granted (w_heap (sc_world s)) SURFACE_SIZE)) ∧
       displayed (sc_display s') = s_pixels (screen_at s) ∧
       ∀ dat, panel_shown dat (regs (fs_clk (sc_display s))) → panel_shown dat (regs (fs_clk (sc_display s')))) s.
Proof using All.
  intros Hs Hm. destruct vram_bounds as (_ & Hv0 & _).
  unfold exynos4412_display_logo. apply wp_bind, wp_on_display.
  eapply wp_mono; [apply (fb_flush_spec vram); [lia | apply Hvram | apply (so_buffers _ Hs)] |].
  intros [] d (Hd & Efb & Edisp & Hshown). rewrite <- (bo_surface _ _ (so_buffers _ Hs)) in Edisp.
  apply wp_bind, wp_screen_surface. cbn [sc_display]. rewrite Efb.
  pose proof (screen_ok_display s d Hs Hd Efb) as Hs1. pose proof (screen_has_shape _ Hs) as Hshape.
  pose proof (screen_wf _ Hs) as Hwf. pose proof (screen_in _ Hs) as Hin. fold (black (screen_at s)).
  apply wp_bind, wp_on_pixels. eapply wp_mono; [by apply fill_whole_spec |]. intros ok1 m1 P1. unfold set_mem.
  pose proof (screen_ok_painted _ _ _ _ _ Hs1 P1) as Hs2. cbn [sc_world sc_display].
  apply wp_bind, wp_on_world. unfold surface_alloc_from_gimage, default_logo. cbn [g_bytes_per_pixel g_pixels g_width g_height Z.eqb Pos.eqb].
  eapply wp_mono; [apply surface_alloc_given_spec; [apply (so_world _ Hs2) | done | lia | lia | lia] |].
  intros p ω (Hω & Em & Hcase). pose proof (screen_ok_world _ _ Hs2 Hω Em) as Hs3. cbn [sc_display set_mem sc_world w_mem w_heap] in Em, Hcase, Hs3 |- *.
  destruct Hcase as [(-> & -> & Esf & How) | (Hp & -> & Hfr & Esf & k & _ & How)].
  { cbn [Z.eqb]. apply wp_ret. split_and!; [|done|done]. split; cbn; try done. by rewrite Em. }
  rewrite (proj2 (Z.eqb_neq p 0)) by lia.
  assert (w_surfaces ω !! p = Some (logo_surface logo_pixels)) as Hlp by by rewrite Esf, lookup_insert_eq.
  assert (mapped (w_mem ω) logo_pixels 35200) as Hm'
    by (intros a Ha; rewrite Em; by apply (painted_mapped _ _ _ _ _ P1), Hm).
  pose proof (draw_logo_spec _ p Hs3 Hm' Hlp) as Hdraw. cbn [sc_display sc_world] in Hdraw. rewrite Efb in Hdraw.
  eapply wp_mono; [exact Hdraw |]. intros [] s' (Hs' & Ed & Esf' & How' & m2 & P2 & P3). rewrite Ed.
  split_and!; [|done|done]. split.
  - done.
  - by rewrite Ed.
  - rewrite Esf', Esf. apply delete_insert_id. destruct (w_surfaces (sc_world s) !! p) eqn:E; [|done].
    destruct (wo_surface _ (so_world _ Hs) _ _ E) as (k' & Hk' & _). by apply Hfr in Hk'.
  - intros q j. rewrite How', How. split; [intros [[? | [? _]] ?]; [done | congruence] |].
    intros Hq. split; [by left |]. intros ->. by apply (Hfr j).
  - rewrite Em in P2. exact (logo_over_black s m1 m2 _ Hs Hm P1 P2 P3).
Qed.

(** The state in which the panel has been chosen. *)
Lemma panel_chosen_ok s commandline :
  let dat := fb_panel vram commandline in
  world_ok (sc_world s) → mapped (mem_of s) vram (2 * VRAM_SIZE) →
  ∀ k, screen_ok (ScreenState (sc_world s) (FbState (Fb (panel_surface dat) dat) k)).
Proof using.
  intros dat Hω Hm k. destruct (panel_size vram commandline) as (Hw & Hh & Hf).
  destruct (fb_panel_ok vram commandline) as (Hp & _ & _ & _ & _ & Efr & Ebk & _).
  split; cbn [sc_world sc_display fs_fb fb_surface fb_dat]; try done; [|apply panel_surface_eq].
  split; cbn [fs_fb fb_surface fb_dat]; [apply (po_regbase _ Hp) | by left |].
  unfold dat. by rewrite panel_surface_eq.
Qed.

(** The same with what happens to the clocks: the divider of the dot clock is
    or-ed into its field, and the clock controller and the table are kept. *)
Lemma exynos4412_fb_initial_spec s commandline fimd :
  let dat := fb_panel vram commandline in
  let scr := panel_surface dat in
  world_ok (sc_world s) → mapped (mem_of s) vram (2 * VRAM_SIZE) → mapped (mem_of s) logo_pixels 35200 →
  0 < fimd < 2 ^ 32 →
  clk_get_rate "fimd" (Some 0) (fs_clk (sc_display s)) = Some ((true, Some fimd), fs_clk (sc_display s)) →
  wp (exynos4412_fb_initial uninit vram logo_pixels commandline) (λ _ s',
    screen_ok s' ∧ fs_fb (sc_display s') = Fb scr dat ∧
    panel_shown dat (regs (fs_clk (sc_display s'))) ∧ displayed (sc_display s') = vram ∧
    lit (regs (fs_clk (sc_display s'))) ∧
    w_surfaces (sc_world s') = w_surfaces (sc_world s) ∧
    (∀ q k, owns (sc_world s') q k ↔ owns (sc_world s) q k) ∧
    painted (canvas_of scr) (mem_of s) (mem_of s') (in_rect (whole scr))
      (logo_px logo_pixels (mem_of s) scr (granted (w_heap (sc_world s)) SURFACE_SIZE)) ∧
    bits (reg (regs (fs_clk (sc_display s'))) VIDCON0) 6 8 =
      Z.lor (bits (reg (regs (fs_clk (sc_display s))) VIDCON0) 6 8) (bits (clock_divider dat fimd - 1) 0 8) ∧
    kept quiet_block (fs_clk (sc_display s)) (fs_clk (sc_display s'))) s.
Proof using All.
  intros dat scr Hω Hm Hl Hf Hc. pose proof (panel_chosen_ok s commandline Hω Hm) as Hok. fold dat scr in Hok.
  destruct (fb_panel_ok vram commandline) as (Hp & Hd & _ & Eb & _ & Efr & _ & _ & Ebl). fold dat in Hp, Hd, Eb, Efr, Ebl.
  unfold exynos4412_fb_initial. fold dat. rewrite Eb, Ebl. cbn [Z.eqb Pos.eqb negb andb].
  apply wp_bind. unfold set_fb, wp at 1. fold scr. apply wp_bind, wp_on_display, wp_on_clk. cbn [fs_clk sc_display fs_fb].
  eapply wp_mono; [apply (keeps_wp quiet_block), fb_init_spec with (fimd := fimd); [apply fb_init_keeps, Hp | done..] |].
  intros [] k [[Hk Hdiv] Hkeep]. specialize (Hok k).
  apply wp_bind. eapply wp_mono; [eapply display_keeps_wp; [apply display_logo_keeps | apply Hp | by apply (exynos4412_display_logo_spec _ Hok)] |].
  intros [] s1 [([Hs1 Efb Esf How Hpt] & Edisp & Hsh) [_ Hkeep1]]. cbn [fs_clk sc_display fs_fb sc_world fb_surface] in *.
  apply wp_on_display, wp_on_clk. eapply wp_mono; [apply (keeps_wp quiet_registers), lcd_backlight_spec; apply lcd_backlight_keeps |].
  intros [] k' [[Hk' Hlit] Hkeep2].
  cbn [fs_clk sc_display fs_fb sc_world]. split_and!; try done.
  - apply screen_ok_display; [done | | done]. by destruct (so_buffers _ Hs1).
  - apply (panel_shown_ext _ (regs (fs_clk (sc_display s1)))); [by intros; apply Hk' | by rewrite Hk' | | by apply Hsh].
    rewrite Hk' by done. by apply (ps_window0 dat), Hsh.
  - unfold displayed in *. cbn [fs_clk]. rewrite Hk', Edisp by done. unfold scr, dat. rewrite panel_surface_eq. exact Efr.
  - by apply Hlit.
  - destruct Hkeep1 as [Hkeep1 _], Hkeep2 as [Hkeep2 _]. unfold reg at 1.
    by rewrite Hkeep2, Hkeep1, <- Hdiv by done.
  - etrans; [exact Hkeep |]. eapply kept_weaken, (transitivity Hkeep1 Hkeep2). intros a. unfold quiet_registers. by intros ->.
Qed.


(** C4: [exynos4412_fb_initial] shows the panel named on the command line: the
    controller is programmed for it and displays the front buffer, the back
    light is on, and the screen is black with the logo blended over it in the
    middle if the allocator grants the memory for its structure, and without the
    logo if it does not.  The
    logo's structure is freed: the surfaces and the blocks of the heap in use are
    those of before, and no other byte was written. *)
Theorem exynos4412_fb_initial_correct s commandline fimd :
  let dat := fb_panel vram commandline in
  let scr := panel_surface dat in
  world_ok (sc_world s) → mapped (mem_of s) vram (2 * VRAM_SIZE) → mapped (mem_of s) logo_pixels 35200 →
  0 < fimd < 2 ^ 32 →
  clk_get_rate "fimd" (Some 0) (fs_clk (sc_display s)) = Some ((true, Some fimd), fs_clk (sc_display s)) →
  wp (exynos4412_fb_initial uninit vram logo_pixels commandline) (λ _ s',
    screen_ok s' ∧ fs_fb (sc_display s') = Fb scr dat ∧
    panel_shown dat (regs (fs_clk (sc_display s'))) ∧ displayed (sc_display s') = vram ∧
    lit (regs (fs_clk (sc_display s'))) ∧
    w_surfaces (sc_world s') = w_surfaces (sc_world s) ∧
    (∀ q k, owns (sc_world s') q k ↔ owns (sc_world s) q k) ∧
    painted (canvas_of scr) (mem_of s) (mem_of s') (in_rect (whole scr))
      (logo_px logo_pixels (mem_of s) scr (granted (w_heap (sc_world s)) SURFACE_SIZE))) s.
Proof using All.
  intros dat scr Hω Hm Hl Hf Hc. eapply wp_mono; [by eapply exynos4412_fb_initial_spec |].
  intros [] s' (? & ? & ? & ? & ? & ? & ? & ? & _). by split_and!.
Qed.
End with_logo.

Notation text_at scr percent := (cells (s_w scr - 72) (s_h scr - 48) (percent_text percent) 4).
Notation text_color scr percent :=
  (cell_color (s_w scr - 72) (s_h scr - 48) (white scr) (black scr) (percent_text percent)).

(** The surface of the bar: its pixels are in the heap. *)
Record bar_surface s p o : Prop := {
  bs_at : w_surfaces (sc_world s) !! p = Some o;
  bs_shape : screen_shape o;
  bs_wf : surface_wf o;
  bs_in : surface_in (mem_of s) o;
  bs_flag : needfree o;
  bs_w : s_w o = s_w (screen_at s) - 120;
  bs_h : s_h o = 18;
  bs_apart : surf_disjoint (screen_at s) o;
}.

Lemma show_progress_spec s p o percent :
  screen_ok s → bar_surface s p o → 0 ≤ percent ≤ 100 →
  let scr := screen_at s in
  let r := Rect 40 (s_h scr - 50) (bar_len scr percent) 12 in
  wp (show_progress scr p 40 (s_h scr - 50) (s_w scr - 120) 18 (white scr) (black scr) percent)
    (λ _ s', screen_ok s' ∧ sc_display s' = sc_display s ∧
       w_surfaces (sc_world s') = delete p (w_surfaces (sc_world s)) ∧
       (∀ q j, owns (sc_world s') q j ↔ owns (sc_world s) q j ∧ q ≠ p ∧ q ≠ s_pixels o) ∧
       ∃ m1 m2,
         painted (canvas_of o) (mem_of s) m1 (in_rect (whole o))
           (λ x y, px_enc o (if is_bar (s_w o) 18 (bar_len scr percent) x y then white scr else black scr)) ∧
         painted (canvas_of scr) m1 m2 (blit_area scr r o (whole o)) (λ x y, blit_source m1 o r (whole o) x y) ∧
         painted (canvas_of scr) m2 (mem_of s') (clipped scr (text_at scr percent))
           (λ x y, px_enc scr (text_color scr percent x y))) s.
Proof using uninit Hvram Hheap H0.
  intros Hs [Hat Hosh Howf Hoin Hfl How Hoh Hap] Hpc scr r. pose proof (screen_has_shape _ Hs) as Hshape.
  pose proof (screen_wf _ Hs) as Hwf. pose proof (screen_in _ Hs) as Hin. pose proof (screen_size _ Hs) as Hsz.
  fold scr in Hshape, Hwf, Hin, Hsz, How, Hap. destruct (percent_printed (mem_of s) percent Hpc) as (_ & Hlen & Hchars).
  assert (0 ≤ bar_len scr percent ≤ 2048) as Hn by (unfold bar_len; split; [apply Z.div_pos | apply Z.div_le_upper_bound]; nia).
  unfold show_progress. apply wp_bind, wp_on_world. eapply wp_get_surface; [exact Hat |].
  apply wp_bind, wp_on_pixels. eapply wp_mono.
  { rewrite <- How. apply draw_progress_spec; [done | done | done | rewrite How; lia | done | done]. }
  rewrite How. replace (s_w scr - 120 - 4) with (s_w scr - 124) by lia. fold (bar_len scr percent). intros rr m1 [-> P1]. cbn [rw rh]. fold r.
  pose proof (screen_ok_painted _ _ _ _ _ Hs P1) as Hs1.
  apply wp_bind, wp_on_pixels. eapply wp_mono.
  { apply copy_screen_spec; try done; [by eapply painted_surface_in | by eapply painted_surface_in |].
    unfold rect_small, r. cbn. lia. }
  intros ok m2 P2. pose proof (screen_ok_painted (set_mem s m1) _ _ _ _ Hs1 P2) as Hs2.
  apply wp_bind, wp_on_world. eapply wp_mono; [apply (surface_free_spec uninit _ p o); [apply (so_world _ Hs2) | exact Hat] |].
  intros [] ω (Hω & Em & Esf & Hown). pose proof (screen_ok_world _ _ Hs2 Hω Em) as Hs3.
  apply wp_on_pixels. unfold lcd_print. apply wp_bind.
  eapply wp_mono; [apply format_text_spec; [by apply percent_printed | by rewrite Hlen] |].
  intros text m3' [-> ->]. rewrite Hlen.
  rewrite (s32_small (40 + _)), !(s32_small (_ + _)), !u32_small by lia. eapply wp_mono.
  { apply lcd_textout_spec; [done | by rewrite (sh_maps _ Hshape) | apply (screen_in _ Hs3) | | lia | lia | lia | lia].
    eapply Forall_impl; [exact Hchars |]. cbn. lia. }
  intros [] m3 P3. pose proof (screen_ok_painted _ _ _ _ _ Hs3 P3) as Hs4. cbn [set_mem sc_world sc_display] in *.
  split_and!; [done | done | done | |].
  - intros q j. unfold owns in *. cbn [w_heap]. rewrite Hown. tauto.
  - exists m1, m2. split_and!; [exact P1 | exact P2 |]. rewrite Em in P3. cbn [w_mem] in P3 |- *.
    replace (s_w scr - 72) with (40 + (s_w scr - 120) + 8) by lia.
    replace (s_h scr - 48) with (s_h scr - 50 + 2) by lia. exact P3.
Qed.

(** The pixels of the screen after bar and text were painted. *)
Lemma progress_pixels s p o percent m1 m2 m3 :
  let scr := screen_at s in
  let r := Rect 40 (s_h scr - 50) (bar_len scr percent) 12 in
  screen_ok s → bar_surface s p o → 0 ≤ percent ≤ 100 →
  painted (canvas_of o) (mem_of s) m1 (in_rect (whole o))
    (λ x y, px_enc o (if is_bar (s_w o) 18 (bar_len scr percent) x y then white scr else black scr)) →
  painted (canvas_of scr) m1 m2 (blit_area scr r o (whole o)) (λ x y, blit_source m1 o r (whole o) x y) →
  painted (canvas_of scr) m2 m3 (clipped scr (text_at scr percent)) (λ x y, px_enc scr (text_color scr percent x y)) →
  (∀ x y, in_rect (whole scr) x y → px_bytes m3 (canvas_of scr) x y (progress_px (mem_of s) scr percent x y)) ∧
  (∀ a, ¬ (s_pixels scr ≤ a < s_pixels scr + s_h scr * s_pitch scr) →
        ¬ (s_pixels o ≤ a < s_pixels o + s_h o * s_pitch o) → m3 !! a = mem_of s !! a).
Proof using Hvram.
  intros scr r Hs [Hat Hosh Howf Hoin Hfl How Hoh Hap] Hpc P1 P2 P3.
  pose proof (screen_has_shape _ Hs) as Hshape. pose proof (screen_wf _ Hs) as Hwf. pose proof (screen_in _ Hs) as Hin.
  fold scr in Hshape, Hwf, Hin, How, Hap. pose proof (wf_canvas _ Hwf) as Hcv.
  assert (∀ x y, blit_area scr r o (whole o) x y ↔ in_rect (whole scr) x y ∧ in_rect (bar_rect scr) x y) as Hbar.
  { intros x y. unfold blit_area. rewrite (sh_clip _ Hshape). unfold in_rect, in_canvas. cbn. clear -How Hoh. lia. }
  assert (∀ x y, clipped scr (text_at scr percent) x y ↔ in_rect (whole scr) x y ∧ in_rect (text_rect scr) x y) as Htxt.
  { intros x y. unfold clipped. by rewrite (sh_clip _ Hshape), percent_cells. }
  assert (∀ x y, blit_area scr r o (whole o) x y → in_canvas (canvas_of scr) x y) as H2 by by intros x y [? _]%Hbar.
  assert (∀ x y, clipped scr (text_at scr percent) x y → in_canvas (canvas_of scr) x y) as H3 by by intros x y [? _]%Htxt.
  split.
  - intros x y Hxy. unfold progress_px. destruct (bool_decide_reflect (in_rect (text_rect scr) x y)) as [Ht|Ht].
    { apply (painted_in _ _ _ _ _ P3), Htxt. done. }
    apply (painted_other _ _ _ _ _ _ _ _ Hcv H3 P3 Hxy); [by intros [_ ?]%Htxt |].
    destruct (bool_decide_reflect (in_rect (bar_rect scr) x y)) as [Hb|Hb].
    + assert (in_rect (whole o) (x - 40) (y - (s_h scr - 50))) as Ho
        by (revert Hb; unfold in_rect; cbn; clear -How Hoh; lia).
      pose proof (painted_in _ _ _ _ _ P2 x y (proj2 (Hbar x y) (conj Hxy Hb))) as Hpx.
      unfold blit_source in Hpx. cbn [whole rx ry r] in Hpx. rewrite !Z.add_0_r in Hpx.
      rewrite (px_at_eq _ _ _ _ _ (painted_in _ _ _ _ _ P1 _ _ Ho)) in Hpx.
      rewrite How in Hpx. unfold px_enc in *. by rewrite (sh_info _ Hosh), <- (sh_info _ Hshape) in Hpx.
    + apply (painted_other _ _ _ _ _ _ _ _ Hcv H2 P2 Hxy); [by intros [_ ?]%Hbar |].
      eapply (painted_disjoint o scr); [done | done | | | exact P1 | done | by apply px_bytes_at].
      * destruct Hap; [by right | by left].
      * done.
  - intros a Ha Ho. rewrite (painted_outside _ _ _ _ _ _ Hwf H3 P3 Ha), (painted_outside _ _ _ _ _ _ Hwf H2 P2 Ha).
    by apply (painted_outside o _ _ (in_rect (whole o)) _ _ Howf ltac:(done) P1).
Qed.

Lemma screen_pitch w :
  0 ≤ w < 536870912 → surface_pitch (format_info PIXEL_FORMAT_ABGR_8888) w = 4 * w.
Proof using.
  intros Hw. destruct (surface_pitch_spec PIXEL_FORMAT_ABGR_8888 w) as [Hm Hp]; [done | lia |].
  change (bytes_per_pixel _) with 4 in Hp. apply Z.mod_divide in Hm as [k Hk]; [|done]. clear -Hk Hp. lia.
Qed.

(** The surface [surface_alloc] makes for the bar. *)
Lemma bar_gained s ω p px :
  let o := new_surface (s_w (screen_at s) - 120) 18 PIXEL_FORMAT_ABGR_8888 SURFACE_PIXELS_NEEDFREE px in
  screen_ok s → gains_surface (sc_world s) ω p o →
  screen_ok (ScreenState ω (sc_display s)) ∧ bar_surface (ScreenState ω (sc_display s)) p o.
Proof using Hvram Hheap H0.
  intros o Hs Hg. destruct (screen_size _ Hs) as [Hw Hh]. split.
  { apply screen_ok_grown; [done | apply (gs_ok _ _ _ _ Hg) |].
    intros a. by apply (filled_is_Some _ _ _ _ _ _ (gs_white _ _ _ _ Hg)). }
  split; cbn [sc_world sc_display]; try done; [..|].
  - rewrite (gs_at _ _ _ _ Hg). apply lookup_insert_eq.
  - split; cbn; done || lia.
  - apply (gs_wf _ _ _ _ Hg).
  - apply (gs_in _ _ _ _ Hg).
  - destruct (gs_owns _ _ _ _ Hg) as (k1 & k2 & _ & Hk2 & Ho).
    assert (owns ω (s_pixels o) k2) as Hpx by (apply Ho; auto).
    pose proof (owns_range_law _ _ _ (wo_heap _ (gs_ok _ _ _ _ Hg)) Hpx) as (_ & _ & _ & Hb & Ht).
    pose proof (screen_range s Hs). unfold surf_disjoint. lia.
Qed.

(** Nothing of the screen was written when the surface was made. *)
Lemma screen_kept s ω p o x y :
  screen_ok s → gains_surface (sc_world s) ω p o → surf_disjoint (screen_at s) o → in_rect (whole (screen_at s)) x y →
  px_at (w_mem ω) (canvas_of (screen_at s)) x y = px_at (mem_of s) (canvas_of (screen_at s)) x y.
Proof using Hvram.
  intros Hs Hg Hd Hxy. pose proof (screen_wf _ Hs) as Hwf. apply px_at_eq.
  destruct (px_bytes_at _ Hwf _ x y (screen_in _ Hs) Hxy) as [Hl Hb]. split; [done |].
  eapply has_bytes_agree; [|exact Hb]. intros a Ha. rewrite Hl in Ha.
  pose proof (px_addr_bounds _ _ _ (wf_canvas _ Hwf) Hxy) as Hbd. pose proof (wf_bpp _ Hwf).
  rewrite (gs_white _ _ _ _ Hg). rewrite decide_False; [done |].
  unfold surf_disjoint in Hd. cbn in *. lia.
Qed.

(** Freeing a new surface gives back what it took. *)
Lemma surface_returned (ω ω' : world S) p o :
  world_ok ω → gains_surface ω ω' p o →
  delete p (w_surfaces ω') = w_surfaces ω ∧
  ∀ q k, (owns ω' q k ∧ q ≠ p ∧ q ≠ s_pixels o) ↔ owns ω q k.
Proof using.
  intros Hok [_ Es Hfr Hfrx (k1 & k2 & _ & _ & Ho) _ _ _]. split.
  - rewrite Es. apply delete_insert_id. by eapply unowned_unused.
  - intros q k. rewrite Ho. split; [intros ([?|[[-> _]|[-> _]]] & ? & ?); done |].
    intros Hq. split_and!; [by left | intros ->; by eapply Hfr | intros ->; by eapply Hfrx].
Qed.

(** The pixels of a new surface are not in a block that was in use. *)
Lemma heap_byte_kept s ω p o a :
  gains_surface (sc_world s) ω p o →
  (alloc_base ≤ a < alloc_base + alloc_len → ∃ q k, owns (sc_world s) q k ∧ q ≤ a < q + k) →
  ¬ (s_pixels o ≤ a < s_pixels o + s_h o * s_pitch o).
Proof using H0.
  intros Hg Ha Hin. destruct (gs_owns _ _ _ _ Hg) as (k1 & k2 & _ & Hk2 & Ho).
  pose proof (wo_heap _ (gs_ok _ _ _ _ Hg)) as Hi. assert (owns ω (s_pixels o) k2) as Hpx by (apply Ho; auto).
  pose proof (owns_range_law _ _ _ Hi Hpx) as (_ & _ & _ & ? & ?).
  destruct Ha as (q & k & Hq & Hqa); [lia |]. assert (owns ω q k) as Hq' by (apply Ho; auto).
  destruct (owns_apart_law _ _ _ _ _ Hi Hpx Hq') as [[E _] | ?]; [|lia].
  rewrite <- E in Hq. by apply (gs_fresh_px _ _ _ _ Hg k).
Qed.

(** C5: [exynos4412_set_progress] draws the bar and the number: on the screen
    exactly the frame, the part of the bar that stands for [percent], black
    between them, and the text change.  Nothing leaks: the surfaces and the
    blocks of the heap in use are those of before, and no byte outside the
    screen changes but in heap memory that nobody owns.  That is so whenever the
    allocator grants the memory for the structure of the bar's surface; if it
    does not, nothing is drawn.  The one other outcome, undefined
    behaviour, is when the structure was allocated and its pixels cannot be. *)
Theorem exynos4412_set_progress_correct s percent :
  screen_ok s → 0 ≤ percent ≤ 100 →
  let scr := screen_at s in
  match exynos4412_set_progress uninit percent s with
  | Some (_, s') =>
      screen_ok s' ∧ sc_display s' = sc_display s ∧ w_surfaces (sc_world s') = w_surfaces (sc_world s) ∧
      (∀ q k, owns (sc_world s') q k ↔ owns (sc_world s) q k) ∧
      if granted (w_heap (sc_world s)) SURFACE_SIZE then
        (∀ x y, in_rect (whole scr) x y →
           px_bytes (mem_of s') (canvas_of scr) x y (progress_px (mem_of s) scr percent x y)) ∧
        (∀ a, ¬ (s_pixels scr ≤ a < s_pixels scr + s_h scr * s_pitch scr) →
           (alloc_base ≤ a < alloc_base + alloc_len → ∃ q k, owns (sc_world s) q k ∧ q ≤ a < q + k) →
           mem_of s' !! a = mem_of s !! a)
      else mem_of s' = mem_of s
  | None =>
      ∃ p h1 h2, alloc SURFACE_SIZE (w_heap (sc_world s)) = Some (p, h1) ∧ 0 < p ∧
        alloc (18 * (4 * (s_w scr - 120))) h1 = Some (0, h2)
  end.
Proof using uninit Hvram Hheap H0.
  intros Hs Hpc scr. destruct (screen_size _ Hs) as [Hw Hh]. fold scr in Hw, Hh.
  pose proof (surface_alloc_spec uninit (sc_world s) (s_w scr - 120) 18 PIXEL_FORMAT_ABGR_8888 (so_world _ Hs)
    ltac:(done) ltac:(lia) ltac:(lia)) as Ha. rewrite screen_pitch in Ha by lia.
  pose proof max_law as Hmax. specialize (Ha ltac:(lia)).
  unfold exynos4412_set_progress. rewrite (proj2 (Z.eqb_neq history percent)) by (unfold history; lia).
  assert (screen_surface s = Some (scr, s)) as E0 by by destruct s.
  unfold bind at 1. rewrite E0. clear E0. fold (white scr) (black scr).
  rewrite !(u32_small (_ - _)), !(s32_small (_ - _)), !(u32_small (_ - _)) by lia. change (u32 (8 + 10)) with 18.
  unfold bind at 1, on_world at 1.
  destruct (surface_alloc uninit 0 (s_w scr - 120) 18 PIXEL_FORMAT_ABGR_8888 (sc_world s)) as [[p ω]|]; [|exact Ha].
  unfold granted. destruct Ha as [(-> & -> & Hω & Em & Esf & How) | (Hp & px & h1 & -> & _ & Hg)].
  { cbn [Z.eqb]. unfold ret. cbn [sc_world sc_display negb]. split_and!; [by apply screen_ok_world | done..]. }
  rewrite (proj2 (Z.eqb_neq p 0)) by lia.
  destruct (bar_gained s ω p px Hs Hg) as [Hs1 Hbs].
  set (o := new_surface (s_w scr - 120) 18 PIXEL_FORMAT_ABGR_8888 SURFACE_PIXELS_NEEDFREE px) in *. fold scr in Hbs.
  destruct (wp_elim _ _ _ (show_progress_spec _ p o percent Hs1 Hbs Hpc)) as (u & s' & E & Hs' & Ed & Esf & How & m1 & m2 & P1 & P2 & P3).
  cbn [sc_display sc_world] in *. change (8 + 10) with 18. fold scr in E, P1, P2, P3. rewrite E.
  destruct (progress_pixels _ p o percent m1 m2 _ Hs1 Hbs Hpc P1 P2 P3) as [Hpx Hout]. cbn [sc_display sc_world] in Hpx, Hout. fold scr in Hpx, Hout.
  destruct (surface_returned _ _ _ _ (so_world _ Hs) Hg) as [Edel Hback].
  split_and!; [done | done | by rewrite Esf | intros q k; by rewrite How, Hback |]. cbn [negb]. split.
  - intros x y Hxy. specialize (Hpx x y Hxy). unfold progress_px in *.
    pose proof (screen_kept s ω p o x y Hs Hg (bs_apart _ _ _ Hbs) Hxy) as Ek. fold scr in Ek. by rewrite Ek in Hpx.
  - intros a Hscr Hheap'. pose proof (heap_byte_kept s ω p o a Hg Hheap') as Hno.
    rewrite (Hout a Hscr Hno). rewrite (gs_white _ _ _ _ Hg a). by rewrite decide_False.
Qed.

(** A message: the text, a blank for its terminating zero, and spaces, as far
    as the line goes. *)
Lemma exynos4412_set_messge_spec s fmt args text :
  let scr := screen_at s in
  screen_ok s → vsprintf (mem_of s) fmt args = Some (text, []) →
  Z.of_nat (length text) < 1024 → Forall (λ c, 0 ≤ c) text →
  wp (exynos4412_set_messge fmt args)
    (λ _ s', screen_ok s' ∧ s' = set_mem s (mem_of s') ∧
       painted (canvas_of scr) (mem_of s) (mem_of s')
         (clipped scr (cells 40 (s_h scr - 68) (message_buf text) ((s_w scr - 120) / 8)))
         (λ x y, px_enc scr (cell_color 40 (s_h scr - 68) (white scr) (black scr) (message_buf text) x y))) s.
Proof using Hvram.
  intros scr Hs Ev Hlen Htext. pose proof (screen_size _ Hs) as [Hw Hh]. fold scr in Hw, Hh.
  unfold exynos4412_set_messge. apply wp_bind, wp_screen_surface. fold scr (white scr) (black scr).
  apply wp_bind, wp_on_pixels. eapply wp_mono; [by apply format_text_spec |]. intros t m1 [-> ->]. apply wp_on_pixels.
  assert (0 ≤ (s_w scr - 120) / 8 ≤ 241) as Hc by (split; [apply Z.div_pos | apply Z.div_le_upper_bound]; lia).
  rewrite !(u32_small (s_h scr - 50)), !(u32_small (s_w scr - 120)), (s32_small (s_w scr - 120)) by lia.
  replace (s_h scr - 50 - 18) with (s_h scr - 68) by lia.
  rewrite (u32_small (s_h scr - 68)), s32_small, (u32_small (s_h scr - 68)), Z.quot_div_nonneg, (u32_small (_ / 8)) by lia.
  eapply wp_mono.
  { apply lcd_textout_spec; [by apply screen_wf | by unfold scr; rewrite (sh_maps _ (screen_has_shape _ Hs)) | exact (screen_in _ Hs) | | | lia | lia | lia].
    - unfold message_buf. apply Forall_app. split; [done |]. constructor; [done |]. by apply Forall_replicate.
    - unfold message_buf. rewrite length_app. cbn [length]. rewrite length_replicate. lia. }
  intros [] m2 Hp. split_and!; [by eapply (screen_ok_painted s) | by destruct s as [[] ?] | done].
Qed.
End correctness.

(** ** On the heap of [malloc.c] *)

#[local] Existing Instance example_layout.
#[local] Existing Instance example_layout_ok.

(** Heap, frame buffers and logo in one stretch of memory. *)
Definition example_vram : Z := 0xc6000000.
Definition example_logo : Z := 0xc8000000.
Definition example_state : screen_state heap_state :=
  ScreenState (World (zeros heap (Z.to_nat 0x5000000)) heap_init ∅)
    (FbState (Fb (screen_of 0 0 0) (vs070cxn example_vram)) example_fimd).

Lemma example_mapped q k :
  heap ≤ q → q + k ≤ heap + 0x5000000 → mapped (w_mem (sc_world example_state)) q k.
Proof.
  intros H1 H2. pose proof (zeros_mapped heap (Z.to_nat 0x5000000)) as Hz. rewrite Z2Nat.id in Hz by done.
  exact (mapped_sub _ _ _ q k Hz H1 H2).
Qed.

Lemma example_state_ok : world_ok (sc_world example_state).
Proof.
  split.
  4-7: intros; simplify_map_eq.
  - exists []. apply heap_init_inv.
  - apply zeros_ok.
  - by apply example_mapped.
Qed.

Lemma example_granted : granted (w_heap (sc_world example_state)) SURFACE_SIZE = true.
Proof. change (w_heap (sc_world example_state)) with heap_init. by vm_compute. Qed.

(** The empty heap has room: the panel shows the logo. *)
Lemma exynos4412_fb_initial_correct_witness :
  let scr := panel_surface (vga_1024_768 example_vram) in
  wp (exynos4412_fb_initial no_info example_vram example_logo "console=ttySAC2 lcd=vga-1024x768")
    (λ _ s', panel_shown (vga_1024_768 example_vram) (regs (fs_clk (sc_display s'))) ∧
       painted (canvas_of scr) (w_mem (sc_world example_state)) (w_mem (sc_world s')) (in_rect (whole scr))
         (logo_px example_logo (w_mem (sc_world example_state)) scr true)) example_state.
Proof.
  intros scr. eapply wp_mono.
  - apply (exynos4412_fb_initial_correct no_info example_vram example_logo) with (fimd := 800000000).
    + done.
    + right. done.
    + done.
    + left. done.
    + apply example_state_ok.
    + by apply example_mapped.
    + by apply example_mapped.
    + lia.
    + change (fs_clk (sc_display example_state)) with example_fimd. by vm_compute.
  - intros u s' (_ & _ & Hp & _ & _ & _ & _ & Hl). rewrite example_granted in Hl. split; [exact Hp | exact Hl].
Defined.

Definition example_shown : screen_state heap_state :=
  ScreenState (sc_world example_state)
    (FbState (Fb (panel_surface (fb_panel example_vram "")) (fb_panel example_vram "")) example_fimd).

(** Both blocks of the bar are granted. *)
Lemma example_bar_granted p h1 h2 :
  xmalloc SURFACE_SIZE heap_init = Some (p, h1) → xmalloc (18 * (4 * 904)) h1 = Some (0, h2) → False.
Proof.
  assert (negb (fst (default (0, heap_init) (bind (xmalloc SURFACE_SIZE) (λ _, xmalloc (18 * (4 * 904))) heap_init)) =? 0)
    = true) as E by by vm_compute.
  intros E1 E2. unfold bind in E. rewrite E1, E2 in E. done.
Qed.

Lemma exynos4412_set_progress_correct_witness :
  let scr := fb_surface (fs_fb (sc_display example_shown)) in
  ∃ u s', exynos4412_set_progress no_info 42 example_shown = Some (u, s') ∧ screen_ok example_vram s' ∧
    ∀ x y, in_rect (whole scr) x y →
      px_bytes (w_mem (sc_world s')) (canvas_of scr) x y (progress_px (w_mem (sc_world example_shown)) scr 42 x y).
Proof.
  intros scr. assert (Hs : screen_ok example_vram example_shown).
  { apply (panel_chosen_ok example_vram example_state); [apply example_state_ok | by apply example_mapped]. }
  pose proof (exynos4412_set_progress_correct no_info example_vram ltac:(done) ltac:(by right) example_shown 42 Hs ltac:(lia))
    as Hc. cbv zeta in Hc.
  change (w_heap (sc_world example_shown)) with (w_heap (sc_world example_state)) in Hc. rewrite example_granted in Hc.
  destruct (exynos4412_set_progress no_info 42 example_shown) as [[u s']|].
  - exists u, s'. split; [reflexivity |]. destruct Hc as (Hs' & _ & _ & _ & Hpx & _). split; [exact Hs' | exact Hpx].
  - destruct Hc as (p & h1 & h2 & E1 & _ & E2). exfalso. exact (example_bar_granted p h1 h2 E1 E2).
Defined.
