(* ===== verification/Board.v ===== *)
(** The board: [x4412.c].  Start-up of the frame buffer puts the clocks ([Clk])
    and the screen ([Screen]) together, with the PLL that the display clock comes
    from; late start-up adds the pins ([Gpio]) of the lamps and of the key that
    forces an update.  Shown are the panel with its refresh rate, the clock rates
    as they are reported and as they are, and the pins. *)

From stdpp Require Import prelude gmap strings.
From Stdlib Require Import ZArith Lia.
From S2P Require Import Prelude Prog Memory CString Rect Pixel Surface Canvas Blit Malloc Heap HeapOps Allocator SurfaceAlloc.
From S2P Require Import Clk Fb Frame Screen Gpio.

Local Open Scope Z_scope.
Local Open Scope word_scope.

(** ** The PLL of the display clock *)

(** The PLL locks: it sets bit 29 of its register. *)
Definition mpll_locks : prog clk_state unit :=
  let* r := readl EXYNOS4412_MPLL_CON0 in writel EXYNOS4412_MPLL_CON0 (Z.lor r (Z.shiftl 0x1 29)).

(** [while((readl(...) & (0x1 << 29)) != (0x1 << 29));], for a PLL that locks
    after [delay] rounds. *)
Fixpoint wait_lock (delay : nat) : prog clk_state unit :=
  (match delay with O => mpll_locks | S _ => ret tt end) ;;
  let* r := readl (0x10040000 + 0x0108) in
  if Z.land r (Z.shiftl 0x1 29) =? Z.shiftl 0x1 29 then ret tt
  else match delay with O => fault | S delay' => wait_lock delay' end.

Definition x4412_set_mpll (delay : nat) (mdiv pdiv sdiv : Z) : prog clk_state unit :=
  let mpll_con0 := Z.lor (Z.lor (Z.lor (Z.shiftl 1 31) (u32 (Z.shiftl mdiv 16))) (u32 (Z.shiftl pdiv 8))) sdiv in
  writel (0x10040000 + 0x0108) mpll_con0 ;;
  wait_lock delay.

(** ** Start-up of the frame buffer *)

(** The part of [x4412_framebuffer_init] that sets the clock of the display. *)
Definition set_display_clock (delay : nat) (commandline : string) : prog clk_state unit :=
  if strstr commandline "lcd=vga-1024x768" then
    x4412_set_mpll delay 195 6 0 ;;
    exynos4412_fix_fimd (780 * 1000 * 1000)
  else if strstr commandline "lcd=vga-1440x900" then
    x4412_set_mpll delay 100 3 0 ;;
    exynos4412_fix_fimd (800 * 1000 * 1000)
  else if strstr commandline "lcd=vga-1280x1024" then
    x4412_set_mpll delay 100 3 0 ;;
    exynos4412_fix_fimd (800 * 1000 * 1000)
  else
    exynos4412_fix_fimd (800 * 1000 * 1000).

Section code.
Context {S : Type} `{Allocator S}.
Context (uninit : pixel_info) (vram logo_pixels : Z) (delay : nat).

Definition on_clocks {A} (c : prog clk_state A) : prog (screen_state S) A := on_display (on_clk c).

(** [commandline] is the result of [getenv], null if the variable is not set. *)
Definition x4412_framebuffer_init (commandline : option string) : prog (screen_state S) unit :=
  on_clocks exynos4412_clk_initial ;;
  match commandline with
  | None => fault
  | Some commandline =>
      on_clocks (set_display_clock delay commandline) ;;
      exynos4412_fb_initial uninit vram logo_pixels commandline
  end.

(** ** Late start-up *)

Record board_state := BoardState {
  bs_screen : screen_state S;
  bs_pBase : Z;
  force_update_flag : Z;
}.

Definition on_screen {A} (c : prog (screen_state S) A) : prog board_state A := λ b,
  match c (bs_screen b) with
  | Some (x, s) => Some (x, BoardState s (bs_pBase b) (force_update_flag b))
  | None => None
  end.

Definition on_gpio {A} (c : prog gpio_state A) : prog board_state A := λ b,
  let d := sc_display (bs_screen b) in
  match c (GpioState (bs_pBase b) (fs_clk d)) with
  | Some (x, g) =>
      Some (x, BoardState (ScreenState (sc_world (bs_screen b)) (FbState (fs_fb d) (gpio_io g)))
                 (GPIO_pBase g) (force_update_flag b))
  | None => None
  end.

Definition set_force_update_flag (v : Z) : prog board_state unit := λ b,
  Some (tt, BoardState (bs_screen b) (bs_pBase b) v).

Definition led_init : prog gpio_state unit :=
  GPIO_SetFunctionEach eGPIO_X1 6 1 ;;
  GPIO_SetFunctionEach eGPIO_X1 7 1 ;;
  GPIO_SetFunctionEach eGPIO_X2 6 1 ;;
  GPIO_SetFunctionEach eGPIO_X2 7 1 ;;
  GPIO_SetDataEach eGPIO_X1 6 1 ;;
  GPIO_SetDataEach eGPIO_X1 7 0 ;;
  GPIO_SetDataEach eGPIO_X2 6 1 ;;
  GPIO_SetDataEach eGPIO_X2 7 0.

Definition board_late_init (commandline : option string) : prog board_state Z :=
  on_screen (x4412_framebuffer_init commandline) ;;
  on_gpio GPIO_Init ;;
  on_gpio led_init ;;
  on_gpio (GPIO_SetFunctionEach eGPIO_X1 0 0) ;;
  on_gpio (GPIO_SetPullUpDownEach eGPIO_X1 0 0) ;;
  let* key := on_gpio (GPIO_GetDataEach eGPIO_X1 0) in
  (if key =? 0 then set_force_update_flag 1 else ret tt) ;;
  ret 0.
End code.
Arguments board_state : clear implicits.
Arguments BoardState {S}.
Arguments bs_screen {S}.
Arguments bs_pBase {S}.
Arguments force_update_flag {S}.

(** ** The clocks *)

(** The rate of the display clock for a panel. *)
Definition fimd_rate (commandline : string) : Z :=
  if strstr commandline "lcd=vga-1024x768" then 780000000 else 800000000.

(** The panel is a monitor. *)
Definition monitor (commandline : string) : bool :=
  if strstr commandline "lcd=vga-1024x768" then true
  else if strstr commandline "lcd=vga-1440x900" then true
  else if strstr commandline "lcd=vga-1280x1024" then true else false.

Lemma wait_lock_spec delay v s :
  u32 (regs s EXYNOS4412_MPLL_CON0) = v → Z.testbit v 29 = false →
  wp (wait_lock delay) (λ _ s', written s s' EXYNOS4412_MPLL_CON0 (Z.lor v (Z.shiftl 1 29))) s.
Proof.
  intros Ev Hv. induction delay as [|delay IH]; cbn [wait_lock]; unfold mpll_locks; run.
  - rewrite (proj1 W). change (0x10040000 + 0x0108 =? EXYNOS4412_MPLL_CON0) with true. cbn iota.
    rewrite Ev in *. rewrite u32_idemp.
    assert (Z.land (u32 (Z.lor v (Z.shiftl 1 29))) (Z.shiftl 1 29) = Z.shiftl 1 29) as ->; [| by rewrite Z.eqb_refl; apply wp_ret].
    apply Z.bits_inj'. intros i Hi. rewrite Z.shiftl_1_l, Z.land_spec, Z.pow2_bits_eqb by done.
    destruct (Z.eqb_spec 29 i) as [<- |]; [| apply andb_false_r]. bit_at.
    by rewrite Z.pow2_bits_true, orb_true_r.
  - change (0x10040000 + 0x0108) with (clk_address EXYNOS4412_MPLL_CON0). rewrite Ev.
    assert (Z.land v (Z.shiftl 1 29) = 0) as ->; [| done].
    pose proof (has_bit v 29 ltac:(done)) as Hb. rewrite Hv in Hb. by apply negb_false_iff, Z.eqb_eq in Hb.
Qed.

Lemma set_mpll_spec delay mdiv pdiv sdiv v s :
  v = Z.lor (Z.lor (Z.lor (Z.shiftl 1 31) (u32 (Z.shiftl mdiv 16))) (u32 (Z.shiftl pdiv 8))) sdiv →
  0 ≤ v < 4294967296 → Z.testbit v 29 = false →
  wp (x4412_set_mpll delay mdiv pdiv sdiv)
    (λ _ s', written s s' EXYNOS4412_MPLL_CON0 (Z.lor v (Z.shiftl 1 29))) s.
Proof.
  intros -> Hv H29. unfold x4412_set_mpll. run. eapply wp_mono.
  - eapply wait_lock_spec; [| exact H29]. rewrite (proj1 W).
    change (EXYNOS4412_MPLL_CON0 =? 0x10040000 + 0x0108) with true. cbn iota. by rewrite u32_idemp, u32_small.
  - intros [] s' [HR HC]. split; [| by rewrite HC; apply W]. intros b. rewrite HR.
    destruct (Z.eqb_spec b EXYNOS4412_MPLL_CON0); [done |]. rewrite (proj1 W).
    destruct (Z.eqb_spec b (0x10040000 + 0x0108)); [done |]. done.
Qed.

(** The registers after [exynos4412_clk_initial]: the display clock comes from
    the PLL without a divider. *)
Lemma clk_initial_run s :
  plls_ok (regs s) → length (exynos4412_clocks s) = 13%nat →
  wp exynos4412_clk_initial (λ _ s',
    exynos4412_clocks s' = table_entry <$> computed_table (regs s) 24000000 ∧
    bits (regs s' EXYNOS4412_CLK_SRC_LCD) 0 4 = 6 ∧ bits (regs s' EXYNOS4412_CLK_DIV_LCD) 0 4 = 0 ∧
    ∀ a : Z, a ≠ EXYNOS4412_CLK_SRC_LCD → a ≠ EXYNOS4412_CLK_DIV_LCD → regs s' a = regs s a) s.
Proof.
  intros Hp Hl. pose proof (clk_initial_spec s Hp Hl) as Hspec. revert Hspec.
  unfold wp, exynos4412_clk_initial, bind at 1 2 3 4 5 6 7 8, readl, writel.
  cbn [regs exynos4412_clocks]. rewrite setup_clocks_spec; [| lia | | done].
  2:{ intros pll. specialize (Hp pll). by destruct pll. }
  cbn [regs exynos4412_clocks]. intros ->.
  change (EXYNOS4412_CLK_SRC_LCD =? EXYNOS4412_CLK_DIV_LCD) with false.
  change (EXYNOS4412_CLK_DIV_LCD =? EXYNOS4412_CLK_SRC_LCD) with false. rewrite !Z.eqb_refl. cbn iota.
  split_and!; [done | | |].
  - transitivity (bits 6 0 4); [bits_eq | done].
  - transitivity (bits 0 0 4); [bits_eq | done].
  - intros a H1 H2. by rewrite (proj2 (Z.eqb_neq a EXYNOS4412_CLK_DIV_LCD)), (proj2 (Z.eqb_neq a EXYNOS4412_CLK_SRC_LCD)).
Qed.

(** The rates in the table with a display clock of [fimd]. *)
Lemma fix_fimd_spec fimd R s :
  exynos4412_clocks s = table_entry <$> computed_table R 24000000 →
  wp (exynos4412_fix_fimd fimd) (λ _ s', regs s' = regs s ∧
    ∀ nm rt, c_string nm = true →
      clk_get_rate nm (Some rt) s' = Some (match lookup_clock (<[11%nat := ("fimd", fimd)]> (computed_table R 24000000)) nm with
        | Some r => (true, Some r) | None => (false, Some rt) end, s')) s.
Proof.
  intros Hc. unfold wp, exynos4412_fix_fimd. rewrite Hc. cbn -[computed_table]. split; [done |].
  intros nm rt Hn. unfold clk_get_rate, bind, get_state. cbn [exynos4412_clocks].
  erewrite <- (find_rate_spec (<[11%nat:=("fimd", fimd)]> (computed_table R 24000000))); [done | done |].
  unfold computed_table, rate_table. repeat constructor.
Qed.

(** The rates that clients get after [set_display_clock]. *)
Definition rates (R : Z → Z) (fimd : Z) (s : clk_state) : Prop :=
  ∀ nm rt, c_string nm = true →
    clk_get_rate nm (Some rt) s =
      Some (match (if decide (nm = "fimd") then Some fimd
                   else lookup_clock (computed_table R 24000000) nm) with
            | Some r => (true, Some r) | None => (false, Some rt) end, s).

Lemma lookup_fimd R fimd nm :
  lookup_clock (<[11%nat := ("fimd", fimd)]> (computed_table R 24000000)) nm =
  if decide (nm = "fimd") then Some fimd else lookup_clock (computed_table R 24000000) nm.
Proof.
  unfold computed_table, rate_table. cbn [insert list_insert lookup_clock]. repeat case_decide; subst; done.
Qed.

Lemma fix_fimd_rates fimd R s :
  exynos4412_clocks s = table_entry <$> computed_table R 24000000 →
  wp (exynos4412_fix_fimd fimd) (λ _ s', regs s' = regs s ∧ rates R fimd s') s.
Proof.
  intros Hc. eapply wp_mono; [by apply (fix_fimd_spec _ R) |]. intros [] s' [ER Htable].
  split; [done |]. intros nm rt Hn. by rewrite Htable, lookup_fimd.
Qed.

(** A PLL register [v] for which the PLL gives [fimd]. *)
Lemma set_mpll_fimd delay fimd m p v R s :
  exynos4412_clocks s = table_entry <$> computed_table R 24000000 →
  v = Z.lor (Z.lor (Z.lor (Z.shiftl 1 31) (u32 (Z.shiftl m 16))) (u32 (Z.shiftl p 8))) 0 →
  0 ≤ v < 4294967296 → Z.testbit v 29 = false →
  (∀ s', u32 (regs s' EXYNOS4412_MPLL_CON0) = u32 (Z.lor v (Z.shiftl 1 29)) →
     gives s' (exynos4412_get_pll_clk 24000000 EXYNOS4412_MPLL) fimd) →
  wp (x4412_set_mpll delay m p 0 ;; exynos4412_fix_fimd fimd) (λ _ s',
    rates R fimd s' ∧ (∀ a : Z, a ≠ EXYNOS4412_MPLL_CON0 → regs s' a = regs s a) ∧
    gives s' (exynos4412_get_pll_clk 24000000 EXYNOS4412_MPLL) fimd) s.
Proof.
  intros Hc Ev Hv H29 Hrate. apply wp_bind. eapply wp_mono; [by apply (set_mpll_spec _ _ _ _ v) |].
  intros [] s1 [HR HC]. eapply wp_mono; [apply (fix_fimd_rates _ R); congruence |].
  intros [] s2 [ER Hrates]. split_and!; [done | |].
  - intros a Ha. rewrite ER, HR. by rewrite (proj2 (Z.eqb_neq _ _)).
  - apply Hrate. by rewrite ER, HR, Z.eqb_refl, u32_idemp.
Qed.

Lemma set_display_clock_spec delay commandline R s :
  exynos4412_clocks s = table_entry <$> computed_table R 24000000 →
  wp (set_display_clock delay commandline) (λ _ s',
    rates R (fimd_rate commandline) s' ∧ (∀ a : Z, a ≠ EXYNOS4412_MPLL_CON0 → regs s' a = regs s a) ∧
    (monitor commandline = true →
       gives s' (exynos4412_get_pll_clk 24000000 EXYNOS4412_MPLL) (fimd_rate commandline))) s.
Proof.
  intros Hc. unfold set_display_clock, monitor, fimd_rate.
  assert (∀ m p fimd s', u32 (regs s' EXYNOS4412_MPLL_CON0) = u32 (Z.lor (Z.lor (Z.lor (Z.lor (Z.shiftl 1 31)
      (u32 (Z.shiftl m 16))) (u32 (Z.shiftl p 8))) 0) (Z.shiftl 1 29)) →
    (m, p, fimd) ∈ [(195, 6, 780000000); (100, 3, 800000000)] →
    gives s' (exynos4412_get_pll_clk 24000000 EXYNOS4412_MPLL) fimd) as Hrate.
  { intros m p fimd s' E Hin. unfold gives, exynos4412_get_pll_clk, bind, readl. rewrite E.
    rewrite !elem_of_cons, elem_of_nil in Hin. destruct_or! Hin; try done; injection Hin as -> -> ->; by vm_compute. }
  destruct (strstr commandline "lcd=vga-1024x768"), (strstr commandline "lcd=vga-1440x900"),
    (strstr commandline "lcd=vga-1280x1024"); (eapply wp_mono; [
    first [ eapply (set_mpll_fimd delay 780000000 195 6 _ R); [done | done | by vm_compute | by vm_compute |];
            intros s' E; apply (Hrate _ _ _ _ E); by left
          | eapply (set_mpll_fimd delay 800000000 100 3 _ R); [done | done | by vm_compute | by vm_compute |];
            intros s' E; apply (Hrate _ _ _ _ E); right; by left
          | by apply (fix_fimd_rates _ R) ] |]).
  all: intros [] s'; cbn beta.
  all: first [ by intros (? & ? & ?) | intros [ER ?]; by split_and!; [| intros; rewrite ER |] ].
Qed.

(** ** Lamps and key *)

Notation X1CON := (port_address eGPIO_X1 0).
Notation X1DAT := (port_address eGPIO_X1 1).
Notation X1PUD := (port_address eGPIO_X1 2).
Notation X2CON := (port_address eGPIO_X2 0).
Notation X2DAT := (port_address eGPIO_X2 1).

(** Pins 6 and 7 of the two ports are outputs, the first high and the second low. *)
Definition lamps (R : Z → Z) : Prop :=
  (bits (R X1CON) 24 4 = 1 ∧ bits (R X1CON) 28 4 = 1 ∧ bits (R X2CON) 24 4 = 1 ∧ bits (R X2CON) 28 4 = 1) ∧
  (bits (R X1DAT) 6 1 = 1 ∧ bits (R X1DAT) 7 1 = 0 ∧ bits (R X2DAT) 6 1 = 1 ∧ bits (R X2DAT) 7 1 = 0).

(** Goes back over the write of another pin. *)
Ltac over H :=
  rewrite (field_set_keeps _ _ _ _ _ _ _ _ _ H);
  [| lia | lia | lia | first [ intros _; unfold apart; lia | let E := fresh in intros E; by vm_compute in E ]].

(** Sets a field of [w] bits in register [k] of a port. *)
Ltac pin k w := apply (wp_set_port _ k _ _ _ w); [cbn [GPIO_pBase] in *; congruence | lia | done | lia.. |].

Lemma led_init_spec s :
  GPIO_pBase s = GPIO_BASE →
  wp led_init (λ _ s', GPIO_pBase s' = GPIO_BASE ∧ exynos4412_clocks (gpio_io s') = exynos4412_clocks (gpio_io s) ∧
    lamps (gregs s') ∧ bits (gregs s' X1DAT) 0 1 = bits (gregs s X1DAT) 0 1 ∧
    ∀ a, a ∉ [X1CON; X1DAT; X2CON; X2DAT] → gregs s' a = gregs s a) s.
Proof.
  intros Hb. unfold led_init.
  apply wp_bind; pin 0 4. intros s1 (B1 & C1 & R1).
  apply wp_bind; pin 0 4. intros s2 (B2 & C2 & R2).
  apply wp_bind; pin 0 4. intros s3 (B3 & C3 & R3).
  apply wp_bind; pin 0 4. intros s4 (B4 & C4 & R4).
  apply wp_bind; pin 1 1. intros s5 (B5 & C5 & R5).
  apply wp_bind; pin 1 1. intros s6 (B6 & C6 & R6).
  apply wp_bind; pin 1 1. intros s7 (B7 & C7 & R7).
  pin 1 1. intros s8 (B8 & C8 & R8).
  split_and!; [congruence | congruence | split_and! | |].
  - over R8. over R7. over R6. over R5. over R4. over R3. over R2. apply R1.
  - over R8. over R7. over R6. over R5. over R4. over R3. apply R2.
  - over R8. over R7. over R6. over R5. over R4. apply R3.
  - over R8. over R7. over R6. over R5. apply R4.
  - over R8. over R7. over R6. apply R5.
  - over R8. over R7. apply R6.
  - over R8. apply R7.
  - apply R8.
  - over R8. over R7. over R6. over R5. over R4. over R3. over R2. by over R1.
  - intros a Ha. rewrite !not_elem_of_cons in Ha. destruct Ha as (? & ? & ? & ? & _).
    by rewrite (fs_others _ _ _ _ _ _ R8), (fs_others _ _ _ _ _ _ R7), (fs_others _ _ _ _ _ _ R6),
      (fs_others _ _ _ _ _ _ R5), (fs_others _ _ _ _ _ _ R4), (fs_others _ _ _ _ _ _ R3),
      (fs_others _ _ _ _ _ _ R2), (fs_others _ _ _ _ _ _ R1).
Qed.

(** ** Start-up *)

Section correctness.
Context {S : Type} `{AllocatorLaws S}.
Context (uninit : pixel_info) (vram logo_pixels : Z).
Hypothesis Hvram : 0 < vram ∧ vram + 2 * VRAM_SIZE < 2 ^ 32.
Hypothesis Hheap : vram + 2 * VRAM_SIZE ≤ alloc_base ∨ alloc_base + alloc_len ≤ vram.
Hypothesis Hlogo : 0 < logo_pixels ∧ logo_pixels + 35200 < 4294967296.
Hypothesis Hapart : vram + 2 * VRAM_SIZE ≤ logo_pixels ∨ logo_pixels + 35200 ≤ vram.

Notation clk_of s := (fs_clk (sc_display s)).

(** What [x4412_framebuffer_init] needs. *)
Record startable (s : screen_state S) : Prop := {
  st_plls : plls_ok (regs (clk_of s));
  st_clocks : length (exynos4412_clocks (clk_of s)) = 13%nat;
  st_world : world_ok (sc_world s);
  st_vram : mapped (w_mem (sc_world s)) vram (2 * VRAM_SIZE);
  st_logo : mapped (w_mem (sc_world s)) logo_pixels 35200;
}.

(** The field with the divider of the dot clock. *)
Definition CLKVAL (R : Z → Z) : Z := bits (reg R VIDCON0) 6 8.

(** The dots of a frame. *)
Definition frame_dots (dat : exynos4412_fb_data_t) : Z :=
  let t := timing dat in
  (h_fp t + h_bp t + h_sw t + d_width dat) * (v_fp t + v_bp t + v_sw t + d_height dat).

(** The display after start-up. *)
Record shows (commandline : string) (s' : screen_state S) : Prop := {
  sh_screen : screen_ok vram s';
  sh_fb : fs_fb (sc_display s') = Fb (panel_surface (fb_panel vram commandline)) (fb_panel vram commandline);
  sh_panel : panel_shown (fb_panel vram commandline) (regs (clk_of s'));
  sh_displayed : displayed (sc_display s') = vram;
  sh_lit : lit (regs (clk_of s'));
}.

(** The screen is black with the logo in the middle, if the allocator grants the
    memory for the structure of the logo, and no other byte has changed. *)
Definition logo_shown (commandline : string) (s s' : screen_state S) : Prop :=
  let scr := panel_surface (fb_panel vram commandline) in
  painted (canvas_of scr) (w_mem (sc_world s)) (w_mem (sc_world s')) (in_rect (whole scr))
    (logo_px logo_pixels (w_mem (sc_world s)) scr (granted (w_heap (sc_world s)) SURFACE_SIZE)).

(** The clocks after start-up: the rate of the display clock in the table is the
    one it has, if the PLL was set; the other rates in the table are those of
    before. *)
Record clocked (commandline : string) (s s' : screen_state S) : Prop := {
  ck_source : bits (regs (clk_of s') EXYNOS4412_CLK_SRC_LCD) 0 4 = 6 ∧
    bits (regs (clk_of s') EXYNOS4412_CLK_DIV_LCD) 0 4 = 0;
  ck_mpll : monitor commandline = true →
    gives (clk_of s') (exynos4412_get_pll_clk 24000000 EXYNOS4412_MPLL) (fimd_rate commandline);
  ck_rates : rates (regs (clk_of s)) (fimd_rate commandline) (clk_of s');
  ck_refresh : CLKVAL (regs (clk_of s)) = 0 →
    let dots := (CLKVAL (regs (clk_of s')) + 1) * frame_dots (fb_panel vram commandline) in
    55 * dots ≤ fimd_rate commandline ≤ 60 * dots;
}.

(** Each panel is refreshed between 55 and 60 times a second. *)
Lemma panel_refresh commandline :
  let dat := fb_panel vram commandline in
  let d := clock_divider dat (fimd_rate commandline) in
  1 ≤ d ≤ 256 ∧ 55 * (d * frame_dots dat) ≤ fimd_rate commandline ≤ 60 * (d * frame_dots dat).
Proof using. cbn zeta. unfold fb_panel, fimd_rate. repeat case_match; vm_compute; split_and!; done. Qed.

Lemma wp_on_clocks {A} (c : prog clk_state A) (Q : A → screen_state S → Prop) s :
  wp c (λ x k, Q x (ScreenState (sc_world s) (FbState (fs_fb (sc_display s)) k))) (clk_of s) →
  wp (on_clocks c) Q s.
Proof using. intros Hc. by apply wp_on_display, wp_on_clk. Qed.

Lemma x4412_framebuffer_init_spec delay commandline s :
  startable s →
  wp (x4412_framebuffer_init uninit vram logo_pixels delay (Some commandline)) (λ _ s',
    shows commandline s' ∧ clocked commandline s s' ∧
    w_surfaces (sc_world s') = w_surfaces (sc_world s) ∧
    (∀ q k, owns (sc_world s') q k ↔ owns (sc_world s) q k) ∧
    logo_shown commandline s s' ∧
    regs (clk_of s') X1DAT = regs (clk_of s) X1DAT) s.
Proof using All.
  intros [Hplls Hlen Hω Hm Hl]. unfold x4412_framebuffer_init.
  apply wp_bind, wp_on_clocks. eapply wp_mono; [by apply clk_initial_run |].
  intros [] k1 (Hclocks & Hsrc & Hdiv & Hk1).
  apply wp_bind, wp_on_clocks. eapply wp_mono; [by apply set_display_clock_spec |].
  intros [] k2 (Hrates & Hk2 & Hmpll). cbn [sc_display fs_clk fs_fb sc_world] in *.
  eapply wp_mono.
  { apply (exynos4412_fb_initial_spec uninit vram logo_pixels Hvram Hheap Hlogo Hapart) with (fimd := fimd_rate commandline);
      [done | done | done | unfold fimd_rate; by destruct (strstr _ _) | by apply (Hrates "fimd")]. }
  intros [] s' (Hscr & Hfb & Hp & Hd & Hlit & Hsf & How & Hpaint & Hclk & Hkept).
  cbn [sc_display fs_clk fs_fb sc_world] in *. split_and!; [by split | | done | done | done | by rewrite (proj1 Hkept), Hk2, Hk1].
  destruct Hkept as [Hkr Hkc].
  assert (∀ r : clk_register, regs (clk_of s') r = regs k2 r) as Hr by (intros r; apply Hkr, clk_address_block).
  split.
  - rewrite !Hr, !Hk2 by done. done.
  - intros Hmon. specialize (Hmpll Hmon). revert Hmpll. unfold gives, exynos4412_get_pll_clk, bind, readl.
    rewrite Hr. unfold div64. destruct (_ =? 0); [done |]. intros E. injection E as E. unfold ret. do 2 f_equal. exact E.
  - intros nm rt Hn. by apply (clk_get_rate_same _ _ _ k2), Hrates.
  - intros Hz. destruct (panel_refresh commandline) as [Hd1 Hd2]. unfold CLKVAL in *.
    rewrite Hclk. unfold reg. rewrite Hk2, Hk1 by done. unfold reg in Hz. rewrite Hz, Z.lor_0_l, bits_small by lia.
    by rewrite Z.sub_add.
Qed.

(** The registers that the lamps and the key do not use. *)
Definition not_pins (a : Z) : Prop := a ∉ [X1CON; X1DAT; X1PUD; X2CON; X2DAT].

Lemma shows_ext commandline s k :
  shows commandline s → (∀ a, not_pins a → regs k a = regs (clk_of s) a) →
  shows commandline (ScreenState (sc_world s) (FbState (fs_fb (sc_display s)) k)).
Proof using.
  intros [Hscr Hfb Hp Hd Hlit] Hk.
  assert (∀ r, 0 ≤ r → reg (regs k) r = reg (regs (clk_of s)) r) as Hreg.
  { intros r Hr. apply Hk. unfold not_pins, port_address, GPIO_BASE, EXYNOS4412_LCD_BASE.
    rewrite !not_elem_of_cons. cbn. split_and!; try lia. apply not_elem_of_nil. }
  split; cbn [sc_display fs_clk fs_fb sc_world]; [| done | | |].
  - apply screen_ok_display; [done | | done]. by destruct (so_buffers _ _ Hscr).
  - apply (panel_shown_ext _ (regs (clk_of s))); [by intros; apply Hreg | by rewrite Hreg | | done].
    rewrite Hreg by done. by apply (ps_window0 _ _ Hp).
  - unfold displayed in *. cbn [fs_clk]. by rewrite Hreg.
  - destruct Hlit as [L1 L2]. split; rewrite Hk; try done; by apply (bool_decide_unpack _); vm_compute.
Qed.

Lemma wp_on_gpio {A} (c : prog gpio_state A) (Q : A → board_state S → Prop) b :
  wp c (λ x g, Q x (BoardState (ScreenState (sc_world (bs_screen b))
         (FbState (fs_fb (sc_display (bs_screen b))) (gpio_io g))) (GPIO_pBase g) (force_update_flag b)))
    (GpioState (bs_pBase b) (clk_of (bs_screen b))) →
  wp (on_gpio c) Q b.
Proof using. unfold wp, on_gpio. by destruct (c _) as [[x g] |]. Qed.

Ltac on_pins :=
  apply wp_bind, wp_on_gpio; cbn [gpio_io GPIO_pBase bs_screen bs_pBase force_update_flag sc_display fs_clk fs_fb sc_world].


(** C8: [board_late_init] shows the panel, switches the first lamp of each pair on
    and the second off, makes the pin of the key an input without a resistor and
    asks for an update exactly if the key is pressed. *)
Theorem board_late_init_correct delay commandline b :
  startable (bs_screen b) →
  wp (board_late_init uninit vram logo_pixels delay (Some commandline)) (λ r b',
    let R' := regs (clk_of (bs_screen b')) in
    r = 0 ∧ shows commandline (bs_screen b') ∧ bs_pBase b' = GPIO_BASE ∧ lamps R' ∧
    bits (R' X1CON) 0 4 = 0 ∧ bits (R' X1PUD) 0 2 = 0 ∧
    force_update_flag b' =
      if bits (regs (clk_of (bs_screen b)) X1DAT) 0 1 =? 0 then 1 else force_update_flag b) b.
Proof using All.
  intros Hs. unfold board_late_init. apply wp_bind. unfold wp at 1, on_screen.
  pose proof (x4412_framebuffer_init_spec delay commandline (bs_screen b) Hs) as Hfb. unfold wp in Hfb.
  destruct (x4412_framebuffer_init _ _ _ _ _ _) as [[[] s1] |]; [| done]. destruct Hfb as (Hsh & _ & _ & _ & _ & Hkey).
  on_pins. unfold wp at 1, GPIO_Init.
  on_pins. eapply wp_mono; [by apply led_init_spec |]. intros [] g2 (B2 & C2 & L2 & K2 & R2).
  on_pins. pin 0 4. intros g3 (B3 & C3 & R3).
  on_pins. pin 2 2. intros g4 (B4 & C4 & R4).
  on_pins. unfold gregs in *. cbn [gpio_io GPIO_pBase] in *.
  assert (lamps (regs (gpio_io g4))) as L4.
  { destruct L2 as ((? & ? & ? & ?) & ? & ? & ? & ?). split_and!; over R4; by over R3. }
  eapply (wp_get_pin _ _ (bits (regs (clk_of (bs_screen b)) X1DAT) 0 1)); cbn [GPIO_pBase]; [congruence | lia | |].
  { unfold gregs. cbn [gpio_io]. over R4. over R3. by rewrite K2, Hkey. }
  cbn [gpio_io GPIO_pBase].
  assert (shows commandline (ScreenState (sc_world s1) (FbState (fs_fb (sc_display s1)) (gpio_io g4)))) as Hsh4.
  { apply shows_ext; [done |]. intros a Ha. unfold not_pins in Ha. rewrite !not_elem_of_cons in Ha.
    destruct Ha as (? & ? & ? & ? & ? & _). rewrite (fs_others _ _ _ _ _ _ R4), (fs_others _ _ _ _ _ _ R3) by done.
    apply R2. rewrite !not_elem_of_cons. split_and!; try done. apply not_elem_of_nil. }
  assert (bits (regs (gpio_io g4) X1CON) 0 4 = 0) as E1 by (over R4; apply R3).
  assert (bits (regs (gpio_io g4) X1PUD) 0 2 = 0) as E2 by apply R4.
  apply wp_bind. destruct (_ =? 0); (split_and!; try done; cbn; congruence).
Qed.
End correctness.

(** ** Examples *)

#[local] Existing Instance example_layout.
#[local] Existing Instance example_layout_ok.

Definition example_screen : screen_state heap_state :=
  ScreenState (sc_world example_state) (FbState (fs_fb (sc_display example_state)) example_clk).

Lemma example_startable : startable example_vram example_logo example_screen.
Proof.
  split; [apply example_plls | done | apply example_state_ok | by apply example_mapped | by apply example_mapped].
Qed.


Lemma divider_1024_768 : clock_divider (vga_1024_768 example_vram) 780000000 = 13.
Proof. by vm_compute. Qed.

Lemma board_late_init_witness :
  wp (board_late_init no_info example_vram example_logo 0 (Some "lcd=ek070tn93"))
    (λ r b', r = 0 ∧ lamps (regs (fs_clk (sc_display (bs_screen b')))) ∧ force_update_flag b' = 1)
    (BoardState example_screen 0 0).
Proof.
  eapply wp_mono.
  - apply (board_late_init_correct no_info example_vram example_logo).
    + done.
    + right. done.
    + done.
    + left. done.
    + apply example_startable.
  - intros r b' (Hr & _ & _ & Hl & _ & _ & Hf). split_and!; [exact Hr | exact Hl |]. rewrite Hf.
    change (fs_clk (sc_display (bs_screen (BoardState example_screen 0 0)))) with example_clk. cbn [force_update_flag]. by vm_compute.
Defined.
