(* ===== verification/Atags.v ===== *)
(** Hand-over from the boot loader to the kernel: the list of tags that
    [do_bootm_linux] (U-Boot, [arch/arm/lib/bootm.c]) writes to memory and that
    [setup_machine_tags] (Linux, [arch/arm/kernel/setup.c]) reads, with the banks
    of memory the board ([x4412.c]) puts into it.  Shown is that the kernel takes
    over exactly the banks, the command line and the initial RAM disk that the
    boot loader was given. *)

From stdpp Require Import prelude gmap strings.
From Stdlib Require Import ZArith Lia.
From S2P Require Import Prelude Prog Memory CString Clk Fb.

Local Open Scope Z_scope.
Local Open Scope word_scope.

(** ** Data *)

(** The numbers of the tags. *)
Inductive atag :=
  | ATAG_NONE | ATAG_CORE | ATAG_MEM | ATAG_VIDEOTEXT | ATAG_RAMDISK | ATAG_INITRD | ATAG_INITRD2
  | ATAG_SERIAL | ATAG_REVISION | ATAG_CMDLINE.

Definition atag_value (t : atag) : Z :=
  match t with
  | ATAG_NONE => 0x00000000 | ATAG_CORE => 0x54410001 | ATAG_MEM => 0x54410002
  | ATAG_VIDEOTEXT => 0x54410003 | ATAG_RAMDISK => 0x54410004 | ATAG_INITRD => 0x54410005
  | ATAG_INITRD2 => 0x54420005 | ATAG_SERIAL => 0x54410006 | ATAG_REVISION => 0x54410007
  | ATAG_CMDLINE => 0x54410009
  end.

Coercion atag_value : atag >-> Z.

(** [tag_size] of a structure of [n] bytes: in words, with the header. *)
Definition tag_size (n : Z) : Z := Z.shiftr (8 + n) 2.

(** A range of memory, as an entry of [bi_dram] and as a [membank]. *)
Record membank := Bank { bank_start : Z; bank_size : Z }.

Record bd_t := Bd { bi_arch_number : Z; bi_boot_params : Z; bi_dram : list membank }.

(** ** The boot loader *)

Definition PHYS_SDRAM_1 : Z := 0x40000000.
Definition MACH_TYPE_C220 : Z := 3765.

(** The number of banks and their ranges. *)
Definition dram_init_banksize (bd : bd_t) : nat * bd_t :=
  let SDRAM_BANK_SIZE := 0x10000000 in
  let CONFIG_TRUSTZONE_RESERVED_DRAM := 0x100000 in
  let nr_dram_banks := 4%nat in
  let dram :=
    [Bank PHYS_SDRAM_1 SDRAM_BANK_SIZE; Bank (PHYS_SDRAM_1 + SDRAM_BANK_SIZE) SDRAM_BANK_SIZE;
     Bank (PHYS_SDRAM_1 + 2 * SDRAM_BANK_SIZE) SDRAM_BANK_SIZE;
     Bank (PHYS_SDRAM_1 + 3 * SDRAM_BANK_SIZE) SDRAM_BANK_SIZE] in
  (nr_dram_banks,
   Bd (bi_arch_number bd) (bi_boot_params bd)
     (alter (λ b, Bank (bank_start b) (bank_size b -u CONFIG_TRUSTZONE_RESERVED_DRAM))
        (nr_dram_banks - 1)%nat dram)).

(** The bus of the network chip: its pins, and width and timing of chip select 3. *)
Definition dm9000_pre_init : prog clk_state unit :=
  let MPCON k := 0x11000000 + 0x0120 + 0x20 * k in
  let S5P_SROM_BW := 0x12570000 in
  let S5P_SROM_BC3 := 0x12570000 + 0x10 in
  update (MPCON 0) (Z.lor (Z.lor (Z.shiftl 0xf 12) (Z.shiftl 0xf 16)) (Z.shiftl 0xf 20))
    (Z.lor (Z.lor (Z.shiftl 2 12) (Z.shiftl 2 16)) (Z.shiftl 2 20)) ;;
  writel (MPCON 1) 0x00002222 ;;
  writel (MPCON 3) 0x22222222 ;;
  writel (MPCON 3 + 8) 0x0000FFFF ;;
  writel (MPCON 5) 0x22222222 ;;
  writel (MPCON 5 + 8) 0x0000FFFF ;;
  writel (MPCON 6) 0x22222222 ;;
  writel (MPCON 6 + 8) 0x0000FFFF ;;
  update S5P_SROM_BW (Z.shiftl 0xf 12)
    (Z.shiftl (Z.lor (Z.lor (Z.lor (Z.shiftl 1 0) (Z.shiftl 1 1)) (Z.shiftl 1 2)) (Z.shiftl 1 3)) 12) ;;
  writel S5P_SROM_BC3
    (Z.lor (Z.lor (Z.lor (Z.lor (Z.lor (Z.lor (Z.shiftl 0x1 0) (Z.shiftl 0x9 4)) (Z.shiftl 0xc 8))
      (Z.shiftl 0x1 12)) (Z.shiftl 0x6 16)) (Z.shiftl 0x1 24)) (Z.shiftl 0x1 28)).

(** What [board_init] works on: the registers, the description of the board and
    the boot mode. *)
Record init_state := InitState { init_io : clk_state; init_bd : bd_t; OmPin : Z }.

Definition on_init {A} (c : prog clk_state A) : prog init_state A := λ s,
  match c (init_io s) with Some (x, io) => Some (x, InitState io (init_bd s) (OmPin s)) | None => None end.

(** The messages are left out: the version of the first stage, the half
    synchronizer and the name of the boot mode. *)
Definition board_init : prog init_state Z :=
  on_init (readl 0x10010350) ;;
  on_init dm9000_pre_init ;;
  let* om := on_init (readl (0x10020800 + 0x0c)) in
  λ s, Some (0, InitState (init_io s) (Bd MACH_TYPE_C220 (PHYS_SDRAM_1 + 0x100) (bi_dram (init_bd s))) om).

Definition tag_next (t : Z) : prog mem Z :=
  let* size := load32 t in ret (ptr_add t (4 * size)).

(** The functions take and return [params]. *)
Definition setup_start_tag (bd : bd_t) : prog mem Z :=
  let params := bi_boot_params bd in
  store32 (ptr_add params 4) ATAG_CORE ;;
  store32 params (tag_size 12) ;;
  store32 (ptr_add params 8) 0 ;;
  store32 (ptr_add params 12) 0 ;;
  store32 (ptr_add params 16) 0 ;;
  tag_next params.

Definition memory_tag (b : membank) (params : Z) : prog mem Z :=
  store32 (ptr_add params 4) ATAG_MEM ;;
  store32 params (tag_size 8) ;;
  store32 (ptr_add params 12) (bank_start b) ;;
  store32 (ptr_add params 8) (bank_size b) ;;
  tag_next params.

(** The loop over the first [nr_dram_banks] entries of [bi_dram]. *)
Fixpoint setup_memory_tags (nr_dram_banks : nat) (dram : list membank) (params : Z) : prog mem Z :=
  match nr_dram_banks with
  | O => ret params
  | S n =>
      match dram with
      | [] => fault
      | b :: dram => let* params := memory_tag b params in setup_memory_tags n dram params
      end
  end.

(** [while (( *dest++ = *src++) != 0)] for the characters of a string. *)
Fixpoint strcpy (dest : Z) (src : list Z) : prog mem unit :=
  match src with
  | [] => store8 dest 0
  | c :: src => store8 dest c ;; strcpy (ptr_add dest 1) src
  end.

(** [for (p = commandline; *p == ' '; p++);] *)
Fixpoint skip_spaces (p : list Z) : list Z :=
  match p with c :: p' => if c =? 32 then skip_spaces p' else p | [] => [] end.

(** The command line is null or a string: its characters without the final zero. *)
Definition setup_commandline_tag (commandline : option (list Z)) (params : Z) : prog mem Z :=
  match commandline with
  | None => ret params
  | Some commandline =>
      match skip_spaces commandline with
      | [] => ret params
      | p =>
          store32 (ptr_add params 4) ATAG_CMDLINE ;;
          store32 params (Z.shiftr (8 + Z.of_nat (length p) + 1 + 4) 2) ;;
          strcpy (ptr_add params 8) p ;;
          tag_next params
      end
  end.

Definition setup_initrd_tag (initrd_start initrd_end params : Z) : prog mem Z :=
  store32 (ptr_add params 4) ATAG_INITRD2 ;;
  store32 params (tag_size 8) ;;
  store32 (ptr_add params 8) initrd_start ;;
  store32 (ptr_add params 12) (initrd_end -u initrd_start) ;;
  tag_next params.

Definition setup_end_tag (params : Z) : prog mem unit :=
  store32 (ptr_add params 4) ATAG_NONE ;;
  store32 params 0.

(** The part of [do_bootm_linux] that writes the tags. *)
Definition setup_tags (nr_dram_banks : nat) (bd : bd_t) (commandline : option (list Z))
    (rd_start rd_end : Z) : prog mem unit :=
  let* params := setup_start_tag bd in
  let* params := setup_memory_tags nr_dram_banks (bi_dram bd) params in
  let* params := setup_commandline_tag commandline params in
  let* params :=
    if negb (rd_start =? 0) && negb (rd_end =? 0) then setup_initrd_tag rd_start rd_end params else ret params in
  setup_end_tag params.

(** ** The kernel *)

Definition NR_BANKS : nat := 8.
Definition COMMAND_LINE_SIZE : nat := 1024.
Definition PHYS_OFFSET : Z := 0x40000000.

(** The variables the tags set.  Of [meminfo] the entries that are in use are
    kept; strings are without their final zero. *)
Record kernel := Kernel {
  meminfo : list membank;
  default_command_line : list Z;
  boot_command_line : list Z;
  phys_initrd : Z * Z;
  root_mountflags : Z;
  ROOT_DEV : Z;
  screen_info : list Z;
  ramdisk : Z * bool * bool * Z;
  system_serial : Z * Z;
  system_rev : Z;
}.

(** Memory, which the kernel sees at other addresses but with the same bytes,
    and the variables. *)
Record boot := Boot { ram : mem; vars : kernel }.

Definition on_ram {A} (c : prog mem A) : prog boot A := λ b,
  match c (ram b) with Some (x, m) => Some (x, Boot m (vars b)) | None => None end.

Definition set_vars (f : kernel → kernel) : prog boot unit := λ b, Some (tt, Boot (ram b) (f (vars b))).

Definition set_meminfo (l : list membank) (k : kernel) : kernel :=
  Kernel l (default_command_line k) (boot_command_line k) (phys_initrd k) (root_mountflags k) (ROOT_DEV k)
    (screen_info k) (ramdisk k) (system_serial k) (system_rev k).
Definition set_default (l : list Z) (k : kernel) : kernel :=
  Kernel (meminfo k) l (boot_command_line k) (phys_initrd k) (root_mountflags k) (ROOT_DEV k)
    (screen_info k) (ramdisk k) (system_serial k) (system_rev k).
Definition set_boot_line (l : list Z) (k : kernel) : kernel :=
  Kernel (meminfo k) (default_command_line k) l (phys_initrd k) (root_mountflags k) (ROOT_DEV k)
    (screen_info k) (ramdisk k) (system_serial k) (system_rev k).
Definition set_initrd (r : Z * Z) (k : kernel) : kernel :=
  Kernel (meminfo k) (default_command_line k) (boot_command_line k) r (root_mountflags k) (ROOT_DEV k)
    (screen_info k) (ramdisk k) (system_serial k) (system_rev k).
Definition set_root (flags dev : Z) (k : kernel) : kernel :=
  Kernel (meminfo k) (default_command_line k) (boot_command_line k) (phys_initrd k) flags dev
    (screen_info k) (ramdisk k) (system_serial k) (system_rev k).
Definition set_screen (l : list Z) (k : kernel) : kernel :=
  Kernel (meminfo k) (default_command_line k) (boot_command_line k) (phys_initrd k) (root_mountflags k)
    (ROOT_DEV k) l (ramdisk k) (system_serial k) (system_rev k).
Definition set_ramdisk (r : Z * bool * bool * Z) (k : kernel) : kernel :=
  Kernel (meminfo k) (default_command_line k) (boot_command_line k) (phys_initrd k) (root_mountflags k)
    (ROOT_DEV k) (screen_info k) r (system_serial k) (system_rev k).
Definition set_serial (p : Z * Z) (k : kernel) : kernel :=
  Kernel (meminfo k) (default_command_line k) (boot_command_line k) (phys_initrd k) (root_mountflags k)
    (ROOT_DEV k) (screen_info k) (ramdisk k) p (system_rev k).
Definition set_rev (v : Z) (k : kernel) : kernel :=
  Kernel (meminfo k) (default_command_line k) (boot_command_line k) (phys_initrd k) (root_mountflags k)
    (ROOT_DEV k) (screen_info k) (ramdisk k) (system_serial k) v.

Definition PAGE_SIZE : Z := 4096.
Definition page_mask (x : Z) : Z := x - x mod PAGE_SIZE.

(** The result is the error number, 0 for none. *)
Definition arm_add_memory (start size : Z) : prog boot Z := λ b,
  let banks := meminfo (vars b) in
  if (NR_BANKS <=? length banks)%nat then Some (-22, b)
  else
    let size := size -u start mod PAGE_SIZE in
    let bank := Bank (page_mask (u32 (start + (PAGE_SIZE - 1)))) (page_mask size) in
    if bank_size bank =? 0 then Some (-22, b)
    else Some (0, Boot (ram b) (set_meminfo (banks ++ [bank]) (vars b))).

(** [strlen] and the characters in front of the zero.  A string is inside the
    memory, so that it is not longer than the memory. *)
Fixpoint chars_from (fuel : nat) (p : Z) : prog mem (list Z) :=
  match fuel with
  | O => fault
  | S fuel =>
      let* c := load8 p in
      if c =? 0 then ret [] else let* l := chars_from fuel (ptr_add p 1) in ret (c :: l)
  end.

Definition string_at (p : Z) : prog mem (list Z) := λ m, chars_from (size m) p m.

(** [BUG_ON] stops the kernel. *)
Definition strlcat (dest src : list Z) (count : nat) : prog boot (list Z) :=
  if (count <=? length dest)%nat then fault
  else
    let room := (count - length dest)%nat in
    let len := if (room <=? length src)%nat then (room - 1)%nat else length src in
    ret (dest ++ take len src).

Definition strlcpy (src : list Z) (size : nat) : list Z :=
  take (if (size <=? length src)%nat then (size - 1)%nat else length src) src.

(** The core tag, given its size and two of its fields. *)
Definition core_tag (size flags rootdev : Z) : prog boot unit :=
  if size >? 2 then
    set_vars (λ k,
      set_root (if Z.land flags 1 =? 0 then Z.land (root_mountflags k) (Z.lnot 1) else root_mountflags k)
        (let val := u16 rootdev in Z.lor (Z.shiftl (Z.land (Z.shiftr val 8) 255) 20) (Z.land val 255)) k)
  else ret tt.

Definition parse_tag_core (tag : Z) : prog boot unit :=
  let* size := on_ram (load32 tag) in
  if size >? 2 then
    let* flags := on_ram (load32 (ptr_add tag 8)) in
    let* rootdev := on_ram (load32 (ptr_add tag 16)) in
    core_tag size flags rootdev
  else ret tt.

Definition parse_tag_mem32 (tag : Z) : prog boot unit :=
  let* start := on_ram (load32 (ptr_add tag 12)) in
  let* size := on_ram (load32 (ptr_add tag 8)) in
  arm_add_memory start size ;; ret tt.

Definition parse_tag_videotext (tag : Z) : prog boot unit :=
  let* x := on_ram (load8 (ptr_add tag 8)) in
  let* y := on_ram (load8 (ptr_add tag 9)) in
  let* video_page := on_ram (load16 (ptr_add tag 10)) in
  let* video_mode := on_ram (load8 (ptr_add tag 12)) in
  let* video_cols := on_ram (load8 (ptr_add tag 13)) in
  let* video_ega_bx := on_ram (load16 (ptr_add tag 14)) in
  let* video_lines := on_ram (load8 (ptr_add tag 16)) in
  let* video_isvga := on_ram (load8 (ptr_add tag 17)) in
  let* video_points := on_ram (load16 (ptr_add tag 18)) in
  set_vars (set_screen [x; y; video_page; video_mode; video_cols; video_ega_bx; video_lines; video_isvga;
    video_points]).

(** [setup_ramdisk]: start, prompt, load and size. *)
Definition parse_tag_ramdisk (tag : Z) : prog boot unit :=
  let* flags := on_ram (load32 (ptr_add tag 8)) in
  let* size := on_ram (load32 (ptr_add tag 12)) in
  let* start := on_ram (load32 (ptr_add tag 16)) in
  set_vars (λ k,
    set_ramdisk (s32 start, Z.land flags 2 =? 0, Z.land flags 1 =? 0, if size =? 0 then (ramdisk k).2 else s32 size) k).

Definition parse_tag_serialnr (tag : Z) : prog boot unit :=
  let* low := on_ram (load32 (ptr_add tag 8)) in
  let* high := on_ram (load32 (ptr_add tag 12)) in
  set_vars (set_serial (low, high)).

Definition parse_tag_revision (tag : Z) : prog boot unit :=
  let* rev := on_ram (load32 (ptr_add tag 8)) in set_vars (set_rev rev).

(** With [CONFIG_CMDLINE_EXTEND]. *)
Definition parse_tag_cmdline (tag : Z) : prog boot unit :=
  let* b := get_state in
  let* line := strlcat (default_command_line (vars b)) [32] COMMAND_LINE_SIZE in
  let* src := on_ram (string_at (ptr_add tag 8)) in
  let* line := strlcat line src COMMAND_LINE_SIZE in
  set_vars (set_default line).

(** The address of the disk is a virtual one. *)
Definition parse_tag_initrd (tag : Z) : prog boot unit :=
  let* start := on_ram (load32 (ptr_add tag 8)) in
  let* size := on_ram (load32 (ptr_add tag 12)) in
  set_vars (set_initrd (start -u 0xC0000000 +u PHYS_OFFSET, size)).

Definition parse_tag_initrd2 (tag : Z) : prog boot unit :=
  let* start := on_ram (load32 (ptr_add tag 8)) in
  let* size := on_ram (load32 (ptr_add tag 12)) in
  set_vars (set_initrd (start, size)).

(** The table that the linker makes of all [__tagtable] declarations. *)
Definition tagtable : list (atag * (Z → prog boot unit)) :=
  [(ATAG_CORE, parse_tag_core); (ATAG_MEM, parse_tag_mem32); (ATAG_VIDEOTEXT, parse_tag_videotext);
   (ATAG_RAMDISK, parse_tag_ramdisk); (ATAG_SERIAL, parse_tag_serialnr); (ATAG_REVISION, parse_tag_revision);
   (ATAG_CMDLINE, parse_tag_cmdline); (ATAG_INITRD, parse_tag_initrd); (ATAG_INITRD2, parse_tag_initrd2)].

(** Tags that no entry knows are reported and skipped. *)
Definition parse_tag (tag : Z) : prog boot unit :=
  let* n := on_ram (load32 (ptr_add tag 4)) in
  match list_find (λ e : atag * (Z → prog boot unit), n = e.1) tagtable with
  | Some (_, (_, parse)) => parse tag
  | None => ret tt
  end.

Fixpoint parse_tags (fuel : nat) (t : Z) : prog boot unit :=
  match fuel with
  | O => fault
  | S fuel =>
      let* size := on_ram (load32 t) in
      if size =? 0 then ret tt
      else parse_tag t ;; let* t := on_ram (tag_next t) in parse_tags fuel t
  end.

Fixpoint squash_mem_tags (fuel : nat) (tag : Z) : prog mem unit :=
  match fuel with
  | O => fault
  | S fuel =>
      let* size := load32 tag in
      if size =? 0 then ret tt
      else
        let* n := load32 (ptr_add tag 4) in
        (if n =? ATAG_MEM then store32 (ptr_add tag 4) ATAG_NONE else ret tt) ;;
        let* tag := tag_next tag in
        squash_mem_tags fuel tag
  end.

(** The tags in [init_tags]: read-only root on device 0xff and, unless there are
    banks already, one bank. *)
Definition parse_init_tags : prog boot unit :=
  let* b := get_state in
  core_tag (tag_size 12) 1 0xff ;;
  match meminfo (vars b) with
  | [] => arm_add_memory PHYS_OFFSET (16 * 1024 * 1024) ;; ret tt
  | _ => ret tt
  end.

(** The machines of this kernel, with their default place of the tags. *)
Definition machine_descs : list (Z * Z) := [(3698, 0x40000000 + 0x100); (3765, 0x40000000 + 0x100)].

(** An unknown machine does not return from [dump_machine_table].  No machine has
    a [fixup], and [save_atags] is empty. *)
Definition setup_machine_tags (fuel : nat) (nr atags_pointer : Z) : prog boot unit :=
  match list_find (λ d : Z * Z, nr = d.1) machine_descs with
  | None => fault
  | Some (_, (_, boot_params)) =>
      let tags :=
        if negb (atags_pointer =? 0) then Some atags_pointer
        else if boot_params =? 0 then None
        else if (boot_params <? PHYS_OFFSET) || (PHYS_OFFSET + 0x100000 <=? boot_params) then None
        else Some boot_params in
      match tags with
      | None => parse_init_tags
      | Some tags =>
          let* n := on_ram (load32 (ptr_add tags 4)) in
          if n =? ATAG_CORE then
            let* b := get_state in
            (match meminfo (vars b) with [] => ret tt | _ => on_ram (squash_mem_tags fuel tags) end) ;;
            parse_tags fuel tags
          else parse_init_tags
      end ;;
      set_vars (λ k, set_boot_line (strlcpy (default_command_line k) COMMAND_LINE_SIZE) k)
  end.

(** ** Words in memory *)

Definition word (m : mem) (p w : Z) : Prop := has_bytes m p (le_bytes 4 w).

Lemma has_bytes_other m p l q l' :
  p + Z.of_nat (length l) ≤ q ∨ q + Z.of_nat (length l') ≤ p →
  has_bytes m q l' → has_bytes (write_bytes m p l) q l'.
Proof.
  intros Hd. apply has_bytes_agree. intros a Ha. rewrite lookup_write_bytes, decide_False by lia. done.
Qed.

Lemma word_other m p l q w :
  p + Z.of_nat (length l) ≤ q ∨ q + 4 ≤ p → word m q w → word (write_bytes m p l) q w.
Proof. intros Hd. apply has_bytes_other. by rewrite length_le_bytes. Qed.

Lemma wp_load_word p w (Q : Z → mem → Prop) m :
  0 ≤ p → p + 4 ≤ 4294967296 → 0 ≤ w < 4294967296 → word m p w → Q w m → wp (load32 p) Q m.
Proof.
  intros ? ? Hw H HQ. eapply wp_load32; [done | done | | exact H |]; [by rewrite length_le_bytes |].
  rewrite le_val_bytes, Z.mod_small by (cbn; lia). done.
Qed.

Lemma wp_tag_next p w (Q : Z → mem → Prop) m :
  0 ≤ p → 0 ≤ w → p + 4 * w < 4294967296 → p + 4 ≤ 4294967296 → word m p w →
  Q (p + 4 * w) m → wp (tag_next p) Q m.
Proof.
  intros ? ? ? ? H HQ. apply wp_bind. eapply wp_load_word; [done | done | | done |]; [lia |].
  apply wp_ret. by rewrite ptr_add_small by lia.
Qed.

(** A store at an offset from a pointer. *)
Lemma wp_store_at p k v (Q : unit → mem → Prop) m :
  0 ≤ p → 0 ≤ k → p + k + 4 ≤ 4294967296 → mapped m (p + k) 4 →
  Q tt (write_bytes m (p + k) (le_bytes 4 v)) → wp (store32 (ptr_add p k) v) Q m.
Proof. intros. rewrite ptr_add_small by lia. apply wp_store32; [lia | lia | done..]. Qed.

Lemma mapped_write m p l q n : mapped m q n → mapped (write_bytes m p l) q n.
Proof. apply mapped_agree. intros a. apply write_bytes_mapped. Qed.

Lemma strcpy_spec l p m (Q : unit → mem → Prop) :
  Forall in_u8 l → 0 ≤ p → p + Z.of_nat (length l) + 1 ≤ 4294967296 → mapped m p (Z.of_nat (length l) + 1) →
  Q tt (write_bytes m p (l ++ [0])) → wp (strcpy p l) Q m.
Proof.
  revert p m. induction l as [| c l IH]; intros p m Hl Hp Hb Hm HQ; cbn [strcpy].
  { apply wp_store8; [apply Hm; cbn; lia | done]. }
  apply Forall_cons in Hl as [Hc Hl]. cbn [length] in *. apply wp_bind, wp_store8; [apply Hm; lia |].
  destruct l as [| c' l'] eqn:El; rewrite <- ?El in *.
  - subst. cbn [strcpy app write_bytes] in *. rewrite ptr_add_small by (cbn in *; lia).
    apply wp_store8; [apply lookup_insert_is_Some'; right; apply Hm; cbn; lia |].
    rewrite insert_insert_ne by lia. by rewrite (u8_small c), u8_small by done.
  - assert (0 < length l)%nat by (rewrite El; cbn; lia).
    rewrite ptr_add_small by lia. apply IH; [done | lia | lia | |].
    + intros a Ha. apply lookup_insert_is_Some'. right. apply Hm. lia.
    + rewrite write_bytes_insert, (u8_small c) by done. done.
Qed.

(** ** Lists of tags *)

Inductive entry := ECore | EMem (b : membank) | ECmd (l : list Z) | EInitrd (start size : Z).

Definition entry_words (e : entry) : Z :=
  match e with
  | ECore => 5 | EMem _ => 4 | EInitrd _ _ => 4
  | ECmd l => Z.shiftr (8 + Z.of_nat (length l) + 1 + 4) 2
  end.

Definition entry_at (m : mem) (p : Z) (e : entry) : Prop :=
  word m p (entry_words e) ∧
  match e with
  | ECore => word m (p + 4) ATAG_CORE ∧ word m (p + 8) 0 ∧ word m (p + 12) 0 ∧ word m (p + 16) 0
  | EMem b => word m (p + 4) ATAG_MEM ∧ word m (p + 8) (bank_size b) ∧ word m (p + 12) (bank_start b)
  | ECmd l => word m (p + 4) ATAG_CMDLINE ∧ has_bytes m (p + 8) (l ++ [0])
  | EInitrd start size => word m (p + 4) ATAG_INITRD2 ∧ word m (p + 8) start ∧ word m (p + 12) size
  end.

Fixpoint entries_size (es : list entry) : Z :=
  match es with [] => 0 | e :: es => 4 * entry_words e + entries_size es end.

Fixpoint entries_at (m : mem) (p : Z) (es : list entry) : Prop :=
  match es with [] => True | e :: es => entry_at m p e ∧ entries_at m (p + 4 * entry_words e) es end.

(** What writing entries at [p] does to the memory. *)
Record wrote (m m' : mem) (p : Z) (es : list entry) : Prop := {
  wrote_entries : entries_at m' p es;
  wrote_others a : ¬ p ≤ a < p + entries_size es → m' !! a = m !! a;
  wrote_mapped a : is_Some (m !! a) → is_Some (m' !! a);
}.

Lemma cmd_words (l : list Z) :
  8 + Z.of_nat (length l) + 2 ≤ 4 * entry_words (ECmd l) ≤ 8 + Z.of_nat (length l) + 5.
Proof.
  cbn [entry_words]. rewrite Z.shiftr_div_pow2 by lia. change (2 ^ 2) with 4.
  pose proof (Z.div_mod (8 + Z.of_nat (length l) + 1 + 4) 4).
  pose proof (Z.mod_pos_bound (8 + Z.of_nat (length l) + 1 + 4) 4).
  lia.
Qed.

Lemma entry_words_pos e : 2 < entry_words e.
Proof. destruct e; try (cbn; lia). pose proof (cmd_words l). lia. Qed.

Lemma entries_size_nonneg es : 0 ≤ entries_size es.
Proof. induction es as [| e es IH]; cbn [entries_size]; [lia |]. pose proof (entry_words_pos e). lia. Qed.

Lemma entries_size_app es es' : entries_size (es ++ es') = entries_size es + entries_size es'.
Proof. induction es as [| e es IH]; cbn [entries_size app]; lia. Qed.

Lemma entry_at_agree m m' p e :
  (∀ a, p ≤ a < p + 4 * entry_words e → m' !! a = m !! a) → entry_at m p e → entry_at m' p e.
Proof.
  intros Ha [Hs H]. pose proof (entry_words_pos e) as Hpos.
  assert (∀ q w, p ≤ q → q + 4 ≤ p + 4 * entry_words e → word m q w → word m' q w) as Hw.
  { intros q w ? ?. apply has_bytes_agree. intros a. rewrite length_le_bytes. intros. apply Ha. lia. }
  split; [apply Hw; [lia | lia | done] |].
  pose proof cmd_words as Hc. destruct e as [| b | l | s z]; cbn [entry_words] in *.
  - destruct H as (? & ? & ? & ?). split_and!; apply Hw; done || lia.
  - destruct H as (? & ? & ?). split_and!; apply Hw; done || lia.
  - specialize (Hc l). destruct H as [Ht Hl]. split; [apply Hw; [lia | lia | done] |].
    revert Hl. apply has_bytes_agree. intros a. rewrite length_app. cbn [length]. intros ?. apply Ha. lia.
  - destruct H as (? & ? & ?). split_and!; apply Hw; done || lia.
Qed.

Lemma entries_at_agree m m' p es :
  (∀ a, p ≤ a < p + entries_size es → m' !! a = m !! a) → entries_at m p es → entries_at m' p es.
Proof.
  revert p. induction es as [| e es IH]; intros p Ha; cbn [entries_at entries_size] in *; [done |].
  intros [H1 H2]. pose proof (entry_words_pos e). pose proof (entries_size_nonneg es). split.
  - eapply entry_at_agree, H1. intros a ?. apply Ha. lia.
  - eapply IH, H2. intros a ?. apply Ha. lia.
Qed.

Lemma entries_at_app m p es es' :
  entries_at m p (es ++ es') ↔ entries_at m p es ∧ entries_at m (p + entries_size es) es'.
Proof.
  revert p. induction es as [| e es IH]; intros p; cbn [entries_at entries_size app].
  - rewrite Z.add_0_r. tauto.
  - rewrite IH, Z.add_assoc. tauto.
Qed.

Lemma wrote_nil m p : wrote m m p [].
Proof. by split. Qed.

Lemma wrote_app m m1 m2 p es es' :
  wrote m m1 p es → wrote m1 m2 (p + entries_size es) es' → wrote m m2 p (es ++ es').
Proof.
  intros [A1 B1 C1] [A2 B2 C2]. pose proof (entries_size_nonneg es). pose proof (entries_size_nonneg es').
  split.
  - apply entries_at_app. split; [| done]. eapply entries_at_agree, A1. intros a ?. apply B2. lia.
  - intros a Ha. rewrite entries_size_app in Ha. rewrite B2, B1 by lia. done.
  - auto.
Qed.

(** The result of a function that writes entries and moves the pointer on. *)
Definition appends (c : Z → prog mem Z) (es : list entry) : Prop := ∀ p m,
  0 ≤ p → p + entries_size es < 4294967296 → mapped m p (entries_size es) →
  wp (c p) (λ p' m', p' = p + entries_size es ∧ wrote m m' p es) m.

Lemma appends_bind c c' es es' :
  appends c es → appends c' es' → appends (λ p, let* p' := c p in c' p') (es ++ es').
Proof.
  intros Hc Hc' p m Hp Hb Hm. rewrite entries_size_app in *.
  pose proof (entries_size_nonneg es). pose proof (entries_size_nonneg es').
  apply wp_bind. eapply wp_mono; [apply Hc; [done | lia | eapply mapped_sub; [exact Hm | lia..]] |].
  intros p1 m1 [-> W1]. eapply wp_mono; [apply Hc'; [lia | lia |] |].
  - eapply mapped_agree; [apply W1 |]. eapply mapped_sub; [exact Hm | lia..].
  - intros p2 m2 [-> W2]. split; [lia |]. by eapply wrote_app.
Qed.

Lemma appends_nil : appends ret [].
Proof. intros p m ? ? ?. apply wp_ret. cbn [entries_size]. split; [lia | apply wrote_nil]. Qed.

(** The words of an entry after the stores that made them. *)
Ltac words := repeat first [apply has_bytes_write | apply word_other; [rewrite ?length_le_bytes; lia |]].
Ltac is_mapped := repeat apply mapped_write; first [eassumption | (eapply mapped_sub; [eassumption | lia..])].
Ltac store := apply wp_bind, wp_store_at; [lia | lia | lia | is_mapped |].

Lemma wrote_one m m' p e :
  entry_at m' p e → (∀ a, ¬ p ≤ a < p + 4 * entry_words e → m' !! a = m !! a) →
  (∀ a, is_Some (m !! a) → is_Some (m' !! a)) → wrote m m' p [e].
Proof. intros ? H ?. split; [done | | done]. intros a Ha. apply H. cbn in Ha. lia. Qed.

(** ** Writing the list *)

Lemma appends_core : appends (λ p, setup_start_tag (Bd 0 p [])) [ECore].
Proof.
  intros p m Hp Hb Hm. cbn [entries_size entry_words] in *. unfold setup_start_tag. cbn [bi_boot_params].
  store. apply wp_bind, wp_store32; [lia | lia | is_mapped |]. store. store. store.
  eapply (wp_tag_next _ 5); [lia.. | words |]. split; [lia |]. apply wrote_one.
  - split; [words |]. split_and!; words.
  - intros a Ha. cbn [entry_words] in Ha. rewrite !lookup_write_bytes, !length_le_bytes, !decide_False by lia. done.
  - intros a ?. by do 5 apply write_bytes_mapped.
Qed.

Lemma appends_mem b : appends (memory_tag b) [EMem b].
Proof.
  intros p m Hp Hb Hm. cbn [entries_size entry_words] in *. unfold memory_tag.
  store. apply wp_bind, wp_store32; [lia | lia | is_mapped |]. store. store.
  eapply (wp_tag_next _ 4); [lia.. | words |]. split; [lia |]. apply wrote_one.
  - split; [words |]. split_and!; words.
  - intros a Ha. cbn [entry_words] in Ha. rewrite !lookup_write_bytes, !length_le_bytes, !decide_False by lia. done.
  - intros a ?. by do 4 apply write_bytes_mapped.
Qed.

Lemma appends_initrd s e : appends (setup_initrd_tag s e) [EInitrd s (e -u s)].
Proof.
  intros p m Hp Hb Hm. cbn [entries_size entry_words] in *. unfold setup_initrd_tag.
  store. apply wp_bind, wp_store32; [lia | lia | is_mapped |]. store. store.
  eapply (wp_tag_next _ 4); [lia.. | words |]. split; [lia |]. apply wrote_one.
  - split; [words |]. split_and!; words.
  - intros a Ha. cbn [entry_words] in Ha. rewrite !lookup_write_bytes, !length_le_bytes, !decide_False by lia. done.
  - intros a ?. by do 4 apply write_bytes_mapped.
Qed.

Lemma appends_memory dram n :
  n = length dram → appends (setup_memory_tags n dram) (EMem <$> dram).
Proof.
  intros ->. induction dram as [| b dram IH]; [apply appends_nil |].
  intros p m Hp Hb Hm. exact (appends_bind _ _ [_] _ (appends_mem b) IH p m Hp Hb Hm).
Qed.

(** The tag of a command line: none if it is missing or blank. *)
Definition cmd_entries (commandline : option (list Z)) : list entry :=
  match commandline with
  | None => []
  | Some l => match skip_spaces l with [] => [] | p => [ECmd p] end
  end.

Lemma skip_spaces_Forall (P : Z → Prop) l : Forall P l → Forall P (skip_spaces l).
Proof.
  induction l as [| c l IH]; [done |]. cbn. intros H. destruct (c =? 32); [| done].
  apply IH. by inversion H.
Qed.

Lemma appends_cmd commandline :
  (∀ l, commandline = Some l → Forall in_u8 l) →
  appends (setup_commandline_tag commandline) (cmd_entries commandline).
Proof.
  intros Hl. destruct commandline as [l |]; [| apply appends_nil].
  specialize (Hl l eq_refl). apply skip_spaces_Forall in Hl. unfold setup_commandline_tag, cmd_entries.
  destruct (skip_spaces l) as [| c l'] eqn:E; [apply appends_nil |]. remember (c :: l') as p' eqn:Ep. clear E Ep.
  intros p m Hp Hb Hm. pose proof (cmd_words p') as Hc. cbn [entries_size] in *.
  store. apply wp_bind, wp_store32; [lia | lia | is_mapped |]. rewrite ptr_add_small by lia.
  apply wp_bind, strcpy_spec; [done | lia | lia | is_mapped |].
  assert (Z.of_nat (length (p' ++ [0])) = Z.of_nat (length p') + 1) as Hlen by (rewrite length_app; cbn; lia).
  eapply (wp_tag_next _ (entry_words (ECmd p'))); [lia.. | |].
  { apply word_other; [lia |]. apply has_bytes_write. }
  split; [lia |]. apply wrote_one.
  - split; [apply word_other; [lia |]; apply has_bytes_write |].
    split; [apply word_other; [lia |]; words | apply has_bytes_write].
  - intros a Ha. rewrite !lookup_write_bytes, !length_le_bytes, !decide_False by lia. done.
  - intros a ?. by do 3 apply write_bytes_mapped.
Qed.

Definition initrd_entries (rd_start rd_end : Z) : list entry :=
  if negb (rd_start =? 0) && negb (rd_end =? 0) then [EInitrd rd_start (rd_end -u rd_start)] else [].

(** The entries of the list in front of the end tag. *)
Definition handed_over (dram : list membank) (commandline : option (list Z)) (rd_start rd_end : Z) : list entry :=
  ECore :: (EMem <$> dram) ++ cmd_entries commandline ++ initrd_entries rd_start rd_end.

Lemma setup_tags_spec bd n commandline rd_start rd_end m :
  let es := handed_over (bi_dram bd) commandline rd_start rd_end in
  let p := bi_boot_params bd in
  n = length (bi_dram bd) → (∀ l, commandline = Some l → Forall in_u8 l) →
  0 ≤ p → p + entries_size es + 8 ≤ 4294967296 → mapped m p (entries_size es + 8) →
  wp (setup_tags n bd commandline rd_start rd_end) (λ _ m',
    entries_at m' p es ∧ word m' (p + entries_size es) 0 ∧
    (∀ a, ¬ p ≤ a < p + entries_size es + 8 → m' !! a = m !! a)) m.
Proof.
  intros es p Hn Hl Hp Hb Hm. pose proof (entries_size_nonneg es) as Hpos.
  assert (appends (λ q, let* q := setup_start_tag (Bd 0 q []) in let* q := setup_memory_tags n (bi_dram bd) q in
    let* q := setup_commandline_tag commandline q in
    if negb (rd_start =? 0) && negb (rd_end =? 0) then setup_initrd_tag rd_start rd_end q else ret q) es) as Ha.
  { apply (appends_bind _ _ [ECore] _ appends_core), appends_bind; [by apply appends_memory |].
    apply appends_bind; [by apply appends_cmd |]. unfold initrd_entries.
    destruct (_ && _); [apply appends_initrd | apply appends_nil]. }
  assert (mapped m p (entries_size es)) as Hm1 by (eapply mapped_sub; [exact Hm | lia..]).
  specialize (Ha p m Hp ltac:(lia) Hm1).
  unfold setup_tags. change (setup_start_tag bd) with (setup_start_tag (Bd 0 p [])).
  apply wp_bind_inv in Ha. apply wp_bind. eapply wp_mono; [exact Ha |]. cbn beta. intros p1 m1 Ha1.
  apply wp_bind_inv in Ha1. apply wp_bind. eapply wp_mono; [exact Ha1 |]. cbn beta. intros p2 m2 Ha2.
  apply wp_bind_inv in Ha2. apply wp_bind. eapply wp_mono; [exact Ha2 |]. cbn beta. intros p3 m3 Ha3.
  apply wp_bind. eapply wp_mono; [exact Ha3 |]. cbn beta. intros p4 m4 [-> W].
  assert (mapped m4 (p + entries_size es) 8) as Hm4.
  { eapply mapped_agree; [apply W |]. eapply mapped_sub; [exact Hm | lia..]. }
  unfold setup_end_tag. store. apply wp_store32; [lia | lia | is_mapped |].
  split_and!; [| words |].
  - eapply entries_at_agree, W. intros a ?. rewrite !lookup_write_bytes, !length_le_bytes, !decide_False by lia. done.
  - intros a Ha'. rewrite !lookup_write_bytes, !length_le_bytes, !decide_False by lia. apply W. lia.
Qed.

(** ** Reading the list *)

Lemma wp_on_ram {A} (c : prog mem A) (Q : A → boot → Prop) m k :
  wp c (λ x m', Q x (Boot m' k)) m → wp (on_ram c) Q (Boot m k).
Proof. unfold wp, on_ram. cbn. by destruct (c m) as [[x m'] |]. Qed.

(** A word at an offset from a pointer. *)
Lemma wp_word_at p i w (Q : Z → boot → Prop) m k :
  word m (p + i) w → 0 ≤ p → 0 ≤ i → p + i + 4 ≤ 4294967296 → 0 ≤ w < 4294967296 →
  Q w (Boot m k) → wp (on_ram (load32 (ptr_add p i))) Q (Boot m k).
Proof.
  intros H ? ? ? ? HQ. apply wp_on_ram. rewrite ptr_add_small by lia.
  eapply wp_load_word; [lia | lia | done | exact H | done].
Qed.

Ltac load_word H := apply wp_bind; eapply wp_word_at; [exact H | first [lia | (cbn; lia)].. |].

Lemma strlcat_spec dest src count :
  (length dest < count)%nat → strlcat dest src count = ret (take (count - 1) (dest ++ src)).
Proof.
  intros H. unfold strlcat. rewrite (proj2 (Nat.leb_gt _ _)) by lia. f_equal.
  rewrite take_app_ge by lia. f_equal. destruct (Nat.leb_spec (count - length dest) (length src)).
  - f_equal. lia.
  - rewrite !take_ge by lia. done.
Qed.

Lemma strlcpy_spec src n : (0 < n)%nat → strlcpy src n = take (n - 1) src.
Proof.
  intros H. unfold strlcpy. destruct (Nat.leb_spec n (length src)); [done |]. by rewrite !take_ge by lia.
Qed.

Lemma has_bytes_size m p l : has_bytes m p l → (length l ≤ size m)%nat.
Proof.
  intros H. apply has_bytes_mapped in H. rewrite <- size_dom.
  transitivity (size (list_to_set (seqZ p (Z.of_nat (length l))) : gset Z)).
  - rewrite size_list_to_set by apply NoDup_seqZ. rewrite length_seqZ. lia.
  - apply subseteq_size. intros a. rewrite elem_of_list_to_set, elem_of_seqZ, elem_of_dom. apply H.
Qed.

Lemma chars_from_spec l fuel p m :
  has_bytes m p (l ++ [0]) → Forall (λ c, c ≠ 0) l → (length l < fuel)%nat → 0 ≤ p →
  p + Z.of_nat (length l) < 4294967296 → wp (chars_from fuel p) (λ x m', x = l ∧ m' = m) m.
Proof.
  revert p fuel. induction l as [| c l IH]; intros p [| fuel] Hl Hnz Hf Hp Hb; try (cbn in Hf; lia).
  - destruct Hl as [Hc _]. apply wp_bind. eapply wp_load8; [exact Hc |]. by apply wp_ret.
  - destruct Hl as [Hc Hl]. apply Forall_cons in Hnz as [Hne Hnz]. cbn [length] in *.
    apply wp_bind. eapply wp_load8; [exact Hc |]. rewrite (proj2 (Z.eqb_neq c 0)) by done.
    rewrite ptr_add_small by lia. apply wp_bind. eapply wp_mono; [apply IH; [done | done | lia..] |].
    intros x m' [-> ->]. by apply wp_ret.
Qed.

Lemma string_at_spec l p m :
  has_bytes m p (l ++ [0]) → Forall (λ c, c ≠ 0) l → 0 ≤ p → p + Z.of_nat (length l) < 4294967296 →
  wp (string_at p) (λ x m', x = l ∧ m' = m) m.
Proof.
  intros Hl Hnz ? ?. pose proof (has_bytes_size _ _ _ Hl) as Hs. rewrite length_app in Hs. cbn [length] in Hs.
  unfold string_at. change (wp (chars_from (size m) p) (λ x m', x = l ∧ m' = m) m).
  apply chars_from_spec; [done | done | lia..].
Qed.

(** Banks in whole pages. *)
Definition bank_ok (b : membank) : Prop :=
  0 ≤ bank_start b < 4294967296 ∧ 0 < bank_size b < 4294967296 ∧
  bank_start b mod PAGE_SIZE = 0 ∧ bank_size b mod PAGE_SIZE = 0.

Lemma arm_add_memory_spec b m k :
  bank_ok b → (length (meminfo k) < NR_BANKS)%nat →
  arm_add_memory (bank_start b) (bank_size b) (Boot m k) = Some (0, Boot m (set_meminfo (meminfo k ++ [b]) k)).
Proof.
  intros (Hs & Hz & Ms & Mz) Hn. unfold arm_add_memory. cbn [vars ram].
  rewrite (proj2 (Nat.leb_gt _ _)) by done.
  assert (u32 (bank_size b - bank_start b mod PAGE_SIZE) = bank_size b) as E1
    by (rewrite Ms, Z.sub_0_r; apply u32_small; lia).
  assert (page_mask (u32 (bank_start b + (PAGE_SIZE - 1))) = bank_start b) as E2.
  { unfold PAGE_SIZE in *. pose proof (Z.div_mod (bank_start b) 4096 ltac:(lia)).
    rewrite u32_small by lia. unfold page_mask, PAGE_SIZE.
    replace (bank_start b + (4096 - 1)) with (4095 + bank_start b / 4096 * 4096) by lia.
    rewrite Z.mod_add, Z.mod_small by lia. lia. }
  rewrite E1, E2. unfold page_mask. rewrite Mz, Z.sub_0_r. cbn [bank_size].
  rewrite (proj2 (Z.eqb_neq _ 0)) by lia. by destruct b.
Qed.

Definition entry_ok (e : entry) : Prop :=
  match e with
  | ECore => True
  | EMem b => bank_ok b
  | ECmd l => Forall (λ c, 0 < c < 256) l
  | EInitrd start size => 0 ≤ start < 4294967296 ∧ 0 ≤ size < 4294967296
  end.

(** What an entry tells the kernel. *)
Definition told (k : kernel) (e : entry) : kernel :=
  match e with
  | ECore => set_root (Z.land (root_mountflags k) (Z.lnot 1)) 0 k
  | EMem b => set_meminfo (meminfo k ++ [b]) k
  | ECmd l => set_default (take (COMMAND_LINE_SIZE - 1) (default_command_line k ++ 32 :: l)) k
  | EInitrd start size => set_initrd (start, size) k
  end.

Lemma take_take_app {A} n (l l' : list A) : take n (take n l ++ l') = take n (l ++ l').
Proof.
  destruct (decide (length l ≤ n)%nat).
  - by rewrite (take_ge l) by done.
  - rewrite !take_app_le by (rewrite ?length_take; lia). by rewrite take_take, Nat.min_id.
Qed.

Lemma told_meminfo_le es k : (length (meminfo k) ≤ length (meminfo (foldl told k es)))%nat.
Proof.
  revert k. induction es as [| e es IH]; intros k; cbn [foldl]; [done |].
  etransitivity; [| apply IH]. destruct e; cbn [told meminfo set_meminfo set_root set_default set_initrd]; try done.
  rewrite length_app. lia.
Qed.

Lemma told_line_le e k :
  (length (default_command_line k) < COMMAND_LINE_SIZE)%nat →
  (length (default_command_line (told k e)) < COMMAND_LINE_SIZE)%nat.
Proof.
  destruct e; cbn [told default_command_line set_meminfo set_root set_default set_initrd]; try done.
  intros _. rewrite length_take. unfold COMMAND_LINE_SIZE. lia.
Qed.

Lemma parse_tag_spec e p m k :
  entry_at m p e → entry_ok e → 0 ≤ p → p + 4 * entry_words e < 4294967296 →
  (length (default_command_line k) < COMMAND_LINE_SIZE)%nat →
  (length (meminfo (told k e)) ≤ NR_BANKS)%nat →
  wp (parse_tag p) (λ _ b, b = Boot m (told k e)) (Boot m k).
Proof.
  intros [Hs He] Hok Hp Hb Hd Hn. pose proof (entry_words_pos e) as Hpos. unfold parse_tag.
  destruct e as [| b | l | s z]; cbn [entry_words entry_ok told] in *.
  - destruct He as (Ht & Hf & _ & Hr). load_word Ht.
    change (wp (parse_tag_core p) (λ _ b, b = Boot m (set_root (Z.land (root_mountflags k) (Z.lnot 1)) 0 k))
      (Boot m k)).
    apply wp_bind, wp_on_ram. apply (wp_load_word _ 5); [lia.. | exact Hs |]. cbn [Z.gtb Z.compare Pos.compare].
    load_word Hf. by load_word Hr.
  - destruct He as (Ht & Hz & Hst). pose proof Hok as (? & ? & _). load_word Ht.
    change (wp (parse_tag_mem32 p) (λ _ b', b' = Boot m (set_meminfo (meminfo k ++ [b]) k)) (Boot m k)).
    load_word Hst. load_word Hz.
    cbn [meminfo set_meminfo] in Hn. rewrite length_app in Hn. cbn [length] in Hn.
    apply wp_bind. eapply wp_intro; [by apply arm_add_memory_spec; [| unfold NR_BANKS in *; lia] |]. by apply wp_ret.
  - destruct He as (Ht & Hl). pose proof (cmd_words l) as Hc. cbn [entry_words] in Hc.
    load_word Ht.
    change (wp (parse_tag_cmdline p) (λ _ b, b =
      Boot m (set_default (take (COMMAND_LINE_SIZE - 1) (default_command_line k ++ 32 :: l)) k)) (Boot m k)).
    apply wp_bind. unfold wp at 1, get_state. cbn [vars]. rewrite strlcat_spec by done.
    apply wp_bind, wp_ret, wp_bind, wp_on_ram. rewrite ptr_add_small by lia.
    eapply wp_mono; [apply (string_at_spec l); [done | | lia | lia] |].
    { eapply Forall_impl; [exact Hok |]. cbn. lia. }
    intros x m' [-> ->]. rewrite strlcat_spec by (rewrite length_take; unfold COMMAND_LINE_SIZE; lia).
    apply wp_bind, wp_ret. unfold wp, set_vars. cbn [ram vars].
    by rewrite take_take_app, <- app_assoc.
  - destruct He as (Ht & Hst & Hz). destruct Hok. load_word Ht.
    change (wp (parse_tag_initrd2 p) (λ _ b, b = Boot m (set_initrd (s, z) k)) (Boot m k)).
    load_word Hst. by load_word Hz.
Qed.

Lemma parse_tags_spec es fuel p m k :
  (length es < fuel)%nat → entries_at m p es → word m (p + entries_size es) 0 → Forall entry_ok es →
  0 ≤ p → p + entries_size es + 4 ≤ 4294967296 →
  (length (default_command_line k) < COMMAND_LINE_SIZE)%nat →
  (length (meminfo (foldl told k es)) ≤ NR_BANKS)%nat →
  wp (parse_tags fuel p) (λ _ b, b = Boot m (foldl told k es)) (Boot m k).
Proof.
  revert fuel p k. induction es as [| e es IH]; intros [| fuel] p k Hf He H0 Hok Hp Hb Hd Hn; try (cbn in Hf; lia);
    cbn [entries_at entries_size foldl parse_tags length] in *.
  - rewrite Z.add_0_r in H0. apply wp_bind, wp_on_ram. by apply (wp_load_word _ 0); [lia.. | exact H0 |].
  - destruct He as [He Hes]. apply Forall_cons in Hok as [Hok Hoks].
    pose proof (entry_words_pos e). pose proof (entries_size_nonneg es). pose proof (proj1 He) as Hs.
    apply wp_bind, wp_on_ram. apply (wp_load_word _ (entry_words e)); [lia.. | exact Hs |].
    rewrite (proj2 (Z.eqb_neq _ 0)) by lia. apply wp_bind. eapply wp_mono.
    { apply (parse_tag_spec e); [done | done | lia | lia | done |].
      etransitivity; [apply (told_meminfo_le es) | done]. }
    intros [] b ->. apply wp_bind, wp_on_ram. apply (wp_tag_next _ (entry_words e)); [lia.. | exact Hs |].
    apply IH; [lia | done | | done | lia | lia | by apply told_line_le | done].
    by replace (p + 4 * entry_words e + entries_size es) with (p + (4 * entry_words e + entries_size es)) by lia.
Qed.

(** ** Theorems *)

Lemma told_banks dram k : foldl told k (EMem <$> dram) = set_meminfo (meminfo k ++ dram) k.
Proof.
  revert k. induction dram as [| b dram IH]; intros k.
  - rewrite app_nil_r. by destruct k.
  - cbn [fmap list_fmap foldl told]. rewrite IH. cbn [set_meminfo meminfo]. by rewrite <- app_assoc.
Qed.

(** The command line the kernel starts with, cut to its buffer. *)
Definition started_with (commandline : option (list Z)) (k : kernel) : list Z :=
  take (COMMAND_LINE_SIZE - 1)
    (default_command_line k ++
     match skip_spaces (default [] commandline) with [] => [] | l => 32 :: l end).

Definition handed_initrd (rd_start rd_end : Z) (k : kernel) : Z * Z :=
  if bool_decide (rd_start = 0 ∨ rd_end = 0) then phys_initrd k else (rd_start, rd_end -u rd_start).

Definition taken_over (bd : bd_t) (commandline : option (list Z)) (rd_start rd_end : Z) (k : kernel) : kernel :=
  Kernel (bi_dram bd) (started_with commandline k) (boot_command_line k) (handed_initrd rd_start rd_end k)
    (Z.land (root_mountflags k) (Z.lnot 1)) 0 (screen_info k) (ramdisk k) (system_serial k) (system_rev k).

Lemma told_handed_over bd commandline rd_start rd_end k :
  meminfo k = [] → (length (default_command_line k) < COMMAND_LINE_SIZE)%nat →
  foldl told k (handed_over (bi_dram bd) commandline rd_start rd_end) =
    taken_over bd commandline rd_start rd_end k.
Proof.
  intros Hk Hd. unfold handed_over. cbn [foldl]. rewrite !foldl_app, told_banks. cbn [told].
  unfold taken_over, cmd_entries, initrd_entries, started_with, handed_initrd.
  assert (foldl told (set_meminfo (meminfo (set_root (Z.land (root_mountflags k) (Z.lnot 1)) 0 k) ++ bi_dram bd)
      (set_root (Z.land (root_mountflags k) (Z.lnot 1)) 0 k)) (cmd_entries commandline) =
    Kernel (bi_dram bd) (started_with commandline k) (boot_command_line k) (phys_initrd k)
      (Z.land (root_mountflags k) (Z.lnot 1)) 0 (screen_info k) (ramdisk k) (system_serial k) (system_rev k)) as E.
  { unfold set_meminfo, set_root. cbn [meminfo default_command_line boot_command_line phys_initrd root_mountflags
      ROOT_DEV screen_info ramdisk system_serial system_rev]. rewrite Hk. cbn [app]. unfold started_with, cmd_entries.
    assert (take (COMMAND_LINE_SIZE - 1) (default_command_line k ++ []) = default_command_line k) as Et
      by (rewrite app_nil_r, take_ge; [done | lia]).
    destruct commandline as [l |]; cbn [default from_option id skip_spaces]; [| by rewrite Et].
    destruct (skip_spaces l); [by rewrite Et | done]. }
  unfold cmd_entries in E. rewrite E.
  destruct (Z.eqb_spec rd_start 0), (Z.eqb_spec rd_end 0); cbn [negb andb foldl];
    first [rewrite bool_decide_eq_true_2 by auto | rewrite bool_decide_eq_false_2 by tauto]; done.
Qed.

Lemma handed_over_ok bd commandline rd_start rd_end :
  Forall bank_ok (bi_dram bd) → (∀ l, commandline = Some l → Forall (λ c, 0 < c < 256) l) →
  0 ≤ rd_start < 4294967296 → Forall entry_ok (handed_over (bi_dram bd) commandline rd_start rd_end).
Proof.
  intros Hb Hl Hr. unfold handed_over, cmd_entries, initrd_entries. constructor; [done |]. apply Forall_app. split.
  { apply Forall_fmap. exact Hb. }
  apply Forall_app. split.
  - destruct commandline as [l |]; [| done]. specialize (Hl l eq_refl). apply skip_spaces_Forall in Hl.
    destruct (skip_spaces l); [done |]. by apply Forall_singleton.
  - destruct (_ && _); [| done]. constructor; [| done]. split; [done | apply u32_range].
Qed.

(** C7: The kernel takes over what the boot loader hands it: after
    [setup_machine_tags] on the tags that [do_bootm_linux] wrote, the banks of
    memory are those of the board, the command line of the boot loader without
    its leading spaces follows the built-in one, cut to the buffer, the initial
    RAM disk is where it was loaded and the root is to be mounted writable.  The
    tags take up no more than the room counted for them. *)
Theorem boot_tags_roundtrip bd commandline rd_start rd_end m :
  let p := bi_boot_params bd in
  let n := entries_size (handed_over (bi_dram bd) commandline rd_start rd_end) + 8 in
  bi_arch_number bd = MACH_TYPE_C220 → 0 < p → p + n ≤ 4294967296 → mapped m p n →
  Forall bank_ok (bi_dram bd) → (length (bi_dram bd) ≤ NR_BANKS)%nat →
  (∀ l, commandline = Some l → Forall (λ c, 0 < c < 256) l) →
  0 ≤ rd_start < 4294967296 →
  wp (setup_tags (length (bi_dram bd)) bd commandline rd_start rd_end) (λ _ m',
    (∀ a, ¬ p ≤ a < p + n → m' !! a = m !! a) ∧
    ∀ fuel k, (length (bi_dram bd) + 4 ≤ fuel)%nat → meminfo k = [] →
      (length (default_command_line k) < COMMAND_LINE_SIZE)%nat →
      wp (setup_machine_tags fuel (bi_arch_number bd) p) (λ _ b,
        b = Boot m' (set_boot_line (started_with commandline k) (taken_over bd commandline rd_start rd_end k)))
        (Boot m' k)) m.
Proof.
  intros p n Hnr Hp Hb Hm Hbk Hlen Hcl Hrd.
  pose proof (entries_size_nonneg (handed_over (bi_dram bd) commandline rd_start rd_end)).
  eapply wp_mono; [apply setup_tags_spec; [done | | fold p; lia | fold p; lia | done] |].
  { intros l Hl. eapply Forall_impl; [by apply Hcl |]. unfold in_u8. cbn. lia. }
  fold p. intros [] m' (He & H0 & Ho). split; [intros a Ha; apply Ho; lia |].
  intros fuel k Hf Hk Hd. unfold setup_machine_tags. rewrite Hnr.
  replace (list_find _ machine_descs) with (Some (1%nat, (3765, 0x40000000 + 0x100))) by reflexivity.
  rewrite (proj2 (Z.eqb_neq p 0)) by lia. cbn [negb].
  apply wp_bind. load_word (proj1 (proj2 (proj1 He))). rewrite Z.eqb_refl.
  apply wp_bind. unfold wp at 1, get_state. cbn [vars]. rewrite Hk.
  apply wp_bind, wp_ret. eapply wp_mono.
  { apply (parse_tags_spec (handed_over (bi_dram bd) commandline rd_start rd_end));
      [| done | done | by apply handed_over_ok | lia | lia | done | by rewrite told_handed_over].
    unfold handed_over, cmd_entries, initrd_entries. cbn [length]. rewrite !length_app, length_fmap.
    destruct commandline as [l |]; [destruct (skip_spaces l) |]; destruct (_ && _); cbn [length]; lia. }
  intros [] b ->. rewrite told_handed_over by done. unfold wp, set_vars. cbn [ram vars taken_over default_command_line].
  rewrite strlcpy_spec by (unfold COMMAND_LINE_SIZE; lia).
  assert (take (COMMAND_LINE_SIZE - 1) (started_with commandline k) = started_with commandline k) as ->; [| done].
  unfold started_with. by rewrite take_take, Nat.min_id.
Qed.

(** The banks of the board follow one another from the start of the memory and
    leave out its last megabyte. *)
Lemma dram_init_banksize_spec bd :
  let '(n, bd') := dram_init_banksize bd in
  n = length (bi_dram bd') ∧ (n ≤ NR_BANKS)%nat ∧ Forall bank_ok (bi_dram bd') ∧
  bi_arch_number bd' = bi_arch_number bd ∧ bi_boot_params bd' = bi_boot_params bd ∧
  (∀ i b b', bi_dram bd' !! i = Some b → bi_dram bd' !! S i = Some b' →
    bank_start b + bank_size b = bank_start b') ∧
  foldr (λ b, Z.add (bank_size b)) 0 (bi_dram bd') = 0x40000000 - 0x100000.
Proof.
  cbn [dram_init_banksize]. cbn [bi_dram bi_arch_number bi_boot_params]. split_and!; try done.
  - unfold NR_BANKS. lia.
  - repeat constructor; vm_compute; congruence.
  - intros [| [| [| [| i]]]] b b' Hb Hb'; vm_compute in Hb, Hb'; by simplify_eq.
Qed.

(** Decides the tests of addresses. *)
Ltac close_tests :=
  repeat match goal with |- context [Z.eqb ?a ?b] =>
    let v := eval vm_compute in (Z.eqb a b) in
    match v with
    | true => change (Z.eqb a b) with true
    | false => change (Z.eqb a b) with false
    end
  end; cbv iota.

(** [board_init] describes the board to the kernel and sets the bus of the
    network chip up: 16 data pins, the three pins of the chip select, and chip
    select 3; no other register and no other bit changes. *)
Lemma board_init_spec s :
  wp board_init (λ r s',
    let R := regs (init_io s) in
    let R' := regs (init_io s') in
    r = 0 ∧ bi_arch_number (init_bd s') = MACH_TYPE_C220 ∧ bi_boot_params (init_bd s') = 0x40000100 ∧
    OmPin s' = u32 (R 0x1002080C) ∧
    bits (R' 0x11000120) 12 12 = 0x222 ∧
    bits (R' 0x11000120) 0 12 = bits (R 0x11000120) 0 12 ∧ bits (R' 0x11000120) 24 8 = bits (R 0x11000120) 24 8 ∧
    bits (R' 0x12570000) 12 4 = 0xf ∧
    bits (R' 0x12570000) 0 12 = bits (R 0x12570000) 0 12 ∧ bits (R' 0x12570000) 16 16 = bits (R 0x12570000) 16 16 ∧
    R' 0x12570010 = 0x11061C91 ∧
    Forall (λ a, R' a = 0x22222222 ∧ R' (a + 8) = 0x0000FFFF) [0x11000180; 0x110001C0; 0x110001E0] ∧
    ∀ a, a ∉ [0x11000120; 0x11000140; 0x11000180; 0x11000188; 0x110001C0; 0x110001C8; 0x110001E0; 0x110001E8;
      0x12570000; 0x12570010] → R' a = R a) s.
Proof.
  cbn beta zeta. unfold wp, board_init, on_init, bind, dm9000_pre_init, update, readl, writel, bind, ret.
  cbn [init_io init_bd OmPin regs exynos4412_clocks bi_arch_number bi_boot_params].
  change (0x11000000 + 0x0120 + 0x20 * 0) with 0x11000120.
  change (Z.lor (Z.lor (Z.shiftl 0xf 12) (Z.shiftl 0xf 16)) (Z.shiftl 0xf 20)) with 0xfff000.
  change (Z.lor (Z.lor (Z.shiftl 2 12) (Z.shiftl 2 16)) (Z.shiftl 2 20)) with 0x222000.
  split_and!; try reflexivity; close_tests;
    try first [bits_eq | match goal with |- bits _ _ ?w = ?v => transitivity (bits v 0 w); [bits_eq | reflexivity] end].
  - repeat (apply Forall_cons; split; [cbn beta; close_tests; by split |]). by apply Forall_nil.
  - intros a Ha.
    repeat match goal with |- context [Z.eqb ?x ?y] =>
      destruct (Z.eqb_spec x y) as [-> |]; [exfalso; apply Ha, (bool_decide_unpack _); by vm_compute |]
    end. done.
Qed.

(** ** Example *)

Definition text (s : string) : list Z := char_val <$> String.list_ascii_of_string s.

Definition example_kernel : kernel :=
  Kernel [] (text "console=ttySAC3,115200n8 androidboot.console=ttySAC3") [] (0, 0) 0x8001 0
    [] (0, true, true, 0) (0, 0) 0.

Definition example_board : bd_t := (dram_init_banksize (Bd MACH_TYPE_C220 (PHYS_SDRAM_1 + 0x100) [])).2.

(** The board with 1 GB, of which the last megabyte is kept for the secure
    world, boots with a command line and a RAM disk. *)
Lemma boot_tags_witness :
  wp (setup_tags 4 example_board (Some (text "  lcd=vs070cxn")) 0x41000000 0x41200000) (λ _ m',
    wp (setup_machine_tags 8 3765 0x40000100) (λ _ b,
      meminfo (vars b) = [Bank 0x40000000 0x10000000; Bank 0x50000000 0x10000000; Bank 0x60000000 0x10000000;
                          Bank 0x70000000 0x0ff00000] ∧
      boot_command_line (vars b) = text "console=ttySAC3,115200n8 androidboot.console=ttySAC3 lcd=vs070cxn" ∧
      phys_initrd (vars b) = (0x41000000, 0x200000) ∧ root_mountflags (vars b) = 0x8000)
      (Boot m' example_kernel)) (zeros 0x40000100 256).
Proof.
  pose proof (boot_tags_roundtrip example_board (Some (text "  lcd=vs070cxn")) 0x41000000 0x41200000
    (zeros 0x40000100 256)) as H.
  eapply wp_mono; [apply H |].
  - reflexivity.
  - reflexivity.
  - by vm_compute.
  - eapply mapped_sub; [apply (zeros_mapped 0x40000100 256) | by vm_compute..].
  - repeat constructor; vm_compute; congruence.
  - vm_compute. lia.
  - intros l [= <-]. apply (bool_decide_unpack _). by vm_compute.
  - lia.
  - intros [] m' [_ Hk]. eapply wp_mono; [apply (Hk 8%nat example_kernel); [vm_compute; lia | done |] |];
      [vm_compute; lia |].
    intros [] b ->. split_and!; vm_compute; reflexivity.
Defined.
