(* ===== verification/I2c.v ===== *)
(** * The bit-banged two-wire bus of [pmic.c]

    [pmic.c] talks to the power management chips by moving two pins of a
    general purpose port, a clock SCL and a data line SDA, with
    read-modify-write accesses to the port's registers.  The three buses of
    the file run the same code on different pins, so the code is given once,
    for the pins of a bus, and instantiated for each bus under its name.

    The port is modelled at the level of its registers: [con] has four bits per
    pin (1 makes the pin an output), a read of [dat] gives for an output pin
    the bit last written and for any other pin the level of the line, a write
    of [dat] changes the bits written.  A line is high unless an output pin or
    the chip on the bus pulls it down.  What the chip sees of the two lines is
    the sequence of the [event]s that the writes cause; the chip is a
    parameter, a type [D] of states with an [I2CDevice] instance. *)

From stdpp Require Import prelude.
From Stdlib Require Import ZArith Lia.
From S2P Require Import Prelude Prog.

Local Open Scope Z_scope.

(** ** Lines and the chip *)

(** What happens on the wires: SDA falls or rises while SCL is high, SCL rises
    while SDA has a level, SCL falls. *)
Inductive event := Start | Stop | Rise (sda : bool) | Fall.

(** A chip on the bus: whether it leaves SDA alone ([true]) or pulls it down,
    and how it takes an event. *)
Class I2CDevice (D : Type) := {
  released : D → bool;
  react : event → D → D;
}.

(** A chip changes SDA only while SCL is low, as the bus specification asks;
    in particular not when SCL rises. *)
Class I2CDeviceLaws (D : Type) `{I2CDevice D} : Prop := {
  released_rise b d : released (react (Rise b) d) = released d;
}.

(** The pins of a bus within its port. *)
Record pins := Pins { scl : Z; sda : Z }.

Definition IIC0 : pins := Pins 1 0.
Definition IIC1 : pins := Pins 3 2.
Definition IIC3 : pins := Pins 3 2.

Record port (D : Type) := Port {
  con : Z;
  dat : Z;
  pud : Z;
  dev : D;
}.
Arguments Port {D}.
Arguments con {D}.
Arguments dat {D}.
Arguments pud {D}.
Arguments dev {D}.

(** The word whose low [n] bits are given by [f]. *)
Fixpoint word_of (f : Z → bool) (n : nat) : Z :=
  match n with
  | O => 0
  | S n' => Z.lor (word_of f n') (Z.shiftl (Z.b2z (f (Z.of_nat n'))) (Z.of_nat n'))
  end.

Definition is_output (c i : Z) : bool := Z.land (Z.shiftr c (4 * i)) 0xf =? 1.

Definition DELAY : Z := 100.

Section bus.
Context {D : Type} `{I2CDevice D}.

(** The levels of the port's other pins when they are inputs, and the pins. *)
Context (other : Z → bool) (p : pins).

Definition scl_line (s : port D) : bool :=
  if is_output (con s) (scl p) then Z.testbit (dat s) (scl p) else true.

Definition sda_line (s : port D) : bool :=
  (if is_output (con s) (sda p) then Z.testbit (dat s) (sda p) else true) && released (dev s).

(** The level a read of [dat] finds at pin [i]. *)
Definition level (s : port D) (i : Z) : bool :=
  if is_output (con s) i then Z.testbit (dat s) i
  else if i =? scl p then scl_line s
  else if i =? sda p then sda_line s
  else other i.

(** What a change of the lines from [(c, a)] to [(c', a')] is to a chip. *)
Definition edge (c a c' a' : bool) : option event :=
  match c, c' with
  | true, true => if a then (if a' then None else Some Start) else (if a' then Some Stop else None)
  | false, true => Some (Rise a')
  | true, false => Some Fall
  | false, false => None
  end.

(** The registers become those of [s'], and the chip sees the edge. *)
Definition drive (s s' : port D) : port D :=
  match edge (scl_line s) (sda_line s) (scl_line s') (sda_line s') with
  | Some e => Port (con s') (dat s') (pud s') (react e (dev s'))
  | None => s'
  end.

Definition read_con : prog (port D) Z := λ s, Some (con s, s).
Definition read_dat : prog (port D) Z := λ s, Some (word_of (level s) 8, s).
Definition read_pud : prog (port D) Z := λ s, Some (pud s, s).

Definition write_con (v : Z) : prog (port D) unit := λ s,
  Some (tt, drive s (Port (u32 v) (dat s) (pud s) (dev s))).
Definition write_dat (v : Z) : prog (port D) unit := λ s,
  Some (tt, drive s (Port (con s) (u32 v) (pud s) (dev s))).
Definition write_pud (v : Z) : prog (port D) unit := λ s,
  Some (tt, Port (con s) (dat s) (u32 v) (dev s)).

(** ** The macros of [pmic.h] *)

Definition ESCL_Hi : prog (port D) unit :=
  let* v := read_dat in write_dat (Z.lor v (Z.shiftl 0x1 (scl p))).
Definition ESCL_Lo : prog (port D) unit :=
  let* v := read_dat in write_dat (Z.land v (not32 (Z.shiftl 0x1 (scl p)))).
Definition ESDA_Hi : prog (port D) unit :=
  let* v := read_dat in write_dat (Z.lor v (Z.shiftl 0x1 (sda p))).
Definition ESDA_Lo : prog (port D) unit :=
  let* v := read_dat in write_dat (Z.land v (not32 (Z.shiftl 0x1 (sda p)))).

Definition ESCL_OUTP : prog (port D) unit :=
  let* v := read_con in
  write_con (Z.lor (Z.land v (not32 (Z.shiftl 0xf (4 * scl p)))) (Z.shiftl 0x1 (4 * scl p))).
Definition ESDA_INP : prog (port D) unit :=
  let* v := read_con in write_con (Z.land v (not32 (Z.shiftl 0xf (4 * sda p)))).
Definition ESDA_OUTP : prog (port D) unit :=
  let* v := read_con in
  write_con (Z.lor (Z.land v (not32 (Z.shiftl 0xf (4 * sda p)))) (Z.shiftl 0x1 (4 * sda p))).

(** ** The code of [pmic.c] *)

Definition Delay : prog (port D) unit := for_do DELAY (λ _, ret tt).

Definition SCLH_SDAH : prog (port D) unit := ESCL_Hi;; ESDA_Hi;; Delay.
Definition SCLH_SDAL : prog (port D) unit := ESCL_Hi;; ESDA_Lo;; Delay.
Definition SCLL_SDAH : prog (port D) unit := ESCL_Lo;; ESDA_Hi;; Delay.
Definition SCLL_SDAL : prog (port D) unit := ESCL_Lo;; ESDA_Lo;; Delay.

Definition ELow : prog (port D) unit := SCLL_SDAL;; SCLH_SDAL;; SCLH_SDAL;; SCLL_SDAL.
Definition EHigh : prog (port D) unit := SCLL_SDAH;; SCLH_SDAH;; SCLH_SDAH;; SCLL_SDAH.

Definition EStart : prog (port D) unit := SCLH_SDAH;; SCLH_SDAL;; Delay;; SCLL_SDAL.
Definition EEnd : prog (port D) unit := SCLL_SDAL;; SCLH_SDAL;; Delay;; SCLH_SDAH.

(** The acknowledge bit is read and not used. *)
Definition EAck_write : prog (port D) unit :=
  ESDA_INP;;
  ESCL_Lo;; Delay;;
  ESCL_Hi;; Delay;;
  let* ack := read_dat in
  ESCL_Hi;; Delay;;
  ESCL_Hi;; Delay;;
  ESDA_OUTP;;
  SCLL_SDAL.

Definition EAck_read : prog (port D) unit :=
  ESDA_OUTP;;
  ESCL_Lo;; ESCL_Lo;;
  ESDA_Hi;;
  ESCL_Hi;; ESCL_Hi;;
  ESDA_INP;;
  SCLL_SDAL.

(** The pull-up/down fields cleared differ between the buses. *)
Definition ESetport (mask : Z) : prog (port D) unit :=
  (let* v := read_pud in write_pud (Z.land v (not32 mask)));;
  ESCL_Hi;; ESDA_Hi;;
  ESCL_OUTP;; ESDA_OUTP;;
  Delay.

(** One bit of a byte, and the loops that send the top seven bits of a chip
    address or a whole byte. *)
Definition send_bit (v i : Z) : prog (port D) unit :=
  if Z.land (Z.shiftr v i) 0x0001 =? 0 then ELow else EHigh.

Definition send_chip (ChipId : Z) : prog (port D) unit :=
  for_do 7 (λ k, let i := 7 - k in send_bit ChipId i).

Definition send_byte (v : Z) : prog (port D) unit :=
  for_do 8 (λ k, let i := 8 - k in send_bit v (i - 1)).

Definition EWrite (ChipId IicAddr IicData : Z) : prog (port D) unit :=
  EStart;;
  send_chip ChipId;; ELow;; EAck_write;;
  send_byte IicAddr;; EAck_write;;
  send_byte IicData;; EAck_write;;
  EEnd.

(** One turn of the loop that reads the data byte. *)
Definition read_bit (i data : Z) : prog (port D) Z :=
  ESCL_Lo;; ESCL_Lo;; Delay;;
  ESCL_Hi;; ESCL_Hi;; Delay;;
  let* reg := read_dat in
  ESCL_Hi;; ESCL_Hi;; Delay;;
  ESCL_Lo;; ESCL_Lo;; Delay;;
  let reg := Z.land (Z.shiftr reg (sda p)) 0x1 in
  ret (u8 (Z.lor data (Z.shiftl reg (i - 1)))).

Definition ERead (ChipId IicAddr : Z) : prog (port D) Z :=
  EStart;;
  send_chip ChipId;; ELow;; EAck_write;;
  send_byte IicAddr;; EAck_write;;
  EStart;;
  send_chip ChipId;; EHigh;; EAck_write;;
  ESDA_INP;;
  ESCL_Lo;; ESCL_Lo;; Delay;;
  let* data := for_to 8 (λ k data, let i := 8 - k in read_bit i data) 0 in
  EAck_read;;
  ESDA_OUTP;;
  EEnd;;
  ret data.
End bus.

(** ** The three buses *)

Section buses.
Context {D : Type} `{I2CDevice D} (other : Z → bool).

Definition IIC0_ESetport : prog (port D) unit := ESetport other IIC0 (Z.shiftl 0xf 0).
Definition IIC0_EWrite : Z → Z → Z → prog (port D) unit := EWrite other IIC0.
Definition IIC0_ERead : Z → Z → prog (port D) Z := ERead other IIC0.

Definition IIC1_ESetport : prog (port D) unit := ESetport other IIC1 (Z.shiftl 0xf 4).
Definition IIC1_EWrite : Z → Z → Z → prog (port D) unit := EWrite other IIC1.

Definition IIC3_ESetport : prog (port D) unit := ESetport other IIC3 (Z.shiftl 0xf 4).
Definition IIC3_EWrite : Z → Z → Z → prog (port D) unit := EWrite other IIC3.

End buses.
