(* ===== verification/I2cLink.v ===== *)
(** * From pin accesses to bus frames

    The code of [I2c] moves pins; a chip sees frames.  This file relates the
    two.  [view] is what matters of a port for the bus, [sim c f] says that the
    code [c] acts on the view as the function [f], and the theorems say that
    [EWrite] and [ERead] show a chip, any chip, exactly the frames [link_write]
    and [link_read]: start, the chip address with the direction bit, the
    register, the data, each byte followed by a ninth clock, and stop.  The
    port's other pins keep their direction and what they output. *)

From stdpp Require Import prelude.
From Stdlib Require Import ZArith Lia.
From S2P Require Import Prelude Prog I2c.

Local Open Scope Z_scope.

(** What one pin access does to a view, and the steps it is. *)
Create HintDb bus.
Create Rewrite HintDb bus.

(** ** Frames *)

Section frames.
Context {D : Type} `{I2CDevice D}.

(** One clock pulse with the master's SDA at [b]: the chip sees the wired-and
    of [b] and what it drives itself. *)
Definition link_bit (b : bool) (d : D) : D := react Fall (react (Rise (b && released d)) d).

Definition link_bits (l : list bool) (d : D) : D := foldl (λ d b, link_bit b d) d l.

(** Eight bits and the clock pulse of the acknowledge. *)
Definition link_byte (l : list bool) (d : D) : D := link_bit true (link_bits l d).

Definition link_start (d : D) : D := react Fall (if released d then react Start d else d).

Definition link_stop (d : D) : D :=
  let d := react (Rise false) d in if released d then react Stop d else d.

Definition chip_bits (ChipId : Z) (rw : bool) : list bool :=
  (Z.testbit ChipId <$> [7; 6; 5; 4; 3; 2; 1]) ++ [rw].

Definition byte_bits (v : Z) : list bool := Z.testbit v <$> [7; 6; 5; 4; 3; 2; 1; 0].

Definition link_write (ChipId IicAddr IicData : Z) (d : D) : D :=
  link_stop (link_byte (byte_bits IicData) (link_byte (byte_bits IicAddr)
    (link_byte (chip_bits ChipId false) (link_start d)))).

(** The bits of a byte the chip sends, most significant first. *)
Fixpoint link_receive (n : nat) (d : D) : Z * D :=
  match n with
  | O => (0, d)
  | S n' => let '(v, d') := link_receive n' (link_bit true d) in
            (Z.b2z (released d) * 2 ^ Z.of_nat n' + v, d')
  end.

(** Between the two halves of a read the code makes a stop and a start. *)
Definition link_read (ChipId IicAddr : Z) (d : D) : Z * D :=
  let d := link_byte (byte_bits IicAddr) (link_byte (chip_bits ChipId false) (link_start d)) in
  let d := link_byte (chip_bits ChipId true) (link_start (link_stop d)) in
  let '(v, d) := link_receive 8 d in
  (v, link_stop (link_bit true d)).
End frames.

(** ** Words and their bits *)

Lemma testbit_pow2 k i : 0 ≤ k → Z.testbit (Z.shiftl 1 k) i = bool_decide (i = k).
Proof.
  intros Hk. rewrite Z.shiftl_1_l, Z.pow2_bits_eqb by done.
  case_bool_decide; destruct (Z.eqb_spec k i); congruence.
Qed.

Lemma word_of_testbit f n i :
  0 ≤ i → Z.testbit (word_of f n) i = bool_decide (i < Z.of_nat n) && f i.
Proof.
  intros Hi. induction n as [|n IH]; cbn [word_of].
  - rewrite Z.testbit_0_l. by rewrite bool_decide_eq_false_2 by lia.
  - rewrite Z.lor_spec, IH, Z.shiftl_spec by done.
    destruct (decide (i = Z.of_nat n)) as [->|Hne].
    + rewrite (bool_decide_eq_false_2 (Z.of_nat n < Z.of_nat n)) by lia.
      rewrite (bool_decide_eq_true_2 (Z.of_nat n < Z.of_nat (S n))), Z.sub_diag by lia.
      by destruct (f _).
    + assert (Z.testbit (Z.b2z (f (Z.of_nat n))) (i - Z.of_nat n) = false) as ->.
      { destruct (decide (i < Z.of_nat n)); [apply Z.testbit_neg_r; lia |].
        apply (testbit_above _ 1); [lia | by case (f _) | lia]. }
      rewrite orb_false_r. f_equal. apply bool_decide_ext. lia.
Qed.

Lemma land_1_testbit v i : 0 ≤ i → Z.land (Z.shiftr v i) 1 = Z.b2z (Z.testbit v i).
Proof.
  intros. change 1 with (Z.ones 1). rewrite Z.land_ones by lia.
  rewrite Z.testbit_spec' by lia. by rewrite Z.shiftr_div_pow2 by lia.
Qed.

Lemma lor_next_bit q m b :
  0 ≤ m → Z.lor (q * 2 ^ (m + 1)) (Z.shiftl (Z.b2z b) m) = q * 2 ^ (m + 1) + Z.b2z b * 2 ^ m.
Proof.
  intros Hm. rewrite <- (Z.shiftl_mul_pow2 (Z.b2z b)) by done.
  rewrite <- (Z.add_lor_land (q * 2 ^ (m + 1))).
  assert (Z.land (q * 2 ^ (m + 1)) (Z.shiftl (Z.b2z b) m) = 0) as ->; [| lia].
  apply Z.bits_inj'. intros i Hi. rewrite Z.land_spec, Z.testbit_0_l, Z.shiftl_spec by done.
  destruct (decide (i < m + 1)); [by rewrite Z.mul_pow2_bits_low |].
  rewrite (testbit_above (Z.b2z b) 1) by (lia || by case b). apply andb_false_r.
Qed.

(** The direction of a pin is its four bits of the control register. *)
Lemma is_output_ext c c' i j :
  0 ≤ i → 0 ≤ j → (∀ k, 0 ≤ k < 4 → Z.testbit c (4 * i + k) = Z.testbit c' (4 * j + k)) →
  is_output c i = is_output c' j.
Proof.
  intros Hi Hj Hb. unfold is_output. f_equal. apply Z.bits_inj'. intros k Hk.
  rewrite !Z.land_spec, !Z.shiftr_spec by done. change 0xf with (Z.ones 4).
  destruct (decide (k < 4)).
  - rewrite (Z.add_comm k), (Z.add_comm k), Hb by lia. done.
  - by rewrite Z.ones_spec_high, !andb_false_r by lia.
Qed.

Lemma ones4_field i k j : 0 ≤ i → 0 ≤ j → 0 ≤ k < 4 →
  Z.testbit (Z.shiftl 0xf (4 * i)) (4 * j + k) = bool_decide (j = i).
Proof.
  intros. rewrite Z.shiftl_spec by lia. change 0xf with (Z.ones 4). rewrite Z.testbit_ones by lia.
  case_bool_decide; destruct (Z.leb_spec 0 (4 * j + k - 4 * i)); destruct (Z.ltb_spec (4 * j + k - 4 * i) 4);
    cbn; (done || lia).
Qed.

Lemma is_output_clear c i j : 0 ≤ i < 8 → 0 ≤ j < 8 →
  is_output (u32 (Z.land c (not32 (Z.shiftl 0xf (4 * i))))) j = negb (bool_decide (j = i)) && is_output c j.
Proof.
  intros. case_bool_decide; cbn.
  - subst. transitivity (is_output 0 0); [| done]. apply is_output_ext; [lia | lia |]. intros k Hk.
    rewrite u32_testbit, Z.land_spec, not32_testbit, ones4_field by lia.
    by rewrite bool_decide_eq_true_2, andb_false_r, Z.testbit_0_l by done.
  - apply is_output_ext; [lia | lia |]. intros k Hk.
    rewrite u32_testbit, Z.land_spec, not32_testbit, ones4_field by lia.
    by rewrite bool_decide_eq_false_2, andb_true_r by done.
Qed.

Lemma is_output_set c i j : 0 ≤ i < 8 → 0 ≤ j < 8 →
  is_output (u32 (Z.lor (Z.land c (not32 (Z.shiftl 0xf (4 * i)))) (Z.shiftl 0x1 (4 * i)))) j =
  bool_decide (j = i) || is_output c j.
Proof.
  intros. case_bool_decide; cbn.
  - subst. change true with (is_output 1 0). apply is_output_ext; [lia | lia |]. intros k Hk.
    rewrite u32_testbit, Z.lor_spec, Z.land_spec, not32_testbit, ones4_field, testbit_pow2 by lia.
    rewrite bool_decide_eq_true_2, andb_false_r by done. cbn [orb].
    change (Z.testbit 1 (4 * 0 + k)) with (Z.testbit (Z.shiftl 1 0) k). rewrite testbit_pow2 by lia.
    apply bool_decide_ext. lia.
  - apply is_output_ext; [lia | lia |]. intros k Hk.
    rewrite u32_testbit, Z.lor_spec, Z.land_spec, not32_testbit, ones4_field, testbit_pow2 by lia.
    rewrite (bool_decide_eq_false_2 (j = i)), (bool_decide_eq_false_2 (_ = _)) by lia.
    by rewrite andb_true_r, orb_false_r.
Qed.

Lemma set_bit_testbit v k i : 0 ≤ k → 0 ≤ i < 32 →
  Z.testbit (u32 (Z.lor v (Z.shiftl 0x1 k))) i = if bool_decide (i = k) then true else Z.testbit v i.
Proof.
  intros. rewrite u32_testbit, Z.lor_spec, testbit_pow2 by lia. case_bool_decide; [apply orb_true_r | apply orb_false_r].
Qed.

Lemma clear_bit_testbit v k i : 0 ≤ k → 0 ≤ i < 32 →
  Z.testbit (u32 (Z.land v (not32 (Z.shiftl 0x1 k)))) i = if bool_decide (i = k) then false else Z.testbit v i.
Proof.
  intros. rewrite u32_testbit, Z.land_spec, not32_testbit, testbit_pow2 by lia.
  case_bool_decide; [apply andb_false_r | apply andb_true_r].
Qed.

(** ** What matters of a port *)

(** The bits last written for SCL and SDA, whether SDA is an output, and the
    chip.  SCL is an output throughout. *)
Record view (D : Type) := View {
  v_scl : bool;
  v_sda : bool;
  v_out : bool;
  v_dev : D;
}.
Arguments View {D}.
Arguments v_scl {D}.
Arguments v_sda {D}.
Arguments v_out {D}.
Arguments v_dev {D}.

Section link.
Context {D : Type} `{I2CDevice D} (other : Z → bool) (p : pins).
Implicit Types (s : port D) (v : view D) (d : D).

Definition v_line v : bool := (if v_out v then v_sda v else true) && released (v_dev v).

Definition v_drive v v' : view D :=
  match edge (v_scl v) (v_line v) (v_scl v') (v_line v') with
  | Some e => View (v_scl v') (v_sda v') (v_out v') (react e (v_dev v'))
  | None => v'
  end.

(** A write of SCL also writes back the level of SDA read when SDA is an input. *)
Definition set_scl (b : bool) v : view D :=
  v_drive v (View b (if v_out v then v_sda v else v_line v) (v_out v) (v_dev v)).
Definition set_sda (b : bool) v : view D := v_drive v (View (v_scl v) b (v_out v) (v_dev v)).
Definition set_out (o : bool) v : view D := v_drive v (View (v_scl v) (v_sda v) o (v_dev v)).

Definition pins_ok : Prop := 0 ≤ scl p < 8 ∧ 0 ≤ sda p < 8 ∧ scl p ≠ sda p.

(** The other pins of the port keep their direction and what they output. *)
Definition keeps_pins (s0 s : port D) : Prop :=
  ∀ i, 0 ≤ i < 8 → i ≠ scl p → i ≠ sda p →
    is_output (con s) i = is_output (con s0) i ∧
    (is_output (con s0) i = true → Z.testbit (dat s) i = Z.testbit (dat s0) i).

Definition keeps (s0 s : port D) : Prop := pud s = pud s0 ∧ keeps_pins s0 s.

Record sees (s0 s : port D) (v : view D) : Prop := {
  sees_scl_out : is_output (con s) (scl p) = true;
  sees_sda_out : is_output (con s) (sda p) = v_out v;
  sees_scl : Z.testbit (dat s) (scl p) = v_scl v;
  sees_sda : Z.testbit (dat s) (sda p) = v_sda v;
  sees_dev : dev s = v_dev v;
  sees_keeps : keeps s0 s;
}.

(** The code [c] acts on views as [f]. *)
Definition sim (c : prog (port D) unit) (f : view D → view D) : Prop :=
  ∀ s0 s v, sees s0 s v → wp c (λ _ s', sees s0 s' (f v)) s.

Lemma sim_bind c k f g : sim c f → sim k g → sim (c;; k) (λ v, g (f v)).
Proof.
  intros Hc Hk s0 s v Hs. apply wp_bind. eapply wp_mono; [by apply Hc |].
  intros u s' Hs'. cbn beta in Hs' |- *. by apply Hk.
Qed.

Lemma sim_delay : sim Delay (λ v, v).
Proof. intros s0 s v Hs. by apply (wp_for_do _ _ _ (λ _ s, sees s0 s v)). Qed.

Context (Hp : pins_ok).

Lemma sees_lines s0 s v : sees s0 s v → scl_line p s = v_scl v ∧ sda_line p s = v_line v.
Proof.
  intros []. unfold scl_line, sda_line, v_line.
  rewrite sees_scl_out0, sees_sda_out0, sees_dev0, sees_sda0. by split.
Qed.

Lemma sees_level s0 s v i : sees s0 s v → 0 ≤ i < 8 →
  Z.testbit (word_of (level other p s) 8) i =
  if bool_decide (i = scl p) then v_scl v
  else if bool_decide (i = sda p) then (if v_out v then v_sda v else v_line v)
  else level other p s i.
Proof.
  intros Hs Hi. destruct (sees_lines _ _ _ Hs) as [Hc Ha]. destruct Hs.
  rewrite word_of_testbit by lia. rewrite bool_decide_eq_true_2 by lia. cbn [andb].
  destruct Hp as (_ & _ & Hne).
  repeat case_bool_decide; subst; unfold level; try done.
  - by rewrite sees_scl_out0.
  - rewrite sees_sda_out0. destruct (v_out v); [done |].
    destruct (Z.eqb_spec (sda p) (scl p)); [congruence |]. by rewrite Z.eqb_refl.
Qed.

(** A write that leaves the chip alone moves the view along with the lines. *)
Lemma sees_drive s0 s v s' v' :
  sees s0 s v → sees s0 s' v' → sees s0 (drive p s s') (v_drive v v').
Proof.
  intros Hs Hs'. destruct (sees_lines _ _ _ Hs) as [E1 E2]. destruct (sees_lines _ _ _ Hs') as [E3 E4].
  unfold drive, v_drive. rewrite E1, E2, E3, E4. destruct (edge _ _ _ _) as [e|]; [| done].
  destruct Hs' as [? ? ? ? -> ?]. by split.
Qed.

(** The data register after one of its bits is set or cleared. *)
Lemma sees_write_dat s0 s v w v' :
  sees s0 s v →
  Z.testbit (u32 w) (scl p) = v_scl v' → Z.testbit (u32 w) (sda p) = v_sda v' →
  v_out v' = v_out v → v_dev v' = v_dev v →
  (∀ i, 0 ≤ i < 8 → i ≠ scl p → i ≠ sda p → Z.testbit (u32 w) i = level other p s i) →
  wp (write_dat p w) (λ _ s', sees s0 s' (v_drive v v')) s.
Proof.
  intros Hs Hc Ha Ho Hd Hother. unfold wp, write_dat. apply sees_drive; [done |].
  destruct Hs as [? ? ? ? ? [? Hk]]. split; cbn; try done; try congruence.
  split; [done |]. intros i Hi H1 H2. destruct (Hk i Hi H1 H2) as [Hk1 Hk2]. split; [done |].
  intros Hout. cbn. rewrite (Hother i Hi H1 H2). unfold level. rewrite Hk1, Hout. auto.
Qed.

Lemma sees_write_con s0 s v w o :
  sees s0 s v →
  is_output (u32 w) (scl p) = true → is_output (u32 w) (sda p) = o →
  (∀ i, 0 ≤ i < 8 → i ≠ scl p → i ≠ sda p → is_output (u32 w) i = is_output (con s) i) →
  wp (write_con p w) (λ _ s', sees s0 s' (set_out o v)) s.
Proof.
  intros Hs Hc Ha Hother. unfold wp, write_con. apply sees_drive; [done |].
  destruct Hs as [? ? ? ? ? [? Hk]]. split; cbn; try done.
  split; [done |]. intros i Hi H1 H2. destruct (Hk i Hi H1 H2) as [Hk1 Hk2]. cbn.
  rewrite (Hother i Hi H1 H2). auto.
Qed.

(** The macros act on the view. *)
Ltac dat_macro :=
  intros s0 s v Hs; apply wp_bind; cbn -[wp]; destruct Hp as (Hp1 & Hp2 & Hp3);
  apply wp_intro with (a := word_of (level other p s) 8) (s' := s); [done |];
  apply sees_write_dat; [done | | | done | done |];
  [.. | intros i Hi H1 H2];
  rewrite ?set_bit_testbit, ?clear_bit_testbit by lia;
  rewrite ?(sees_level s0 s v) by (done || lia);
  repeat case_bool_decide; (done || congruence || (destruct Hs; cbn; congruence)).

Lemma sim_scl_hi : sim (ESCL_Hi other p) (set_scl true).
Proof. dat_macro. Qed.

Lemma sim_scl_lo : sim (ESCL_Lo other p) (set_scl false).
Proof. dat_macro. Qed.

Lemma sim_sda_hi : sim (ESDA_Hi other p) (set_sda true).
Proof. dat_macro. Qed.

Lemma sim_sda_lo : sim (ESDA_Lo other p) (set_sda false).
Proof. dat_macro. Qed.

Ltac con_macro :=
  intros s0 s v Hs; apply wp_bind; destruct Hp as (Hp1 & Hp2 & Hp3);
  apply wp_intro with (a := con s) (s' := s); [done |];
  apply sees_write_con; [done | ..]; [.. | intros i Hi H1 H2];
  rewrite ?is_output_set, ?is_output_clear by lia;
  destruct Hs; rewrite ?bool_decide_eq_true_2, ?bool_decide_eq_false_2 by done; done.

Lemma sim_sda_inp : sim (ESDA_INP p) (set_out false).
Proof. con_macro. Qed.

Lemma sim_sda_outp : sim (ESDA_OUTP p) (set_out true).
Proof. con_macro. Qed.

(** ** Equations of the view *)

Lemma v_drive_same v v' : v_scl v = v_scl v' → v_line v = v_line v' → v_drive v v' = v'.
Proof. unfold v_drive. intros -> ->. unfold edge. by destruct (v_scl v'), (v_line v'). Qed.

Lemma set_scl_same c a d : set_scl c (View c a true d) = View c a true d.
Proof. by apply v_drive_same. Qed.
Lemma set_scl_rise a d :
  set_scl true (View false a true d) = View true a true (react (Rise (a && released d)) d).
Proof. done. Qed.
Lemma set_scl_fall a o d :
  set_scl false (View true a o d) = View false (if o then a else released d) o (react Fall d).
Proof. by destruct o. Qed.
Lemma set_scl_in_same c a d : set_scl c (View c a false d) = View c (released d) false d.
Proof. by apply v_drive_same. Qed.
Lemma set_scl_in_rise a d :
  set_scl true (View false a false d) = View true (released d) false (react (Rise (released d)) d).
Proof. done. Qed.

Lemma set_sda_same c a o d : set_sda a (View c a o d) = View c a o d.
Proof. by apply v_drive_same. Qed.
Lemma set_sda_low b a o d : set_sda b (View false a o d) = View false b o d.
Proof. done. Qed.
Lemma set_sda_stop d :
  set_sda true (View true false true d) = View true true true (if released d then react Stop d else d).
Proof. unfold set_sda, v_drive, v_line. cbn. by destruct (released d). Qed.
Lemma set_sda_start d :
  set_sda false (View true true true d) = View true false true (if released d then react Start d else d).
Proof. unfold set_sda, v_drive, v_line. cbn. by destruct (released d). Qed.

Lemma set_out_low o a o' d : set_out o (View false a o' d) = View false a o d.
Proof. done. Qed.
Lemma set_out_take d : set_out true (View true (released d) false d) = View true (released d) true d.
Proof. apply v_drive_same; [done |]. unfold v_line. cbn. by destruct (released d). Qed.
Lemma set_out_give d : set_out false (View true true true d) = View true true false d.
Proof. by apply v_drive_same. Qed.

Context `{!I2CDeviceLaws D}.

Lemma set_out_take_rise b d :
  set_out true (View true (released d) false (react (Rise b) d)) =
  View true (released d) true (react (Rise b) d).
Proof. rewrite <- (released_rise b d). apply set_out_take. Qed.

Lemma set_scl_in_rise_same c b d :
  set_scl c (View c (released d) false (react (Rise b) d)) =
  View c (released d) false (react (Rise b) d).
Proof. rewrite <- (released_rise b d) at 2. apply set_scl_in_same. Qed.

Hint Rewrite set_scl_same set_scl_rise set_scl_fall set_scl_in_rise_same set_scl_in_same set_scl_in_rise
  set_sda_same set_sda_low set_sda_stop set_sda_start set_out_low set_out_give set_out_take set_out_take_rise : bus.
Hint Resolve sim_delay sim_scl_hi sim_scl_lo sim_sda_hi sim_sda_lo sim_sda_inp sim_sda_outp : bus.

(** The code [c] takes a port seen as [v] to one seen as [v']. *)
Definition takes (c : prog (port D) unit) (v v' : view D) : Prop :=
  ∀ s0 s, sees s0 s v → wp c (λ _ s', sees s0 s' v') s.

Lemma takes_sim c f v v' : sim c f → f v = v' → takes c v v'.
Proof. intros Hc <- s0 s Hs. by apply Hc. Qed.

Lemma takes_bind c k v v1 v' : takes c v v1 → takes k v1 v' → takes (c;; k) v v'.
Proof.
  intros Hc Hk s0 s Hs. apply wp_bind. eapply wp_mono; [by apply Hc |].
  intros u s' Hs'. cbn beta in Hs' |- *. by apply Hk.
Qed.

(** A read of the data register whose result is not used. *)
Lemma takes_read_dat k v v' : takes k v v' → takes (read_dat other p;; k) v v'.
Proof. intros Hk s0 s Hs. apply wp_bind. by apply Hk. Qed.

(** Runs straight-line code on a view, one pin access after the other. *)
Ltac bus_run :=
  lazymatch goal with
  | |- takes (bind (read_dat _ _) _) _ _ => apply takes_read_dat; bus_run
  | |- takes (bind _ _) _ _ => eapply takes_bind; [bus_run | bus_run]
  | |- takes _ _ _ =>
      eapply takes_sim; [solve [auto with bus nocore] | autorewrite with bus; reflexivity]
  end.

Lemma takes_eq c v v1 v' : takes c v v1 → v1 = v' → takes c v v'.
Proof. by intros ? <-. Qed.

Ltac bus_code := eapply takes_eq; [bus_run | unfold link_start, link_stop, link_bit; cbn; rewrite ?released_rise; reflexivity].

Lemma takes_ELow a d :
  takes (ELow other p) (View false a true d) (View false false true (link_bit false d)).
Proof. unfold ELow, SCLL_SDAL, SCLH_SDAL. bus_code. Qed.

Lemma takes_EHigh a d :
  takes (EHigh other p) (View false a true d) (View false true true (link_bit true d)).
Proof. unfold EHigh, SCLL_SDAH, SCLH_SDAH. bus_code. Qed.

Lemma takes_EStart d :
  takes (EStart other p) (View true true true d) (View false false true (link_start d)).
Proof. unfold EStart, SCLL_SDAL, SCLH_SDAL, SCLH_SDAH. bus_code. Qed.

Lemma takes_EStart_again d :
  takes (EStart other p) (View false false true d) (View false false true (link_start (link_stop d))).
Proof. unfold EStart, SCLL_SDAL, SCLH_SDAL, SCLH_SDAH. bus_code. Qed.

Lemma takes_EEnd a d :
  takes (EEnd other p) (View false a true d) (View true true true (link_stop d)).
Proof. unfold EEnd, SCLL_SDAL, SCLH_SDAL, SCLH_SDAH. bus_code. Qed.

Lemma takes_EAck_read a d :
  takes (EAck_read other p) (View false a false d) (View false false false (link_bit true d)).
Proof. unfold EAck_read, SCLL_SDAL. bus_code. Qed.

Lemma takes_EAck_write a d :
  takes (EAck_write other p) (View false a true d) (View false false true (link_bit true d)).
Proof. unfold EAck_write, SCLL_SDAL. bus_code. Qed.

(** ** Bytes *)

(** The clock is low, the master drives SDA, to either level. *)
Definition low (s0 s : port D) (d : D) : Prop := ∃ a, sees s0 s (View false a true d).

Lemma wp_takes c v v' s0 s Q :
  takes c v v' → sees s0 s v → (∀ s', sees s0 s' v' → Q tt s') → wp c Q s.
Proof. intros Hc Hs HQ. eapply wp_mono; [by apply Hc |]. intros [] s'. apply HQ. Qed.

Lemma send_bit_low (x i : Z) s0 s d :
  0 ≤ i → low s0 s d →
  wp (send_bit other p x i) (λ _ s', low s0 s' (link_bit (Z.testbit x i) d)) s.
Proof.
  intros Hi [a Hs]. unfold send_bit. rewrite land_1_testbit by done.
  destruct (Z.testbit x i); cbn [Z.b2z Z.eqb].
  - eapply wp_takes; [apply takes_EHigh | exact Hs |]. intros s' Hs'. by eexists.
  - eapply wp_takes; [apply takes_ELow | exact Hs |]. intros s' Hs'. by eexists.
Qed.

Lemma send_bits_low x (g : Z → Z) n i s0 s d :
  (∀ k, i ≤ k < i + Z.of_nat n → 0 ≤ g k) → low s0 s d →
  wp (for_from n i (λ k _, send_bit other p x (g k)) tt)
     (λ _ s', low s0 s' (link_bits (Z.testbit x <$> (g <$> seqZ i (Z.of_nat n))) d)) s.
Proof.
  revert i s d. induction n as [|n IH]; intros i s d Hg Hs; cbn [for_from]; [done |].
  apply wp_bind. eapply wp_mono; [apply send_bit_low; [apply Hg; lia | done] |].
  intros [] s' Hs'. cbn beta in Hs' |- *. rewrite seqZ_cons by lia.
  replace (Z.pred (Z.of_nat (S n))) with (Z.of_nat n) by lia. rewrite <- Z.add_1_r.
  apply IH; [| done]. intros k Hk. apply Hg. lia.
Qed.

Section continuations.
Context {A : Type} (k : prog (port D) A) (Q : A → port D → Prop).

(** A byte on the bus, followed by the acknowledge. *)
Lemma wp_ack s0 s d :
  low s0 s d →
  (∀ s', sees s0 s' (View false false true (link_bit true d)) → wp k Q s') →
  wp (EAck_write other p;; k) Q s.
Proof. intros [a Hs] Hk. apply wp_bind. eapply wp_takes; [apply takes_EAck_write | done | auto]. Qed.

Lemma wp_send_byte x s0 s d :
  low s0 s d →
  (∀ s', sees s0 s' (View false false true (link_byte (byte_bits x) d)) → wp k Q s') →
  wp (send_byte other p x;; EAck_write other p;; k) Q s.
Proof.
  intros Hs Hk. apply wp_bind.
  eapply wp_mono; [apply (send_bits_low x (λ k, 8 - k - 1) 8 0); [lia | done] |].
  intros u s' Hs'. cbn beta in Hs' |- *. eapply wp_ack; [exact Hs' | exact Hk].
Qed.

Lemma wp_send_chip c (rw : bool) s0 s d :
  low s0 s d →
  (∀ s', sees s0 s' (View false false true (link_byte (chip_bits c rw) d)) → wp k Q s') →
  wp (send_chip other p c;; (if rw then EHigh other p else ELow other p);; EAck_write other p;; k) Q s.
Proof.
  intros Hs Hk. apply wp_bind.
  eapply wp_mono; [apply (send_bits_low c (λ k, 7 - k) 7 0); [lia | done] |].
  intros u s' [a Hs']. cbn beta. apply wp_bind. unfold chip_bits, link_byte, link_bits in Hk.
  setoid_rewrite foldl_app in Hk.
  destruct rw.
  - eapply wp_takes; [apply takes_EHigh | exact Hs' |]. intros s'' Hs''.
    eapply wp_ack; [by eexists | exact Hk].
  - eapply wp_takes; [apply takes_ELow | exact Hs' |]. intros s'' Hs''.
    eapply wp_ack; [by eexists | exact Hk].
Qed.
End continuations.

(** ** Reading *)

(** The clock is low and SDA is left to the chip. *)
Definition listening (s0 s : port D) (d : D) : Prop := ∃ a, sees s0 s (View false a false d).

(** The next pin access of code that also computes. *)
Ltac bus_next s Hs :=
  apply wp_bind; eapply wp_takes; [| exact Hs |]; [bus_run |]; clear dependent s; intros s Hs.

Lemma read_bit_spec i data s0 s d :
  listening s0 s d →
  wp (read_bit other p i data)
     (λ r s', r = u8 (Z.lor data (Z.shiftl (Z.b2z (released d)) (i - 1))) ∧
              listening s0 s' (link_bit true d)) s.
Proof.
  intros [a Hs]. unfold read_bit.
  do 6 bus_next s Hs.
  apply wp_bind, (wp_intro _ _ _ (word_of (level other p s) 8) s); [done |].
  assert (Z.land (Z.shiftr (word_of (level other p s) 8) (sda p)) 1 = Z.b2z (released d)) as Hr.
  { destruct Hp as (? & ? & ?). rewrite land_1_testbit, (sees_level _ _ _ _ Hs) by lia.
    rewrite bool_decide_eq_false_2, bool_decide_eq_true_2 by congruence. unfold v_line. cbn. by rewrite ?released_rise. }
  rewrite Hr. clear Hr.
  do 6 bus_next s Hs.
  apply wp_ret. split; [done | by eexists].
Qed.

Lemma read_bits_spec n q s0 s d :
  (n ≤ 8)%nat → 0 ≤ q < 2 ^ (8 - Z.of_nat n) → listening s0 s d →
  wp (for_from n (8 - Z.of_nat n) (λ k data, read_bit other p (8 - k) data) (q * 2 ^ Z.of_nat n))
     (λ r s', r = q * 2 ^ Z.of_nat n + (link_receive n d).1 ∧
              listening s0 s' (link_receive n d).2) s.
Proof.
  revert q s d. induction n as [|n IH]; intros q s d Hn Hq Hs; cbn [for_from link_receive].
  { apply wp_ret. cbn. split; [lia | done]. }
  apply wp_bind. eapply wp_mono; [by apply read_bit_spec |]. intros r s' [Hr Hs']. subst r.
  rewrite Nat2Z.inj_succ in *. unfold Z.succ in *.
  replace (8 - (8 - (Z.of_nat n + 1)) - 1) with (Z.of_nat n) by lia.
  replace (8 - (Z.of_nat n + 1) + 1) with (8 - Z.of_nat n) by lia.
  rewrite lor_next_bit by lia.
  assert (2 ^ 8 = 2 ^ (8 - Z.of_nat n) * 2 ^ Z.of_nat n) as E8 by (rewrite <- Z.pow_add_r by lia; f_equal; lia).
  assert (2 ^ (8 - Z.of_nat n) = 2 ^ (8 - (Z.of_nat n + 1)) * 2) as E7.
  { replace (8 - Z.of_nat n) with (8 - (Z.of_nat n + 1) + 1) by lia. rewrite Z.pow_add_r by lia. done. }
  assert (q * 2 ^ (Z.of_nat n + 1) + Z.b2z (released d) * 2 ^ Z.of_nat n =
          (2 * q + Z.b2z (released d)) * 2 ^ Z.of_nat n) as -> by (rewrite Z.pow_add_r by lia; ring).
  assert (0 ≤ 2 * q + Z.b2z (released d) < 2 ^ (8 - Z.of_nat n)) as Hq'
    by (destruct (released d); cbn [Z.b2z]; lia).
  rewrite u8_small by (change 256 with (2 ^ 8); rewrite E8; nia).
  eapply wp_mono; [by apply IH; [lia | ..] |]. intros r s'' [-> Hs''].
  destruct (link_receive n (link_bit true d)) as [v' d']. cbn in *. split; [| done].
  rewrite Z.pow_add_r by lia. ring.
Qed.

(** ** Frames on the wires *)

Definition idle (d : D) : view D := View true true true d.

Lemma EWrite_link c x y s0 s d :
  sees s0 s (idle d) →
  wp (EWrite other p c x y) (λ _ s', sees s0 s' (idle (link_write c x y d))) s.
Proof.
  intros Hs. unfold EWrite. apply wp_bind. eapply wp_takes; [apply takes_EStart | exact Hs |].
  clear dependent s. intros s Hs. eapply (wp_send_chip _ _ c false); [by eexists |].
  clear dependent s. intros s Hs. eapply wp_send_byte; [by eexists |].
  clear dependent s. intros s Hs. eapply wp_send_byte; [by eexists |].
  clear dependent s. intros s Hs. eapply wp_takes; [apply takes_EEnd | exact Hs |]. auto.
Qed.

Lemma ERead_link c x s0 s d :
  sees s0 s (idle d) →
  wp (ERead other p c x) (λ r s', r = (link_read c x d).1 ∧ sees s0 s' (idle (link_read c x d).2)) s.
Proof.
  intros Hs. unfold ERead, link_read. apply wp_bind. eapply wp_takes; [apply takes_EStart | exact Hs |].
  clear dependent s. intros s Hs. eapply (wp_send_chip _ _ c false); [by eexists |].
  clear dependent s. intros s Hs. eapply wp_send_byte; [by eexists |].
  clear dependent s. intros s Hs. apply wp_bind. eapply wp_takes; [apply takes_EStart_again | exact Hs |].
  clear dependent s. intros s Hs. eapply (wp_send_chip _ _ c true); [by eexists |].
  clear dependent s. intros s Hs. do 4 bus_next s Hs.
  apply wp_bind. eapply wp_mono; [apply (read_bits_spec 8 0); [lia | lia | eexists; exact Hs] |].
  clear dependent s. intros r s [-> [a Hs]]. destruct (link_receive 8 _) as [v' d']. cbn [fst snd] in *.
  apply wp_bind. eapply wp_takes; [apply takes_EAck_read | exact Hs |].
  clear dependent s. intros s Hs. bus_next s Hs.
  apply wp_bind. eapply wp_takes; [apply takes_EEnd | exact Hs |]. intros s' Hs'. by apply wp_ret.
Qed.

(** ** Taking the bus *)

(** Nothing pulls a line down. *)
Definition lines_high (s : port D) : Prop := scl_line p s = true ∧ sda_line p s = true.

Lemma lines_high_released s : lines_high s → released (dev s) = true.
Proof. intros [_ E]. unfold sda_line in E. by apply andb_prop in E as [_ ?]. Qed.

Lemma lines_high_drive s s' : lines_high s → lines_high s' → drive p s s' = s'.
Proof. intros [E1 E2] [E3 E4]. unfold drive. by rewrite E1, E2, E3, E4. Qed.

Lemma lines_high_level s i :
  lines_high s → 0 ≤ i < 8 → i = scl p ∨ i = sda p → Z.testbit (word_of (level other p s) 8) i = true.
Proof.
  intros [E1 E2] Hi Hp'. rewrite word_of_testbit, bool_decide_eq_true_2 by lia. cbn [andb].
  unfold level, scl_line, sda_line in *. destruct Hp' as [-> | ->].
  - rewrite Z.eqb_refl. by destruct (is_output _ _).
  - apply andb_prop in E2 as [E2 E3]. destruct (is_output (con s) (sda p)); [done |].
    rewrite Z.eqb_refl, E3. by destruct (sda p =? scl p), (is_output _ (scl p)).
Qed.

(** The port with both bits of the bus written, its lines high. *)
Definition raised (s0 s : port D) : Prop :=
  lines_high s ∧ Z.testbit (dat s) (scl p) = true ∧ Z.testbit (dat s) (sda p) = true ∧
  dev s = dev s0 ∧ pud s = pud s0 ∧ keeps_pins s0 s.

Lemma lines_high_raised (s : port D) c x u :
  released (dev s) = true → Z.testbit x (scl p) = true → Z.testbit x (sda p) = true →
  lines_high (Port c x u (dev s)).
Proof.
  intros Hr H1 H2. unfold lines_high, scl_line, sda_line. cbn. rewrite H1, H2, Hr.
  by destruct (is_output c (scl p)), (is_output c (sda p)).
Qed.

Lemma raise_dat s0 s k :
  k = scl p ∨ k = sda p → lines_high s → dev s = dev s0 → pud s = pud s0 → keeps_pins s0 s →
  wp (let* w := read_dat other p in write_dat p (Z.lor w (Z.shiftl 1 k))) (λ _, raised s0) s.
Proof.
  intros Hk Hl Hd Hu Hkeep. destruct Hp as (Hp1 & Hp2 & Hp3).
  assert (0 ≤ k < 8) by (destruct Hk; subst; lia).
  assert (released (dev s) = true) as Hr by (by apply lines_high_released).
  apply wp_bind, (wp_intro _ _ _ (word_of (level other p s) 8) s); [done |]. unfold wp, write_dat.
  set (x := u32 (Z.lor _ _)).
  assert (∀ i, 0 ≤ i < 8 → i = scl p ∨ i = sda p → Z.testbit x i = true) as Hx.
  { intros i Hi Hor. unfold x. rewrite set_bit_testbit by lia. case_bool_decide; [done |].
    by apply lines_high_level. }
  rewrite lines_high_drive; [| done | by apply lines_high_raised; auto].
  split_and!; cbn; auto; [by apply lines_high_raised; auto |].
  intros i Hi H1 H2. destruct (Hkeep i Hi H1 H2) as [Hk1 Hk2]. split; [done |]. intros Hout. cbn. unfold x.
  rewrite set_bit_testbit, bool_decide_eq_false_2 by (destruct Hk; subst; lia || done).
  rewrite word_of_testbit, bool_decide_eq_true_2 by lia. cbn [andb]. unfold level.
  rewrite Hk1, Hout. auto.
Qed.

Lemma raise_con s0 s k :
  k = scl p ∨ k = sda p → raised s0 s →
  wp (let* w := read_con in
      write_con p (Z.lor (Z.land w (not32 (Z.shiftl 0xf (4 * k)))) (Z.shiftl 0x1 (4 * k))))
     (λ _ s', raised s0 s' ∧ is_output (con s') k = true ∧
              (∀ i, 0 ≤ i < 8 → is_output (con s) i = true → is_output (con s') i = true)) s.
Proof.
  intros Hk (Hl & H1 & H2 & Hd & Hu & Hkeep). destruct Hp as (Hp1 & Hp2 & Hp3).
  assert (0 ≤ k < 8) by (destruct Hk; subst; lia).
  assert (released (dev s) = true) as Hr by (by apply lines_high_released).
  apply wp_bind, (wp_intro _ _ _ (con s) s); [done |]. unfold wp, write_con.
  rewrite lines_high_drive; [| done | by apply lines_high_raised].
  split_and!; cbn; auto.
  - split_and!; auto; [by apply lines_high_raised |]. intros i Hi N1 N2. cbn.
    rewrite is_output_set, bool_decide_eq_false_2 by (destruct Hk; subst; lia || done). by apply Hkeep.
  - by rewrite is_output_set, bool_decide_eq_true_2 by (lia || done).
  - intros i Hi Ho. rewrite is_output_set, Ho by lia. apply orb_true_r.
Qed.

(** The set-up of the pins leaves the bus idle without showing the chip anything. *)
Lemma ESetport_spec mask s :
  lines_high s →
  wp (ESetport other p mask) (λ _ s', ∃ s0,
    s0 = Port (con s) (dat s) (u32 (Z.land (pud s) (not32 mask))) (dev s) ∧
    sees s0 s' (idle (dev s))) s.
Proof.
  intros Hl. unfold ESetport. apply wp_bind, wp_bind, (wp_intro _ _ _ (pud s) s); [done |].
  set (s0 := Port _ _ _ _). apply (wp_intro _ _ _ tt s0); [done |].
  assert (lines_high s0) as Hl0 by done.
  apply wp_bind. eapply wp_mono; [apply (raise_dat s0 s0 (scl p)); [by left | done..] |].
  intros [] s1 (Hl1 & _ & _ & Hd1 & Hu1 & Hk1).
  apply wp_bind. eapply wp_mono; [apply (raise_dat s0 s1 (sda p)); [by right | done..] |].
  intros [] s2 Hs2. apply wp_bind. eapply wp_mono; [apply (raise_con s0 s2 (scl p)); [by left | done] |].
  intros [] s3 (Hs3 & Hscl & _).
  apply wp_bind. eapply wp_mono; [apply (raise_con s0 s3 (sda p)); [by right | done] |].
  intros [] s4 ((_ & H1 & H2 & Hd & Hu & Hk) & Hsda & Hmono). destruct Hp as (Hp1 & Hp2 & Hp3).
  apply (wp_for_do _ _ _ (λ _ s, s = s4)); [done | done | by intros ? ? _ -> |].
  intros s' ->. exists s0. split; [done |]. split; auto. by split.
Qed.
End link.

(** ** The code and the frames *)

Section theorems.
Context {D : Type} `{!I2CDevice D, !I2CDeviceLaws D} (other : Z → bool) (p : pins).

(** C30: [EWrite] on any bus shows the chip on it, whatever the chip does,
    exactly a write frame: start, the chip address with the write bit, the
    register, the data, each byte most significant bit first and followed by
    a clock pulse with the data line released, and stop.  It leaves the bus
    idle and the other pins of the port as they were. *)
Theorem EWrite_correct ChipId IicAddr IicData (s : port D) :
  pins_ok p → sees p s s (idle (dev s)) →
  wp (EWrite other p ChipId IicAddr IicData)
     (λ _ s', sees p s s' (idle (link_write ChipId IicAddr IicData (dev s)))) s.
Proof. intros Hp Hs. by apply EWrite_link. Qed.

(** C31: [ERead] on any bus shows the chip on it exactly the two frames of a
    read, the register address in a write frame and, after a stop and a start,
    the chip address with the read bit and eight clock pulses with the data
    line released, and returns the byte that the chip puts on the line during
    those pulses. *)
Theorem ERead_correct ChipId IicAddr (s : port D) :
  pins_ok p → sees p s s (idle (dev s)) →
  wp (ERead other p ChipId IicAddr)
     (λ v s', v = (link_read ChipId IicAddr (dev s)).1 ∧
              sees p s s' (idle (link_read ChipId IicAddr (dev s)).2)) s.
Proof. intros Hp Hs. by apply ERead_link. Qed.
End theorems.

(** A chip that only listens, and keeps what it saw. *)
Instance listener : I2CDevice (list event) := { released _ := true; react e l := l ++ [e] }.

Instance listener_laws : I2CDeviceLaws (list event).
Proof. done. Qed.

Definition listened_port : port (list event) := Port 0x11 0x3 0 [].

Lemma listened_port_idle : sees IIC0 listened_port listened_port (idle []).
Proof. by split. Qed.

(** Writing 0xA5 to register 0 of chip 0: the last data bit, the unanswered
    acknowledge and the stop. *)
Lemma EWrite_correct_witness :
  wp (EWrite (λ _, true) IIC0 0 0 0xA5)
     (λ _ s', drop 52 (dev s') = [Rise true; Fall; Rise true; Fall; Rise false; Stop]) listened_port.
Proof.
  eapply wp_mono.
  - apply (EWrite_correct (λ _, true) IIC0 0 0 0xA5 listened_port).
    + unfold pins_ok. cbn. lia.
    + exact listened_port_idle.
  - intros u s' Hs. rewrite (sees_dev _ _ _ _ Hs). by vm_compute.
Defined.

(** Nobody answers, and the line reads as ones. *)
Lemma ERead_correct_witness : wp (ERead (λ _, true) IIC0 0xCC 0) (λ v _, v = 0xff) listened_port.
Proof.
  eapply wp_mono.
  - apply (ERead_correct (λ _, true) IIC0 0xCC 0 listened_port).
    + unfold pins_ok. cbn. lia.
    + exact listened_port_idle.
  - intros v s' [-> _]. by vm_compute.
Defined.
