(* ===== verification/Chip.v ===== *)
(** * Chips with registers on the two-wire bus

    The power management chips behind [pmic.c] are targets of the bus with a
    file of eight-bit registers.  [RegisterChip] is what the driver relies on,
    in terms of the frames of [I2cLink]: a write frame to the chip's address
    stores a register, a read frame gives one, and a chip does not react to
    frames for other addresses, so that the released data line reads as ones.

    [chip] is such a chip at the level of the lines: a state machine that
    shifts in bits on the rising edges of the clock, acknowledges its address,
    keeps a register pointer, and shifts out a register on the falling edges.
    It discharges the interface, which shows that the interface can be met by
    a chip that sees no more than the edges. *)

From stdpp Require Import prelude.
From Stdlib Require Import ZArith Lia.
From S2P Require Import Prelude Prog I2c I2cLink.

Local Open Scope Z_scope.

(** ** What the driver relies on *)

(** The address is that of write frames, with the direction bit clear. *)
Class RegisterChip (D : Type) `{I2CDevice D} := {
  chip_address : D → Z;
  chip_reg : D → Z → Z;
  chip_ready : D → Prop;
}.

(** [addressed c d]: a frame for the chip identifier [c] is one for [d]. *)
Definition addressed `{RegisterChip D} (c : Z) (d : D) : bool := Z.land c 0xfe =? chip_address d.

(** The chip after some frames: as before, but for the registers given. *)
Record chip_after `{RegisterChip D} (d d' : D) (f : Z → Z) : Prop := {
  after_ready : chip_ready d';
  after_address : chip_address d' = chip_address d;
  after_reg r : chip_reg d' r = f r;
}.

Class RegisterChipLaws (D : Type) `{RegisterChip D} : Prop := {
  ready_released d : chip_ready d → released d = true;
  reg_byte d r : chip_ready d → in_u8 (chip_reg d r);
  chip_write c x y d :
    in_u8 c → in_u8 x → in_u8 y → chip_ready d →
    chip_after d (link_write c x y d)
      (λ r, if addressed c d && (r =? x) then y else chip_reg d r);
  chip_read c x d :
    in_u8 c → in_u8 x → chip_ready d →
    (link_read c x d).1 = (if addressed c d then chip_reg d x else 0xff) ∧
    chip_after d (link_read c x d).2 (chip_reg d);
}.

(** ** A chip as a state machine *)

Inductive chip_mode := Idle | Address | Pointer | Data | Send | Ignore.

Record chip := Chip {
  c_address : Z;
  c_regs : Z → Z;
  c_ptr : Z;
  c_mode : chip_mode;
  c_count : Z;
  c_shift : Z;
  c_low : bool;
}.

Definition with_state (d : chip) (m : chip_mode) (n sh : Z) (low : bool) : chip :=
  Chip (c_address d) (c_regs d) (c_ptr d) m n sh low.

(** Clock pulses one to eight of a byte shift a bit in; the ninth is the
    acknowledge, where a chip that sends sees whether to go on. *)
Definition chip_rise (b : bool) (d : chip) : chip :=
  let n := c_count d in
  match c_mode d with
  | Address | Pointer | Data =>
      if n <? 8 then with_state d (c_mode d) (n + 1) (2 * c_shift d + Z.b2z b) (c_low d)
      else with_state d (c_mode d) 9 (c_shift d) (c_low d)
  | Send =>
      if n <? 8 then with_state d Send (n + 1) (c_shift d) (c_low d)
      else if b then with_state d Ignore 0 0 (c_low d)
      else with_state d Send 9 (c_shift d) (c_low d)
  | Idle | Ignore => d
  end.

(** Start of a byte the chip sends. *)
Definition chip_load (d : chip) : chip :=
  let v := c_regs d (c_ptr d) in with_state d Send 0 v (negb (Z.testbit v 7)).

Definition chip_fall (d : chip) : chip :=
  let n := c_count d in
  let sh := c_shift d in
  match c_mode d with
  | Address =>
      if n =? 8 then
        if Z.land sh 0xfe =? c_address d then with_state d Address n sh true
        else with_state d Ignore 0 0 false
      else if n =? 9 then if Z.odd sh then chip_load d else with_state d Pointer 0 0 false
      else d
  | Pointer =>
      if n =? 8 then Chip (c_address d) (c_regs d) sh Pointer n sh true
      else if n =? 9 then with_state d Data 0 0 false
      else d
  | Data =>
      if n =? 8 then
        Chip (c_address d) (λ r, if r =? c_ptr d then sh else c_regs d r) (u8 (c_ptr d + 1)) Data n sh true
      else if n =? 9 then with_state d Data 0 0 false
      else d
  | Send =>
      if n <? 8 then with_state d Send n sh (negb (Z.testbit sh (7 - n)))
      else if n =? 8 then with_state d Send n sh false
      else chip_load (Chip (c_address d) (c_regs d) (u8 (c_ptr d + 1)) Send n sh (c_low d))
  | Idle | Ignore => with_state d (c_mode d) (c_count d) (c_shift d) false
  end.

Instance chip_device : I2CDevice chip := {
  released d := negb (c_low d);
  react e d :=
    match e with
    | Start => with_state d Address 0 0 false
    | Stop => with_state d Idle 0 0 false
    | Rise b => chip_rise b d
    | Fall => chip_fall d
    end;
}.

Instance chip_device_laws : I2CDeviceLaws chip.
Proof.
  split. intros b d. cbn. unfold chip_rise, with_state.
  destruct (c_mode d); repeat case_match; done.
Qed.

Instance chip_registers : RegisterChip chip := {
  chip_address := c_address;
  chip_reg := c_regs;
  chip_ready d := c_mode d = Idle ∧ c_low d = false ∧ ∀ r, in_u8 (c_regs d r);
}.

(** ** Bytes as the chip takes them *)

Definition receiving (m : chip_mode) : Prop := m = Address ∨ m = Pointer ∨ m = Data.

Lemma link_bit_receive b a r q m n sh :
  receiving m → 0 ≤ n < 7 →
  link_bit b (Chip a r q m n sh false) = Chip a r q m (n + 1) (2 * sh + Z.b2z b) false.
Proof.
  intros Hm Hn. unfold link_bit. cbn. rewrite andb_true_r. unfold chip_rise; cbn.
  rewrite (proj2 (Z.ltb_lt n 8)) by lia.
  destruct Hm as [-> | [-> | ->]]; unfold chip_fall; cbn;
    rewrite (proj2 (Z.eqb_neq _ 8)), (proj2 (Z.eqb_neq _ 9)) by lia; done.
Qed.

Lemma link_bit_receive_last b a r q m sh :
  receiving m →
  link_bit b (Chip a r q m 7 sh false) = chip_fall (Chip a r q m 8 (2 * sh + Z.b2z b) false).
Proof.
  intros Hm. unfold link_bit. cbn. rewrite andb_true_r. by destruct Hm as [-> | [-> | ->]].
Qed.

(** The number eight bits stand for. *)
Definition bits_value (l : list bool) : Z := foldl (λ sh b, 2 * sh + Z.b2z b) 0 l.

Lemma link_bits_receive l a r q m :
  receiving m → length l = 8%nat →
  link_bits l (Chip a r q m 0 0 false) = chip_fall (Chip a r q m 8 (bits_value l) false).
Proof.
  intros Hm Hl. do 8 (destruct l as [|? l]; [done |]). destruct l; [| done].
  unfold link_bits. cbn [foldl].
  rewrite 7!link_bit_receive by (done || lia). cbn [Z.add Pos.add Pos.succ].
  by rewrite link_bit_receive_last.
Qed.

(** A fact on bytes, by trying them all. *)
Lemma byte_forall (f : Z → bool) x : forallb f (seqZ 0 256) = true → in_u8 x → f x = true.
Proof.
  intros Hf Hx. rewrite forallb_forall in Hf. apply Hf, list_elem_of_In, elem_of_seqZ.
  unfold in_u8 in Hx. lia.
Qed.

Lemma byte_bits_value x : in_u8 x → bits_value (byte_bits x) = x.
Proof.
  intros Hx. apply Z.eqb_eq, (byte_forall (λ x, bits_value (byte_bits x) =? x)); [by vm_compute | done].
Qed.

Lemma chip_bits_value c rw : in_u8 c → bits_value (chip_bits c rw) = Z.land c 0xfe + Z.b2z rw.
Proof.
  intros Hc. apply Z.eqb_eq, (byte_forall (λ c, bits_value (chip_bits c rw) =? Z.land c 0xfe + Z.b2z rw)); [| done].
  destruct rw; by vm_compute.
Qed.

Lemma chip_bits_address c rw :
  in_u8 c → Z.land (Z.land c 0xfe + Z.b2z rw) 0xfe = Z.land c 0xfe ∧ Z.odd (Z.land c 0xfe + Z.b2z rw) = rw.
Proof.
  intros Hc. split.
  - apply Z.eqb_eq, (byte_forall (λ c, Z.land (Z.land c 0xfe + Z.b2z rw) 0xfe =? Z.land c 0xfe)); [| done].
    destruct rw; by vm_compute.
  - apply eqb_prop, (byte_forall (λ c, Bool.eqb (Z.odd (Z.land c 0xfe + Z.b2z rw)) rw)); [| done].
    destruct rw; by vm_compute.
Qed.

(** ** Frames as the chip takes them *)

Lemma link_start_ready d :
  chip_ready d → link_start d = Chip (c_address d) (c_regs d) (c_ptr d) Address 0 0 false.
Proof. intros (Hm & Hl & _). unfold link_start. cbn. by rewrite Hl. Qed.

Lemma link_byte_address c rw a r q :
  in_u8 c →
  link_byte (chip_bits c rw) (Chip a r q Address 0 0 false) =
  if Z.land c 0xfe =? a then
    if rw then chip_load (Chip a r q Address 0 0 false) else Chip a r q Pointer 0 0 false
  else Chip a r q Ignore 0 0 false.
Proof.
  intros Hc. unfold link_byte. rewrite link_bits_receive by (done || by left).
  rewrite chip_bits_value by done. destruct (chip_bits_address c rw Hc) as [E1 E2].
  unfold chip_fall at 1. cbn. rewrite E1. destruct (_ =? a); [| done].
  unfold link_bit. cbn. rewrite E2. by destruct rw.
Qed.

Lemma link_byte_pointer x a r q :
  in_u8 x → link_byte (byte_bits x) (Chip a r q Pointer 0 0 false) = Chip a r x Data 0 0 false.
Proof.
  intros Hx. unfold link_byte. rewrite link_bits_receive by (done || by right; left).
  by rewrite byte_bits_value by done.
Qed.

Lemma link_byte_data y a r q :
  in_u8 y →
  link_byte (byte_bits y) (Chip a r q Data 0 0 false) =
  Chip a (λ i, if i =? q then y else r i) (u8 (q + 1)) Data 0 0 false.
Proof.
  intros Hx. unfold link_byte. rewrite link_bits_receive by (done || by right; right).
  by rewrite byte_bits_value by done.
Qed.

Lemma link_bits_ignore l a r q : link_bits l (Chip a r q Ignore 0 0 false) = Chip a r q Ignore 0 0 false.
Proof. induction l as [|b l IH]; [done |]. exact IH. Qed.

Lemma link_byte_ignore l a r q : link_byte l (Chip a r q Ignore 0 0 false) = Chip a r q Ignore 0 0 false.
Proof. unfold link_byte. by rewrite link_bits_ignore. Qed.

Lemma link_bit_send a r q n v low :
  0 ≤ n < 7 →
  link_bit true (Chip a r q Send n v low) = Chip a r q Send (n + 1) v (negb (Z.testbit v (6 - n))).
Proof.
  intros Hn. unfold link_bit. cbn. unfold chip_rise; cbn. rewrite (proj2 (Z.ltb_lt n 8)) by lia.
  unfold chip_fall; cbn. rewrite (proj2 (Z.ltb_lt (n + 1) 8)) by lia.
  by replace (7 - (n + 1)) with (6 - n) by lia.
Qed.

(** A chip that sends shows the bits of its register, then lets go. *)
Lemma link_receive_send a r q :
  in_u8 (r q) →
  link_receive 8 (chip_load (Chip a r q Address 0 0 false)) = (r q, Chip a r q Send 8 (r q) false).
Proof.
  intros Hr. pose proof (byte_bits_value (r q) Hr) as Hv.
  unfold chip_load, with_state. cbn [c_address c_regs c_ptr]. cbn [link_receive].
  rewrite 7!link_bit_send by lia. f_equal. cbn [released chip_device c_low]. rewrite !negb_involutive.
  repeat match goal with
  | |- context [6 - ?e] => let e' := eval compute in (6 - e) in change (6 - e) with e'
  | |- context [2 ^ Z.of_nat ?n] => let e' := eval compute in (2 ^ Z.of_nat n) in change (2 ^ Z.of_nat n) with e'
  end.
  unfold bits_value, byte_bits in Hv. cbn [fmap list_fmap foldl] in Hv. lia.
Qed.

Lemma link_write_chip c x y d :
  in_u8 c → in_u8 x → in_u8 y → chip_ready d →
  link_write c x y d =
  if addressed c d then
    Chip (c_address d) (λ i, if i =? x then y else c_regs d i) (u8 (x + 1)) Idle 0 0 false
  else Chip (c_address d) (c_regs d) (c_ptr d) Idle 0 0 false.
Proof.
  intros Hc Hx Hy Hd. unfold link_write, addressed. rewrite link_start_ready, link_byte_address by done.
  cbn [chip_address chip_registers]. destruct (_ =? c_address d).
  - by rewrite link_byte_pointer, link_byte_data by done.
  - by rewrite !link_byte_ignore.
Qed.

Lemma link_read_chip c x d :
  in_u8 c → in_u8 x → chip_ready d →
  link_read c x d =
  if addressed c d then (c_regs d x, Chip (c_address d) (c_regs d) x Idle 0 0 false)
  else (0xff, Chip (c_address d) (c_regs d) (c_ptr d) Idle 0 0 false).
Proof.
  intros Hc Hx Hd. destruct (Hd) as (_ & _ & Hr). unfold link_read, addressed.
  rewrite (link_start_ready d), link_byte_address by done.
  cbn [chip_address chip_registers]. destruct (_ =? c_address d) eqn:E.
  - rewrite link_byte_pointer by done.
    change (link_start (link_stop _)) with (Chip (c_address d) (c_regs d) x Address 0 0 false).
    by rewrite link_byte_address, E, link_receive_send by done.
  - rewrite link_byte_ignore.
    change (link_start (link_stop _)) with (Chip (c_address d) (c_regs d) (c_ptr d) Address 0 0 false).
    by rewrite link_byte_address, E by done.
Qed.

Instance chip_registers_laws : RegisterChipLaws chip.
Proof.
  split.
  - intros d (_ & Hl & _). cbn. by rewrite Hl.
  - intros d r (_ & _ & Hr). apply Hr.
  - intros c x y d Hc Hx Hy Hd. rewrite link_write_chip by done. destruct (Hd) as (_ & _ & Hr).
    destruct (addressed c d); split; cbn; auto.
    split_and!; [done | done |]. intros r. by destruct (r =? x).
  - intros c x d Hc Hx Hd. rewrite link_read_chip by done. destruct (Hd) as (_ & _ & Hr).
    by destruct (addressed c d).
Qed.
