(* ===== verification/Pmic.v ===== *)
(** * The power management chip: [pmic.c]

    [pmic_init] finds out which of three power management chips the board has
    and sets the core voltages through the bus of [I2c].  The chips are
    parameters with the behaviour of [Chip]'s interface; voltages, floating
    point numbers in the source, are numbers of millivolts here: each product
    of a configured voltage with 1000 or 100 rounds to a whole number in single
    precision, and the quotients that are passed on are whole numbers too. *)

From stdpp Require Import prelude.
From Stdlib Require Import ZArith Lia.
From S2P Require Import Prelude Prog I2c I2cLink Chip.

Local Open Scope Z_scope.

Inductive pmic_address := MAX8952_ADDR | MAX8997_ADDR | MAX77686_ADDR | S5M8767_ADDR.

Definition pmic_address_value (a : pmic_address) : Z :=
  match a with MAX8952_ADDR => 0xc0 | MAX8997_ADDR => 0xCC | MAX77686_ADDR => 0x12 | S5M8767_ADDR => 0xCC end.

Coercion pmic_address_value : pmic_address >-> Z.

Inductive pm_vdd :=
  | CONFIG_PM_VDD_ARM | CONFIG_PM_VDD_INT | CONFIG_PM_VDD_G3D | CONFIG_PM_VDD_MIF | CONFIG_PM_VDD_LDO14.

Definition pm_vdd_value (v : pm_vdd) : Z :=
  match v with
  | CONFIG_PM_VDD_ARM => 1200 | CONFIG_PM_VDD_INT => 1100 | CONFIG_PM_VDD_G3D => 1100
  | CONFIG_PM_VDD_MIF => 1100 | CONFIG_PM_VDD_LDO14 => 1800
  end.

Coercion pm_vdd_value : pm_vdd >-> Z.

Inductive PMIC_RegNum :=
  PMIC_BUCK1 | PMIC_BUCK2 | PMIC_BUCK3 | PMIC_BUCK4 | PMIC_LDO14 | PMIC_LDO10 | PMIC_LDO21.

(** The voltage codes, converted to [unsigned char] as they are passed on. *)
Definition CALC_MAXIM_BUCK1245_VOLT (x : Z) : Z := u8 (if x <? 650 then 0 else (x - 650) / 25).
Definition CALC_MAXIM_BUCK37_VOLT (x : Z) : Z := u8 (if x <? 750 then 0 else (x - 750) / 50).
Definition CALC_MAXIM_ALL_LDO (x : Z) : Z := u8 (if x <? 800 then 0 else (x - 800) / 50).
Definition CALC_MAXIM77686_BUCK156789_VOLT (x : Z) : Z := u8 (if x <? 750 then 0 else (x - 750) / 50).
Definition CALC_MAXIM77686_BUCK234_VOLT (x : Z) : Z := u8 (if x <? 600 then 0 else (x - 600) * 10 / 125).
Definition CALC_S5M8767_BUCK234_VOLT (x : Z) : Z := u8 (if x <? 600 then 0 else (x - 600) * 100 / 625).
Definition CALC_S5M8767_BUCK156_VOLT (x : Z) : Z := u8 (if x <? 650 then 0 else (x - 650) * 100 / 625).

Section settings.
Context {D : Type} `{I2CDevice D} (other : Z → bool).

(** A register number without an address makes the code loop for ever, which
    has no result here. *)
Definition max8997_vol_addr (eRegNum : PMIC_RegNum) : prog (port D) Z :=
  match eRegNum with
  | PMIC_BUCK1 => ret 0x19
  | PMIC_BUCK2 => ret 0x22
  | PMIC_BUCK3 => ret 0x2B
  | PMIC_BUCK4 => ret 0x2D
  | PMIC_LDO14 => ret 0x48
  | PMIC_LDO10 => ret 0x44
  | PMIC_LDO21 => fault
  end.

Definition max8997_enable_field (eRegNum : PMIC_RegNum) : prog (port D) (Z * Z) :=
  match eRegNum with
  | PMIC_BUCK1 => ret (0x18, 0)
  | PMIC_BUCK2 => ret (0x21, 0)
  | PMIC_BUCK3 => ret (0x2A, 0)
  | PMIC_BUCK4 => ret (0x2C, 0)
  | PMIC_LDO14 => ret (0x48, 0x6)
  | PMIC_LDO10 => ret (0x44, 0x6)
  | PMIC_LDO21 => fault
  end.

Definition I2C_MAX8997_EnableReg (eRegNum : PMIC_RegNum) (ucEnable : Z) : prog (port D) unit :=
  let* (reg_addr, reg_bitpos) := max8997_enable_field eRegNum in
  let* read_data := IIC0_ERead other MAX8997_ADDR reg_addr in
  let read_data :=
    u8 (Z.lor (Z.land read_data (Z.lnot (Z.shiftl 1 reg_bitpos))) (Z.shiftl ucEnable reg_bitpos)) in
  IIC0_EWrite other MAX8997_ADDR reg_addr read_data.

Definition I2C_MAX8997_VolSetting (eRegNum : PMIC_RegNum) (ucVolLevel ucEnable : Z) :
    prog (port D) unit :=
  let reg_bitpos := 0 in
  let reg_bitmask := 0x3F in
  let* reg_addr := max8997_vol_addr eRegNum in
  let vol_level := Z.land ucVolLevel reg_bitmask in
  let* read_data := IIC0_ERead other MAX8997_ADDR reg_addr in
  let read_data :=
    u8 (Z.lor (Z.land read_data (Z.lnot (Z.shiftl reg_bitmask reg_bitpos)))
              (Z.shiftl vol_level reg_bitpos)) in
  IIC0_EWrite other MAX8997_ADDR reg_addr read_data;;
  I2C_MAX8997_EnableReg eRegNum ucEnable.

Definition s5m8767_vol_addr (eRegNum : PMIC_RegNum) : prog (port D) Z :=
  match eRegNum with
  | PMIC_BUCK1 => ret 0x33
  | PMIC_BUCK2 => ret 0x35
  | PMIC_BUCK3 => ret 0x3E
  | PMIC_BUCK4 => ret 0x47
  | PMIC_LDO14 => ret 0x50
  | PMIC_LDO10 | PMIC_LDO21 => fault
  end.

Definition I2C_S5M8767_VolSetting (eRegNum : PMIC_RegNum) (ucVolLevel ucEnable : Z) :
    prog (port D) unit :=
  let reg_bitmask := 0xFF in
  let* reg_addr := s5m8767_vol_addr eRegNum in
  let vol_level := Z.land ucVolLevel reg_bitmask in
  IIC0_EWrite other S5M8767_ADDR reg_addr vol_level.
End settings.

(** ** The whole set-up *)

(** The ports GPD1 and GPA1, each with the chip on its bus, and the values
    written to the registers of GPL0, in order. *)
Record pmic_state (D0 D3 : Type) := PmicState {
  gpd1 : port D0;
  gpa1 : port D3;
  gpl0 : list (Z * Z);
}.
Arguments PmicState {D0 D3}.
Arguments gpd1 {D0 D3}.
Arguments gpa1 {D0 D3}.
Arguments gpl0 {D0 D3}.

Section init.
Context {D0 D3 : Type} `{I2CDevice D0} `{I2CDevice D3} (other_d1 other_a1 : Z → bool).

Definition on_gpd1 {A} (c : prog (port D0) A) : prog (pmic_state D0 D3) A := λ s,
  match c (gpd1 s) with
  | Some (a, g) => Some (a, PmicState g (gpa1 s) (gpl0 s))
  | None => None
  end.

Definition on_gpa1 {A} (c : prog (port D3) A) : prog (pmic_state D0 D3) A := λ s,
  match c (gpa1 s) with
  | Some (a, g) => Some (a, PmicState (gpd1 s) g (gpl0 s))
  | None => None
  end.

Definition write_gpl0 (addr v : Z) : prog (pmic_state D0 D3) unit := λ s,
  Some (tt, PmicState (gpd1 s) (gpa1 s) (gpl0 s ++ [(addr, v)])).

(** The three branches of [pmic_init], by the chip found. *)
Definition set_max8997 (vdd_arm vdd_int vdd_g3d vdd_mif vdd_ldo14 : Z) : prog (pmic_state D0 D3) unit :=
  on_gpd1 (I2C_MAX8997_VolSetting other_d1 PMIC_BUCK1 (CALC_MAXIM_BUCK1245_VOLT vdd_arm) 1);;
  on_gpd1 (I2C_MAX8997_VolSetting other_d1 PMIC_BUCK2 (CALC_MAXIM_BUCK1245_VOLT vdd_int) 1);;
  on_gpd1 (I2C_MAX8997_VolSetting other_d1 PMIC_BUCK3 (CALC_MAXIM_BUCK37_VOLT vdd_g3d) 1);;
  on_gpd1 (I2C_MAX8997_VolSetting other_d1 PMIC_LDO14 (CALC_MAXIM_ALL_LDO vdd_ldo14) 3);;
  on_gpa1 (IIC3_EWrite other_a1 MAX8952_ADDR 0x01 (u8 (Z.lor 0x80 (u8 (vdd_mif / 10) - 77)))).

Definition set_s5m8767 (vdd_arm vdd_int vdd_g3d vdd_mif : Z) : prog (pmic_state D0 D3) unit :=
  on_gpd1 (I2C_S5M8767_VolSetting other_d1 PMIC_BUCK1 (CALC_S5M8767_BUCK156_VOLT vdd_mif) 1);;
  on_gpd1 (I2C_S5M8767_VolSetting other_d1 PMIC_BUCK2 (CALC_S5M8767_BUCK234_VOLT vdd_arm) 1);;
  on_gpd1 (I2C_S5M8767_VolSetting other_d1 PMIC_BUCK3 (CALC_S5M8767_BUCK234_VOLT vdd_int) 1);;
  on_gpd1 (I2C_S5M8767_VolSetting other_d1 PMIC_BUCK4 (CALC_S5M8767_BUCK234_VOLT vdd_g3d) 1);;
  on_gpd1 (IIC0_EWrite other_d1 S5M8767_ADDR 0x5A 0x58).

Definition set_max77686 (vdd_arm vdd_int vdd_g3d vdd_mif : Z) : prog (pmic_state D0 D3) unit :=
  write_gpl0 0x110000c0 0x11111111;;
  write_gpl0 0x110000c4 0x7;;
  write_gpl0 0x110000c4 0x0;;
  write_gpl0 0x110000c4 0x7;;
  write_gpl0 0x110000c4 0x0;;
  write_gpl0 0x110000c0 0x0;;
  on_gpd1 (IIC0_EWrite other_d1 MAX77686_ADDR 0x11 (CALC_MAXIM77686_BUCK156789_VOLT vdd_mif));;
  on_gpd1 (IIC0_EWrite other_d1 MAX77686_ADDR 0x14 (CALC_MAXIM77686_BUCK234_VOLT vdd_arm));;
  on_gpd1 (IIC0_EWrite other_d1 MAX77686_ADDR 0x1E (CALC_MAXIM77686_BUCK234_VOLT vdd_int));;
  on_gpd1 (IIC0_EWrite other_d1 MAX77686_ADDR 0x28 (CALC_MAXIM77686_BUCK234_VOLT vdd_g3d)).

Definition pmic_init : prog (pmic_state D0 D3) unit :=
  let vdd_arm : Z := CONFIG_PM_VDD_ARM in
  let vdd_int : Z := CONFIG_PM_VDD_INT in
  let vdd_g3d : Z := CONFIG_PM_VDD_G3D in
  let vdd_mif : Z := CONFIG_PM_VDD_MIF in
  let vdd_ldo14 : Z := CONFIG_PM_VDD_LDO14 in
  on_gpd1 (IIC0_ESetport other_d1);;
  on_gpa1 (IIC3_ESetport other_a1);;
  let* read_data := on_gpd1 (IIC0_ERead other_d1 MAX8997_ADDR 0) in
  (if read_data =? 0x77 then set_max8997 vdd_arm vdd_int vdd_g3d vdd_mif vdd_ldo14
   else if (0 <=? read_data) && (read_data <=? 0x5) then set_s5m8767 vdd_arm vdd_int vdd_g3d vdd_mif
   else set_max77686 vdd_arm vdd_int vdd_g3d vdd_mif);;
  on_gpa1 (let* v := read_pud in write_pud (Z.lor v (Z.shiftl 0x5 4))).
End init.

(** ** Frames to a chip *)

Lemma IIC0_ok : pins_ok IIC0.
Proof. unfold pins_ok. cbn. lia. Qed.
Lemma IIC3_ok : pins_ok IIC3.
Proof. unfold pins_ok. cbn. lia. Qed.
#[export] Hint Resolve IIC0_ok IIC3_ok : bus.

(** The registers [f] of the chip with address [a] after a write frame. *)
Definition stored (a c x y : Z) (f : Z → Z) : Z → Z :=
  λ r, if (Z.land c 0xfe =? a) && (r =? x) then y else f r.

(** What a read frame gives. *)
Definition fetched (a c x : Z) (f : Z → Z) : Z := if Z.land c 0xfe =? a then f x else 0xff.

Section bus_chip.
Context {D : Type} `{!I2CDevice D, !I2CDeviceLaws D, !RegisterChip D, !RegisterChipLaws D}.
Context (other : Z → bool) (p : pins) (Hp : pins_ok p).

(** The bus is idle, with a chip of address [a] and registers [f] on it; the
    port is otherwise as in [s0]. *)
Definition bus_has (s0 s : port D) (a : Z) (f : Z → Z) : Prop :=
  ∃ d, sees p s0 s (idle d) ∧ chip_ready d ∧ chip_address d = a ∧ ∀ r, chip_reg d r = f r.

Lemma EWrite_chip c x y s0 s a f :
  in_u8 c → in_u8 x → in_u8 y → bus_has s0 s a f →
  wp (EWrite other p c x y) (λ _ s', bus_has s0 s' a (stored a c x y f)) s.
Proof.
  intros Hc Hx Hy (d & Hs & Hr & <- & Hf). eapply wp_mono; [by apply EWrite_link |].
  intros [] s' Hs'. destruct (chip_write c x y d Hc Hx Hy Hr) as [Hr' Ha' Hf'].
  exists (link_write c x y d). split_and!; [done.. |]. intros r. rewrite Hf'. unfold stored, addressed.
  by rewrite Hf.
Qed.

Lemma ERead_chip c x s0 s a f :
  in_u8 c → in_u8 x → bus_has s0 s a f →
  wp (ERead other p c x) (λ v s', v = fetched a c x f ∧ bus_has s0 s' a f) s.
Proof.
  intros Hc Hx (d & Hs & Hr & <- & Hf). eapply wp_mono; [by apply ERead_link |].
  intros v s' [-> Hs']. destruct (chip_read c x d Hc Hx Hr) as [Hv [Hr' Ha' Hf']]. split.
  - rewrite Hv. unfold fetched, addressed. by rewrite Hf.
  - exists (link_read c x d).2. split_and!; [done.. |]. intros r. by rewrite Hf', Hf.
Qed.

Lemma ESetport_chip mask s :
  lines_high p s → chip_ready (dev s) →
  wp (ESetport other p mask) (λ _ s',
    bus_has (Port (con s) (dat s) (u32 (Z.land (pud s) (not32 mask))) (dev s)) s'
            (chip_address (dev s)) (chip_reg (dev s))) s.
Proof.
  intros Hl Hr. eapply wp_mono; [by apply ESetport_spec |]. intros [] s' (s0 & -> & Hs).
  by exists (dev s).
Qed.

Lemma bus_has_after s0 s d f :
  bus_has s0 s (chip_address d) f →
  chip_after d (dev s) f ∧ lines_high p s ∧ keeps_pins p s0 s ∧ pud s = pud s0.
Proof.
  intros (d' & Hs & Hr & Ha & Hf). destruct (sees_lines _ _ _ _ Hs) as [E1 E2]. split_and!.
  - rewrite (sees_dev _ _ _ _ Hs). by split.
  - split; [done |]. rewrite E2. unfold v_line. cbn. by apply ready_released.
  - by destruct (sees_keeps _ _ _ _ Hs).
  - by destruct (sees_keeps _ _ _ _ Hs).
Qed.
End bus_chip.

(** Writing a register of a chip on any bus and reading it back gives the
    value written and changes no other register; a chip with another address
    keeps all its registers, the write goes unnoticed (the acknowledge bits are
    not looked at), and the read gives all ones. *)
Theorem write_read_roundtrip {D : Type}
    `{!I2CDevice D, !I2CDeviceLaws D, !RegisterChip D, !RegisterChipLaws D}
    (other : Z → bool) (p : pins) c x y (s : port D) :
  pins_ok p → in_u8 c → in_u8 x → in_u8 y →
  sees p s s (idle (dev s)) → chip_ready (dev s) →
  wp (EWrite other p c x y;; ERead other p c x) (λ v s',
    v = (if addressed c (dev s) then y else 0xff) ∧
    chip_after (dev s) (dev s')
      (λ r, if addressed c (dev s) && (r =? x) then y else chip_reg (dev s) r) ∧
    lines_high p s' ∧ keeps_pins p s s') s.
Proof.
  intros Hp Hc Hx Hy Hs Hr. set (d := dev s) in *.
  assert (bus_has p s s (chip_address d) (chip_reg d)) as Hb by by exists d.
  apply wp_bind. eapply wp_mono; [exact (EWrite_chip other p Hp c x y s s _ _ Hc Hx Hy Hb) |].
  intros [] s1 Hb1. eapply wp_mono; [exact (ERead_chip other p Hp c x s s1 _ _ Hc Hx Hb1) |].
  intros v s2 [-> Hb2]. split; [| by apply bus_has_after in Hb2 as (? & ? & ? & _)].
  unfold fetched, stored, addressed. by destruct (_ =? _); rewrite ?Z.eqb_refl.
Qed.

(** A chip at 0xCC on bus 3, and one that is not addressed. *)
Lemma write_read_roundtrip_witness :
  wp (EWrite (λ _, true) IIC3 0xCC 0x2B 0x40;; ERead (λ _, true) IIC3 0xCC 0x2B)
     (λ v _, v = 0x40) (Port 0x1100 0xC 0 (Chip 0xCC (λ _, 0) 0 Idle 0 0 false)) ∧
  wp (EWrite (λ _, true) IIC3 0xCC 0x2B 0x40;; ERead (λ _, true) IIC3 0xCC 0x2B)
     (λ v _, v = 0xff) (Port 0x1100 0xC 0 (Chip 0x12 (λ _, 0) 0 Idle 0 0 false)).
Proof.
  split; (eapply wp_mono; [eapply (write_read_roundtrip (λ _, true) IIC3); first [exact IIC3_ok | by repeat split] |]);
    by intros v s' (-> & _).
Defined.

(** ** Settings *)

(** Registers after a list of writes, the last one first. *)
Fixpoint updates (l : list (Z * Z)) (f : Z → Z) : Z → Z :=
  match l with
  | [] => f
  | (x, y) :: l => λ r, if r =? x then y else updates l f r
  end.

(** The value of a register whose field under [mask] is replaced. *)
Definition put_field (old mask v : Z) : Z := u8 (Z.lor (Z.land old (Z.lnot mask)) v).

(** What a setting of the MAX8997 makes of the registers: the voltage code,
    then the enable field. *)
Definition max8997_set (vol_addr enable_addr enable_pos level enable : Z) (f : Z → Z) : Z → Z :=
  let f := updates [(vol_addr, put_field (f vol_addr) 0x3F (Z.land level 0x3F))] f in
  updates [(enable_addr, put_field (f enable_addr) (Z.shiftl 1 enable_pos) (Z.shiftl enable enable_pos))] f.

Section settings_proofs.
Context {D : Type} `{!I2CDevice D, !I2CDeviceLaws D, !RegisterChip D, !RegisterChipLaws D}.
Context (other : Z → bool) (s0 : port D).
Implicit Types (f : Z → Z).

Notation has := (bus_has IIC0 s0).

Lemma EnableReg_spec e addr pos en s f :
  max8997_enable_field (D := D) e = ret (addr, pos) → in_u8 addr → has s 0xCC f →
  wp (I2C_MAX8997_EnableReg other e en)
     (λ _ s', has s' 0xCC
       (updates [(addr, put_field (f addr) (Z.shiftl 1 pos) (Z.shiftl en pos))] f)) s.
Proof.
  intros He Ha Hs. unfold I2C_MAX8997_EnableReg. rewrite He. apply wp_bind, wp_ret, wp_bind.
  eapply wp_mono; [by apply ERead_chip; auto with bus |]. intros v s' [-> Hs'].
  eapply wp_mono; [by apply (EWrite_chip other IIC0); [auto with bus | | | apply u8_range |] |].
  done.
Qed.

Lemma VolSetting_spec e addr addr' pos level en s f :
  max8997_vol_addr (D := D) e = ret addr → max8997_enable_field (D := D) e = ret (addr', pos) →
  in_u8 addr → in_u8 addr' → has s 0xCC f →
  wp (I2C_MAX8997_VolSetting other e level en)
     (λ _ s', has s' 0xCC (max8997_set addr addr' pos level en f)) s.
Proof.
  intros He He' Ha Ha' Hs. unfold I2C_MAX8997_VolSetting. rewrite He. apply wp_bind, wp_ret, wp_bind.
  eapply wp_mono; [by apply ERead_chip; auto with bus |]. intros v s' [-> Hs']. apply wp_bind.
  eapply wp_mono; [by apply (EWrite_chip other IIC0); [auto with bus | | | apply u8_range |] |].
  intros [] s'' Hs''. by apply EnableReg_spec.
Qed.

Lemma S5M8767_VolSetting_spec e addr level en s f :
  s5m8767_vol_addr (D := D) e = ret addr → in_u8 addr → has s 0xCC f →
  wp (I2C_S5M8767_VolSetting other e level en) (λ _ s', has s' 0xCC (updates [(addr, u8 level)] f)) s.
Proof.
  intros He Ha Hs. unfold I2C_S5M8767_VolSetting. rewrite He. apply wp_bind, wp_ret.
  rewrite land_255. by apply (EWrite_chip other IIC0); [auto with bus | | | apply u8_range |].
Qed.
End settings_proofs.

(** ** The set-up *)

(** The registers the set-up leaves in the chip with address [a] and registers
    [f] on bus 0.  A MAX8997 (0x77 in its first register) gets codes 22
    (650 mV + 22 x 25 mV = 1200 mV), 18 (1100 mV), 7 (750 mV + 7 x 50 mV =
    1100 mV) and 20 (800 mV + 20 x 50 mV = 1800 mV) with the outputs enabled, an
    S5M8767 (at most 5 there) codes 72 (650 mV + 72 x 6.25 mV = 1100 mV), 96
    (600 mV + 96 x 6.25 mV = 1200 mV) and 80 (1100 mV), a MAX77686, which has
    another address, 7 (1100 mV), 48 (600 mV + 48 x 12.5 mV = 1200 mV) and 40
    (1100 mV).  Any other chip is left alone. *)
Definition pmic_registers (a : Z) (f : Z → Z) : Z → Z :=
  if a =? 0xCC then
    if f 0 =? 0x77 then
      updates [(0x48, 0xC0 + 20);
               (0x2A, put_field (f 0x2A) 1 1); (0x2B, put_field (f 0x2B) 0x3F 7);
               (0x21, put_field (f 0x21) 1 1); (0x22, put_field (f 0x22) 0x3F 18);
               (0x18, put_field (f 0x18) 1 1); (0x19, put_field (f 0x19) 0x3F 22)] f
    else if f 0 <=? 5 then
      updates [(0x5A, 0x58); (0x47, 80); (0x3E, 80); (0x35, 96); (0x33, 72)] f
    else f
  else if a =? 0x12 then updates [(0x28, 40); (0x1E, 40); (0x14, 48); (0x11, 7)] f
  else f.

(** The memory voltage of a board with a MAX8997 is set on bus 3: 1100 mV is
    0x80 plus 33, the number of 10 mV steps above 770 mV. *)
Definition mif_registers (max8997 : bool) (a : Z) (f : Z → Z) : Z → Z :=
  if max8997 && (a =? 0xC0) then updates [(1, 0x80 + 33)] f else f.

(** The three lines that select the voltage of a MAX77686, on the low pins of
    GPL0, are made outputs and set to ones and zeros twice, zeros last; then the
    pins are inputs again. *)
Definition dvs_writes : list (Z * Z) :=
  [(0x110000c0, 0x11111111); (0x110000c4, 7); (0x110000c4, 0); (0x110000c4, 7); (0x110000c4, 0); (0x110000c0, 0)].

Lemma ldo14_register x : in_u8 x → put_field (put_field x 0x3F 20) 0x40 0xC0 = 0xC0 + 20.
Proof.
  intros Hx. apply Z.eqb_eq, (byte_forall (λ x, put_field (put_field x 0x3F 20) 0x40 0xC0 =? 212)); [| done].
  by vm_compute.
Qed.

Section init_proofs.
Context {D0 : Type} `{!I2CDevice D0, !I2CDeviceLaws D0, !RegisterChip D0, !RegisterChipLaws D0}.
Context {D3 : Type} `{!I2CDevice D3, !I2CDeviceLaws D3, !RegisterChip D3, !RegisterChipLaws D3}.
Context (other_d1 other_a1 : Z → bool).
Implicit Types s : pmic_state D0 D3.

Lemma wp_on_gpd1 {A} (c : prog (port D0) A) (P : A → port D0 → Prop) (Q : A → pmic_state D0 D3 → Prop) s :
  wp c P (gpd1 s) → (∀ a g, P a g → Q a (PmicState g (gpa1 s) (gpl0 s))) → wp (on_gpd1 c) Q s.
Proof. unfold wp, on_gpd1. destruct (c (gpd1 s)) as [[a g]|]; auto. Qed.

Lemma wp_on_gpa1 {A} (c : prog (port D3) A) (P : A → port D3 → Prop) (Q : A → pmic_state D0 D3 → Prop) s :
  wp c P (gpa1 s) → (∀ a g, P a g → Q a (PmicState (gpd1 s) g (gpl0 s))) → wp (on_gpa1 c) Q s.
Proof. unfold wp, on_gpa1. destruct (c (gpa1 s)) as [[a g]|]; auto. Qed.

Section branches.
Context (s0 : port D0) (s3 : port D3).

(** Both buses idle, with the registers of the chips on them, and the writes to
    GPL0 so far. *)
Definition both (a0 a3 : Z) (f0 f3 : Z → Z) (l : list (Z * Z)) s : Prop :=
  bus_has IIC0 s0 (gpd1 s) a0 f0 ∧ bus_has IIC3 s3 (gpa1 s) a3 f3 ∧ gpl0 s = l.

Lemma both_gpd1 (c : prog (port D0) unit) a0 a3 f0 f0' f3 l s :
  (∀ g, bus_has IIC0 s0 g a0 f0 → wp c (λ _ g', bus_has IIC0 s0 g' a0 f0') g) →
  both a0 a3 f0 f3 l s → wp (on_gpd1 c) (λ _, both a0 a3 f0' f3 l) s.
Proof. intros Hc (H0 & H3 & Hl). eapply wp_on_gpd1; [by apply Hc |]. by intros [] g Hg. Qed.

Lemma both_gpa1 (c : prog (port D3) unit) a0 a3 f0 f3 f3' l s :
  (∀ g, bus_has IIC3 s3 g a3 f3 → wp c (λ _ g', bus_has IIC3 s3 g' a3 f3') g) →
  both a0 a3 f0 f3 l s → wp (on_gpa1 c) (λ _, both a0 a3 f0 f3' l) s.
Proof. intros Hc (H0 & H3 & Hl). eapply wp_on_gpa1; [by apply Hc |]. by intros [] g Hg. Qed.

Lemma both_gpl0 x y a0 a3 f0 f3 l s :
  both a0 a3 f0 f3 l s → wp (write_gpl0 x y) (λ _, both a0 a3 f0 f3 (l ++ [(x, y)])) s.
Proof. intros (H0 & H3 & <-). done. Qed.

Lemma both_ext a0 a3 f0 f0' f3 f3' l s :
  both a0 a3 f0 f3 l s → (∀ r, f0 r = f0' r) → (∀ r, f3 r = f3' r) → both a0 a3 f0' f3' l s.
Proof.
  intros ((d & ? & ? & ? & E) & (d' & ? & ? & ? & E') & Hl) Hf Hf'. split_and!; [exists d | exists d' | done].
  - split_and!; [done.. |]. intros r. by rewrite E, Hf.
  - split_and!; [done.. |]. intros r. by rewrite E', Hf'.
Qed.

Lemma both_byte a0 a3 f0 f3 l s r : both a0 a3 f0 f3 l s → in_u8 (f0 r).
Proof. intros ((d & _ & Hr & _ & E) & _). rewrite <- E. by apply reg_byte. Qed.

(** The next setting on bus 0, by a lemma for it. *)
Ltac both_next s Hs lem :=
  apply wp_bind; eapply wp_mono;
  [ eapply both_gpd1; [| exact Hs]; let g := fresh in let Hg := fresh in
    intros g Hg; apply lem; done
  |]; clear dependent s; intros [] s Hs.

(** Compares two register files given by cases. *)
Ltac registers :=
  intros r; cbn;
  repeat match goal with |- context [r =? ?x] => destruct (Z.eqb_spec r x) as [-> |]; [cbn; try done |] end;
  try done.

Lemma set_max8997_spec a3 f0 f3 l s :
  f0 0 = 0x77 → both 0xCC a3 f0 f3 l s →
  wp (set_max8997 other_d1 other_a1 1200 1100 1100 1100 1800)
     (λ _, both 0xCC a3 (pmic_registers 0xCC f0) (mif_registers true a3 f3) l) s.
Proof.
  intros Hid Hs. pose proof (both_byte _ _ _ _ _ _ 0x48 Hs) as H48. unfold set_max8997.
  both_next s Hs (VolSetting_spec other_d1 s0 PMIC_BUCK1 0x19 0x18 0).
  both_next s Hs (VolSetting_spec other_d1 s0 PMIC_BUCK2 0x22 0x21 0).
  both_next s Hs (VolSetting_spec other_d1 s0 PMIC_BUCK3 0x2B 0x2A 0).
  both_next s Hs (VolSetting_spec other_d1 s0 PMIC_LDO14 0x48 0x48 6).
  eapply wp_mono.
  { eapply both_gpa1; [| exact Hs]. intros g Hg. apply (EWrite_chip other_a1 IIC3); [exact IIC3_ok | done.. | exact Hg]. }
  intros [] s' Hs'. eapply both_ext; [exact Hs' | |].
  - unfold pmic_registers. rewrite Hid. cbn [Z.eqb Pos.eqb]. registers. by apply ldo14_register.
  - intros r. unfold mif_registers, stored. change (Z.land MAX8952_ADDR 0xfe) with 0xC0.
    rewrite (Z.eqb_sym 0xC0). by destruct (a3 =? 0xC0).
Qed.

Lemma set_s5m8767_spec a3 f0 f3 l s :
  f0 0 ≤ 5 → both 0xCC a3 f0 f3 l s →
  wp (set_s5m8767 other_d1 1200 1100 1100 1100) (λ _, both 0xCC a3 (pmic_registers 0xCC f0) f3 l) s.
Proof.
  intros Hid Hs. unfold set_s5m8767.
  both_next s Hs (S5M8767_VolSetting_spec other_d1 s0 PMIC_BUCK1 0x33).
  both_next s Hs (S5M8767_VolSetting_spec other_d1 s0 PMIC_BUCK2 0x35).
  both_next s Hs (S5M8767_VolSetting_spec other_d1 s0 PMIC_BUCK3 0x3E).
  both_next s Hs (S5M8767_VolSetting_spec other_d1 s0 PMIC_BUCK4 0x47).
  eapply wp_mono.
  { eapply both_gpd1; [| exact Hs]. intros g Hg.
    apply (EWrite_chip other_d1 IIC0); [exact IIC0_ok | done.. | exact Hg]. }
  intros [] s' Hs'. eapply both_ext; [exact Hs' | | done].
  unfold pmic_registers. rewrite (proj2 (Z.eqb_neq (f0 0) 0x77)), (proj2 (Z.leb_le (f0 0) 5)) by lia. done.
Qed.

Lemma set_max77686_spec a0 a3 f0 f3 l s :
  (a0 = 0xCC → f0 0 ≠ 0x77 ∧ 5 < f0 0) → both a0 a3 f0 f3 l s →
  wp (set_max77686 other_d1 1200 1100 1100 1100)
    (λ _, both a0 a3 (pmic_registers a0 f0) f3 (l ++ dvs_writes)) s.
Proof.
  intros Hid Hs. unfold set_max77686.
  do 6 (apply wp_bind; eapply wp_mono; [exact (both_gpl0 _ _ _ _ _ _ _ _ Hs) |];
        clear dependent s; intros [] s Hs).
  rewrite <- !app_assoc in Hs. cbn [app] in Hs. fold dvs_writes in Hs.
  both_next s Hs (EWrite_chip (D := D0) other_d1 IIC0 IIC0_ok MAX77686_ADDR 0x11).
  both_next s Hs (EWrite_chip (D := D0) other_d1 IIC0 IIC0_ok MAX77686_ADDR 0x14).
  both_next s Hs (EWrite_chip (D := D0) other_d1 IIC0 IIC0_ok MAX77686_ADDR 0x1E).
  eapply wp_mono.
  { eapply both_gpd1; [| exact Hs]. intros g Hg.
    apply (EWrite_chip other_d1 IIC0); [exact IIC0_ok | done.. | exact Hg]. }
  intros [] s' Hs'. eapply both_ext; [exact Hs' | | done]. intros r. unfold pmic_registers, stored.
  change (Z.land MAX77686_ADDR 0xfe) with 0x12. rewrite (Z.eqb_sym 0x12).
  destruct (Z.eqb_spec a0 0xCC) as [-> |].
  - destruct (Hid eq_refl). rewrite (proj2 (Z.eqb_neq (f0 0) 0x77)), (proj2 (Z.leb_gt (f0 0) 5)) by lia. done.
  - by destruct (a0 =? 0x12).
Qed.

(** The branch taken is that of the chip found. *)
Lemma settings_spec a0 a3 f0 f3 l s v :
  v = fetched a0 MAX8997_ADDR 0 f0 → both a0 a3 f0 f3 l s →
  wp (if v =? 0x77 then set_max8997 other_d1 other_a1 1200 1100 1100 1100 1800
      else if (0 <=? v) && (v <=? 0x5) then set_s5m8767 other_d1 1200 1100 1100 1100
      else set_max77686 other_d1 1200 1100 1100 1100)
     (λ _, both a0 a3 (pmic_registers a0 f0)
                (mif_registers ((a0 =? 0xCC) && (f0 0 =? 0x77)) a3 f3)
                (l ++ if (a0 =? 0xCC) && ((f0 0 =? 0x77) || (f0 0 <=? 5)) then [] else dvs_writes)) s.
Proof.
  intros Hv Hs. pose proof (both_byte _ _ _ _ _ _ 0 Hs) as [Hlo _].
  unfold fetched in Hv. change (Z.land MAX8997_ADDR 0xfe) with 0xCC in Hv. rewrite Z.eqb_sym in Hv.
  destruct (Z.eqb_spec a0 0xCC) as [-> | Hne]; cbn [andb]; subst v.
  - destruct (Z.eqb_spec (f0 0) 0x77) as [E |]; cbn [orb]; [rewrite app_nil_r; by apply set_max8997_spec |].
    rewrite (proj2 (Z.leb_le 0 (f0 0))) by done. cbn [andb].
    destruct (Z.leb_spec (f0 0) 5); [rewrite app_nil_r; by apply set_s5m8767_spec | by apply set_max77686_spec].
  - cbn. by apply set_max77686_spec.
Qed.
End branches.

(** The pull-up and pull-down fields of two pins, the bits under [mask], are
    [v], and those of the other pins as before. *)
Definition pulls (mask v old new : Z) : Prop :=
  ∀ i, 0 ≤ i < 32 → Z.testbit new i = if Z.testbit mask i then Z.testbit v i else Z.testbit old i.

Lemma pulls_cleared mask old : pulls mask 0 old (u32 (Z.land old (not32 mask))).
Proof.
  intros i Hi. rewrite u32_testbit, Z.land_spec, not32_testbit, Z.testbit_0_l by lia.
  destruct (Z.testbit mask i); [apply andb_false_r | apply andb_true_r].
Qed.

Lemma pulls_set mask v old new : Z.land v mask = v → pulls mask 0 old new → pulls mask v old (u32 (Z.lor new v)).
Proof.
  intros Hv Ho i Hi. rewrite u32_testbit, Z.lor_spec, (Ho i Hi), <- Hv, !Z.land_spec, Z.testbit_0_l by lia.
  destruct (Z.testbit mask i); cbn; [by rewrite andb_true_r | by rewrite andb_false_r, orb_false_r].
Qed.

(** The whole set-up, whichever chip is found. *)
Lemma pmic_init_spec s :
  lines_high IIC0 (gpd1 s) → lines_high IIC3 (gpa1 s) →
  chip_ready (dev (gpd1 s)) → chip_ready (dev (gpa1 s)) →
  let d0 := dev (gpd1 s) in
  let d3 := dev (gpa1 s) in
  let max8997 := (chip_address d0 =? 0xCC) && (chip_reg d0 0 =? 0x77) in
  let s5m8767 := (chip_address d0 =? 0xCC) && (chip_reg d0 0 <=? 5) in
  wp (pmic_init other_d1 other_a1) (λ _ s',
    chip_after d0 (dev (gpd1 s')) (pmic_registers (chip_address d0) (chip_reg d0)) ∧
    chip_after d3 (dev (gpa1 s')) (mif_registers max8997 (chip_address d3) (chip_reg d3)) ∧
    gpl0 s' = gpl0 s ++ (if max8997 || s5m8767 then [] else dvs_writes) ∧
    pulls 0x0f 0 (pud (gpd1 s)) (pud (gpd1 s')) ∧ pulls 0xf0 0x50 (pud (gpa1 s)) (pud (gpa1 s')) ∧
    lines_high IIC0 (gpd1 s') ∧ lines_high IIC3 (gpa1 s') ∧
    keeps_pins IIC0 (gpd1 s) (gpd1 s') ∧ keeps_pins IIC3 (gpa1 s) (gpa1 s')) s.
Proof.
  intros Hl0 Hl3 Hr0 Hr3 d0 d3 max8997 s5m8767.
  unfold pmic_init. cbn [pm_vdd_value].
  apply wp_bind. eapply wp_on_gpd1; [by apply (ESetport_chip (D := D0) other_d1 IIC0); auto with bus |].
  intros [] g0 Hg0. apply wp_bind.
  eapply wp_on_gpa1; [by apply (ESetport_chip (D := D3) other_a1 IIC3); auto with bus |].
  intros [] g3 Hg3. cbn [gpd1 gpa1 gpl0] in *.
  apply wp_bind. eapply wp_on_gpd1; [by apply (ERead_chip (D := D0) other_d1 IIC0); auto with bus |].
  intros v g0' [Hv Hg0']. cbn [gpd1 gpa1 gpl0] in *.
  assert (both _ _ _ _ _ _ _ (PmicState g0' g3 (gpl0 s))) as Hb by exact (conj Hg0' (conj Hg3 eq_refl)).
  pose proof (settings_spec _ _ _ _ _ _ _ _ v Hv Hb) as Hw.
  apply wp_bind. eapply wp_mono; [exact Hw |].
  intros [] s' (H0' & H3' & Hl). apply bus_has_after in H0' as (Ha0 & Hl0' & Hk0 & Hp0).
  apply bus_has_after in H3' as (Ha3 & Hl3' & Hk3 & Hp3).
  cbn [pud gpl0] in Hp0, Hp3, Hl. change (Z.shiftl 15 0) with 0x0f in Hp0. change (Z.shiftl 15 4) with 0xf0 in Hp3.
  apply (wp_on_gpa1 _ (λ _ g, g = Port (con (gpa1 s')) (dat (gpa1 s'))
    (u32 (Z.lor (pud (gpa1 s')) 0x50)) (dev (gpa1 s')))); [done |].
  intros [] g ->. cbn [gpd1 gpa1 gpl0 con dat pud dev].
  split_and!; try done.
  - rewrite Hl. unfold max8997, s5m8767, d0. by rewrite andb_orb_distrib_r.
  - rewrite Hp0. apply pulls_cleared.
  - rewrite Hp3. by apply pulls_set, pulls_cleared.
Qed.

(** C29: [pmic_init] finds the power management chip on bus 0 and sets its
    voltages, for every chip but the MAX8997, with which a second chip on
    bus 3 is used: from pins that are not pulled down, with chips that follow the
    register interface on both buses, it terminates, the chip on bus 0 has the
    registers of [pmic_registers] for its kind, every other register of it and all
    registers of a chip on bus 3 are as before.  For a MAX77686, or
    if no chip is found, the selection lines on GPL0 get the values of
    [dvs_writes] in that order; for an S5M8767 GPL0 is not written.  The pins
    of bus 0 are left without a resistor, those of bus 3 with the resistors of
    their reset value, and the resistors of the other pins are kept.  The buses
    are left idle, and the other pins of the two ports keep their direction and
    what they output. *)
Theorem pmic_init_correct s :
  lines_high IIC0 (gpd1 s) → lines_high IIC3 (gpa1 s) →
  chip_ready (dev (gpd1 s)) → chip_ready (dev (gpa1 s)) →
  let d0 := dev (gpd1 s) in
  let d3 := dev (gpa1 s) in
  (chip_address d0 =? 0xCC) && (chip_reg d0 0 =? 0x77) = false →
  wp (pmic_init other_d1 other_a1) (λ _ s',
    chip_after d0 (dev (gpd1 s')) (pmic_registers (chip_address d0) (chip_reg d0)) ∧
    chip_after d3 (dev (gpa1 s')) (chip_reg d3) ∧
    gpl0 s' = gpl0 s ++ (if (chip_address d0 =? 0xCC) && (chip_reg d0 0 <=? 5) then [] else dvs_writes) ∧
    pulls 0x0f 0 (pud (gpd1 s)) (pud (gpd1 s')) ∧ pulls 0xf0 0x50 (pud (gpa1 s)) (pud (gpa1 s')) ∧
    lines_high IIC0 (gpd1 s') ∧ lines_high IIC3 (gpa1 s') ∧
    keeps_pins IIC0 (gpd1 s) (gpd1 s') ∧ keeps_pins IIC3 (gpa1 s) (gpa1 s')) s.
Proof.
  intros Hl0 Hl3 Hr0 Hr3 d0 d3 Hno. pose proof (pmic_init_spec s Hl0 Hl3 Hr0 Hr3) as Hw. cbv zeta in Hw.
  fold d0 d3 in Hw. rewrite Hno in Hw. exact Hw.
Qed.
End init_proofs.

(** The set-up of a board with a MAX77686 (address 0x12) on bus 0 and a
    MAX8952 on bus 3: the code for 1200 mV is in register 0x14. *)
Definition example_board : pmic_state chip chip :=
  PmicState (Port 0 0 0x55 (Chip 0x12 (λ _, 0) 0 Idle 0 0 false))
            (Port 0 0 0x555 (Chip 0xC0 (λ _, 0) 0 Idle 0 0 false)) [].

Lemma pmic_init_correct_witness :
  wp (pmic_init (λ _, true) (λ _, true)) (λ _ s',
    chip_reg (dev (gpd1 s')) 0x14 = 48 ∧ chip_reg (dev (gpd1 s')) 0x15 = 0 ∧ gpl0 s' = dvs_writes) example_board.
Proof.
  eapply wp_mono.
  - apply (pmic_init_correct (λ _, true) (λ _, true) example_board);
      first [by vm_compute | by repeat split].
  - intros u s' (Ha & _ & Hl & _). split_and!; [apply Ha | apply Ha | exact Hl].
Defined.
